(* ===== verification/_CoqProject ===== *)
-Q . S2P
Prelude.v
Paths.v
Manifest.v
Conformance.v
Registry.v
CallContext.v
Gateway.v
ContextCarriage.v
Lease.v
StateLease.v
Reconciler.v
Loop.v
ArrowTicket.v
DeployRuntime.v
Metrics.v
Supervisor.v
Plane.v
Rewire.v
Inflight.v
Control.v
Admin.v
StatePlugin.v
CatalogPlugin.v
StoragePlugin.v
EnginePlugin.v
FormatPlugin.v
Marketplace.v
Project.v
Validate.v
Command.v
Net.v
Daemon.v
Running.v
Directory.v
Contexts.v
Lifecycle.v
Hub.v
Sdk.v
RuntimePlugin.v
InmemoryStorage.v
Base64.v
Redeem.v
PluginTool.v
Axes.v
Authoring.v
Scaffold.v
Flags.v
Client.v
Apply.v
Surface.v
ControlClient.v
MarketPublish.v
Cli.v
Bench.v
TestServices.v
Auditor.v
Replicas.v
Verbs.v
Entry.v
Edit.v
Services.v
