(* ===== verification/Prelude.v ===== *)
(** * A verification library for the rat platform

    rat is a control plane for data platforms built from plugins.  A daemon loads a plane,
    launches or attaches its plugins, and mediates every call a plugin makes to another:
    a call names a capability, the gateway decides whether the caller may make it and who
    serves it, relays opaque frames, and audits what happened.  This library models the Go
    code of the daemon's core and of its reference plugins, one file per component, and
    proves what each component promises.

    ** The parts and how they interact

    A plane file becomes plugin specs (Plane), whose manifests (Manifest) carry the
    capabilities a plugin provides and requires.  The manifests, optionally with
    attestations (Conformance), make a registry (Registry).  The gateway (Gateway) decides
    and routes calls over the registry, reading the caller's envelope (CallContext) or the
    bearer token of the plugin door.  The reconciler (Reconciler) drives a deployment
    runtime (DeployRuntime) towards the desired set, while it leads a lease (Lease,
    StateLease), pass after pass (Loop), also when several replicas share the state plugin as the
    lease's backend (Replicas); what it binds and unbinds reaches the gateway through the
    rewire (Rewire), while calls are in flight (Inflight).
    The supervisor (Supervisor) is the one-shot way to assemble a plane.  The control
    service (Control) changes the running plane: registry, reconciler, token table and
    routes together; what holds of the plane from its boot on is in Running, and what its
    clients see of it is what they would see of a plain directory of plugins (Directory).  The decisions
    are recorded in the audit log (Auditor).  The contract of the envelope, with its
    reference and its vectors, is ContextCarriage.  Bulk data flows outside the gateway under single-use tickets
    (ArrowTicket), which producers may share through the state plugin (Redeem).  The reference plugins (StatePlugin, CatalogPlugin, StoragePlugin,
    EnginePlugin, FormatPlugin) implement the axes the core relies on, and start where their
    runtime tells them to (Entry); TestServices are the doubles of the composition tests,
    Bench the latency benchmark.

    Around the core are the commands a user runs, which one binary dispatches (Cli).  A
    project is started, validated and shown by the verbs of Verbs; its file is edited by adding
    and removing plugins (Project, and end to end in Edit), whose requirements are resolved against marketplace indexes
    (Marketplace); a loaded plane is checked without booting it (Validate), and booted by
    the daemon (Daemon), which assembles the components above; one daemon runs per project
    and publishes itself in the machine's registry (Lifecycle), over which the hub routes
    calls to workspaces (Hub).  A client finds where to connect (Contexts), parses its
    flags (Flags) and dispatches the commands that plugins contribute (Command), issues one
    call (Client), ships a project (Apply) or runs a contributed component (Surface).  After
    an edit of its project, a running daemon is told (ControlClient).  The lease backend, the
    metrics endpoint and what the hub says of itself are in Services.  A plugin's author
    scaffolds and watches a plugin (Authoring, Scaffold), tests, packs and publishes it (PluginTool),
    against the axes the binary links (Axes); the plugin calls back through the helper
    library (Sdk).

    Interfaces between components are type classes: [Lease.Backend] (what an elector
    needs of a lease store; implemented by the in-process store and by the state-backed
    one), [Reconciler.DeploymentRuntime] (what the reconciler and the supervisor need of a
    runtime; implemented by podman and by local processes), [ArrowTicket.SingleUseStore]
    with its laws (what a minter needs; implemented in memory and over a shared backend).

    ** Files, sources and state

    - Prelude: this file.  Errors as values (a wrapped format string and its arguments, a
      gRPC status, a sentinel), [result], 64-bit integers as [Z] with [wrap64], Go's
      functions on byte strings, sorting, and the lemmas and hints the files share.
    - Paths: the lexical part of [path/filepath], with a normal form for paths.
    - Manifest: src/core/manifest/manifest.go.  The capability grammar as a scanner,
      validation, loading a directory.
    - Conformance: src/core/conformance/attestation.go.  Canonical bytes, signing, expiry,
      revocation.
    - Registry: src/core/registry/registry.go, verified.go.  State: manifests by name and
      providers by capability.  Order of provider slices is abstracted by a setoid.
    - CallContext, Gateway: src/core/gateway/gateway.go.  State: registry, provider
      connections, capability routes, token table; the outside world is the record of
      audit entries, observations and relayed calls.
    - Lease: src/core/lease/lease.go.  A candidate's step is a tree of lease-store
      operations, so that candidates interleave operation by operation.
    - StateLease: src/core/lease/statestore.go, src/core/cmd/rat/lease.go.  The lease over
      compare-and-set on one key whose unconfirmed writes may land arbitrarily late.
    - Loop: src/core/reconciler/loop.go.  State: the lease, and for each replica whether it
      waits, is electing or is making a pass.
    - Replicas: the replicas of Loop over one store of StatePlugin, with the JSON of the lease
      record (src/core/lease/statestore.go) down to its bytes.
    - Reconciler: src/core/reconciler/reconciler.go, one tick of loop.go.  State: desired set, status
      per plugin, published view, runtime; launches, terminations and rewire notifications
      are recorded as events.
    - ArrowTicket: src/core/arrowticket/arrowticket.go, statecas/statecas.go.
    - Redeem: the minters of arrowticket.go whose store is statecas.go over StatePlugin, with
      base64 written out.  State: the plugin's store and the attempts so far.
    - DeployRuntime: src/core/deploymentruntime/isolation.go, podman.go, localprocess.go.
    - Metrics: src/core/metrics/metrics.go.
    - Supervisor: src/core/supervisor/supervisor.go.
    - Plane: src/core/cmd/rat/plane.go.
    - Rewire: src/core/cmd/rat/rewire.go.
    - Inflight: rewire.go and the calls of gateway.go that run meanwhile.  State: the gateway, the
      connections, the connection a notification has still to close, the calls in flight.
    - Control: src/core/cmd/rat/control.go.
    - StatePlugin, CatalogPlugin, StoragePlugin, EnginePlugin, FormatPlugin:
      src/plugins/state/inmemory-go, catalog/inmemory-go, storage/localfs-go,
      engine/inmemory-go, format/inmemory-go.
    - Marketplace: src/core/cmd/rat/marketplace.go, signing.go.  State: the cache of
      downloaded indexes, a map from path to contents.
    - MarketPublish: the commands of marketplace.go and signing.go.  State: the files, the
      configuration among them.
    - Project: src/core/cmd/rat/project.go, resolver.go, and the part of marketplace.go that
      writes a project.  State: the project's files, a map from path to contents.
    - Validate: src/core/cmd/rat/validate.go and the checks of plugin.go, over the methods
      that the linked descriptors declare.
    - Command: src/core/client/command.go and the descriptor lookups of client.go.  A
      request message is a map from field paths to scalars.
    - Net: [net.SplitHostPort] and [net.ParseIP] of the Go library.
    - Daemon: src/core/cmd/rat/main.go.  The state of a booted plane is that of Control;
      the serving process is the trace of what it opens, publishes and closes.
    - Running: the booted plane over the passes of the loop and the calls of the control
      service; no code of its own.
    - Directory: the abstract specification of that plane, a map of manifests and the set
      of launched plugins, and its refinement; no code of its own.
    - ContextCarriage: src/contracts/conformance/context-carriage, the program and its vectors.
    - Auditor: src/core/cmd/rat/auditor.go, the sinks of main.go, and the encoder of
      encoding/json for the records it is given.  State: what was written to each sink.
    - Cli: the dispatch and the help screens of main.go and plugin.go, the dispatch of
      client.go, src/core/cmd/ratctl/main.go.
    - Verbs: rat serve, rat validate, rat init, rat status and the start of a background
      daemon: main.go, validate.go, project.go, lifecycle.go.
    - Edit: rat add and rat remove of project.go, with flags, live control and report.
    - Services: lease.go, metrics.go and the banner of hub.go of src/core/cmd/rat, the listings
      of src/core/client.
    - Entry: the main functions under src/plugins and src/core/testplugins, and the serving
      half of src/contracts/sdks/go/ratplugin/plugin.go.
    - TestServices: src/core/testplugins/catalogsvc, formatsvc, probeplugin.
    - Bench: src/plugins/bench/latency-go.
    - Contexts: src/core/client/context.go, findProject of src/core/cmd/rat/project.go.
    - Lifecycle: src/core/cmd/rat/lifecycle.go, projectDaemonAddr of control_client.go.
      State: the pid files and the registry of instances, kept decoded.
    - Hub: src/core/cmd/rat/hub.go.  State: the pool of connections.
    - Sdk: src/contracts/sdks/go/ratplugin/plugin.go.
    - RuntimePlugin: src/plugins/runtime/inmemory-go; fractions are double precision numbers.
    - InmemoryStorage: src/plugins/storage/inmemory-go.
    - Base64: encoding/base64 of the Go library, which images and signatures use.
    - PluginTool: the test, pack and publish verbs of src/core/cmd/rat/plugin.go, over the
      host of DeployRuntime, whose log holds every command podman was given.
    - Axes: src/core/cmd/rat/descriptors.go and capabilities.go, and the methods of
      src/contracts/proto as the descriptors the binary links.
    - Scaffold: the texts rat plugin init writes, per language.
    - Authoring: rat plugin init and check of plugin.go, and plugindev.go.  State of the watch: the
      last digest of the directory.
    - Flags: the flag package of the Go library as the client uses it, and
      parseWithPositional of client.go.
    - Client: calls of src/core/client/client.go; the trace of a call is what was sent.
    - Apply: rat apply of client.go.  A directory is a tree of entries.
    - Surface: src/core/client/ui.go.
    - ControlClient: src/core/cmd/rat/control_client.go and listen of main.go.

    Definitions keep the names of the source, a method [T.m] as [T_m]; a record field is
    prefixed where two records share it.  Mutexes delimit atomic steps: a method that holds
    its lock throughout is one function; where the source releases a lock or calls out, the
    model has a step of its own (the reconcile pass over a copied desired set, the lease
    operations, the passes between two looks of a waiting registration).

    ** What the theorems show

    - Identity and authorisation: the plugin door fixes the caller; selection allows a call
      exactly when the caller is authorised and one provider serves it; every call and
      stream is audited; removed tokens and plugins are gone.
    - Invariants: the registry's two indexes, the reconciler's view and routes, the gateway
      following the reconciler's notifications without leaking connections; a notification
      cuts only the calls in flight to the plugin it is about.
    - The running plane: from a boot on, through passes and live changes, a call reaches the
      one provider the registry selects, at the endpoint the reconciler reports.
    - Safety under interleaving: one leader, in memory and over a shared backend, and one
      converging replica while leases last, over the reference state plugin and the bytes it stores; a ticket
      redeemed once, by whichever producer and whatever answers get lost; a merge applied once; every container under the isolation profile.
    - Liveness and termination: two passes bring a plane up over a working runtime, the
      crash-loop cap bounds launches, the relay and all waits end.
    - Refinement: the reference state backend gives only answers that the backend of the
      lease protocol may give; the daemon, seen by its clients, is a directory of plugins; an
      on-line registration is all or nothing.
    - Booting: a launch-mode boot ends, comes up as the plane describes or is torn down
      without a leak; a plane that passes the strict preflight is not refused; the serving
      process releases what it acquires; one daemon per project; the dry run agrees with the
      gates, and a background daemon serves what was checked.
    - Audit: the log reads back, record by record, whatever the texts hold.
    - The envelope: the reference accepts only what the core vouched for, all its vectors
      pass, and the gateway hands on what the reference accepts as the reference does.
    - Edges: the hub relays only what it authenticated and resolved, verbatim, and binds off
      the host only with TLS and an identity provider; a pinned marketplace is used only
      under its key, and what its publisher signed is accepted; removing a plugin touches no file outside the project's manifests.
    - Plugin tooling: an image is pushed only after it came up under the isolation profile
      and served what it declares; what is packed is what is read back; the route table and
      the check of the tools agree; a scaffolded plugin passes the check; a command that
      passes the check is reached by its name; a launched plugin listens where its runtime
      says.
    - Clients: a call is sent with exactly the envelope and metadata its flags and the
      enclosing context determine; the archive of a project holds its files and no others;
      after an edit a running daemon is told what the project declares.
    - Commands: dependency resolution settles; the longest contributed command matches; the
      arguments of a checked command bind; profiles stay consistent.
    - Round trips: selectors, tickets, label values, environment references, mini-SQL,
      command arguments, integers, adding and removing a plugin, base64,
      the manifest stamped into an image, a signed index.
    - Findings: theorems that exhibit a behaviour the source did not intend; each says so.

    ** Bounds and fuel

    Integers wrap at 64 bits; statements that need a counter not to wrap say so.  The
    stream relay recurses on the events of the stream; the waits carry fuel, derived from
    the timeout and the pause of a round ([Supervisor.wait_fuel]) and proved
    enough for every clock that advances by that pause.  String trimming uses the length
    of the string, every round of which removes a byte.  Dependency resolution carries one
    round more than there are marketplace entries, each round but the last adding one.  The
    walk to an enclosing project carries one round per path component and one for the root.
    All other recursion is structural.

    ** Outside the model

    Parameters, because their code is third-party or the environment: YAML, JSON (other
    than that of audit and lease records, which is written out) and protobuf codecs, ed25519 and HMAC, gRPC dialling and transport, the podman command, the
    operating system and file system, clocks and random tokens.  Where a theorem relies on
    one, the assumption is a hypothesis of the theorem (a round trip of a codec, an
    injective encoding, a clock that advances).

    Not modelled, and why: log lines and most of what is printed to the terminal (it is not
    read back; the reports, listings and banners that state something are modelled);
    the readings of the clock that the benchmark takes; the message types that the protobuf
    compiler generates, of which the records the components use stand in the files that use
    them; plugins and user interfaces in other languages.  Passthrough codecs and the
    in-memory auditor of the tests carry no decision. *)
From Stdlib Require Export ZArith Lia Ascii.
From Stdlib Require String.
From stdpp Require Export base gmap strings list fin_maps sorting option pretty.
From stdpp Require Export ssreflect.

Open Scope Z_scope.

(** ** Tactics of the development *)

(** Split every [match]/[if] of the goal or of a hypothesis, keeping equations. *)
Ltac case_match_in H :=
  match type of H with
  | context [ match ?x with _ => _ end ] => destruct x eqn:?
  end.

Ltac cases_in H := repeat (case_match_in H; simplify_eq/=).

(** Turn boolean tests into propositions everywhere. *)
Ltac bool_to_prop :=
  repeat match goal with
  | H : (_ && _)%bool = true |- _ => apply andb_true_iff in H as [? ?]
  | H : (_ && _)%bool = false |- _ => apply andb_false_iff in H
  | H : (_ || _)%bool = true |- _ => apply orb_true_iff in H
  | H : (_ || _)%bool = false |- _ => apply orb_false_iff in H as [? ?]
  | H : negb _ = true |- _ => apply negb_true_iff in H
  | H : negb _ = false |- _ => apply negb_false_iff in H
  | H : (_ <? _)%Z = true |- _ => apply Z.ltb_lt in H
  | H : (_ <? _)%Z = false |- _ => apply Z.ltb_ge in H
  | H : (_ <=? _)%Z = true |- _ => apply Z.leb_le in H
  | H : (_ <=? _)%Z = false |- _ => apply Z.leb_gt in H
  | H : (_ =? _)%Z = true |- _ => apply Z.eqb_eq in H
  | H : (_ =? _)%Z = false |- _ => apply Z.eqb_neq in H
  | H : bool_decide _ = true |- _ => apply bool_decide_eq_true in H
  | H : bool_decide _ = false |- _ => apply bool_decide_eq_false in H
  end.

Create HintDb rat.

(** ** Results and errors

    A Go function returning [(T, error)] is modelled by [result T].  An error
    carries its format string and the (already rendered) string arguments, not
    the interpolated text: two errors are equal iff they were built from the same
    template and arguments.  [Wrap] is [%w]: [errors_Is] looks through it. *)
Inductive code : Set :=
  | Canceled | Unknown | InvalidArgument | DeadlineExceeded | NotFound
  | PermissionDenied | FailedPrecondition | Unimplemented | Internal
  | Unavailable | Unauthenticated.

#[export] Instance code_eq_dec : EqDecision code.
Proof. solve_decision. Defined.

Inductive error : Set :=
  | Errorf (fmt : string) (args : list string)
  | Wrap (fmt : string) (args : list string) (inner : error)
  | Status (c : code) (fmt : string) (args : list string)
  | StatusWrap (c : code) (fmt : string) (args : list string) (inner : error)
  | ContextCanceled
  | ContextDeadlineExceeded
  | EOF
  | Sentinel (name : string).

#[export] Instance error_eq_dec : EqDecision error.
Proof. solve_decision. Defined.

Inductive result (A : Type) : Type :=
  | Ok (a : A)
  | Err (e : error).
Arguments Ok {A} a.
Arguments Err {A} e.

#[export] Instance result_eq_dec {A} `{EqDecision A} : EqDecision (result A).
Proof. solve_decision. Defined.

Declare Scope go_scope.
Delimit Scope go_scope with go.

Definition result_bind {A B} (r : result A) (k : A -> result B) : result B :=
  match r with Ok a => k a | Err e => Err e end.

Notation "'let?' x ':=' r 'in' k" := (result_bind r (fun x => k))
  (at level 10, x pattern, r at level 100, k at level 200) : go_scope.
Open Scope go_scope.

Definition is_Ok {A} (r : result A) : bool :=
  match r with Ok _ => true | Err _ => false end.

Lemma result_bind_Ok {A B} (r : result A) (k : A -> result B) b :
  result_bind r k = Ok b <-> exists a, r = Ok a /\ k a = Ok b.
Proof. destruct r; simpl; naive_solver. Qed.

(** Map a fallible function over a list, stopping at the first error. *)
Fixpoint result_map {A B} (f : A -> result B) (l : list A) : result (list B) :=
  match l with
  | [] => Ok []
  | x :: l' => let? y := f x in let? ys := result_map f l' in Ok (y :: ys)
  end.

Lemma result_map_Forall2 {A B} (f : A -> result B) l ys :
  result_map f l = Ok ys <-> Forall2 (fun x y => f x = Ok y) l ys.
Proof.
  revert ys. induction l as [|x l IH]; intros ys; simpl.
  - split; [by intros [= <-]|by inversion 1].
  - rw result_bind_Ok. setoid_rewrite result_bind_Ok. split.
    + intros (y & Hy & ys' & Hys & [= <-]). constructor; [done|]. by apply IH.
    + inversion 1; subst. eexists; split; [done|]. eexists; split; [by apply IH|done].
Qed.

(** The first error of a list of checks ([nil] = no error), as in Go's chains of
    [if err := check(); err != nil { return err }]. *)
Fixpoint first_error (cs : list (option error)) : option error :=
  match cs with
  | [] => None
  | Some e :: _ => Some e
  | None :: cs' => first_error cs'
  end.

Lemma first_error_None cs : first_error cs = None <-> Forall (fun c => c = None) cs.
Proof.
  induction cs as [|[e|] cs IH]; simpl; [done| |].
  - split; [done|]. by inversion 1.
  - rw IH. split; [by constructor|by inversion 1].
Qed.

(** [errors.Is]: identity along the [%w] chain; a gRPC status does not unwrap. *)
Fixpoint errors_Is (e target : error) : bool :=
  bool_decide (e = target) ||
  match e with
  | Wrap _ _ i => errors_Is i target
  | _ => false
  end.

Inductive wraps (t : error) : error -> Prop :=
  | wraps_self : wraps t t
  | wraps_inner f args i : wraps t i -> wraps t (Wrap f args i).

Lemma errors_Is_wraps e t : errors_Is e t = true <-> wraps t e.
Proof.
  split.
  - induction e as [|f a i IH| | | | | |]; cbn [errors_Is]; intros H; apply orb_true_iff in H as [H|H];
      try (apply bool_decide_eq_true in H as <-; constructor); try discriminate H. constructor. by apply IH.
  - induction 1 as [|f a i _ IH]; [by destruct t; cbn [errors_Is]; rewrite bool_decide_eq_true_2|].
    cbn [errors_Is]. by rewrite IH orb_true_r.
Qed.

(** [status.Code]: the gRPC code an error carries ([Unknown] for a plain error). *)
Fixpoint status_Code (e : error) : code :=
  match e with
  | Status c _ _ | StatusWrap c _ _ _ => c
  | Wrap _ _ i => status_Code i
  | _ => Unknown
  end.

(** ** Machine integers *)

(** Two's-complement truncation to 64 bits, the value range of Go's [int64]. *)
Definition wrap64 (z : Z) : Z := (z + 2^63) mod 2^64 - 2^63.

Definition in_int64 (z : Z) : Prop := -2^63 <= z < 2^63.

Lemma wrap64_range z : in_int64 (wrap64 z).
Proof.
  unfold in_int64, wrap64.
  pose proof (Z.mod_pos_bound (z + 2^63) (2^64) ltac:(lia)). lia.
Qed.

Lemma wrap64_id z : in_int64 z -> wrap64 z = z.
Proof. unfold in_int64, wrap64. intros H. rw Z.mod_small; lia. Qed.

Lemma wrap64_mod z : wrap64 z mod 2^64 = z mod 2^64.
Proof.
  unfold wrap64. rw Zminus_mod_idemp_l. f_equal. lia.
Qed.

(** [x << n] on an [int64] with a non-negative shift count. *)
Definition shl64 (x n : Z) : Z := wrap64 (x * 2^n).

(** ** Byte strings: the functions of package [strings] the source uses *)

Definition len (s : string) : Z := Z.of_nat (String.length s).

Definition HasPrefix (s p : string) : bool := String.prefix p s.

Fixpoint str_rev_app (s acc : string) : string :=
  match s with "" => acc | String a s => str_rev_app s (String a acc) end.
Definition str_rev (s : string) : string := str_rev_app s "".

Definition HasSuffix (s p : string) : bool := String.prefix (str_rev p) (str_rev s).

(** Drop the first [n] bytes, [s[n:]]. *)
Fixpoint str_drop (n : nat) (s : string) : string :=
  match n, s with
  | O, _ => s
  | S n, String _ s => str_drop n s
  | S _, "" => ""
  end.

Definition TrimPrefix (s p : string) : string :=
  if HasPrefix s p then str_drop (String.length p) s else s.

Definition TrimSuffix (s p : string) : string :=
  if HasSuffix s p then str_rev (str_drop (String.length p) (str_rev s)) else s.

(** [strings.CutPrefix]. *)
Definition CutPrefix (s p : string) : string * bool :=
  if HasPrefix s p then (str_drop (String.length p) s, true) else (s, false).

(** [strings.Split] on a one-byte separator: never empty. *)
Fixpoint Split (c : ascii) (s : string) : list string :=
  match s with
  | "" => [""]
  | String a s' =>
      if decide (a = c) then "" :: Split c s'
      else match Split c s' with
           | [] => [String a ""]
           | w :: ws => String a w :: ws
           end
  end.

(** [strings.Cut] at the first occurrence of a one-byte separator. *)
Fixpoint Cut (c : ascii) (s : string) : string * string * bool :=
  match s with
  | "" => ("", "", false)
  | String a s' =>
      if decide (a = c) then ("", s', true)
      else let '(k, v, ok) := Cut c s' in (String a k, v, ok)
  end.

Definition Join (l : list string) (sep : string) : string := String.concat sep l.

(** [strings.Contains]. *)
Fixpoint Contains (s sub : string) : bool :=
  HasPrefix s sub ||
  match s with "" => false | String _ s' => Contains s' sub end.

(** [strings.IndexByte], [-1] when absent. *)
Fixpoint IndexByte (s : string) (c : ascii) : Z :=
  match s with
  | "" => -1
  | String a s' =>
      if decide (a = c) then 0
      else let i := IndexByte s' c in if i <? 0 then -1 else i + 1
  end.

(** The byte sequences of the runes [unicode.IsSpace] accepts, in UTF-8. *)
Definition byte_of (n : nat) : ascii := ascii_of_nat n.
Definition bytes (l : list nat) : string := fold_right (fun n s => String (byte_of n) s) "" l.

Definition newline : string := bytes [10]%nat.

Definition space_runes : list string :=
  (bytes <$> [[9]; [10]; [11]; [12]; [13]; [32]; [194; 133]; [194; 160];
              [225; 154; 128]; [226; 128; 168]; [226; 128; 169]; [226; 128; 175];
              [226; 129; 159]; [227; 128; 128]])%nat
  ++ ((fun n => bytes [226; 128; n]%nat) <$> seq 128 11).

Definition strip_space (s : string) : option string :=
  match list_find (fun r => Is_true (HasPrefix s r)) space_runes with
  | Some (_, r) => Some (str_drop (String.length r) s)
  | None => None
  end.

Fixpoint trim_left_fuel (n : nat) (s : string) : string :=
  match n with
  | O => s
  | S n => match strip_space s with Some s' => trim_left_fuel n s' | None => s end
  end.

(** The same from the end: the reversed string starts with a reversed rune. *)
Definition strip_space_rev (s : string) : option string :=
  match list_find (fun r => Is_true (HasPrefix s (str_rev r))) space_runes with
  | Some (_, r) => Some (str_drop (String.length r) s)
  | None => None
  end.

Fixpoint trim_right_fuel (n : nat) (s : string) : string :=
  match n with
  | O => s
  | S n => match strip_space_rev s with Some s' => trim_right_fuel n s' | None => s end
  end.

(** [strings.TrimSpace]; every round removes at least one byte, so the length of
    the string is enough fuel. *)
Definition TrimSpace (s : string) : string :=
  let l := trim_left_fuel (String.length s) s in
  str_rev (trim_right_fuel (String.length l) (str_rev l)).

(** [strings.Fields]: the maximal space-free words. *)
Fixpoint fields_fuel (n : nat) (cur : string) (s : string) : list string :=
  let flush := if decide (cur = "") then [] else [str_rev cur] in
  match n with
  | O => flush
  | S n =>
      match strip_space s with
      | Some s' => flush ++ fields_fuel n "" s'
      | None => match s with
                | "" => flush
                | String a s' => fields_fuel n (String a cur) s'
                end
      end
  end.
Definition Fields (s : string) : list string := fields_fuel (String.length s) "" s.

(** [strings.ToLower] on ASCII letters; every other byte is kept. *)
Definition lower_byte (a : ascii) : ascii :=
  let n := nat_of_ascii a in
  if (65 <=? n)%nat && (n <=? 90)%nat then ascii_of_nat (n + 32) else a.
Fixpoint str_map (f : ascii -> ascii) (s : string) : string :=
  match s with "" => "" | String a s => String (f a) (str_map f s) end.

Fixpoint str_forall (P : ascii -> bool) (s : string) : bool :=
  match s with "" => true | String a s => P a && str_forall P s end.

(** [sort.Strings]. *)
Definition sort_strings (l : list string) : list string := merge_sort String.le l.

(** [strconv.Itoa] / [%d]. *)
Definition itoa (z : Z) : string := pretty z.

(** The keys of a Go map in the order a [sort.Strings] gives them. *)
Definition sorted_keys {V} (m : gmap string V) : list string :=
  sort_strings (map_to_list m).*1.

Example TrimSpace_example :
  TrimSpace (bytes [32; 194; 160; 97; 32; 98; 227; 128; 128; 10]%nat) = "a b".
Proof. reflexivity. Qed.
Example Fields_example : Fields "  branch	create  x" = ["branch"; "create"; "x"].
Proof. reflexivity. Qed.
Example Split_example : Split "," "a,b,,c" = ["a"; "b"; ""; "c"].
Proof. reflexivity. Qed.
Example Cut_example : Cut "=" "k=v=w" = ("k", "v=w", true).
Proof. reflexivity. Qed.
Example sort_example : sort_strings ["b"; "a"; "B"; ""] = [""; "B"; "a"; "b"].
Proof. reflexivity. Qed.
Example suffix_example : HasSuffix "x.duckdb" ".duckdb" = true /\ TrimSuffix "a/" "/" = "a".
Proof. by vm_compute. Qed.

(** Equal by evaluation. *)
Ltac evaluated := match goal with |- ?l = ?r => exact (eq_refl r <: l = r) end.

(** ** Lemmas on byte strings *)

Lemma str_app_cons a u v : String a u +:+ v = String a (u +:+ v).
Proof. reflexivity. Qed.
Lemma str_app_nil v : "" +:+ v = v.
Proof. reflexivity. Qed.
Lemma str_app_nil_r u : u +:+ "" = u.
Proof. induction u; [done|]. rw str_app_cons. congruence. Qed.
Lemma str_app_assoc u v w : (u +:+ v) +:+ w = u +:+ (v +:+ w).
Proof. induction u; [done|]. rw !str_app_cons. congruence. Qed.
Lemma str_app_inj_r u v w : u +:+ v = u +:+ w -> v = w.
Proof. apply (inj (String.app u)). Qed.

Lemma str_length_app u v : String.length (u +:+ v) = (String.length u + String.length v)%nat.
Proof. induction u; [done|]. rw str_app_cons. simpl. lia. Qed.

Lemma HasPrefix_cons a s b p : HasPrefix (String a s) (String b p) = bool_decide (a = b) && HasPrefix s p.
Proof.
  unfold HasPrefix. cbn [String.prefix]. destruct (ascii_dec b a) as [->|Hne]; [by rw bool_decide_true|].
  by rw bool_decide_false.
Qed.

Lemma HasPrefix_app p r : HasPrefix (p +:+ r) p = true.
Proof.
  unfold HasPrefix. induction p as [|a p IH]; [by destruct r|].
  rw str_app_cons. simpl. destruct (ascii_dec a a); [done|congruence].
Qed.

Lemma HasPrefix_true s p : HasPrefix s p = true <-> exists r, s = p +:+ r.
Proof.
  split; [|intros [r ->]; apply HasPrefix_app].
  unfold HasPrefix. revert s. induction p as [|a p IH]; intros s; simpl; [by exists s|].
  destruct s as [|c s]; simpl; [done|]. destruct (ascii_dec a c) as [->|]; [|done].
  intros [r ->]%IH. exists r. done.
Qed.

Lemma str_drop_app p r : str_drop (String.length p) (p +:+ r) = r.
Proof. induction p as [|a p IH]; [done|]. exact IH. Qed.

Lemma str_rev_app_spec s acc : str_rev_app s acc = str_rev s +:+ acc.
Proof.
  unfold str_rev. revert acc.
  induction s as [|a s IH]; intros acc; simpl; [done|].
  rw IH (IH (String a "")). by rw str_app_assoc.
Qed.
Lemma str_rev_cons a s : str_rev (String a s) = str_rev s +:+ String a "".
Proof. unfold str_rev at 1. simpl. apply str_rev_app_spec. Qed.
Lemma str_rev_app_distr u v : str_rev (u +:+ v) = str_rev v +:+ str_rev u.
Proof.
  induction u as [|a u IH]; [by rw str_app_nil str_app_nil_r|].
  by rw str_app_cons !str_rev_cons IH str_app_assoc.
Qed.
Lemma str_rev_involutive s : str_rev (str_rev s) = s.
Proof.
  induction s as [|a s IH]; [done|].
  by rw str_rev_cons str_rev_app_distr IH.
Qed.

Lemma str_forall_app P u v : str_forall P (u +:+ v) = str_forall P u && str_forall P v.
Proof. induction u; [done|]. rw str_app_cons. simpl. by rw IHu andb_assoc. Qed.

(** Occurrence of a byte. *)
Definition no_byte (c : ascii) (s : string) : bool := str_forall (fun a => negb (bool_decide (a = c))) s.

Lemma no_byte_app c u v : no_byte c (u +:+ v) = no_byte c u && no_byte c v.
Proof. apply str_forall_app. Qed.

Lemma Split_no_byte c s : no_byte c s = true -> Split c s = [s].
Proof.
  unfold no_byte. induction s as [|a s IH]; simpl; [done|]. intros H. bool_to_prop.
  rw decide_False //. by rw IH.
Qed.

Lemma Split_app c u v :
  no_byte c u = true -> Split c (u +:+ String c v) = u :: Split c v.
Proof.
  unfold no_byte. induction u as [|a u IH]; simpl; intros H.
  - by case_decide.
  - bool_to_prop. rw decide_False //. by rw IH.
Qed.

Lemma Split_not_nil c s : Split c s <> [].
Proof. destruct s; simpl; [done|]. case_decide; [done|]. by destruct (Split c s). Qed.

(** Separator-terminated encodings parse back uniquely. *)
Lemma sep_app_inj c u v u' v' :
  no_byte c u = true -> no_byte c u' = true ->
  u +:+ String c v = u' +:+ String c v' -> u = u' /\ v = v'.
Proof.
  unfold no_byte. revert u'.
  induction u as [|a u IH]; intros [|a' u'] Hu Hu' H; simpl in *; bool_to_prop.
  - by simplify_eq.
  - by simplify_eq.
  - by simplify_eq.
  - simplify_eq. edestruct IH; [done..|]. by subst.
Qed.

Lemma Cut_app c u v :
  no_byte c u = true -> Cut c (u +:+ String c v) = (u, v, true).
Proof.
  unfold no_byte. induction u as [|a u IH]; simpl; intros H.
  - by case_decide.
  - bool_to_prop. rw decide_False //. by rw IH.
Qed.

Lemma Cut_spec c s k v :
  Cut c s = (k, v, true) -> s = k +:+ String c v /\ no_byte c k = true.
Proof.
  unfold no_byte. revert k v. induction s as [|a s IH]; intros k v; simpl; [done|].
  case_decide as Ha; [intros [= <- <-]; by subst|].
  destruct (Cut c s) as [[k' v'] ok] eqn:E. intros [= <- <- ->].
  destruct (IH _ _ eq_refl) as [-> ?]. rw str_app_cons. split; [done|].
  simpl. by rw bool_decide_eq_false_2.
Qed.

(** ** Lemmas on sorting and maps *)

Lemma sort_strings_Permutation l : sort_strings l ≡ₚ l.
Proof. apply merge_sort_Permutation. Qed.

Lemma elem_of_sort_strings x l : x ∈ sort_strings l <-> x ∈ l.
Proof. by rw sort_strings_Permutation. Qed.

Lemma sort_strings_length l : length (sort_strings l) = length l.
Proof. by rw sort_strings_Permutation. Qed.

(** Sorting forgets the order of its input: Go's random map iteration followed by
    [sort.Strings] is deterministic. *)
Lemma sort_strings_perm l1 l2 : l1 ≡ₚ l2 -> sort_strings l1 = sort_strings l2.
Proof.
  intros H. apply (StronglySorted_unique String.le).
  - apply StronglySorted_merge_sort; apply _.
  - apply StronglySorted_merge_sort; apply _.
  - by rw !sort_strings_Permutation.
Qed.

#[export] Instance sort_strings_Proper : Proper ((≡ₚ) ==> eq) sort_strings.
Proof. intros l1 l2. apply sort_strings_perm. Qed.

Lemma elem_of_sorted_keys {V} (m : gmap string V) k :
  k ∈ sorted_keys m <-> is_Some (m !! k).
Proof.
  unfold sorted_keys. rw elem_of_sort_strings list_elem_of_fmap. split.
  - intros ([k' v] & -> & H%elem_of_map_to_list). eauto.
  - intros [v H]. exists (k, v). by rw elem_of_map_to_list.
Qed.

Lemma sorted_keys_NoDup {V} (m : gmap string V) : NoDup (sorted_keys m).
Proof. unfold sorted_keys. rw sort_strings_Permutation. apply NoDup_fst_map_to_list. Qed.

#[export] Hint Rewrite @elem_of_sort_strings @elem_of_sorted_keys : rat.

(** ** Lemmas on lists *)

Lemma filter_all {A} (P : A -> Prop) `{!forall x, Decision (P x)} l :
  Forall P l -> filter P l = l.
Proof. induction 1 as [|x l Hx _ IH]; [done|]. by rw filter_cons_True // IH. Qed.

Lemma filter_none {A} (P : A -> Prop) `{!forall x, Decision (P x)} l :
  Forall (fun x => ~ P x) l -> filter P l = [].
Proof. induction 1 as [|x l Hx _ IH]; [done|]. by rw filter_cons_False. Qed.

(** ** Lemmas on white space *)

(** A byte that belongs to no space rune survives trimming. *)
Definition not_space_byte (c : ascii) : Prop := Forall (fun r => no_byte c r = true) space_runes.

#[export] Instance not_space_byte_dec c : Decision (not_space_byte c).
Proof. unfold not_space_byte. apply _. Defined.

Lemma no_byte_rev c s : no_byte c (str_rev s) = no_byte c s.
Proof.
  induction s as [|a s IH]; [done|]. rw str_rev_cons no_byte_app IH andb_comm.
  unfold no_byte. simpl. by rw andb_true_r.
Qed.

Lemma strip_no_byte c (f : string -> string) s s' :
  not_space_byte c -> (forall r, no_byte c (f r) = no_byte c r) ->
  (forall r, String.length (f r) = String.length r) ->
  match list_find (fun r => Is_true (HasPrefix s (f r))) space_runes with
  | Some (_, r) => Some (str_drop (String.length r) s)
  | None => None
  end = Some s' -> no_byte c s' = no_byte c s.
Proof.
  intros Hc Hf Hl. destruct (list_find _ _) as [[i r]|] eqn:E; [|done]. intros [= <-].
  apply list_find_Some in E as (Hr & Hp & _). apply Is_true_true, HasPrefix_true in Hp as [t ->].
  unfold not_space_byte in Hc. rw Forall_lookup in Hc.
  by rw -Hl str_drop_app no_byte_app Hf (Hc _ _ Hr).
Qed.

Lemma str_rev_length s : String.length (str_rev s) = String.length s.
Proof.
  induction s as [|a s IH]; [done|]. rw str_rev_cons str_length_app IH. simpl. lia.
Qed.

Lemma trim_left_no_byte c n s : not_space_byte c -> no_byte c (trim_left_fuel n s) = no_byte c s.
Proof.
  intros Hc. revert s. induction n as [|n IH]; intros s; [done|]. simpl.
  destruct (strip_space s) eqn:E; [|done]. rw IH. by apply (strip_no_byte c (fun r => r)) in E.
Qed.

Lemma trim_right_no_byte c n s : not_space_byte c -> no_byte c (trim_right_fuel n s) = no_byte c s.
Proof.
  intros Hc. revert s. induction n as [|n IH]; intros s; [done|]. simpl.
  destruct (strip_space_rev s) eqn:E; [|done]. rw IH.
  apply (strip_no_byte c str_rev) in E; auto using no_byte_rev, str_rev_length.
Qed.

Lemma TrimSpace_no_byte c s : not_space_byte c -> no_byte c (TrimSpace s) = no_byte c s.
Proof. intros Hc. unfold TrimSpace. by rw no_byte_rev trim_right_no_byte // no_byte_rev trim_left_no_byte. Qed.

(** ** Decimal rendering *)

(** Only digits and the minus sign occur in a rendered number. *)
Definition numeral_byte (c : ascii) : bool :=
  bool_decide (c = "-"%char) || ((48 <=? nat_of_ascii c)%nat && (nat_of_ascii c <=? 57)%nat).

Lemma pretty_N_char_numeral x : numeral_byte (pretty_N_char x) = true.
Proof. destruct x as [|p]; [done|]. do 4 (destruct p as [p|p|]; try done). Qed.

Lemma pretty_N_go_numeral x s :
  str_forall numeral_byte s = true -> str_forall numeral_byte (pretty_N_go x s) = true.
Proof.
  revert s. induction (N.lt_wf_0 x) as [x _ IH]; intros s Hs.
  destruct (decide (x = 0%N)) as [->|Hx]; [by rw pretty_N_go_0|].
  rw pretty_N_go_step; [|lia]. apply IH; [apply N.div_lt; lia|]. simpl.
  by rw Hs pretty_N_char_numeral.
Qed.

Lemma itoa_numeral z : str_forall numeral_byte (itoa z) = true.
Proof.
  assert (forall n : N, str_forall numeral_byte (pretty n) = true) as HN.
  { intros n. unfold pretty, pretty_N. case_decide; [done|by apply pretty_N_go_numeral]. }
  unfold itoa, pretty, pretty_Z. destruct z as [|p|p]; [apply (HN 0%N)|apply (HN (N.pos p))|].
  exact (HN (N.pos p)).
Qed.

Lemma str_forall_no_byte P c s : str_forall P s = true -> P c = false -> no_byte c s = true.
Proof.
  intros Hs Hc. unfold no_byte. induction s as [|a s IH]; [done|]. simpl in *. bool_to_prop.
  rw IH // andb_true_r bool_decide_eq_false_2 //. congruence.
Qed.

Lemma itoa_no_byte c z : numeral_byte c = false -> no_byte c (itoa z) = true.
Proof. apply str_forall_no_byte, itoa_numeral. Qed.

Lemma itoa_nonempty z : itoa z <> "".
Proof.
  unfold itoa, pretty, pretty_Z.
  assert (forall n : N, @pretty N _ n <> "") as HN.
  { intros n. unfold pretty, pretty_N. case_decide as Hn; [done|].
    rw pretty_N_go_step; [|lia]. 
    assert (forall x s, s <> "" -> pretty_N_go x s <> "") as Hgo.
    { intros x. induction (N.lt_wf_0 x) as [x _ IH]; intros s Hs.
      destruct (decide (x = 0%N)) as [->|Hx]; [by rw pretty_N_go_0|].
      rw pretty_N_go_step; [|lia]. apply IH; [apply N.div_lt; lia|done]. }
    by apply Hgo. }
  destruct z as [|p|p]; [apply (HN 0%N)|apply (HN (N.pos p))|done].
Qed.

Lemma filter_length_mono {A} (P Q : A -> Prop) `{!forall x, Decision (P x)} `{!forall x, Decision (Q x)} (l : list A) :
  (forall x, P x -> Q x) -> (length (filter P l) <= length (filter Q l))%nat.
Proof.
  intros HPQ. induction l as [|x l IH]; [done|]. rw !filter_cons.
  destruct (decide (P x)) as [Hx|], (decide (Q x)) as [|Hy]; simpl; try lia. by destruct Hy; apply HPQ.
Qed.

Lemma filter_length_lt {A} (P Q : A -> Prop) `{!forall x, Decision (P x)} `{!forall x, Decision (Q x)} (l : list A) x :
  (forall x, P x -> Q x) -> x ∈ l -> ~ P x -> Q x -> (length (filter P l) < length (filter Q l))%nat.
Proof.
  intros HPQ Hx HP HQ. apply list_elem_of_split in Hx as (l1 & l2 & ->).
  rw !filter_app !filter_cons !length_app. rw (decide_False _ _ HP) (decide_True _ _ HQ) /=.
  pose proof (filter_length_mono P Q l1 HPQ). pose proof (filter_length_mono P Q l2 HPQ). lia.
Qed.

(** The double quote, which the string literals here avoid. *)
Definition dq : string := bytes [34%nat].

(** [strings.ReplaceAll] of one byte. *)
Fixpoint ReplaceByte (c : ascii) (by_ : string) (s : string) : string :=
  match s with
  | "" => ""
  | String a s' => if decide (a = c) then by_ +:+ ReplaceByte c by_ s' else String a (ReplaceByte c by_ s')
  end.

(** ** Trimming leaves a text without outer spaces alone *)

Definition graphic (a : ascii) : bool := (33 <=? nat_of_ascii a)%nat && (nat_of_ascii a <=? 127)%nat.
Definition starts (P : ascii -> bool) (s : string) : bool := match s with String a _ => P a | "" => false end.

Lemma not_prefix P s r : starts P s = true -> starts (fun a => negb (P a)) r = true -> HasPrefix s r = false.
Proof.
  destruct s as [|a s], r as [|b r]; try done. cbn [starts]. intros Ha Hb. apply not_true_iff_false. intros E.
  apply HasPrefix_true in E as [u [= -> _]]. by rewrite Ha in Hb.
Qed.

Lemma no_rune (f : string -> string) s :
  starts graphic s = true -> forallb (fun r => starts (fun a => negb (graphic a)) (f r)) space_runes = true ->
  list_find (fun r => Is_true (HasPrefix s (f r))) space_runes = None.
Proof.
  intros Hs Hf. apply list_find_None. apply Forall_forall. intros r Hr.
  rewrite forallb_forall in Hf. rewrite (not_prefix graphic) //; [by intros []|]. apply Hf. by apply list_elem_of_In.
Qed.

Lemma TrimSpace_graphic s : starts graphic s = true -> starts graphic (str_rev s) = true -> TrimSpace s = s.
Proof.
  intros H1 H2. assert (forall n, trim_left_fuel n s = s) as Hl.
  { intros [|n]; [done|]. simpl. unfold strip_space. by rewrite (no_rune (fun r => r) s). }
  assert (forall n, trim_right_fuel n (str_rev s) = str_rev s) as Hr.
  { intros [|n]; [done|]. simpl. unfold strip_space_rev. by rewrite (no_rune str_rev (str_rev s)). }
  unfold TrimSpace. by rewrite Hl Hr str_rev_involutive.
Qed.

(** What a line holds is read back without its end. *)
Lemma TrimSpace_line s :
  starts graphic s = true -> starts graphic (str_rev s) = true -> TrimSpace (s +:+ newline) = s.
Proof.
  intros H1 H2. assert (forall n, trim_left_fuel n (s +:+ newline) = s +:+ newline) as Hl.
  { intros [|n]; [done|]. simpl. unfold strip_space. rewrite (no_rune (fun r => r)) //. by destruct s. }
  assert (forall n, trim_right_fuel (S n) (str_rev (s +:+ newline)) = str_rev s) as Hr.
  { intros n. rewrite str_rev_app_distr. change (str_rev newline +:+ str_rev s) with (newline +:+ str_rev s).
    assert (strip_space_rev (newline +:+ str_rev s) = Some (str_rev s)) as E by by destruct (str_rev s).
    cbn [trim_right_fuel]. rewrite E. destruct n as [|n]; [done|]. cbn [trim_right_fuel]. unfold strip_space_rev. by rewrite (no_rune str_rev (str_rev s)). }
  unfold TrimSpace. rewrite Hl str_length_app Nat.add_comm. change (String.length newline + String.length s)%nat with (S (String.length s)).
  by rewrite Hr str_rev_involutive.
Qed.

Lemma starts_mono (P Q : ascii -> bool) s : (forall a, P a = true -> Q a = true) -> starts P s = true -> starts Q s = true.
Proof. destruct s; simpl; auto. Qed.

Lemma str_forall_rev P s : str_forall P (str_rev s) = str_forall P s.
Proof. induction s as [|a s IH]; [done|]. rw str_rev_cons str_forall_app IH. simpl. by rw andb_true_r andb_comm. Qed.

(** A decimal number is trimmed to itself. *)
Lemma TrimSpace_itoa z : TrimSpace (itoa z) = itoa z.
Proof.
  assert (forall s, s <> "" -> str_forall numeral_byte s = true -> starts graphic s = true) as Hs.
  { intros [|a s] Hn Hf; [done|]. simpl in *. apply andb_true_iff in Hf as [Ha _].
    revert Ha. destruct a as [[] [] [] [] [] [] [] []]; vm_compute; congruence. }
  apply TrimSpace_graphic; apply Hs; try apply itoa_nonempty; try apply itoa_numeral.
  - intros E. apply (itoa_nonempty z). by rw -(str_rev_involutive (itoa z)) E.
  - by rw str_forall_rev itoa_numeral.
Qed.
