(* ===== verification/Paths.v ===== *)
(** The lexical functions of [path/filepath] (Unix) the program uses: [Clean],
    [Join], [Rel], [Dir], [Base], [IsAbs].  A path is split into components once,
    normalised on a stack of components, and printed back. *)
From S2P Require Import Prelude.

Record path := mkPath { rooted : bool; comps : list string }.

(** One component of [Clean], the stack top first: empty and [.] components are
    dropped, [..] pops a real component, is kept where a relative path cannot be
    popped, and is dropped at the root. *)
Definition push (r : bool) (st : list string) (c : string) : list string :=
  if decide (c = "" \/ c = ".") then st
  else if decide (c = "..") then
    match st with
    | [] => if r then [] else [".."]
    | top :: st' => if decide (top = "..") then c :: st else st'
    end
  else c :: st.

Definition norm (r : bool) (cs : list string) : list string :=
  rev (fold_left (push r) cs []).

Definition is_rooted (s : string) : bool := HasPrefix s "/".

Definition parse_path (s : string) : path :=
  mkPath (is_rooted s) (norm (is_rooted s) (Split "/" s)).

Definition path_string (p : path) : string :=
  let body := Join (comps p) "/" in
  if rooted p then "/" +:+ body else if decide (comps p = []) then "." else body.

Definition Clean (s : string) : string := path_string (parse_path s).

Definition IsAbs (s : string) : bool := is_rooted s.

(** [filepath.Join] ignores leading empty elements, then cleans the joined path. *)
Fixpoint skip_empty (es : list string) : list string :=
  match es with
  | e :: es' => if decide (e = "") then skip_empty es' else es
  | [] => []
  end.

Definition filepath_Join (elems : list string) : string :=
  match skip_empty elems with
  | [] => ""
  | es => Clean (Join es "/")
  end.

(** The longest common prefix of two component lists, dropped from both. *)
Fixpoint drop_common (bs ts : list string) : list string * list string :=
  match bs, ts with
  | b :: bs', t :: ts' => if decide (b = t) then drop_common bs' ts' else (bs, ts)
  | _, _ => (bs, ts)
  end.

(** The components [filepath.Rel] walks over: those of the cleaned path, where a
    target of [.] is itself a component and a base of [.] has none. *)
Definition targ_comps (p : path) : list string :=
  if decide (comps p = [] /\ rooted p = false) then ["."] else comps p.

Definition Rel (basepath targpath : string) : result string :=
  let base := parse_path basepath in
  let targ := parse_path targpath in
  let cannot := Err (Errorf "Rel: can't make %s relative to %s" [targpath; basepath]) in
  if decide (path_string targ = path_string base) then Ok "."
  else if negb (eqb (rooted base) (rooted targ)) then cannot
  else
    let '(bs, ts) := drop_common (comps base) (targ_comps targ) in
    match bs with
    | ".." :: _ => cannot
    | [] => Ok (Join ts "/")
    | _ => Ok (Join (((fun _ => "..") <$> bs) ++ ts) "/")
    end.

(** The text before and after the last slash (both without it). *)
Definition split_last (s : string) : string * string :=
  match rev (Split "/" s) with
  | [] => ("", "")
  | b :: ds => (Join (rev ds) "/", b)
  end.

(** [filepath.Dir] keeps the slash that ends the directory before cleaning. *)
Definition Dir (s : string) : string :=
  match IndexByte s "/" with
  | -1 => "."
  | _ => Clean ((split_last s).1 +:+ "/")
  end.

Fixpoint trim_slashes (n : nat) (s : string) : string :=
  match n with
  | O => s
  | S n => if HasSuffix s "/" then trim_slashes n (TrimSuffix s "/") else s
  end.

Definition Base (s : string) : string :=
  if decide (s = "") then "."
  else let t := trim_slashes (String.length s) s in
       if decide (t = "") then "/" else (split_last t).2.

Example Clean_ex : Clean "/srv/../a//b/./c/.." = "/a/b" /\ Clean "a/../../b" = "../b"
  /\ Clean "" = "." /\ Clean "/.." = "/".
Proof. by vm_compute. Qed.
Example Join_ex : filepath_Join ["/srv"; "t"; "../x"] = "/srv/x" /\ filepath_Join ["/srv"; ""] = "/srv".
Proof. by vm_compute. Qed.
Example Rel_ex : Rel "/srv/t" "/srv/t/a/b" = Ok "a/b" /\ Rel "/srv/t" "/srv" = Ok ".."
  /\ Rel "/srv/t" "/srv/u" = Ok "../u" /\ Rel "/" "/a" = Ok "a".
Proof. by vm_compute. Qed.
Example Dir_ex : Dir "/a/b" = "/a" /\ Dir "b" = "." /\ Dir "/a" = "/" /\ Base "/a/b/" = "b"
  /\ Base "///" = "/".
Proof. by vm_compute. Qed.

(** ** Facts about normalised paths *)

Definition real_comp (c : string) : Prop := c <> "" /\ c <> "." /\ no_byte "/" c = true.

(** A stack of components: real ones, with [..] only at the bottom and only in a
    relative path. *)
Fixpoint good_stack (r : bool) (st : list string) : Prop :=
  match st with
  | [] => True
  | c :: st' =>
      real_comp c /\
      (c = ".." -> r = false /\ Forall (fun c' => c' = "..") st') /\ good_stack r st'
  end.

Lemma push_good r st c :
  no_byte "/" c = true -> good_stack r st -> good_stack r (push r st c).
Proof.
  intros Hc Hst. unfold push. case_decide as H1; [done|].
  assert (real_comp c) by (unfold real_comp; naive_solver).
  case_decide as H2; [subst|by split_and!].
  destruct st as [|top st]; [destruct r; simpl; [done|naive_solver]|].
  case_decide as H3; [|by destruct Hst as (_ & _ & ?)]. subst.
  destruct Hst as (? & Hd & ?). destruct (Hd eq_refl). simpl.
  split_and!; try done. intros _. split; [done|]. by constructor.
Qed.

Lemma norm_good r cs :
  Forall (fun c => no_byte "/" c = true) cs -> good_stack r (rev (norm r cs)).
Proof.
  unfold norm. rw rev_involutive. assert (good_stack r []) as Hst by done.
  revert Hst. generalize (@nil string) as st.
  induction cs as [|c cs IH]; intros st Hst Hcs; simpl; [done|].
  inversion Hcs; subst. by apply IH; [apply push_good|].
Qed.

Lemma Split_no_sep c s : Forall (fun w => no_byte c w = true) (Split c s).
Proof.
  induction s as [|a s IH]; simpl; [by constructor|].
  case_decide as Ha; [by constructor|].
  destruct (Split c s) as [|w ws]; inversion IH; subst; constructor; try done.
  - unfold no_byte; simpl. by rw bool_decide_eq_false_2.
  - unfold no_byte in *; simpl. by rw bool_decide_eq_false_2.
Qed.

Lemma parse_path_good s : good_stack (rooted (parse_path s)) (rev (comps (parse_path s))).
Proof. apply norm_good, Split_no_sep. Qed.

Lemma good_stack_app r l1 l2 : good_stack r (l1 ++ l2) -> good_stack r l2.
Proof. induction l1; simpl; [done|]. intros (_ & _ & ?). auto. Qed.

Lemma good_stack_real r st : good_stack r st -> Forall real_comp st.
Proof. induction st; simpl; constructor; naive_solver. Qed.

Lemma push_noop r st c : good_stack r (c :: st) -> push r st c = c :: st.
Proof.
  intros ((Hc & Hc' & _) & Hd & _). unfold push.
  rw decide_False; last naive_solver. case_decide as H2; [|done]. subst.
  destruct (Hd eq_refl) as [-> Hall].
  destruct Hall as [|top st ->]; [done|]. simpl. by try case_decide.
Qed.

Lemma norm_id r cs : good_stack r (rev cs) -> norm r cs = cs.
Proof.
  unfold norm. intros H.
  enough (forall pre post, cs = pre ++ post -> fold_left (push r) post (rev pre) = rev cs) as HH.
  { rw (HH [] cs eq_refl). apply rev_involutive. }
  intros pre post. revert pre. induction post as [|c post IH]; intros pre Heq; simpl.
  - by rw Heq app_nil_r.
  - rw push_noop.
    + rw -(rev_unit pre c). apply IH. by rw Heq -app_assoc.
    + rw Heq rev_app_distr /= -app_assoc in H. exact (good_stack_app _ _ _ H).
Qed.

Lemma Split_Join c cs :
  cs <> [] -> Forall (fun w => no_byte c w = true) cs -> Split c (Join cs (String c "")) = cs.
Proof.
  unfold Join. induction cs as [|w cs IH]; intros Hne Hall; [done|].
  inversion Hall; subst. destruct cs as [|w' cs]; [by apply Split_no_byte|].
  change (String.concat (String c "") (w :: w' :: cs))
    with (w +:+ (String c "" +:+ String.concat (String c "") (w' :: cs))).
  rw str_app_cons Split_app //. f_equal. by apply IH.
Qed.

Lemma real_no_slash cs : Forall real_comp cs -> Forall (fun w => no_byte "/" w = true) cs.
Proof. intros H. apply (Forall_impl _ _ _ H). by intros ? (_ & _ & ?). Qed.

Lemma Join_rooted cs : cs <> [] -> Forall real_comp cs -> is_rooted (Join cs "/") = false.
Proof.
  destruct cs as [|w cs]; [done|]. intros _ Hall. inversion Hall as [|?? (Hne & _ & Hw)]; subst.
  destruct w as [|a w]; [done|]. unfold no_byte in Hw; simpl in Hw. bool_to_prop.
  destruct cs; unfold Join, is_rooted, HasPrefix; simpl; by case_match.
Qed.

Lemma parse_path_string p :
  good_stack (rooted p) (rev (comps p)) -> parse_path (path_string p) = p.
Proof.
  destruct p as [r cs]. unfold parse_path, path_string; simpl. intros Hg.
  pose proof (good_stack_real _ _ Hg) as Hr. apply Forall_rev in Hr. rw rev_involutive in Hr.
  destruct r.
  - assert (is_rooted ("/" +:+ Join cs "/") = true) as -> by apply HasPrefix_app.
    f_equal. change ("/" +:+ Join cs "/") with ("" +:+ String "/" (Join cs "/")).
    rw Split_app //. destruct (decide (cs = [])) as [->|Hne]; [done|].
    rw Split_Join //; last by apply real_no_slash.
    rewrite <- (norm_id true cs Hg) at 2. done.
  - case_decide as Hc; [by subst|]. rw Join_rooted //.
    rw Split_Join //; last by apply real_no_slash. by rw norm_id.
Qed.

Lemma path_string_inj p q :
  good_stack (rooted p) (rev (comps p)) -> good_stack (rooted q) (rev (comps q)) ->
  path_string p = path_string q -> p = q.
Proof. intros Hp Hq H. by rw -(parse_path_string p) // H parse_path_string. Qed.

(** ** Containment *)

Lemma drop_common_spec bs ts bs' ts' :
  drop_common bs ts = (bs', ts') -> exists pre, bs = pre ++ bs' /\ ts = pre ++ ts'.
Proof.
  revert ts. induction bs as [|b bs IH]; intros ts; simpl; [intros [= <- <-]; by exists []|].
  destruct ts as [|t ts]; [intros [= <- <-]; by exists []|].
  case_decide; [|intros [= <- <-]; by exists []]. subst.
  intros (pre & -> & ->)%IH. by exists (t :: pre).
Qed.

(** A relative path that leaves its base, as the program tests it. *)
Definition climbs (rel : string) : bool :=
  bool_decide (rel = "..") || HasPrefix rel "../".

Lemma Join_climbs cs : climbs (Join (".." :: cs) "/") = true.
Proof. destruct cs as [|c cs]; [done|]. unfold climbs. apply orb_true_iff. right. apply (HasPrefix_app "../"). Qed.

(** [p] lies in the tree rooted at [b]: it extends [b] by real components only. *)
Definition inside (b p : path) : Prop :=
  rooted b = rooted p /\ exists rest, comps p = comps b ++ rest /\ Forall (fun c => c <> "..") rest.

Lemma good_dots_below r a b :
  good_stack r (rev (a ++ ".." :: b)) -> Forall (fun c => c = "..") a.
Proof.
  rw rev_app_distr /= -app_assoc. intros (_ & Hd & _)%good_stack_app.
  destruct (Hd eq_refl) as [_ Ha]. apply Forall_rev in Ha. by rw rev_involutive in Ha.
Qed.

Lemma good_no_dots r base rest :
  good_stack r (rev (base ++ rest)) -> hd_error rest <> Some ".." -> Forall (fun c => c <> "..") rest.
Proof.
  destruct rest as [|c0 rest]; [constructor|]. intros Hg Hhd. constructor; [by intros ->|].
  apply Forall_forall. intros c Hin ->. apply Hhd. simpl. f_equal.
  apply list_elem_of_split in Hin as (l1 & l2 & ->).
  replace (base ++ c0 :: l1 ++ ".." :: l2) with ((base ++ c0 :: l1) ++ ".." :: l2) in Hg
    by by rw -app_assoc.
  apply good_dots_below in Hg. apply Forall_app in Hg as [_ Hg]. by inversion Hg.
Qed.

Lemma Rel_inside b t rel :
  Rel b t = Ok rel -> climbs rel = false -> inside (parse_path b) (parse_path t).
Proof.
  unfold Rel. pose proof (parse_path_good b) as Hb. pose proof (parse_path_good t) as Ht.
  generalize dependent (parse_path b). generalize dependent (parse_path t).
  intros q Hq p Hp. case_decide as Heq.
  { intros _ _. apply path_string_inj in Heq as <-; try done. split; [done|].
    exists []. by rw app_nil_r. }
  destruct (eqb (rooted p) (rooted q)) eqn:Er; simpl; [|done]. apply eqb_prop in Er.
  destruct (drop_common (comps p) (targ_comps q)) as [bs ts] eqn:Ed.
  apply drop_common_spec in Ed as (pre & E1 & E2).
  destruct bs as [|b0 bs].
  - intros [= <-] Hc. split; [done|]. rw app_nil_r in E1.
    unfold targ_comps in E2. case_decide as Hdot.
    + destruct Hdot as [E0 E3]. exfalso. destruct pre as [|? [|]]; simplify_eq.
      * destruct Heq. destruct p, q; simpl in *; congruence.
      * rw E1 in Hp. simpl in Hp. unfold real_comp in Hp. by injection E2; naive_solver.
    + exists ts. rw E1 E2. split; [done|].
      apply (good_no_dots (rooted q) pre); [by rw -E2|].
      destruct ts as [|t0 ts]; [done|]. simpl. intros [= ->]. by rw Join_climbs in Hc.
  - intros H Hc. exfalso. destruct (decide (b0 = "..")) as [->|Hb0]; [done|].
    assert (Ok rel = Ok (Join (".." :: ((fun _ => "..") <$> bs) ++ ts) "/")) as [= ->].
    { rw -H. by repeat (case_match; try done). }
    by rw Join_climbs in Hc.
Qed.

Lemma Clean_parse s : parse_path (Clean s) = parse_path s.
Proof. apply parse_path_string, parse_path_good. Qed.

Lemma Split_sep c u v : Split c (u +:+ String c v) = Split c u ++ Split c v.
Proof.
  induction u as [|a u IH]; simpl; [by rw decide_True|]. case_decide; [by rw IH|]. rw IH.
  by destruct (Split c u) eqn:E; [destruct (Split_not_nil c u)|].
Qed.

(** A relative path of plain components, joined to a root. *)
Definition plain_comp (c : string) : bool :=
  negb (bool_decide (c = "")) && negb (bool_decide (c = ".")) && negb (bool_decide (c = "..")).

Lemma fold_push_plain r cs st : forallb plain_comp cs = true -> fold_left (push r) cs st = rev cs ++ st.
Proof.
  revert st. induction cs as [|c cs IH]; intros st; [done|]. simpl. intros [Hc Hcs]%andb_true_iff.
  unfold plain_comp in Hc. bool_to_prop. rewrite IH // -app_assoc. f_equal. unfold push.
  rewrite decide_False; [|naive_solver]. by rewrite decide_False.
Qed.

Lemma parse_Join_rel root rel :
  root <> "" -> forallb plain_comp (Split "/" rel) = true ->
  parse_path (filepath_Join [root; rel]) = mkPath (rooted (parse_path root)) (comps (parse_path root) ++ Split "/" rel).
Proof.
  intros Hr Hp. unfold filepath_Join. cbn [skip_empty]. rewrite decide_False // Clean_parse.
  change (Join [root; rel] "/") with (root +:+ String "/" rel). unfold parse_path. cbn [rooted comps].
  assert (is_rooted (root +:+ String "/" rel) = is_rooted root) as ->.
  { destruct root as [|a root]; [done|]. unfold is_rooted. simpl. by destruct root. }
  f_equal. rewrite Split_sep /norm fold_left_app fold_push_plain // rev_app_distr rev_involutive //.
Qed.

Lemma Join_rel_inj root a b :
  root <> "" -> forallb plain_comp (Split "/" a) = true -> forallb plain_comp (Split "/" b) = true ->
  filepath_Join [root; a] = filepath_Join [root; b] -> Split "/" a = Split "/" b.
Proof.
  intros Hr Ha Hb E. apply (f_equal parse_path) in E. rewrite !parse_Join_rel // in E.
  injection E as E. by apply app_inv_head in E.
Qed.


(** ** Joining one component, and a fixed ending *)

Lemma parse_path_Join dir s :
  is_rooted dir = true -> parse_path (filepath_Join [dir; s]) = parse_path (dir +:+ String "/" s).
Proof.
  intros Hd. destruct dir as [|a d]; [done|]. unfold filepath_Join. cbn [skip_empty].
  destruct (decide (String a d = "")); [done|]. by rw Clean_parse.
Qed.

Lemma comps_Join dir c :
  is_rooted dir = true -> real_comp c -> c <> ".." ->
  comps (parse_path (filepath_Join [dir; c])) = comps (parse_path dir) ++ [c].
Proof.
  intros Hd (H1 & H2 & Hs) H3. assert (dir <> "") as Hne by (by intros ->).
  pose proof (parse_Join_rel dir c Hne) as H. rewrite (Split_no_byte "/" c Hs) in H. rewrite H; [done|].
  rewrite /= andb_true_r. unfold plain_comp. by rewrite !bool_decide_eq_false_2.
Qed.

Lemma Split_last c p w : no_byte c w = true -> exists ini x, Split c (p +:+ w) = ini ++ [x +:+ w].
Proof.
  intros Hw. induction p as [|a p IH]; [exists [], ""; by rw Split_no_byte|].
  destruct IH as (ini & x & IH). rw str_app_cons. cbn [Split]. rw IH.
  case_decide; [by exists ("" :: ini), x|].
  destruct ini as [|y ini]; [exists [], (String a x)|exists (String a y :: ini), x]; done.
Qed.

(** An ending that no normalisation removes. *)
Definition ending (w : string) : Prop := no_byte "/" w = true /\ (2 < String.length w)%nat.

Lemma comps_ending w p : ending w -> exists ini x, comps (parse_path (p +:+ w)) = ini ++ [x +:+ w].
Proof.
  intros [Hw Hl]. unfold parse_path. simpl. destruct (Split_last "/" p w Hw) as (ini & x & ->).
  unfold norm. rw fold_left_app /=. exists (rev (fold_left (push (is_rooted (p +:+ w))) ini [])), x.
  assert (2 < String.length (x +:+ w))%nat as Hx by (rw str_length_app; lia).
  unfold push at 1. rw decide_False; [|by intros [E|E]; rw E in Hx; simpl in Hx; lia].
  rw decide_False; [done|]. intros E; rw E in Hx; simpl in Hx; lia.
Qed.

Lemma Join_ending ini x w : exists q, Join (ini ++ [x +:+ w]) "/" = q +:+ w.
Proof.
  unfold Join. induction ini as [|y ini [q IH]]; [by exists x|]. exists (y +:+ "/" +:+ q).
  assert (String.concat "/" ((y :: ini) ++ [x +:+ w]) = y +:+ "/" +:+ String.concat "/" (ini ++ [x +:+ w])) as ->.
  { by destruct ini. }
  rw IH. by rw !str_app_assoc.
Qed.

Lemma Clean_ending w p : ending w -> exists q, Clean (p +:+ w) = q +:+ w.
Proof.
  intros Hw. unfold Clean, path_string. destruct (comps_ending w p Hw) as (ini & x & ->).
  destruct (Join_ending ini x w) as [q ->]. destruct (rooted _); [by exists ("/" +:+ q); rw str_app_assoc|].
  rw decide_False; [by exists q|]. by destruct ini.
Qed.

(** ** The parent of a clean absolute path *)

Definition abs_path (cs : list string) : string := path_string (mkPath true cs).

Lemma Join_snoc_empty cs : cs <> [] -> Join (cs ++ [""]) "/" = Join cs "/" +:+ "/".
Proof.
  unfold Join. induction cs as [|x cs IH]; [done|]. intros _. destruct cs as [|y cs]; [done|].
  change (String.concat "/" ((x :: y :: cs) ++ [""])) with (x +:+ "/" +:+ String.concat "/" ((y :: cs) ++ [""])).
  rw IH //. change (String.concat "/" (x :: y :: cs)) with (x +:+ "/" +:+ String.concat "/" (y :: cs)).
  by rw !str_app_assoc.
Qed.

Lemma Dir_abs cs c : good_stack true (rev (cs ++ [c])) -> Dir (abs_path (cs ++ [c])) = abs_path cs.
Proof.
  intros Hg. assert (good_stack true (rev cs)) as Hcs by by rewrite rev_unit in Hg; destruct Hg as (_ & _ & ?).
  pose proof (good_stack_real _ _ Hg) as Hr. apply Forall_rev in Hr. rw rev_involutive in Hr. apply real_no_slash in Hr.
  assert (Split "/" (abs_path (cs ++ [c])) = "" :: cs ++ [c]) as Hs.
  { change (abs_path (cs ++ [c])) with ("" +:+ String "/" (Join (cs ++ [c]) "/")). rw Split_app //. f_equal.
    apply Split_Join; [by destruct cs|done]. }
  unfold Dir. change (IndexByte (abs_path (cs ++ [c])) "/") with 0. cbv iota.
  unfold split_last. rw Hs. change ("" :: cs ++ [c]) with (("" :: cs) ++ [c]). rw rev_unit rev_involutive. cbn [fst].
  unfold Clean, abs_path. f_equal. unfold parse_path.
  assert (Join ("" :: cs) "/" +:+ "/" = String "/" (Join (cs ++ [""]) "/")) as ->.
  { destruct cs as [|x cs']; [done|]. rw Join_snoc_empty //. }
  change (is_rooted (String "/" (Join (cs ++ [""]) "/"))) with (HasPrefix (String "/" (Join (cs ++ [""]) "/")) "/").
  assert (HasPrefix (String "/" (Join (cs ++ [""]) "/")) "/" = true) as -> by apply (HasPrefix_app "/").
  f_equal. change (String "/" (Join (cs ++ [""]) "/")) with ("" +:+ String "/" (Join (cs ++ [""]) "/")).
  rw Split_app // Split_Join; [|by destruct cs|].
  2:{ apply Forall_app in Hr as [? _]. apply Forall_app. split; [done|by repeat constructor]. }
  change ("" :: cs ++ [""]) with (("" :: cs) ++ [""]). unfold norm. rw fold_left_app.
  exact (norm_id true cs Hcs).
Qed.

Lemma Dir_root : Dir (abs_path []) = abs_path [].
Proof. reflexivity. Qed.

(** Every clean absolute path is one of its normal form. *)
Lemma Clean_abs s : is_rooted s = true -> Clean s = abs_path (comps (parse_path s)).
Proof. intros Hs. unfold Clean, abs_path. f_equal. unfold parse_path. simpl. by rw Hs. Qed.

Lemma abs_path_inj cs cs' : good_stack true (rev cs) -> good_stack true (rev cs') -> abs_path cs = abs_path cs' -> cs = cs'.
Proof. intros H1 H2 E. apply (path_string_inj (mkPath true cs) (mkPath true cs') H1 H2) in E. congruence. Qed.

Lemma comps_abs cs : good_stack true (rev cs) -> comps (parse_path (abs_path cs)) = cs.
Proof. intros Hg. unfold abs_path. by rw (parse_path_string (mkPath true cs)). Qed.
