(* ===== verification/Manifest.v ===== *)
(** Plugin manifests: the record a plugin declares itself with, the capability-URI
    grammar, structural validation and loading (src/core/manifest/manifest.go). *)
From S2P Require Import Prelude Paths.

(** ** Data *)

Record CapabilityRef := mkRef { Capability : string }.

Record Metadata := mkMetadata {
  md_Name : string;
  md_Version : string;
  md_Labels : gmap string string;
}.

Record ResourceQuantities := mkQuantities { CPU : string; Memory : string }.
Record Resources := mkResources { Requests : ResourceQuantities; Limits : ResourceQuantities }.

Record Port := mkPort { port_Name : string; ContainerPort : Z }.

Record CommandArg := mkArg {
  arg_Name : string;
  arg_Field : string;
  arg_Positional : bool;
  arg_Required : bool;
  arg_Default : string;
}.

Record Command := mkCommand {
  cmd_Name : string;
  cmd_Capability : string;
  cmd_Help : string;
  cmd_Args : list CommandArg;
}.

Record Contributes := mkContributes { Commands : list Command }.

Record Manifest := mkManifest {
  APIVersion : string;
  Kind : string;
  Meta : Metadata;
  CompatibleCore : list string;
  Provides : list CapabilityRef;
  Requires : list CapabilityRef;
  Suggests : list CapabilityRef;
  Res : Resources;
  Ports : list Port;
  Contrib : Contributes;
  Path : string;
}.

Definition set_Path (p : string) (m : Manifest) : Manifest :=
  mkManifest (APIVersion m) (Kind m) (Meta m) (CompatibleCore m) (Provides m)
    (Requires m) (Suggests m) (Res m) (Ports m) (Contrib m) p.

Definition name_of (m : Manifest) : string := md_Name (Meta m).

(** ** The capability-URI grammar

    [^rat://[a-z][a-z0-9-]*/v[1-9][0-9]*/[a-z][a-z0-9-]*$]: no character class
    contains a slash, so matching is deterministic and is written as a scanner. *)
Definition in_range (lo hi : nat) (a : ascii) : bool :=
  let n := nat_of_ascii a in (lo <=? n)%nat && (n <=? hi)%nat.
Definition is_lower (a : ascii) : bool := in_range 97 122 a.
Definition is_upper (a : ascii) : bool := in_range 65 90 a.
Definition is_digit (a : ascii) : bool := in_range 48 57 a.
Definition is_ident (a : ascii) : bool :=
  is_lower a || is_digit a || bool_decide (a = "-"%char).

(** The longest prefix of bytes satisfying [P], and the rest. *)
Fixpoint span (P : ascii -> bool) (s : string) : string * string :=
  match s with
  | "" => ("", "")
  | String a s' =>
      if P a then let '(u, v) := span P s' in (String a u, v) else ("", s)
  end.

(** One segment [first rest*]: the segment and what follows it. *)
Definition scan_segment (first rest : ascii -> bool) (s : string) : option (string * string) :=
  match s with
  | String a s' =>
      if first a then let '(u, v) := span rest s' in Some (String a u, v) else None
  | "" => None
  end.

Definition expect (p s : string) : option string :=
  if HasPrefix s p then Some (str_drop (String.length p) s) else None.

Definition is_major_first (a : ascii) : bool := in_range 49 57 a.

Definition ValidCapabilityURI (s : string) : bool :=
  match
    s1 ← expect "rat://" s;
    '(_, s2) ← scan_segment is_lower is_ident s1;
    s3 ← expect "/v" s2;
    '(_, s4) ← scan_segment is_major_first is_digit s3;
    s5 ← expect "/" s4;
    '(_, s6) ← scan_segment is_lower is_ident s5;
    Some s6
  with
  | Some "" => true
  | _ => false
  end.

(** ** Operations *)

Definition uris (refs : list CapabilityRef) : list string := Capability <$> refs.
Definition Manifest_ProvidesCaps (m : Manifest) : list string := uris (Provides m).
Definition Manifest_RequiresCaps (m : Manifest) : list string := uris (Requires m).

Definition Manifest_PublishPorts (m : Manifest) : list string :=
  (fun p => itoa (ContainerPort p)) <$>
    List.filter (fun p => 0 <? ContainerPort p) (Ports m).

Definition Manifest_HasResources (m : Manifest) : bool :=
  negb (bool_decide (CPU (Requests (Res m)) = "")) ||
  negb (bool_decide (Memory (Requests (Res m)) = "")).

Definition check_refs (fmt : string) (refs : list CapabilityRef) : option error :=
  first_error
    ((fun c => if ValidCapabilityURI (Capability c) then None
               else Some (Errorf fmt [Capability c])) <$> refs).

(** [None] is Go's nil error. *)
Definition Manifest_Validate (m : Manifest) : option error :=
  if decide (Kind m = "") then Some (Errorf "missing kind" [])
  else if decide (md_Name (Meta m) = "") then Some (Errorf "missing metadata.name" [])
  else first_error
    [ check_refs "malformed `provides` capability URI %q" (Provides m);
      check_refs "malformed `requires` capability URI %q" (Requires m) ].

(** Loading: the YAML decoder is a third-party library and the file system is the
    environment; both are parameters. *)
Section Loading.
Context (yaml_Unmarshal : string -> result Manifest).
Context (os_ReadFile : string -> result string).
Context (filepath_Glob : string -> result (list string)).

Definition Parse (data : string) : result Manifest :=
  match yaml_Unmarshal data with
  | Err e => Err (Wrap "parse manifest: %w" [] e)
  | Ok m => match Manifest_Validate m with
            | Some e => Err (Wrap "invalid manifest: %w" [] e)
            | None => Ok m
            end
  end.

Definition Load (path : string) : result Manifest :=
  match os_ReadFile path with
  | Err e => Err (Wrap "read manifest %s: %w" [path] e)
  | Ok data => match Parse data with
               | Err e => Err (Wrap "%s: %w" [path] e)
               | Ok m => Ok (set_Path path m)
               end
  end.

Definition LoadDir (dir : string) : result (list Manifest) :=
  let? ms := filepath_Glob (filepath_Join [dir; "*.plugin.yaml"]) in
  result_map Load (sort_strings ms).
End Loading.

(** ** The grammar, declaratively *)

Definition segment (first rest : ascii -> bool) (s : string) : Prop :=
  match s with
  | "" => False
  | String a s' => first a = true /\ str_forall rest s' = true
  end.

Definition capability_grammar (s axis major verb : string) : Prop :=
  s = "rat://" +:+ axis +:+ "/v" +:+ major +:+ "/" +:+ verb /\
  segment is_lower is_ident axis /\ segment is_major_first is_digit major /\
  segment is_lower is_ident verb.

Lemma span_spec P s u v :
  span P s = (u, v) ->
  s = u +:+ v /\ str_forall P u = true /\
  (v = "" \/ exists a v', v = String a v' /\ P a = false).
Proof.
  revert u v. induction s as [|a s IH]; intros u v; simpl; [naive_solver|].
  destruct (P a) eqn:Ha.
  - destruct (span P s) as [u' v'] eqn:E. intros [= <- <-].
    destruct (IH u' v' eq_refl) as (-> & ? & ?). simpl. rw Ha. naive_solver.
  - intros [= <- <-]. naive_solver.
Qed.

Lemma span_app P u v :
  str_forall P u = true ->
  (v = "" \/ exists a v', v = String a v' /\ P a = false) ->
  span P (u +:+ v) = (u, v).
Proof.
  induction u as [|a u IH]; simpl; intros Hu Hv.
  - destruct Hv as [->|(a & v' & -> & Ha)]; simpl; [done|by rw Ha].
  - bool_to_prop. unfold String.append; fold String.append.
    simpl. rw H. by rw IH.
Qed.

Lemma scan_segment_spec f r s u v :
  scan_segment f r s = Some (u, v) ->
  s = u +:+ v /\ segment f r u /\
  (v = "" \/ exists a v', v = String a v' /\ r a = false).
Proof.
  destruct s as [|a s]; simpl; [done|]. destruct (f a) eqn:Ha; [|done].
  destruct (span r s) as [u' v'] eqn:E. intros [= <- <-].
  destruct (span_spec _ _ _ _ E) as (-> & ? & ?). naive_solver.
Qed.

Lemma scan_segment_app f r u v :
  segment f r u -> (v = "" \/ exists a v', v = String a v' /\ r a = false) ->
  scan_segment f r (u +:+ v) = Some (u, v).
Proof.
  destruct u as [|a u]; simpl; [done|]. intros [Ha Hu] Hv.
  rw Ha. by rw span_app.
Qed.

Lemma expect_spec p s r : expect p s = Some r <-> s = p +:+ r.
Proof.
  unfold expect. split.
  - destruct (HasPrefix s p) eqn:E; [|done]. intros [= <-].
    apply HasPrefix_true in E as [r ->]. by rw str_drop_app.
  - intros ->. by rw HasPrefix_app str_drop_app.
Qed.

(** The scanner accepts exactly the strings of the capability grammar. *)
Theorem ValidCapabilityURI_iff (s : string) :
  ValidCapabilityURI s = true <-> exists axis major verb, capability_grammar s axis major verb.
Proof.
  unfold ValidCapabilityURI, capability_grammar. split.
  - intros H.
    destruct (expect "rat://" s) as [s1|] eqn:E1; simpl in H; [|done].
    destruct (scan_segment is_lower is_ident s1) as [[ax s2]|] eqn:E2; simpl in H; [|done].
    destruct (expect "/v" s2) as [s3|] eqn:E3; simpl in H; [|done].
    destruct (scan_segment is_major_first is_digit s3) as [[mj s4]|] eqn:E4; simpl in H; [|done].
    destruct (expect "/" s4) as [s5|] eqn:E5; simpl in H; [|done].
    destruct (scan_segment is_lower is_ident s5) as [[vb s6]|] eqn:E6; simpl in H; [|done].
    destruct s6; [|done].
    apply expect_spec in E1, E3, E5. apply scan_segment_spec in E2, E4, E6.
    destruct E2 as (-> & ? & _), E4 as (-> & ? & _), E6 as (-> & ? & _). subst.
    exists ax, mj, vb. by rw str_app_nil_r.
  - intros (ax & mj & vb & -> & Ha & Hm & Hv).
    rw (proj2 (expect_spec _ _ _) eq_refl) /=.
    rw scan_segment_app //; [|right; eexists _, _; by split].
    rw /= (proj2 (expect_spec "/v" _ _) eq_refl) /=.
    rw scan_segment_app //; [|right; eexists _, _; by split].
    rw /= (proj2 (expect_spec "/" _ _) eq_refl) /=.
    rw -(str_app_nil_r vb) scan_segment_app //; by left.
Qed.

(** Manifests whose declared lists went through [Manifest_Validate]. *)
Definition manifest_valid (m : Manifest) : Prop :=
  Kind m <> "" /\ name_of m <> "" /\
  Forall (fun u => ValidCapabilityURI u = true) (Manifest_ProvidesCaps m ++ Manifest_RequiresCaps m).

Lemma check_refs_None fmt refs :
  check_refs fmt refs = None <-> Forall (fun u => ValidCapabilityURI u = true) (uris refs).
Proof.
  unfold check_refs, uris. rw first_error_None !Forall_fmap.
  apply Forall_iff. intros c. simpl. by destruct (ValidCapabilityURI _).
Qed.

Lemma Manifest_Validate_None m : Manifest_Validate m = None <-> manifest_valid m.
Proof.
  unfold Manifest_Validate, manifest_valid, name_of.
  repeat (case_decide; [naive_solver|]).
  rw first_error_None !Forall_cons !check_refs_None Forall_app. naive_solver.
Qed.

Lemma manifest_valid_set_Path p m : manifest_valid (set_Path p m) <-> manifest_valid m.
Proof. by destruct m. Qed.

(** Whatever order the directory scan reports its matches in, [LoadDir] returns one
    validated manifest per matching file, in the order of the sorted file names. *)
Theorem LoadDir_ok unmarshal read glob dir files ms :
  glob (filepath_Join [dir; "*.plugin.yaml"]) = Ok files ->
  LoadDir unmarshal read glob dir = Ok ms ->
  Path <$> ms = sort_strings files /\ Forall manifest_valid ms.
Proof.
  unfold LoadDir. intros -> H. simpl in H. apply result_map_Forall2 in H.
  set (fs := sort_strings files) in *. clearbody fs.
  induction H as [|f m fs ms Hload _ [IH1 IH2]]; [done|]. unfold Load, Parse in Hload.
  destruct (read f) as [d|]; [|done]. destruct (unmarshal d) as [m'|]; [|done].
  destruct (Manifest_Validate m') eqn:Hv; [done|]. simplify_eq/=. split; [by f_equal|].
  constructor; [|done]. by apply manifest_valid_set_Path, Manifest_Validate_None.
Qed.

(** ** At a concrete input *)

Definition toy_manifest (name : string) : Manifest :=
  mkManifest "v1" "engine" (mkMetadata name "1" ∅) [] [mkRef "rat://engine/v1/execute"] [] []
    (mkResources (mkQuantities "" "") (mkQuantities "" "")) [] (mkContributes []) "".

Lemma LoadDir_ok_witness :
  exists ms,
    LoadDir (fun d => Ok (toy_manifest d)) Ok (fun _ => Ok ["m/b.plugin.yaml"; "m/a.plugin.yaml"]) "m" = Ok ms /\
    Path <$> ms = ["m/a.plugin.yaml"; "m/b.plugin.yaml"] /\ Forall manifest_valid ms.
Proof.
  eexists. split; [vm_compute; reflexivity|].
  apply (LoadDir_ok (fun d => Ok (toy_manifest d)) Ok
    (fun _ => Ok ["m/b.plugin.yaml"; "m/a.plugin.yaml"]) "m" ["m/b.plugin.yaml"; "m/a.plugin.yaml"]);
    vm_compute; reflexivity.
Defined.
