(* ===== verification/Conformance.v ===== *)
(** Conformance attestations (src/core/conformance/attestation.go): what a signed
    attestation commits to, and when the authority accepts one. *)
From S2P Require Import Prelude Paths Manifest.

Record Attestation := mkAttestation {
  PluginName : string;
  Conformed : list string;
  KeyID : string;
  ExpiresAtUnixMs : Z;
  Signature : string;
}.

Definition NUL : ascii := byte_of 0.
Definition NL : ascii := byte_of 10.
Definition nul : string := String NUL "".
Definition nl : string := String NL "".

Definition Attestation_canonicalBytes (a : Attestation) : string :=
  let caps := sort_strings (Conformed a) in
  PluginName a +:+ nul +:+ Join caps nl +:+ nul +:+ KeyID a +:+ nul +:+ itoa (ExpiresAtUnixMs a).

Definition Attestation_Conforms (a : Attestation) (capURI : string) : bool :=
  existsb (fun c => bool_decide (c = capURI)) (Conformed a).

Definition revokeKey (plugin capURI : string) : string := plugin +:+ nul +:+ capURI.

(** ed25519 is the standard library's: its two operations are parameters. *)
Section Authority.
Context {PublicKey PrivateKey : Type}.
Context (ed25519_Verify : PublicKey -> string -> string -> bool).
Context (ed25519_Sign : PrivateKey -> string -> string).

Definition SignWithExpiry (priv : PrivateKey) (keyID plugin : string) (conformed : list string)
    (expiresAtUnixMs : Z) : Attestation :=
  let a := mkAttestation plugin conformed keyID expiresAtUnixMs "" in
  mkAttestation plugin conformed keyID expiresAtUnixMs
    (ed25519_Sign priv (Attestation_canonicalBytes a)).

Definition Sign priv keyID plugin conformed := SignWithExpiry priv keyID plugin conformed 0.

(** [now] is read once per [Verify]. *)
Record Authority := mkAuthority {
  keys : gmap string PublicKey;
  revoked : gmap string bool;
}.

Definition NewAuthority (ks : gmap string PublicKey) : Authority := mkAuthority ks ∅.

Definition Authority_Revoke (au : Authority) (plugin capURI : string) : Authority :=
  mkAuthority (keys au) (<[revokeKey plugin capURI := true]> (revoked au)).

Definition Authority_IsRevoked (au : Authority) (plugin capURI : string) : bool :=
  default false (revoked au !! revokeKey plugin capURI).

Definition Authority_Verify (au : Authority) (now : Z) (a : Attestation) : option error :=
  match keys au !! KeyID a with
  | None => Some (Errorf "unknown conformance key_id %q" [KeyID a])
  | Some pub =>
      if negb (ed25519_Verify pub (Attestation_canonicalBytes a) (Signature a)) then
        Some (Errorf "conformance attestation for %q does not verify against key_id %q"
                [PluginName a; KeyID a])
      else if negb (ExpiresAtUnixMs a =? 0) && (ExpiresAtUnixMs a <=? now) then
        Some (Errorf "conformance attestation for %q expired (at %d ms)"
                [PluginName a; itoa (ExpiresAtUnixMs a)])
      else None
  end.

Lemma Authority_Verify_None au now a :
  Authority_Verify au now a = None <->
  exists pub, keys au !! KeyID a = Some pub /\
    ed25519_Verify pub (Attestation_canonicalBytes a) (Signature a) = true /\
    (ExpiresAtUnixMs a = 0 \/ now < ExpiresAtUnixMs a).
Proof.
  unfold Authority_Verify. destruct (keys au !! KeyID a) as [pub|]; [|naive_solver].
  destruct (ed25519_Verify _ _ _) eqn:Hv; simpl; [|naive_solver congruence].
  destruct (Z.eqb_spec (ExpiresAtUnixMs a) 0) as [E0|E0];
    destruct (Z.leb_spec (ExpiresAtUnixMs a) now); simpl; split; try naive_solver lia.
Qed.

(** Signing and verifying agree: an attestation signed with the private half of
    a key of the ring verifies until it expires, and never after. *)
Theorem SignWithExpiry_verifies (au : Authority) (pub : PublicKey) (priv : PrivateKey)
    (keyID plugin : string) (caps : list string) (exp now : Z) :
  (forall m, ed25519_Verify pub m (ed25519_Sign priv m) = true) ->
  keys au !! keyID = Some pub ->
  Authority_Verify au now (SignWithExpiry priv keyID plugin caps exp) = None <->
  (exp = 0 \/ now < exp).
Proof.
  intros Hsig Hk. rw Authority_Verify_None /SignWithExpiry /= Hk. split.
  - by intros (p & [= <-] & _ & ?).
  - intros H. exists pub. split_and!; [done| |done]. apply Hsig.
Qed.

Lemma Authority_Revoke_IsRevoked au p c : Authority_IsRevoked (Authority_Revoke au p c) p c = true.
Proof. unfold Authority_IsRevoked, Authority_Revoke. simpl. by rw lookup_insert_eq. Qed.
End Authority.

(** ** What a signature commits to *)

Lemma no_byte_str_forall_digit c s :
  no_byte c (String c s) = false.
Proof. unfold no_byte. simpl. by rw bool_decide_eq_true_2. Qed.

Lemma Join_inj c l1 l2 :
  l1 <> [] -> l2 <> [] ->
  Forall (fun w => no_byte c w = true) l1 -> Forall (fun w => no_byte c w = true) l2 ->
  Join l1 (String c "") = Join l2 (String c "") -> l1 = l2.
Proof.
  intros H1 H2 F1 F2 E. rewrite <- (Paths.Split_Join c l1), <- (Paths.Split_Join c l2); [|done..].
  by rw E.
Qed.

Definition plain_name (s : string) : Prop := no_byte NUL s = true.
Definition plain_cap (s : string) : Prop := s <> "" /\ no_byte NUL s = true /\ no_byte NL s = true.

Lemma Join_plain caps : Forall plain_cap caps -> no_byte NUL (Join caps nl) = true.
Proof.
  unfold Join. induction 1 as [|c caps (_ & Hc & _) _ IH]; [done|]. destruct caps as [|c' caps]; [done|].
  change (String.concat nl (c :: c' :: caps)) with (c +:+ (nl +:+ String.concat nl (c' :: caps))).
  by rw !no_byte_app Hc IH.
Qed.

Lemma Join_caps_inj l1 l2 :
  Forall plain_cap l1 -> Forall plain_cap l2 -> Join l1 nl = Join l2 nl -> l1 = l2.
Proof.
  intros F1 F2 E.
  assert (forall l, Forall plain_cap l -> Forall (fun w => no_byte NL w = true) l) as HF.
  { intros l H. apply (Forall_impl _ _ _ H). by intros ? (_ & _ & ?). }
  assert (forall l, Forall plain_cap l -> Join l nl = "" -> l = []) as HE.
  { intros [|c [|c' l]] H; [done| |]; inversion H as [|?? (? & _)]; subst; [done|].
    by destruct c. }
  destruct (decide (l1 = [])) as [->|H1]; [symmetry; by apply HE|].
  destruct (decide (l2 = [])) as [->|H2]; [by apply HE|].
  by apply (Join_inj NL); auto.
Qed.

(** The signed bytes determine every field they cover: two attestations with the same
    canonical form name the same plugin, the same conformed capabilities (up to
    order), the same key and the same expiry, so none of them can be altered under
    a valid signature. *)
Theorem canonicalBytes_commits (a b : Attestation) :
  plain_name (PluginName a) -> plain_name (PluginName b) ->
  plain_name (KeyID a) -> plain_name (KeyID b) ->
  Forall plain_cap (Conformed a) -> Forall plain_cap (Conformed b) ->
  Attestation_canonicalBytes a = Attestation_canonicalBytes b ->
  PluginName a = PluginName b /\ Conformed a ≡ₚ Conformed b /\ KeyID a = KeyID b /\
  ExpiresAtUnixMs a = ExpiresAtUnixMs b.
Proof.
  intros Hn1 Hn2 Hk1 Hk2 Hc1 Hc2. unfold Attestation_canonicalBytes.
  rw -(sort_strings_Permutation (Conformed a)) in Hc1.
  rw -(sort_strings_Permutation (Conformed b)) in Hc2.
  intros [-> E]%(sep_app_inj NUL) ; [|done..].
  apply (sep_app_inj NUL) in E as [Ej E]; [|by apply Join_plain..].
  apply (sep_app_inj NUL) in E as [-> E]; [|done..].
  apply Join_caps_inj in Ej; [|done..]. split_and!; [done| |done|by apply (inj pretty)].
  by rw -(sort_strings_Permutation (Conformed a)) Ej sort_strings_Permutation.
Qed.

(** ** At concrete inputs *)

Definition toy_sign (priv msg : string) : string := priv +:+ msg.
Definition toy_verify (pub msg sig : string) : bool := bool_decide (sig = pub +:+ msg).

Lemma SignWithExpiry_verifies_witness :
  (forall m, toy_verify "key" m (toy_sign "key" m) = true) /\
  (Authority_Verify toy_verify (NewAuthority {["k1" := "key"]}) 5
     (SignWithExpiry toy_sign "key" "k1" "duck" ["rat://engine/v1/execute"] 9) = None <-> (9 = 0 \/ 5 < 9)).
Proof.
  assert (forall m, toy_verify "key" m (toy_sign "key" m) = true) as Hs.
  { intros m. unfold toy_verify. by apply bool_decide_eq_true_2. }
  split; [exact Hs|].
  apply (SignWithExpiry_verifies toy_verify toy_sign _ "key" "key"); [exact Hs|reflexivity].
Defined.

Lemma canonicalBytes_commits_witness :
  let a := mkAttestation "duck" ["rat://engine/v1/execute"; "rat://engine/v1/plan"] "k1" 9 "sig" in
  let b := mkAttestation "duck" ["rat://engine/v1/plan"; "rat://engine/v1/execute"] "k1" 9 "" in
  Attestation_canonicalBytes a = Attestation_canonicalBytes b /\ Conformed a ≡ₚ Conformed b.
Proof.
  intros a b. assert (Attestation_canonicalBytes a = Attestation_canonicalBytes b) as H by (vm_compute; reflexivity).
  split; [exact H|].
  apply (canonicalBytes_commits a b); try reflexivity; try exact H; repeat constructor; discriminate.
Defined.
