(* ===== verification/Registry.v ===== *)
(** The manifest-driven plugin registry (src/core/registry/registry.go and verified.go):
    its two indexes, live registration, C5 authorization and label selection. *)
From S2P Require Import Prelude Manifest Conformance.

(** A [fmt.Sprintf] call that is only ever shown: format and rendered arguments. *)
Definition message : Set := (string * list string)%type.

Record Decision := mkDecision {
  Allowed : bool;
  Authorized : bool;
  Provider : string;
  Reason : message;
}.

#[export] Instance Decision_eq_dec : EqDecision Decision.
Proof. solve_decision. Defined.

Record Registry := mkRegistry {
  byName : gmap string Manifest;
  providerOf : gmap string (list string);
}.

Definition empty_registry : Registry := mkRegistry ∅ ∅.

(** [r.providerOf[capURI]]: a missing key reads as the nil slice. *)
Definition providers (po : gmap string (list string)) (capURI : string) : list string :=
  default [] (po !! capURI).

Definition add_provider (name : string) (po : gmap string (list string)) (capURI : string) :=
  <[capURI := providers po capURI ++ [name]]> po.

Definition Registry_insert (r : Registry) (m : Manifest) : result Registry :=
  match byName r !! name_of m with
  | Some _ => Err (Errorf "duplicate plugin name %q" [name_of m])
  | None =>
      Ok (mkRegistry (<[name_of m := m]> (byName r))
            (fold_left (add_provider (name_of m)) (Manifest_ProvidesCaps m) (providerOf r)))
  end.

Fixpoint insert_all (r : Registry) (ms : list Manifest) : result Registry :=
  match ms with
  | [] => Ok r
  | m :: ms' => let? r' := Registry_insert r m in insert_all r' ms'
  end.

Definition New (manifests : list Manifest) : result Registry := insert_all empty_registry manifests.

Definition Registry_Register (r : Registry) (m : Manifest) : result Registry := Registry_insert r m.

Definition removeString (ss : list string) (s : string) : list string :=
  filter (fun x => x <> s) ss.

Definition drop_provider (name : string) (po : gmap string (list string)) (capURI : string) :=
  let ps := removeString (providers po capURI) name in
  if decide (ps = []) then delete capURI po else <[capURI := ps]> po.

Definition Registry_Deregister (r : Registry) (name : string) : Registry :=
  match byName r !! name with
  | None => r
  | Some m =>
      mkRegistry (delete name (byName r))
        (fold_left (drop_provider name) (Manifest_ProvidesCaps m) (providerOf r))
  end.

Definition Registry_Plugin (r : Registry) (name : string) : option Manifest := byName r !! name.

Definition sortedCopy (ss : list string) : list string := sort_strings ss.

Definition Registry_ProviderOf (r : Registry) (capURI : string) : string :=
  match sortedCopy (providers (providerOf r) capURI) with [] => "" | p :: _ => p end.

Definition Registry_ProvidersOf (r : Registry) (capURI : string) : list string :=
  sortedCopy (providers (providerOf r) capURI).

Definition contains (ss : list string) (s : string) : bool :=
  existsb (fun x => bool_decide (x = s)) ss.

(** [labels[k]] of a missing key is the empty string. *)
Definition labelsMatch (labels selector : gmap string string) : bool :=
  forallb (fun '(k, v) => bool_decide (default "" (labels !! k) = v)) (map_to_list selector).

Definition fmtSelector (selector : gmap string string) : string :=
  if decide (selector = ∅) then "{}"
  else "{" +:+ Join ((fun k => k +:+ "=" +:+ default "" (selector !! k)) <$> sorted_keys selector) ","
       +:+ "}".

Definition selectorNote (selector : gmap string string) : string :=
  if decide (selector = ∅) then "" else " for selector " +:+ fmtSelector selector.

(** The [matched] slice before sorting; [None] is the nil dereference of
    [r.byName[p].Metadata] on a provider that is not registered. *)
Fixpoint matching (r : Registry) (selector : gmap string string) (ps : list string) :
    option (list string) :=
  match ps with
  | [] => Some []
  | p :: ps' =>
      m ← byName r !! p;
      rest ← matching r selector ps';
      Some (if labelsMatch (md_Labels (Meta m)) selector then p :: rest else rest)
  end.

(** [None] is the panic of [matching]; [Select_total] excludes it. *)
Definition Registry_Select (r : Registry) (caller capURI : string) (selector : gmap string string) :
    option Decision :=
  match byName r !! caller with
  | None => Some (mkDecision false false "" ("C5: unknown caller %q", [caller]))
  | Some cm =>
    if negb (contains (Manifest_RequiresCaps cm) capURI) then
      Some (mkDecision false false "" ("C5: caller %q does not declare `requires` %q", [caller; capURI]))
    else
      let ps := providers (providerOf r) capURI in
      if decide (ps = []) then
        Some (mkDecision false false "" ("C5: no registered plugin provides %q", [capURI]))
      else
        matched ← matching r selector ps;
        Some match sort_strings matched with
        | [p] => mkDecision true true p
                   ("%s requires %s; selected %s%s", [caller; capURI; p; selectorNote selector])
        | [] => mkDecision false true ""
                  ("selection: no provider of %q matches selector %s (providers: %s)",
                   [capURI; fmtSelector selector; Join (sortedCopy ps) ", "])
        | ms => mkDecision false true ""
                  ("selection: selector %s is ambiguous for %q — matches %s; refine it",
                   [fmtSelector selector; capURI; Join ms ", "])
        end
  end.

Definition Registry_Authorize (r : Registry) (caller capURI : string) : option Decision :=
  Registry_Select r caller capURI ∅.

(** [None] entries cannot occur: the keys are those of the map read. *)
Definition Registry_All (r : Registry) : list Manifest :=
  omap (fun n => byName r !! n) (sorted_keys (byName r)).

Definition Registry_Capabilities (r : Registry) : list string := sorted_keys (providerOf r).

(** ** The conformance-verified registry (verified.go) *)
Section Verified.
Context {PublicKey : Type}.
Context (ed25519_Verify : PublicKey -> string -> string -> bool).

Definition verify_cap (au : Authority (PublicKey := PublicKey)) (name : string) (att : Attestation)
    (capURI : string) : option error :=
  if negb (Attestation_Conforms att capURI) then
    Some (Errorf "plugin %q declares `provides` %q but it is not conformed (D4: declared != conformed)"
            [name; capURI])
  else if Authority_IsRevoked au name capURI then
    Some (Errorf "plugin %q: conformance for %q has been REVOKED (Q02 PU-3)" [name; capURI])
  else None.

Definition verify_manifest (au : Authority) (now : Z) (attestations : gmap string Attestation)
    (m : Manifest) : option error :=
  let provides := Manifest_ProvidesCaps m in
  let name := name_of m in
  match provides with
  | [] => None
  | _ =>
    match attestations !! name with
    | None => Some (Errorf "plugin %q provides %d capabilities but has no conformance attestation (D4: declared but unconformed)"
                      [name; itoa (Z.of_nat (length provides))])
    | Some att =>
      if negb (bool_decide (PluginName att = name)) then
        Some (Errorf "conformance attestation for %q does not match manifest %q" [PluginName att; name])
      else match Authority_Verify ed25519_Verify au now att with
           | Some e => Some (Wrap "plugin %q: %w" [name] e)
           | None => first_error (verify_cap au name att <$> provides)
           end
    end
  end.

(** [au = None] is the nil authority; the clock is read at each [Verify], here at
    [now i] for the [i]-th manifest. *)
Definition NewVerified (manifests : list Manifest) (attestations : gmap string Attestation)
    (au : option Authority) (now : nat -> Z) : result Registry :=
  match au with
  | None => Err (Errorf "NewVerified requires a conformance authority" [])
  | Some au =>
      match first_error (imap (fun i m => verify_manifest au (now i) attestations m) manifests) with
      | Some e => Err e
      | None => New manifests
      end
  end.
End Verified.

(** ** Index lemmas *)

(** Number of occurrences. *)
Definition occ (s : string) (l : list string) : nat := length (filter (fun x => x = s) l).

Lemma occ_app s l1 l2 : occ s (l1 ++ l2) = (occ s l1 + occ s l2)%nat.
Proof. unfold occ. by rw filter_app length_app. Qed.
Lemma occ_cons_eq s l : occ s (s :: l) = S (occ s l).
Proof. unfold occ. by rw filter_cons_True. Qed.
Lemma occ_cons_ne s x l : x <> s -> occ s (x :: l) = occ s l.
Proof. intros. unfold occ. by rw filter_cons_False. Qed.
Lemma occ_elem s l : s ∈ l <-> occ s l <> 0%nat.
Proof.
  induction l as [|x l IH]; [by split; [inversion 1|]|].
  destruct (decide (x = s)) as [->|Hne].
  - rw occ_cons_eq. split; [done|]. intros _. left.
  - rw occ_cons_ne // -IH elem_of_cons. naive_solver.
Qed.
Lemma occ_NoDup s l : NoDup l -> (occ s l <= 1)%nat.
Proof.
  induction 1 as [|x l Hx _ IH]; [by cbv; lia|]. destruct (decide (x = s)) as [->|Hne].
  - rw occ_cons_eq. enough (occ s l = 0%nat) by lia.
    destruct (decide (occ s l = 0%nat)); [done|]. by destruct Hx; apply occ_elem.
  - by rw occ_cons_ne.
Qed.

Lemma contains_elem ss s : contains ss s = true <-> s ∈ ss.
Proof.
  unfold contains. rw existsb_exists. setoid_rewrite bool_decide_eq_true.
  setoid_rewrite <- list_elem_of_In. naive_solver.
Qed.

Definition rep (n : nat) (name : string) : list string := replicate n name.

Lemma add_provider_lookup name po c c' :
  providers (add_provider name po c) c' =
  providers po c' ++ rep (if decide (c = c') then 1 else 0)%nat name.
Proof.
  unfold add_provider, providers at 1. destruct (decide (c = c')) as [->|Hne].
  - by rw lookup_insert_eq.
  - rw lookup_insert_ne //. by rw app_nil_r.
Qed.

(** Registering appends the name once per declaration of the capability. *)
Lemma add_providers name caps po c :
  providers (fold_left (add_provider name) caps po) c = providers po c ++ rep (occ c caps) name.
Proof.
  revert po. induction caps as [|x caps IH]; intros po; simpl; [by rw app_nil_r|].
  rw IH add_provider_lookup -app_assoc. f_equal. case_decide as H.
  - subst. by rw occ_cons_eq.
  - by rw occ_cons_ne.
Qed.

Lemma drop_provider_lookup name po c c' :
  providers (drop_provider name po c) c' =
  if decide (c = c') then removeString (providers po c') name else providers po c'.
Proof.
  unfold drop_provider, providers at 1. case_decide as He; case_decide as Hc; subst.
  - by rw lookup_delete_eq He.
  - by rw lookup_delete_ne.
  - by rw lookup_insert_eq.
  - by rw lookup_insert_ne.
Qed.

Lemma removeString_idemp l s : removeString (removeString l s) s = removeString l s.
Proof. unfold removeString. rw list_filter_filter. apply list_filter_iff. naive_solver. Qed.

Lemma drop_providers name caps po c :
  providers (fold_left (drop_provider name) caps po) c =
  if decide (c ∈ caps) then removeString (providers po c) name else providers po c.
Proof.
  revert po. induction caps as [|x caps IH]; intros po; simpl; [done|].
  rw IH drop_provider_lookup.
  destruct (decide (x = c)) as [->|Hne]; [rw removeString_idemp|];
    repeat case_decide; try done; set_solver.
Qed.

(** ** The index invariant *)

(** No capability is mapped to an empty provider set. *)
Definition no_empty (po : gmap string (list string)) : Prop := forall c, po !! c <> Some [].

(** Occurrences of [c] in what the plugin called [p] declares. *)
Definition declared (r : Registry) (p c : string) : nat :=
  match byName r !! p with Some m => occ c (Manifest_ProvidesCaps m) | None => 0 end.

Record registry_wf (r : Registry) : Prop := {
  wf_names : forall n m, byName r !! n = Some m -> name_of m = n;
  wf_no_empty : no_empty (providerOf r);
  wf_index : forall p c, occ p (providers (providerOf r) c) = declared r p c;
}.

Lemma no_empty_ext po po' :
  no_empty po -> no_empty po' -> (forall c, providers po c = providers po' c) -> po = po'.
Proof.
  intros H1 H2 E. apply map_eq. intros c. specialize (E c). unfold providers in E.
  pose proof (H1 c). pose proof (H2 c).
  destruct (po !! c) as [[|]|], (po' !! c) as [[|]|]; simpl in *; congruence.
Qed.

Lemma add_provider_no_empty name caps po :
  no_empty po -> no_empty (fold_left (add_provider name) caps po).
Proof.
  revert po. induction caps as [|x caps IH]; intros po H; [done|]. apply IH. intros c.
  unfold add_provider. destruct (decide (x = c)) as [->|]; [|by rw lookup_insert_ne].
  rw lookup_insert_eq. by destruct (providers po c).
Qed.

Lemma drop_provider_no_empty name caps po :
  no_empty po -> no_empty (fold_left (drop_provider name) caps po).
Proof.
  revert po. induction caps as [|x caps IH]; intros po H; [done|]. apply IH. intros c.
  unfold drop_provider. case_decide as He.
  - destruct (decide (x = c)) as [->|]; [by rw lookup_delete_eq|by rw lookup_delete_ne].
  - destruct (decide (x = c)) as [->|]; [rw lookup_insert_eq; congruence|by rw lookup_insert_ne].
Qed.

Lemma occ_rep p n name : occ p (rep n name) = if decide (name = p) then n else 0%nat.
Proof.
  unfold rep. induction n as [|n IH]; simpl; [by case_decide|].
  case_decide; subst; [by rw occ_cons_eq IH|by rw occ_cons_ne].
Qed.

Lemma occ_removeString p l s :
  occ p (removeString l s) = if decide (p = s) then 0%nat else occ p l.
Proof.
  unfold removeString. induction l as [|x l IH]; [by case_decide|].
  destruct (decide (x = s)) as [->|Hx].
  - rw filter_cons_False; last naive_solver. rw IH. case_decide; [done|]. by rw occ_cons_ne; last congruence.
  - rw filter_cons_True //. destruct (decide (x = p)) as [->|Hp].
    + rw !occ_cons_eq IH. by rw !decide_False.
    + by rw !occ_cons_ne.
Qed.

Lemma empty_registry_wf : registry_wf empty_registry.
Proof.
  constructor; [done|done|]. intros p c. unfold declared. simpl. by rw lookup_empty.
Qed.

Lemma Registry_insert_Ok r m r' :
  Registry_insert r m = Ok r' <->
  byName r !! name_of m = None /\
  r' = mkRegistry (<[name_of m := m]> (byName r))
         (fold_left (add_provider (name_of m)) (Manifest_ProvidesCaps m) (providerOf r)).
Proof. unfold Registry_insert. destruct (byName r !! name_of m); naive_solver. Qed.

Lemma Registry_insert_wf r m r' :
  registry_wf r -> Registry_insert r m = Ok r' -> registry_wf r'.
Proof.
  intros [Hn He Hi] (Hnew & ->)%Registry_insert_Ok. constructor; simpl.
  - intros n m'. rw lookup_insert_Some. naive_solver.
  - by apply add_provider_no_empty.
  - intros p c. rw add_providers occ_app occ_rep Hi. unfold declared; simpl. case_decide as E.
    + subst. by rw lookup_insert_eq Hnew.
    + by rw lookup_insert_ne // Nat.add_0_r.
Qed.

Lemma insert_all_wf ms r r' :
  registry_wf r -> insert_all r ms = Ok r' -> registry_wf r'.
Proof.
  revert r. induction ms as [|m ms IH]; simpl; intros r Hr; [by intros [= <-]|].
  rw result_bind_Ok. intros (r1 & H1 & H2). eapply IH; [|done]. by eapply Registry_insert_wf.
Qed.

Lemma Registry_Deregister_wf r n : registry_wf r -> registry_wf (Registry_Deregister r n).
Proof.
  intros [Hn He Hi]. unfold Registry_Deregister. destruct (byName r !! n) as [m|] eqn:Em; [|done].
  constructor; simpl.
  - intros n' m'. rw lookup_delete_Some. naive_solver.
  - by apply drop_provider_no_empty.
  - intros p c. rw drop_providers. unfold declared; simpl.
    destruct (decide (p = n)) as [->|Hpn].
    + rw lookup_delete_eq. case_decide as Hc; [by rw occ_removeString decide_True|].
      rw Hi /declared Em. destruct (decide (occ c (Manifest_ProvidesCaps m) = 0%nat)); [done|].
      by destruct Hc; apply occ_elem.
    + rw lookup_delete_ne //. transitivity (declared r p c); [rw -Hi|done].
      case_decide; [by rw occ_removeString decide_False|done].
Qed.

(** One live mutation of a running registry. *)
Inductive registry_step : Registry -> Registry -> Prop :=
  | step_register r m r' : Registry_Register r m = Ok r' -> registry_step r r'
  | step_deregister r n : registry_step r (Registry_Deregister r n).

Lemma registry_step_wf r r' : registry_wf r -> registry_step r r' -> registry_wf r'.
Proof.
  intros Hr Hs. destruct Hs; [by eapply Registry_insert_wf|by apply Registry_Deregister_wf].
Qed.

(** C26: Whatever manifests a registry is built from and whatever registrations and
    deregistrations follow, its two indexes agree: every plugin is filed under its own
    name, a capability with no provider has no entry, and a plugin occurs in the
    provider set of a capability exactly as often as its manifest declares it. *)
Theorem registry_index_invariant (ms : list Manifest) (r0 r : Registry) :
  New ms = Ok r0 -> rtc registry_step r0 r -> registry_wf r.
Proof.
  intros H0 Hsteps. assert (registry_wf r0) as Hwf by (eapply insert_all_wf; [apply empty_registry_wf|done]).
  clear H0. induction Hsteps as [|r1 r2 r3 Hs _ IH]; [done|]. apply IH. by eapply registry_step_wf.
Qed.

Lemma provider_registered r c p :
  registry_wf r -> p ∈ providers (providerOf r) c ->
  exists m, byName r !! p = Some m /\ c ∈ Manifest_ProvidesCaps m.
Proof.
  intros Hr H. apply occ_elem in H. rw (wf_index r Hr) in H. unfold declared in H.
  destruct (byName r !! p) as [m|] eqn:E; [|done]. exists m. split; [done|]. by apply occ_elem.
Qed.

(** Manifests with distinct names all get registered, under their own names. *)
Lemma insert_all_distinct ms r :
  NoDup (name_of <$> ms) -> Forall (fun m => byName r !! name_of m = None) ms ->
  exists r', insert_all r ms = Ok r' /\ Forall (fun m => byName r' !! name_of m = Some m) ms /\
    forall n m, byName r !! n = Some m -> byName r' !! n = Some m.
Proof.
  revert r. induction ms as [|m ms IH]; intros r; simpl; [by exists r|].
  intros [Hn Hnd]%NoDup_cons [Hm Hms]%Forall_cons. unfold Registry_insert. rw Hm /=.
  destruct (IH (mkRegistry (<[name_of m := m]> (byName r))
                  (fold_left (add_provider (name_of m)) (Manifest_ProvidesCaps m) (providerOf r))) Hnd)
    as (r' & Hr' & Hall & Hold).
  - rewrite Forall_forall in Hms. apply Forall_forall. intros x Hx. simpl.
    rw lookup_insert_ne; [by apply Hms|]. intros E. apply Hn. apply list_elem_of_fmap. by exists x.
  - exists r'. split_and!; [done| |].
    + constructor; [|done]. apply Hold. apply lookup_insert_eq.
    + intros n m' Hr. apply Hold. simpl. rw lookup_insert_ne; [done|]. intros E. rewrite E in Hm. congruence.
Qed.

(** ** Selection *)

(** A selector asks for every one of its labels; a label that is missing reads as empty. *)
Definition selected (selector labels : gmap string string) : Prop :=
  forall k v, selector !! k = Some v -> default "" (labels !! k) = v.

Lemma labelsMatch_selected labels selector : labelsMatch labels selector = true <-> selected selector labels.
Proof.
  unfold labelsMatch. rewrite forallb_forall. split.
  - intros H k v Hk. specialize (H (k, v)). apply (bool_decide_eq_true _), H, list_elem_of_In. by apply elem_of_map_to_list.
  - intros H [k v] Hk%list_elem_of_In%elem_of_map_to_list. by apply bool_decide_eq_true, H.
Qed.

(** What it means for a plugin to be an eligible provider of a call. *)
Definition serves (r : Registry) (capURI : string) (selector : gmap string string) (p : string) : Prop :=
  exists m, byName r !! p = Some m /\ capURI ∈ Manifest_ProvidesCaps m /\ selected selector (md_Labels (Meta m)).

(** It is the only one, and lists the capability once. *)
Definition sole_provider (r : Registry) (capURI : string) (selector : gmap string string) (p : string) : Prop :=
  (forall q, serves r capURI selector q <-> q = p) /\
  forall m, byName r !! p = Some m -> occ capURI (Manifest_ProvidesCaps m) = 1%nat.

Definition authorized (r : Registry) (caller capURI : string) : Prop :=
  exists cm, byName r !! caller = Some cm /\ capURI ∈ Manifest_RequiresCaps cm /\
    exists p m, byName r !! p = Some m /\ capURI ∈ Manifest_ProvidesCaps m.

Definition matches (r : Registry) (selector : gmap string string) (p : string) : Prop :=
  exists m, byName r !! p = Some m /\ labelsMatch (md_Labels (Meta m)) selector = true.
#[export] Instance matches_dec r sel p : base.Decision (matches r sel p).
Proof.
  destruct (byName r !! p) as [m|] eqn:E.
  - destruct (labelsMatch (md_Labels (Meta m)) sel) eqn:E2.
    + left. by exists m.
    + right. intros (m' & ? & ?). congruence.
  - right. intros (m' & ? & ?). congruence.
Defined.

Lemma matching_filter r sel ps :
  Forall (fun p => is_Some (byName r !! p)) ps ->
  matching r sel ps = Some (filter (matches r sel) ps).
Proof.
  induction 1 as [|p ps [m Hm] _ IH]; [done|]. simpl. rw Hm IH. simpl. f_equal.
  destruct (labelsMatch _ _) eqn:E.
  - by rw filter_cons_True; last by exists m.
  - rw filter_cons_False //. intros (m' & ? & ?). congruence.
Qed.

Lemma providers_all_registered r c :
  registry_wf r -> Forall (fun p => is_Some (byName r !! p)) (providers (providerOf r) c).
Proof.
  intros Hr. apply Forall_forall. intros p Hp.
  destruct (provider_registered r c p Hr Hp) as (m & -> & _). eauto.
Qed.

Lemma serves_matched r c sel p :
  registry_wf r -> p ∈ filter (matches r sel) (providers (providerOf r) c) <-> serves r c sel p.
Proof.
  intros Hr. rw list_elem_of_filter. split.
  - intros [(m & Hm & Hl) Hp]. destruct (provider_registered r c p Hr Hp) as (m' & ? & ?).
    simplify_eq. exists m. by rewrite -labelsMatch_selected.
  - intros (m & Hm & Hc & Hl%labelsMatch_selected). split; [by exists m|]. apply occ_elem.
    rw (wf_index r Hr) /declared Hm. by apply occ_elem.
Qed.

(** A provider is matched as often as it lists the capability. *)
Lemma occ_matched r c sel p : registry_wf r ->
  occ p (filter (matches r sel) (providers (providerOf r) c)) = if decide (matches r sel p) then declared r p c else 0%nat.
Proof.
  intros Hr. rewrite -(wf_index r Hr). generalize (providers (providerOf r) c). intros l.
  induction l as [|x l IH]; [by case_decide|]. rewrite filter_cons. destruct (decide (x = p)) as [->|Hx].
  - rewrite occ_cons_eq. case_decide; [|exact IH]. by rewrite occ_cons_eq IH.
  - rewrite (occ_cons_ne p x l Hx). destruct (decide (matches r sel x)); [by rewrite occ_cons_ne|exact IH].
Qed.

Lemma occ_singleton (l : list string) p : (forall q, occ q l = if decide (q = p) then 1%nat else 0%nat) <-> l = [p].
Proof.
  split; [|intros ->; intros q; case_decide as E; [subst q; by rewrite occ_cons_eq|by rewrite occ_cons_ne]].
  intros H. destruct l as [|x [|y l]].
  - specialize (H p). by rewrite decide_True in H.
  - pose proof (H x) as Hx. rewrite occ_cons_eq in Hx. case_decide as E; [by subst x|done].
  - exfalso. pose proof (H x) as Hx. pose proof (H y) as Hy. rewrite occ_cons_eq in Hx. case_decide as Ex; [|done]. subst x.
    destruct (decide (y = p)) as [->|Ey]; [rewrite occ_cons_eq in Hx; lia|].
    rewrite occ_cons_ne // in Hy. by rewrite occ_cons_eq in Hy.
Qed.

Lemma sole_provider_matched r c sel p : registry_wf r ->
  sole_provider r c sel p <-> filter (matches r sel) (providers (providerOf r) c) = [p].
Proof.
  intros Hr. rewrite -occ_singleton. set (l := filter _ _). split.
  - intros [Hs Hc] q. case_decide as E.
    + subst q. assert (serves r c sel p) as (m & Hm & Hin & Hsel) by by apply Hs.
      unfold l. rewrite occ_matched // decide_True; [unfold declared; rewrite Hm; by apply Hc|]. exists m. by rewrite labelsMatch_selected.
    + destruct (decide (occ q l = 0%nat)) as [|Hq]; [done|]. apply occ_elem, serves_matched, Hs in Hq; done.
  - intros H. split.
    + intros q. rewrite -serves_matched // occ_elem. fold l. rewrite H. by case_decide.
    + intros m Hm. specialize (H p). rewrite decide_True // in H. unfold l in H. rewrite occ_matched // in H.
      case_decide; [|done]. unfold declared in H. by rewrite Hm in H.
Qed.

Lemma sort_singleton l p : sort_strings l = [p] <-> l = [p].
Proof.
  split; [|by intros ->]. intros H. apply Permutation_singleton_r. by rw -H sort_strings_Permutation.
Qed.

Lemma no_providers r c :
  registry_wf r -> providers (providerOf r) c = [] <->
  ~ exists p m, byName r !! p = Some m /\ c ∈ Manifest_ProvidesCaps m.
Proof.
  intros Hr. split.
  - intros E (p & m & Hm & Hc%occ_elem). apply Hc.
    pose proof (wf_index r Hr p c) as Hi. unfold declared in Hi. by rw E Hm in Hi.
  - intros H. destruct (providers (providerOf r) c) as [|p ps] eqn:E; [done|]. destruct H. exists p.
    apply provider_registered; [done|]. rw E. left.
Qed.

Lemma authorized_split r caller cm c :
  registry_wf r -> byName r !! caller = Some cm ->
  authorized r caller c <->
  c ∈ Manifest_RequiresCaps cm /\ providers (providerOf r) c <> [].
Proof.
  intros Hr Hcm. rw no_providers //. unfold authorized. split.
  - intros (cm' & ? & ? & H). simplify_eq. tauto.
  - intros [H1 H2]. exists cm. split_and!; [done..|].
    destruct (providers (providerOf r) c) as [|p ps] eqn:E.
    + by apply no_providers in E.
    + exists p. apply provider_registered; [done|]. rw E. left.
Qed.

(** The selection, case by case of its decision. *)
Lemma Select_decides (r : Registry) (caller capURI : string) (sel : gmap string string) :
  registry_wf r ->
  exists d, Registry_Select r caller capURI sel = Some d /\
    (Authorized d = true <-> authorized r caller capURI) /\
    (forall p, Allowed d = true /\ Provider d = p <->
       authorized r caller capURI /\ sole_provider r capURI sel p).
Proof.
  intros Hr. unfold Registry_Select. destruct (byName r !! caller) as [cm|] eqn:Hcm; last first.
  { eexists; split; [done|]. split; [split; [done|]|intros p; split; [by intros []|]];
      intros; destruct_and?; unfold authorized in *; naive_solver. }
  pose proof (authorized_split r caller cm capURI Hr Hcm) as Ha.
  destruct (contains (Manifest_RequiresCaps cm) capURI) eqn:Hc; simpl; last first.
  { eexists; split; [done|]. rw -not_true_iff_false contains_elem in Hc. simpl. naive_solver. }
  apply contains_elem in Hc. case_decide as Hp.
  { eexists; split; [done|]. simpl. naive_solver. }
  rw matching_filter; last by apply providers_all_registered. simpl. eexists; split; [done|].
  set (l := filter _ _).
  assert (forall p, sole_provider r capURI sel p <-> sort_strings l = [p]) as Hs by (intros p; by rw sort_singleton -sole_provider_matched).
  setoid_rewrite Hs. destruct (sort_strings l) as [|p0 [|p1 ms]]; simpl; naive_solver.
Qed.

Lemma denied_names_nobody r caller capURI sel d :
  Registry_Select r caller capURI sel = Some d -> Allowed d = false -> Provider d = "".
Proof.
  unfold Registry_Select. destruct (byName r !! caller); [|by intros [= <-]]. destruct (negb _); [by intros [= <-]|].
  case_decide; [by intros [= <-]|]. destruct (matching _ _ _) as [l|]; [|done]. simpl. intros [= <-].
  by destruct (sort_strings l) as [|p [|q l']].
Qed.


(** ** Registration order

    Two registries that differ only in the order of their provider slices. *)
#[export] Instance registry_equiv : Equiv Registry := fun r1 r2 =>
  byName r1 = byName r2 /\ forall c, providers (providerOf r1) c ≡ₚ providers (providerOf r2) c.

#[export] Instance registry_equiv_equivalence : Equivalence (≡@{Registry}).
Proof.
  split.
  - by intros r.
  - intros r1 r2 [H1 H2]. split; [done|]. intros c. by rw H2.
  - intros r1 r2 r3 [H1 H2] [H3 H4]. split; [congruence|]. intros c. by rw H2.
Qed.

Lemma matching_ext r1 r2 sel ps : byName r1 = byName r2 -> matching r1 sel ps = matching r2 sel ps.
Proof. intros E. induction ps as [|p ps IH]; [done|]. simpl. by rw E IH. Qed.

Lemma matching_perm r sel ps1 ps2 :
  ps1 ≡ₚ ps2 -> sort_strings <$> matching r sel ps1 = sort_strings <$> matching r sel ps2.
Proof.
  intros Hp.
  enough (option_Forall2 Permutation (matching r sel ps1) (matching r sel ps2)) as H.
  { destruct H as [l1 l2 H|]; simpl; [by rw H|done]. }
  induction Hp as [|p l1 l2 _ IH|p q l|l1 l2 l3 _ IH1 _ IH2]; simpl.
  - by constructor.
  - destruct (byName r !! p); simpl; [|constructor]. destruct IH; simpl; [|constructor].
    constructor. case_match; by [constructor|].
  - destruct (byName r !! p), (byName r !! q); simpl; try constructor;
      destruct (matching r sel l); simpl; try constructor;
      repeat case_match; by [constructor|].
  - inversion IH1 as [?? H1 E1 E2|E1 E2]; inversion IH2 as [?? H2 E3 E4|E3 E4]; subst;
      try congruence; constructor. simplify_eq. etrans; [done|]. congruence.
Qed.

(** Selection does not see the order of the provider slices. *)
#[export] Instance Select_Proper : Proper ((≡) ==> eq ==> eq ==> eq ==> eq) Registry_Select.
Proof.
  intros r1 r2 [E HP] c ? <- cap ? <- sel ? <-. unfold Registry_Select. rw -E.
  destruct (byName r1 !! c) as [cm|]; [|done]. case_match; [done|].
  pose proof (HP cap) as HPc. unfold sortedCopy. rw (sort_strings_perm _ _ HPc).
  assert (providers (providerOf r1) cap = [] <-> providers (providerOf r2) cap = []) as Hnil.
  { split; intros Hz; rw Hz in HPc; by apply Permutation_nil; rw HPc. }
  repeat case_decide; try tauto.
  pose proof (matching_perm r1 sel _ _ HPc) as Hm.
  rw (matching_ext r2 r1) //. destruct (matching r1 sel _), (matching r1 sel _);
    simplify_eq/=; [|done]. by rw Hm.
Qed.

Lemma insert_equiv r1 r2 m r1' :
  r1 ≡ r2 -> Registry_insert r1 m = Ok r1' ->
  exists r2', Registry_insert r2 m = Ok r2' /\ r1' ≡ r2'.
Proof.
  intros [E HP]. setoid_rewrite Registry_insert_Ok. intros [Hn ->]. eexists; split.
  - split; [by rw -E|done].
  - split; simpl; [by rw E|]. intros c. by rw !add_providers HP.
Qed.

Lemma insert_comm r m1 m2 r1 r12 :
  Registry_insert r m1 = Ok r1 -> Registry_insert r1 m2 = Ok r12 ->
  exists r2 r21, Registry_insert r m2 = Ok r2 /\ Registry_insert r2 m1 = Ok r21 /\ r12 ≡ r21.
Proof.
  setoid_rewrite Registry_insert_Ok. intros [H1 ->] [H2 ->]. simpl in *.
  apply lookup_insert_None in H2 as [H2 Hne].
  eexists _, _. split; [split; [done|reflexivity]|split; [split; [|reflexivity]|]].
  - simpl. by rw lookup_insert_ne.
  - split; simpl; [by rw insert_insert_ne|]. intros c. rw !add_providers -!app_assoc.
    f_equiv. by rw (Permutation_app_comm (rep _ (name_of m1))).
Qed.

Lemma insert_all_equiv ms r1 r2 r1' :
  r1 ≡ r2 -> insert_all r1 ms = Ok r1' -> exists r2', insert_all r2 ms = Ok r2' /\ r1' ≡ r2'.
Proof.
  revert r1 r2. induction ms as [|m ms IH]; intros r1 r2 E; simpl; [intros [= <-]; eauto|].
  setoid_rewrite result_bind_Ok. intros (r & H1 & H2).
  destruct (insert_equiv r1 r2 m r E H1) as (r' & ? & E').
  destruct (IH r r' E' H2) as (r'' & ? & ?). eauto.
Qed.

Lemma insert_all_perm ms1 ms2 r r1 :
  ms1 ≡ₚ ms2 -> insert_all r ms1 = Ok r1 -> exists r2, insert_all r ms2 = Ok r2 /\ r1 ≡ r2.
Proof.
  intros Hp. revert r r1.
  induction Hp as [|m l1 l2 _ IH|m1 m2 l|l1 l2 l3 _ IH1 _ IH2]; intros r r1; simpl.
  - eauto.
  - setoid_rewrite result_bind_Ok. intros (r' & H1 & (r2 & ? & ?)%IH). eauto 6.
  - setoid_rewrite result_bind_Ok. setoid_rewrite result_bind_Ok.
    intros (ra & Ha & rb & Hb & Hc).
    destruct (insert_comm r m2 m1 ra rb Ha Hb) as (rc & rd & ? & ? & E).
    destruct (insert_all_equiv l rb rd r1 E Hc) as (re & ? & ?). eauto 10.
  - intros (r2 & H2 & E2)%IH1. apply IH2 in H2 as (r3 & ? & E3). exists r3. split; [done|].
    by rw E2.
Qed.

(** The order manifests are loaded in is irrelevant: any permutation of a loadable
    set is loadable and every call gets the same decision, reason included. *)
Theorem Select_order_independent (ms1 ms2 : list Manifest) (r1 : Registry) :
  ms1 ≡ₚ ms2 -> New ms1 = Ok r1 ->
  exists r2, New ms2 = Ok r2 /\
    forall caller capURI sel,
      Registry_Select r1 caller capURI sel = Registry_Select r2 caller capURI sel.
Proof.
  intros Hp H. destruct (insert_all_perm ms1 ms2 _ r1 Hp H) as (r2 & ? & E).
  exists r2. split; [done|]. intros. by rw E.
Qed.

Lemma Deregister_Register (r r' : Registry) (m : Manifest) :
  registry_wf r -> Registry_Register r m = Ok r' -> Registry_Deregister r' (name_of m) = r.
Proof.
  intros Hr (Hnew & ->)%Registry_insert_Ok. unfold Registry_Deregister. simpl.
  rw lookup_insert_eq. destruct r as [bn po]. simpl in *. f_equal.
  - rw delete_insert_eq. by apply delete_id.
  - apply no_empty_ext.
    + by apply drop_provider_no_empty, add_provider_no_empty, Hr.
    + apply (wf_no_empty _ Hr).
    + intros c. rw drop_providers add_providers.
      assert (Forall (fun x => x <> name_of m) (providers po c)) as Hno.
      { apply Forall_forall. intros x Hx ->. apply occ_elem in Hx.
        rw (wf_index _ Hr) in Hx. unfold declared in Hx. simpl in Hx. by rw Hnew in Hx. }
      case_decide as Hc.
      * unfold removeString. rw filter_app filter_all // filter_none; [by rw app_nil_r|].
        apply Forall_replicate. tauto.
      * destruct (decide (occ c (Manifest_ProvidesCaps m) = 0%nat)) as [->|Hz].
        -- by rw app_nil_r.
        -- by destruct Hc; apply occ_elem.
Qed.

(** Registering a plugin and deregistering it restores the registry exactly, both
    indexes included. *)
Theorem Deregister_undoes_Register (r r' : Registry) (m : Manifest) :
  registry_wf r -> Registry_Register r m = Ok r' -> Registry_Deregister r' (name_of m) = r.
Proof. apply Deregister_Register. Qed.

(** What [Verify], [Conforms] and [IsRevoked] amount to for one manifest. *)
Definition attested {PublicKey : Type} (vf : PublicKey -> string -> string -> bool) (a : Authority (PublicKey := PublicKey))
    (now : Z) (m : Manifest) (att : Attestation) : Prop :=
  PluginName att = md_Name (Meta m) /\
  (exists pub, keys a !! KeyID att = Some pub /\
     vf pub (PluginName att +:+ nul +:+ Join (sort_strings (Conformed att)) nl +:+ nul +:+ KeyID att +:+ nul +:+ itoa (ExpiresAtUnixMs att))
       (Signature att) = true) /\
  (ExpiresAtUnixMs att = 0 \/ now < ExpiresAtUnixMs att) /\
  forall c, c ∈ (Capability <$> Provides m) -> c ∈ Conformed att /\ revoked a !! (md_Name (Meta m) +:+ nul +:+ c) <> Some true.

Lemma verify_manifest_None {PublicKey : Type} (vf : PublicKey -> string -> string -> bool) a now atts m :
  verify_manifest vf a now atts m = None <->
  Provides m = [] \/ exists att, atts !! md_Name (Meta m) = Some att /\ attested vf a now m att.
Proof.
  unfold verify_manifest. change (name_of m) with (md_Name (Meta m)).
  destruct (Manifest_ProvidesCaps m) as [|c0 cs] eqn:Ecs.
  { split; [left|done]. unfold Manifest_ProvidesCaps, uris in Ecs. by destruct (Provides m). }
  assert (Provides m <> []) as Hne by (intros E; unfold Manifest_ProvidesCaps, uris in Ecs; by rewrite E in Ecs).
  rewrite -Ecs. destruct (atts !! md_Name (Meta m)) as [att|]; [|split; [done|intros [?|(? & [=] & _)]; done]].
  trans (attested vf a now m att); [|split; [right; by exists att|intros [?|(? & [= <-] & ?)]; done]].
  unfold attested. destruct (bool_decide (PluginName att = md_Name (Meta m))) eqn:En; cbn [negb]; last first.
  { apply bool_decide_eq_false in En. split; [done|]. by intros [? _]. }
  apply bool_decide_eq_true in En. destruct (Authority_Verify vf a now att) eqn:Hv.
  { split; [done|]. intros (_ & (pub & Hk & Hs) & He & _). assert (Authority_Verify vf a now att = None) as E; [|congruence].
    apply Authority_Verify_None. by exists pub. }
  apply Authority_Verify_None in Hv as (pub & Hk & Hs & He). rewrite first_error_None Forall_fmap Forall_forall.
  trans (forall c, c ∈ Manifest_ProvidesCaps m -> c ∈ Conformed att /\ revoked a !! (md_Name (Meta m) +:+ nul +:+ c) <> Some true).
  2: { split; [|by intros (_ & _ & _ & ?)]. intros Hc. split_and!; [done| |done|done]. by exists pub. }
  apply forall_proper. intros c. apply imp_iff_compat_l. cbn. unfold verify_cap, Authority_IsRevoked, revokeKey.
  destruct (Attestation_Conforms att c) eqn:Ec; cbn [negb]; last first.
  { split; [done|]. intros [Hin _]. apply contains_elem in Hin. unfold Attestation_Conforms, contains in *. congruence. }
  apply contains_elem in Ec. destruct (revoked a !! _) as [[]|]; cbn; split; try done; by intros [_ []].
Qed.

(** C38: [NewVerified] builds a registry exactly when there is an authority, every plugin that
    provides something is attested, and the registry of the manifests can be built; and then
    it is that registry.  Attested means: there is an attestation under the plugin's name and
    for it, whose signature over its own contents verifies under the key of the ring that it
    names, which is unexpired at the time it is looked at, and which covers every provided
    capability, none of them revoked for the plugin. *)
Theorem NewVerified_sound {PublicKey : Type} (vf : PublicKey -> string -> string -> bool)
    (ms : list Manifest) (atts : gmap string Attestation)
    (au : option (Authority (PublicKey := PublicKey))) (now : nat -> Z) (r : Registry) :
  NewVerified vf ms atts au now = Ok r <->
  exists a, au = Some a /\ New ms = Ok r /\
    forall i m, ms !! i = Some m -> Provides m <> [] ->
      exists att, atts !! md_Name (Meta m) = Some att /\ PluginName att = md_Name (Meta m) /\
        (exists pub, keys a !! KeyID att = Some pub /\
           vf pub (PluginName att +:+ nul +:+ Join (sort_strings (Conformed att)) nl +:+ nul +:+ KeyID att +:+ nul +:+ itoa (ExpiresAtUnixMs att))
             (Signature att) = true) /\
        (ExpiresAtUnixMs att = 0 \/ now i < ExpiresAtUnixMs att) /\
        forall c, c ∈ (Capability <$> Provides m) -> c ∈ Conformed att /\ revoked a !! (md_Name (Meta m) +:+ nul +:+ c) <> Some true.
Proof.
  change (NewVerified vf ms atts au now = Ok r <->
    exists a, au = Some a /\ New ms = Ok r /\
      forall i m, ms !! i = Some m -> Provides m <> [] -> exists att, atts !! md_Name (Meta m) = Some att /\ attested vf a (now i) m att).
  unfold NewVerified. destruct au as [a|]; [|split; [done|by intros (? & [=] & _)]].
  trans (first_error (imap (fun i m => verify_manifest vf a (now i) atts m) ms) = None /\ New ms = Ok r).
  { destruct (first_error _); split; [done|by intros [[=] _]|done|by intros [_ ?]]. }
  rewrite first_error_None Forall_lookup. setoid_rewrite list_lookup_imap. split.
  - intros [Hf Hn]. exists a. split_and!; [done..|]. intros i m Hi Hne.
    specialize (Hf i (verify_manifest vf a (now i) atts m)). rewrite Hi in Hf. specialize (Hf eq_refl).
    by apply verify_manifest_None in Hf as [?|?].
  - intros (a' & [= <-] & Hn & Hall). split; [|done]. intros i e He. destruct (ms !! i) as [m|] eqn:Hi; [|done]. cbn in He. injection He as <-.
    apply verify_manifest_None. destruct (decide (Provides m = [])); [by left|right; by apply Hall].
Qed.

(** ** Where the code and its comments part *)

Definition demo_manifest (name : string) (provides requires : list string)
    (labels : gmap string string) : Manifest :=
  mkManifest "v1" "engine" (mkMetadata name "1" labels) [] (mkRef <$> provides) (mkRef <$> requires)
    [] (mkResources (mkQuantities "" "") (mkQuantities "" "")) [] (mkContributes []) "".

(** A manifest that lists one capability twice is its own rival: the only provider is
    refused as ambiguous, although the comment of [Select] speaks of more than one
    distinct match. *)
Theorem duplicate_provides_is_ambiguous :
  exists r d, New [demo_manifest "cli" [] ["rat://engine/v1/execute"] ∅;
                   demo_manifest "duck" ["rat://engine/v1/execute"; "rat://engine/v1/execute"] [] ∅] = Ok r /\
    Registry_Select r "cli" "rat://engine/v1/execute" ∅ = Some d /\ Allowed d = false /\
    Reason d = ("selection: selector %s is ambiguous for %q — matches %s; refine it",
                ["{}"; "rat://engine/v1/execute"; "duck, duck"]).
Proof. eexists _, _. split_and!; vm_compute; reflexivity. Qed.

(** A selector that asks for an empty label value is satisfied by a provider that has
    no such label at all, although [labelsMatch] documents "present and equal". *)
Theorem empty_selector_value_matches_missing :
  labelsMatch ∅ {["tier" := ""]} = true /\ labelsMatch ∅ {["tier" := "x"]} = false.
Proof. by vm_compute. Qed.

(** ** The theorems at a concrete plane: one caller, two engines told apart by label *)

Definition execute_cap : string := "rat://engine/v1/execute".
Definition demo_plane : list Manifest :=
  [demo_manifest "cli" [] [execute_cap] ∅;
   demo_manifest "duck" [execute_cap] [] {["compute" := "small"]};
   demo_manifest "spark" [execute_cap] [] {["compute" := "big"]}].

Definition reg_of (ms : list Manifest) : Registry :=
  match New ms with Ok r => r | Err _ => empty_registry end.
Definition demo_registry : Registry := reg_of demo_plane.

Lemma demo_New : New demo_plane = Ok demo_registry.
Proof. vm_compute. reflexivity. Qed.

Lemma demo_wf : registry_wf demo_registry.
Proof. eapply insert_all_wf; [apply empty_registry_wf|apply demo_New]. Qed.

Lemma registry_index_invariant_witness :
  registry_wf (Registry_Deregister demo_registry "duck") /\
  providers (providerOf (Registry_Deregister demo_registry "duck")) execute_cap = ["spark"].
Proof.
  split; [|by vm_compute].
  apply (registry_index_invariant demo_plane demo_registry); [apply demo_New|].
  apply rtc_once. constructor.
Defined.


Lemma Select_order_independent_witness :
  exists r2, New (rev demo_plane) = Ok r2 /\
    Registry_Select demo_registry "cli" execute_cap {["compute" := "big"]} =
    Registry_Select r2 "cli" execute_cap {["compute" := "big"]}.
Proof.
  destruct (Select_order_independent demo_plane (rev demo_plane) demo_registry) as (r2 & H & HS).
  - apply Permutation_rev.
  - apply demo_New.
  - exists r2. split; [done|apply HS].
Defined.

Lemma Deregister_undoes_Register_witness :
  exists r', Registry_Register demo_registry (demo_manifest "trino" [execute_cap] [] ∅) = Ok r' /\
    Registry_Deregister r' "trino" = demo_registry.
Proof.
  eexists. split; [vm_compute; reflexivity|].
  apply (Deregister_undoes_Register demo_registry _ (demo_manifest "trino" [execute_cap] [] ∅)).
  - apply demo_wf.
  - vm_compute. reflexivity.
Defined.

Definition demo_attestation : Attestation := mkAttestation "duck" [execute_cap] "k1" 0 "ok".
Definition demo_verify (pub msg sig : string) : bool := bool_decide (sig = pub).

Lemma NewVerified_sound_witness :
  exists r att, NewVerified demo_verify [demo_manifest "duck" [execute_cap] [] ∅]
      {["duck" := demo_attestation]} (Some (NewAuthority {["k1" := "ok"]})) (fun _ => 0) = Ok r /\
    PluginName att = "duck" /\ execute_cap ∈ Conformed att.
Proof.
  eexists. eexists.
  assert (NewVerified demo_verify [demo_manifest "duck" [execute_cap] [] ∅]
      {["duck" := demo_attestation]} (Some (NewAuthority {["k1" := "ok"]})) (fun _ => 0)
    = Ok (reg_of [demo_manifest "duck" [execute_cap] [] ∅])) as H by (vm_compute; reflexivity).
  split; [exact H|].
  destruct (proj1 (NewVerified_sound _ _ _ _ _ _) H) as (a & _ & _ & Hall).
  destruct (Hall 0%nat _ eq_refl ltac:(discriminate)) as (att & Hatt & Hn & _ & _ & Hc).
  vm_compute in Hatt. injection Hatt as <-. split; [exact Hn|]. apply (Hc execute_cap). left.
Defined.
