(* ===== verification/CallContext.v ===== *)
(** The call envelope (contracts/proto/rat/common/v1/context.proto) and the request
    context a gRPC handler sees: metadata, the channel-authenticated caller, deadline
    and cancellation.  Protobuf encoding is third-party and stays a parameter of the
    functions that use it. *)
From S2P Require Import Prelude.

Record TraceContext := mkTrace {
  Traceparent : string;
  Tracestate : string;
  CorrelationId : string;
}.

Record SubjectAssertion := mkSubject {
  Principal : string;
  SubjectSignature : string;
  BoundCorrelationId : string;
  ExpiresUnixMs : Z;
  SubjectKeyId : string;
}.

Record Identity := mkIdentity {
  CallerPlugin : string;
  Subject : option SubjectAssertion;
  Tenant : string;
}.

(** A nil pointer is [None]. *)
Record RequestContext := mkRequestContext {
  rc_Trace : option TraceContext;
  rc_Identity : option Identity;
  rc_DeadlineUnixMs : Z;
}.

(** The generated getters are nil-safe and return the zero value. *)
Definition GetTrace (rc : option RequestContext) : option TraceContext := rc ≫= rc_Trace.
Definition GetIdentity (rc : option RequestContext) : option Identity := rc ≫= rc_Identity.
Definition GetDeadlineUnixMs (rc : option RequestContext) : Z := from_option rc_DeadlineUnixMs 0 rc.
Definition GetTraceparent (t : option TraceContext) : string := from_option Traceparent "" t.
Definition GetCorrelationId (t : option TraceContext) : string := from_option CorrelationId "" t.
Definition GetCallerPlugin (i : option Identity) : string := from_option CallerPlugin "" i.
Definition GetSubject (i : option Identity) : option SubjectAssertion := i ≫= Subject.
Definition GetTenant (i : option Identity) : string := from_option Tenant "" i.

(** [incoming] is the request metadata ([None] when the context carries none),
    [outgoing] what has been appended for the next hop, times are nanoseconds. *)
Record Ctx := mkCtx {
  incoming : option (gmap string (list string));
  outgoing : list (string * string);
  auth_caller : option string;
  deadline : option Z;
  cancelled_at : option Z;
}.

Definition set_auth_caller (name : string) (c : Ctx) : Ctx :=
  mkCtx (incoming c) (outgoing c) (Some name) (deadline c) (cancelled_at c).

Definition AppendToOutgoingContext (c : Ctx) (k v : string) : Ctx :=
  mkCtx (incoming c) (outgoing c ++ [(k, v)]) (auth_caller c) (deadline c) (cancelled_at c).

(** [context.WithDeadline] never extends the parent's deadline. *)
Definition WithDeadline (c : Ctx) (d : Z) : Ctx :=
  mkCtx (incoming c) (outgoing c) (auth_caller c)
    (Some match deadline c with Some d' => Z.min d d' | None => d end) (cancelled_at c).

(** [time.UnixMilli]. *)
Definition UnixMilli (ms : Z) : Z := ms * 1000000.

(** When and how a context ends: the earlier of its deadline and its cancellation. *)
Definition ctx_end (c : Ctx) : option (Z * error) :=
  match deadline c, cancelled_at c with
  | None, None => None
  | Some d, None => Some (d, ContextDeadlineExceeded)
  | None, Some t => Some (t, ContextCanceled)
  | Some d, Some t => if d <=? t then Some (d, ContextDeadlineExceeded) else Some (t, ContextCanceled)
  end.

(** [metadata.FromIncomingContext] followed by [md.Get(key)]. *)
Definition md_Get (c : Ctx) (key : string) : list string :=
  from_option (fun md : gmap string (list string) => default [] (md !! key)) [] (incoming c).

Definition callMetaHeader : string := "rat-callmeta-bin".

Section Wire.
Context (proto_Unmarshal : string -> option RequestContext).

Definition readCallMeta (c : Ctx) : option RequestContext :=
  match md_Get c callMetaHeader with
  | [] => None
  | v :: _ => proto_Unmarshal v
  end.
End Wire.

(** ** One hop

    gRPC carries the outgoing metadata of a call, whose keys are lower case, and none of the
    values of its context: [transport] turns the caller's context into the one the handler
    receives. *)
Definition lower_key (k : string) : Prop := str_map lower_byte k = k.
#[export] Instance lower_key_dec k : Decision (lower_key k).
Proof. unfold lower_key. apply _. Defined.

Record carries (transport : Ctx -> Ctx) : Prop := {
  hop_md : forall c k, Forall (fun kv => lower_key kv.1) (outgoing c) ->
    md_Get (transport c) k = (filter (fun kv => kv.1 = k) (outgoing c)).*2;
  hop_caller : forall c, auth_caller (transport c) = None;
}.

(** A hop that satisfies it. *)
Definition add_md (m : gmap string (list string)) (kv : string * string) : gmap string (list string) :=
  <[kv.1 := default [] (m !! kv.1) ++ [kv.2]]> m.
Definition plain_hop (c : Ctx) : Ctx := mkCtx (Some (fold_left add_md (outgoing c) ∅)) [] None None None.

Lemma add_md_get l m k :
  default [] (fold_left add_md l m !! k) = default [] (m !! k) ++ (filter (fun kv => kv.1 = k) l).*2.
Proof.
  revert m. induction l as [|[k' v] l IH]; intros m; [by rewrite app_nil_r|]. cbn [fold_left]. rewrite IH filter_cons.
  unfold add_md. cbn [fst snd]. destruct (decide (k' = k)) as [->|Hk].
  - rewrite lookup_insert_eq. cbn [default from_option id]. by rewrite fmap_cons -app_assoc.
  - by rewrite lookup_insert_ne.
Qed.
Lemma plain_hop_carries : carries plain_hop.
Proof.
  split; [|done]. intros c k _. unfold plain_hop, md_Get. cbn [incoming from_option]. by rewrite add_md_get lookup_empty.
Qed.

Definition wellFormedTraceparent (tp : string) : bool :=
  match Split "-" tp with
  | [a; b; c; d] => (len a =? 2) && (len b =? 32) && (len c =? 16) && (len d =? 2)
  | _ => false
  end.

Example wellFormedTraceparent_ex :
  wellFormedTraceparent "00-0af7651916cd43dd8448eb211c80319c-b7ad6b7169203331-01" = true /\
  wellFormedTraceparent "" = false.
Proof. by vm_compute. Qed.
