(* ===== verification/Gateway.v ===== *)
(** The capability-invoke gateway (src/core/gateway/gateway.go): channel
    authentication, the decision path [openCall] with its one audit record, the unary
    and streaming relays with their deadline and idle bounds. *)
From S2P Require Import Prelude Paths Manifest Registry CallContext.

Definition pluginTokenHeader : string := "rat-plugin-token".
Definition selectHeader : string := "rat-select".

Record AuditRecord := mkAudit {
  a_Capability : string;
  a_Caller : string;
  a_Provider : string;
  a_Correlation : string;
  a_Allowed : bool;
  a_Reason : message;
  a_Terminal : bool;
  a_Outcome : string;
  a_Frames : Z;
  a_Error : option error;
}.

Definition defaultStreamIdleTimeout : Z := 5 * 60 * 1000000000.

(** Service descriptors, as far as the route table reads them. *)
Record MethodDesc := mkMethod { method_Name : string; method_Capability : string }.
Record ServiceDesc := mkService { svc_FullName : string; svc_Methods : list MethodDesc }.
Definition FileDesc := list ServiceDesc.

Definition svc_routes (svc : ServiceDesc) (routes : gmap string string) : gmap string string :=
  fold_left (fun rs m => if decide (method_Capability m = "") then rs
                         else <[method_Capability m := "/" +:+ svc_FullName svc +:+ "/" +:+ method_Name m]> rs)
    (svc_Methods svc) routes.

Definition buildRoutes (fds : list FileDesc) : gmap string string :=
  fold_left (fun rs fd => fold_left (fun rs svc => svc_routes svc rs) fd rs) fds ∅.

(** [parseSelector]: a nil map and an empty one select alike, both are [∅]. *)
Definition parse_pair (out : gmap string string) (kv : string) : gmap string string :=
  let '(k, v, ok) := Cut "=" kv in
  let k := TrimSpace k in
  let v := TrimSpace v in
  if ok && negb (bool_decide (k = "")) then <[k := v]> out else out.

Definition parseSelector (s : string) : gmap string string :=
  if decide (TrimSpace s = "") then ∅ else fold_left parse_pair (Split "," s) ∅.

Definition firstHeader (c : Ctx) (key : string) : string :=
  match md_Get c key with v :: _ => v | [] => "" end.

Definition withAuthenticatedCaller (c : Ctx) (name : string) : Ctx := set_auth_caller name c.
Definition authenticatedCaller (c : Ctx) : string := default "" (auth_caller c).

(** [status.FromContextError]. *)
Definition FromContextError (e : error) : error :=
  match e with
  | ContextCanceled => Status Canceled "context canceled" []
  | ContextDeadlineExceeded => Status DeadlineExceeded "context deadline exceeded" []
  | e => StatusWrap Unknown "%v" [] e
  end.

Definition streamOutcome (err : option error) : string * option error :=
  match err with
  | None => ("success", None)
  | Some e =>
      if errors_Is e ContextCanceled || bool_decide (status_Code e = Canceled) then ("canceled", Some e)
      else if errors_Is e ContextDeadlineExceeded || bool_decide (status_Code e = DeadlineExceeded)
      then ("timeout", Some e)
      else ("error", Some e)
  end.

Section Gateway.
(** [Conn] is a gRPC client connection; the codec and the transport are third-party. *)
Context {Conn : Type}.
Context (proto_Unmarshal : string -> option RequestContext).
Context (proto_Marshal : RequestContext -> result string).

Record Gateway := mkGateway {
  reg : Registry;
  g_providers : gmap string (option Conn);
  routes : gmap string string;
  StreamIdleTimeout : Z;
  pluginTokens : gmap string string;
  requireAuth : bool;
}.

(** What a call does to the outside: audit records, metrics observations, and calls
    made on provider connections. *)
Record World := mkWorld {
  audits : list AuditRecord;
  observed : list (string * string);
  calls : list (Conn * Ctx * string * string);
}.

Definition Record_ (r : AuditRecord) (w : World) : World :=
  mkWorld (audits w ++ [r]) (observed w) (calls w).
Definition observe (capability outcome : string) (w : World) : World :=
  mkWorld (audits w) (observed w ++ [(capability, outcome)]) (calls w).
Definition called (conn : Conn) (c : Ctx) (method payload : string) (w : World) : World :=
  mkWorld (audits w) (observed w) (calls w ++ [(conn, c, method, payload)]).

Definition gateway_New (r : Registry) (providers : gmap string (option Conn))
    (descriptors : list FileDesc) : Gateway :=
  mkGateway r providers (buildRoutes descriptors) defaultStreamIdleTimeout ∅ false.

Definition with_tokens (g : Gateway) (toks : gmap string string) : Gateway :=
  mkGateway (reg g) (g_providers g) (routes g) (StreamIdleTimeout g) toks (requireAuth g).
Definition with_providers (g : Gateway) (ps : gmap string (option Conn)) : Gateway :=
  mkGateway (reg g) ps (routes g) (StreamIdleTimeout g) (pluginTokens g) (requireAuth g).

Definition Gateway_SetPluginToken (g : Gateway) (token name : string) : Gateway :=
  with_tokens g (<[token := name]> (pluginTokens g)).

Definition Gateway_RemovePluginToken (g : Gateway) (name : string) : Gateway :=
  with_tokens g (filter (fun '(_, n) => n <> name) (pluginTokens g)).

Definition Gateway_RequirePluginAuth (g : Gateway) (on : bool) : Gateway :=
  mkGateway (reg g) (g_providers g) (routes g) (StreamIdleTimeout g) (pluginTokens g) on.

(** [provider]: an absent entry and a stored nil connection read alike. *)
Definition Gateway_provider (g : Gateway) (name : string) : option Conn := mjoin (g_providers g !! name).

Definition Gateway_SetProvider (g : Gateway) (name : string) (conn : option Conn) :
    option Conn * Gateway :=
  (Gateway_provider g name, with_providers g (<[name := conn]> (g_providers g))).

Definition Gateway_RemoveProvider (g : Gateway) (name : string) : option Conn * Gateway :=
  (Gateway_provider g name, with_providers g (delete name (g_providers g))).

Definition Gateway_idleTimeout (g : Gateway) : Z :=
  if 0 <? StreamIdleTimeout g then StreamIdleTimeout g else defaultStreamIdleTimeout.

(** ** Channel authentication (C2) *)

Definition Gateway_authenticatePlugin (g : Gateway) (c : Ctx) : result string :=
  let tok := firstHeader c pluginTokenHeader in
  if negb (bool_decide (tok = "")) then
    match pluginTokens g !! tok with
    | Some name => Ok name
    | None => Err (Status Unauthenticated "C2: invalid plugin token" [])
    end
  else if requireAuth g then
    Err (Status Unauthenticated "C2: missing rat-plugin-token on the plugin door" [])
  else Ok "".

Definition authenticated_ctx (c : Ctx) (name : string) : Ctx :=
  if decide (name = "") then c else withAuthenticatedCaller c name.

(** Both interceptors hand the handler a context that carries the derived caller. *)
Definition PluginAuthUnaryInterceptor {A} (g : Gateway) (c : Ctx)
    (handler : Ctx -> World -> option (result A * World)) (w : World) : option (result A * World) :=
  match Gateway_authenticatePlugin g c with
  | Err e => Some (Err e, w)
  | Ok name => handler (authenticated_ctx c name) w
  end.

Definition PluginAuthStreamInterceptor (g : Gateway) (c : Ctx)
    (handler : Ctx -> World -> option (option error * World)) (w : World) :
    option (option error * World) :=
  match Gateway_authenticatePlugin g c with
  | Err e => Some (Some e, w)
  | Ok name => handler (authenticated_ctx c name) w
  end.

(** ** The decision path *)

Record openedCall := mkOpened {
  oc_ctx : Ctx;
  oc_method : string;
  oc_conn : Conn;
  oc_caller : string;
  oc_provider : string;
  oc_correlation : string;
}.

(** Re-stamped identity of the downstream hop; the trace is kept verbatim. *)
Definition restamp (inn : option RequestContext) (caller : string) : RequestContext :=
  mkRequestContext (GetTrace inn)
    (Some (mkIdentity caller (GetSubject (GetIdentity inn)) (GetTenant (GetIdentity inn))))
    (GetDeadlineUnixMs inn).

Definition bound_deadline (c : Ctx) (soft : Z) : Ctx :=
  if 0 <? soft then
    match deadline c with
    | None => WithDeadline c (UnixMilli soft)
    | Some dl => if UnixMilli soft <? dl then WithDeadline c (UnixMilli soft) else c
    end
  else c.

Definition caller_of (c : Ctx) (inn : option RequestContext) : string :=
  if decide (authenticatedCaller c = "") then GetCallerPlugin (GetIdentity inn)
  else authenticatedCaller c.

(** After the decision: route, provider connection, envelope, deadline. *)
Definition route_call (g : Gateway) (c : Ctx) (inn : option RequestContext)
    (caller capURI provider : string) : result openedCall :=
  match routes g !! capURI with
  | None => Err (Status Internal "no route for capability %q (descriptor not loaded)" [capURI])
  | Some method =>
    match Gateway_provider g provider with
    | None => Err (Status Unavailable "provider %q for %q is not connected" [provider; capURI])
    | Some conn =>
      match proto_Marshal (restamp inn caller) with
      | Err e => Err (StatusWrap Internal "marshal call-meta: %v" [] e)
      | Ok b =>
          let octx := AppendToOutgoingContext c callMetaHeader b in
          Ok (mkOpened (bound_deadline octx (GetDeadlineUnixMs inn)) method conn caller provider
                (GetCorrelationId (GetTrace inn)))
      end
    end
  end.

Definition decision_record (capURI caller correlation : string) (d : Decision) : AuditRecord :=
  mkAudit capURI caller (Provider d) correlation (Allowed d) (Reason d) false "" 0 None.

Definition reason_status (c : code) (m : message) : error := Status c m.1 m.2.

(** [None] is a panic inside [Select]. *)
Definition Gateway_openCall (g : Gateway) (c : Ctx) (capURI : string) (w : World) :
    option (result openedCall * World) :=
  let inn := readCallMeta proto_Unmarshal c in
  if negb (wellFormedTraceparent (GetTraceparent (GetTrace inn))) then
    Some (Err (Status InvalidArgument "C1: missing or ill-formed traceparent" []),
          observe capURI "invalid_trace" w)
  else
    let caller := caller_of c inn in
    let correlation := GetCorrelationId (GetTrace inn) in
    let selector := parseSelector (firstHeader c selectHeader) in
    d ← Registry_Select (reg g) caller capURI selector;
    let w := Record_ (decision_record capURI caller correlation d) w in
    Some (if Allowed d then
            (route_call g c inn caller capURI (Provider d), observe capURI "allow" w)
          else if Authorized d then
            (Err (reason_status FailedPrecondition (Reason d)), observe capURI "selection_failed" w)
          else
            (Err (reason_status PermissionDenied (Reason d)), observe capURI "permission_denied" w)).

(** ** The unary relay *)

Context (conn_Invoke : Conn -> Ctx -> string -> string -> result string).

Definition Gateway_Invoke (g : Gateway) (capability payload : string) (c : Ctx) (w : World) :
    option (result string * World) :=
  '(r, w) ← Gateway_openCall g c capability w;
  Some match r with
       | Err e => (Err e, w)
       | Ok oc => (conn_Invoke (oc_conn oc) (oc_ctx oc) (oc_method oc) payload,
                   called (oc_conn oc) (oc_ctx oc) (oc_method oc) payload w)
       end.

(** ** The streaming relay

    The provider's side of a stream is an unbounded script: when its n-th message would reach
    the gateway, and what it is ([Err EOF] for a clean end); a silent provider's next message
    is late.  The upstream's [Send] may fail at any frame; it is taken to be instantaneous. *)
Record recv := mkRecv { r_at : Z; r_msg : result string }.

(** How opening the stream goes: [NewStream], [SendMsg], [CloseSend], then the
    messages. *)
Record stream_script := mkScript {
  new_err : option error;
  send_err : option error;
  close_err : option error;
  opened_at : Z;
  msgs : nat -> recv;
  up_Send : nat -> option error;
}.
Context (conn_NewStream : Conn -> Ctx -> string -> string -> stream_script).

(** The time at which [RecvMsg] is cut, and the error the loop then reports. *)
Definition stream_cut (c : Ctx) (idle last : Z) : Z * error :=
  let timeout := Status DeadlineExceeded "stream idle timeout: no frame within %s" [itoa idle] in
  match ctx_end c with
  | Some (t, e) => if t <=? last + idle then (t, FromContextError e) else (last + idle, timeout)
  | None => (last + idle, timeout)
  end.

(** [frames] relayed so far, newest last; [fuel] bounds the messages received, and the relay
    still runs where there is no ending yet. *)
Fixpoint relay_loop (fuel : nat) (c : Ctx) (idle last : Z) (up : nat -> option error) (frames : list string)
    (ms : nat -> recv) : list string * option (option error) :=
  match fuel with
  | O => (frames, None)
  | S fuel =>
      let '(cut, e) := stream_cut c idle last in
      let m := ms (length frames) in
      if r_at m <? cut then
        match r_msg m with
        | Ok frame =>
            match up (length frames) with
            | Some ue => (frames, Some (Some ue))
            | None => relay_loop fuel c idle (r_at m) up (frames ++ [frame]) ms
            end
        | Err EOF => (frames, Some None)
        | Err pe => (frames, Some (Some pe))
        end
      else (frames, Some (Some e))
  end.

Definition Gateway_relayServerStream (fuel : nat) (g : Gateway) (oc : openedCall) (payload : string) :
    list string * option (option error) :=
  let s := conn_NewStream (oc_conn oc) (oc_ctx oc) (oc_method oc) payload in
  match new_err s with
  | Some e => ([], Some (Some e))
  | None => match send_err s with
    | Some e => ([], Some (Some e))
    | None => match close_err s with
      | Some e => ([], Some (Some e))
      | None => relay_loop fuel (oc_ctx oc) (Gateway_idleTimeout g) (opened_at s) (up_Send s) [] (msgs s)
      end
    end
  end.

Definition terminal_record (capability : string) (oc : openedCall) (frames : list string)
    (relayErr : option error) : AuditRecord :=
  let '(outcome, errMsg) := streamOutcome relayErr in
  mkAudit capability (oc_caller oc) (oc_provider oc) (oc_correlation oc) true ("", [])
    true outcome (Z.of_nat (length frames)) errMsg.

(** What the call returns, or nothing while the stream is still relayed. *)
Definition Gateway_InvokeServerStream (fuel : nat) (g : Gateway) (capability payload : string) (c : Ctx) (w : World) :
    option (option (option error) * World) :=
  '(r, w) ← Gateway_openCall g c capability w;
  Some match r with
       | Err e => (Some (Some e), w)
       | Ok oc =>
           let w := called (oc_conn oc) (oc_ctx oc) (oc_method oc) payload w in
           let '(frames, ended) := Gateway_relayServerStream fuel g oc payload in
           (ended, match ended with
                   | Some relayErr => Record_ (terminal_record capability oc frames relayErr) w
                   | None => w
                   end)
       end.
End Gateway.

(** ** What a call leaves behind *)

Section Laws.
Context {Conn : Type}.
Context (unmarshal : string -> option RequestContext) (marshal : RequestContext -> result string).
Context (conn_Invoke : Conn -> Ctx -> string -> string -> result string).
Context (conn_NewStream : Conn -> Ctx -> string -> string -> stream_script).
Implicit Types (g : Gateway (Conn := Conn)) (w : World (Conn := Conn)) (c : Ctx).

Definition traced c : bool :=
  wellFormedTraceparent (GetTraceparent (GetTrace (readCallMeta unmarshal c))).

(** The decision a call is subject to. *)
Definition decision_of g c (capURI : string) : option Decision :=
  Registry_Select (reg g) (caller_of c (readCallMeta unmarshal c)) capURI
    (parseSelector (firstHeader c selectHeader)).

Definition decision_audit c (capURI : string) (d : Decision) : AuditRecord :=
  decision_record capURI (caller_of c (readCallMeta unmarshal c))
    (GetCorrelationId (GetTrace (readCallMeta unmarshal c))) d.

(** An opened call: the route, the selected provider's connection, and a context that
    carries the re-stamped envelope and the tighter deadline. *)
Definition opens g c (capURI : string) (d : Decision) (oc : openedCall) : Prop :=
  let inn := readCallMeta unmarshal c in
  Allowed d = true /\ routes g !! capURI = Some (oc_method oc) /\
  Gateway_provider g (Provider d) = Some (oc_conn oc) /\
  oc_caller oc = caller_of c inn /\ oc_provider oc = Provider d /\
  oc_correlation oc = GetCorrelationId (GetTrace inn) /\
  exists b, marshal (restamp inn (caller_of c inn)) = Ok b /\
    oc_ctx oc = bound_deadline (AppendToOutgoingContext c callMetaHeader b) (GetDeadlineUnixMs inn).

Lemma openCall_cases g c capURI w r w' :
  Gateway_openCall unmarshal marshal g c capURI w = Some (r, w') ->
  calls w' = calls w /\
  ((traced c = false /\ audits w' = audits w /\
    r = Err (Status InvalidArgument "C1: missing or ill-formed traceparent" [])) \/
   (traced c = true /\ exists d, decision_of g c capURI = Some d /\
      audits w' = audits w ++ [decision_audit c capURI d] /\
      match r with
      | Ok oc => opens g c capURI d oc
      | Err e => Allowed d = false -> exists k, e = reason_status k (Reason d) /\
                   k = if Authorized d then FailedPrecondition else PermissionDenied
      end)).
Proof.
  unfold Gateway_openCall, traced. destruct (wellFormedTraceparent _) eqn:Ht; simpl; last first.
  { intros [= <- <-]. split; [done|]. by left. }
  fold (decision_of g c capURI). destruct (decision_of g c capURI) as [d|]; [|done]. simpl.
  intros H. assert (calls w' = calls w /\ audits w' = audits w ++ [decision_audit c capURI d]) as [-> ->].
  { by destruct (Allowed d), (Authorized d); injection H as <- <-. }
  split; [done|]. right. split; [done|]. exists d. split; [done|]. split; [done|].
  destruct (Allowed d) eqn:Hd; last first.
  { destruct (Authorized d) eqn:Ha; injection H as <- <-; eauto. }
  injection H as <- <-. unfold route_call.
  destruct (routes g !! capURI) as [m|] eqn:Hr; [|done].
  destruct (Gateway_provider g (Provider d)) as [cn|] eqn:Hp; [|done].
  destruct (marshal _) as [b|e] eqn:Hm; [|done]. unfold opens. simpl. split_and!; try done. by exists b.
Qed.

(** C5: Every unary call leaves exactly one decision record, bearing the decision's
    verdict, provider and reason — unless its traceparent is ill-formed, in which
    case it is refused with no record at all; and the provider is contacted, at most
    once and on the connection of the recorded provider, only after an allow. *)
Theorem Invoke_audited_once g capability payload c w r w' :
  Gateway_Invoke unmarshal marshal conn_Invoke g capability payload c w = Some (r, w') ->
  (traced c = false /\ audits w' = audits w /\ calls w' = calls w /\ is_Ok r = false) \/
  (traced c = true /\ exists d, decision_of g c capability = Some d /\
     audits w' = audits w ++ [decision_audit c capability d] /\
     ((calls w' = calls w /\ is_Ok r = false) \/
      exists oc, opens g c capability d oc /\
        calls w' = calls w ++ [(oc_conn oc, oc_ctx oc, oc_method oc, payload)] /\
        r = conn_Invoke (oc_conn oc) (oc_ctx oc) (oc_method oc) payload)).
Proof.
  unfold Gateway_Invoke. destruct (Gateway_openCall _ _ _ _ _ _) as [[r0 w0]|] eqn:Ho; [|done].
  apply openCall_cases in Ho as (Hc & [(Ht & Ha & ->)|(Ht & d & Hd & Ha & Hr)]).
  - intros [= <- <-]. left. by split_and!.
  - destruct r0 as [oc|e]; intros [= <- <-]; right; (split; [done|]); exists d;
      (split_and!; [done|done|]).
    + right. exists oc. split_and!; [done| |done]. simpl. by rw Hc.
    + left. by split.
Qed.

(** How a stream ended, told from its error alone. *)
Definition outcome_class (r : option error) (outcome : string) : Prop :=
  match r with
  | None => outcome = "success"
  | Some e =>
      let canceled := wraps ContextCanceled e \/ status_Code e = Canceled in
      let timeout := wraps ContextDeadlineExceeded e \/ status_Code e = DeadlineExceeded in
      canceled /\ outcome = "canceled" \/ ~ canceled /\ timeout /\ outcome = "timeout" \/
      ~ canceled /\ ~ timeout /\ outcome = "error"
  end.

Lemma streamOutcome_class r : outcome_class r (streamOutcome r).1 /\ (streamOutcome r).2 = r.
Proof.
  destruct r as [e|]; [|done]. unfold streamOutcome, outcome_class.
  assert (forall t k, errors_Is e t || bool_decide (status_Code e = k) = true <-> wraps t e \/ status_Code e = k) as Hb.
  { intros t k. by rewrite orb_true_iff bool_decide_eq_true errors_Is_wraps. }
  pose proof (Hb ContextCanceled Canceled) as H1. pose proof (Hb ContextDeadlineExceeded DeadlineExceeded) as H2.
  destruct (errors_Is e ContextCanceled || _); [split; [left; split; [by apply H1|done]|done]|].
  destruct (errors_Is e ContextDeadlineExceeded || _); (split; [right|done]).
  - left. split_and!; [by intros ?%H1|by apply H2|done].
  - right. split_and!; [by intros ?%H1|by intros ?%H2|done].
Qed.

(** C16: A streamed call that opens is recorded when its decision is taken, and once more when,
    and only when, it ends: the terminal record shares capability, caller, provider and
    correlation with the decision, counts the frames relayed, and carries the error the stream
    ended with and its class: success without an error, canceled for a cancellation, timeout
    for a deadline, error for anything else.  A call refused at open leaves at most its
    decision, no terminal record, and reaches no provider. *)
Theorem InvokeServerStream_audited fuel g capability payload c w r w' :
  Gateway_InvokeServerStream unmarshal marshal conn_NewStream fuel g capability payload c w = Some (r, w') ->
  (exists ds e, audits w' = audits w ++ ds /\ calls w' = calls w /\ r = Some (Some e) /\
     Forall (fun a => a_Terminal a = false) ds /\ (length ds <= 1)%nat) \/
  (exists d oc frames, decision_of g c capability = Some d /\ opens g c capability d oc /\
     calls w' = calls w ++ [(oc_conn oc, oc_ctx oc, oc_method oc, payload)] /\
     Gateway_relayServerStream conn_NewStream fuel g oc payload = (frames, r) /\
     match r with
     | None => audits w' = audits w ++ [decision_audit c capability d]
     | Some err => exists t, audits w' = audits w ++ [decision_audit c capability d; t] /\
         a_Terminal t = true /\ a_Allowed t = true /\ a_Frames t = Z.of_nat (length frames) /\
         outcome_class err (a_Outcome t) /\ a_Error t = err /\
         a_Capability t = capability /\ a_Caller t = a_Caller (decision_audit c capability d) /\
         a_Provider t = Provider d /\ a_Correlation t = a_Correlation (decision_audit c capability d)
     end).
Proof.
  unfold Gateway_InvokeServerStream.
  destruct (Gateway_openCall _ _ _ _ _ _) as [[r0 w0]|] eqn:Ho; [|done].
  apply openCall_cases in Ho as (Hc & [(Ht & Ha & ->)|(Ht & d & Hd & Ha & Hr)]).
  - intros [= <- <-]. left. exists [], (Status InvalidArgument "C1: missing or ill-formed traceparent" []).
    rw app_nil_r. split_and!; try done; simpl; lia.
  - destruct r0 as [oc|e]; simpl.
    + destruct (Gateway_relayServerStream conn_NewStream fuel g oc payload) as [frames re] eqn:Hrel.
      intros [= <- <-]. right. exists d, oc, frames. split_and!; [done|done| |done|].
      { by destruct re; cbn; rw Hc. }
      destruct re as [err|]; [|done]. exists (terminal_record capability oc frames err).
      destruct (streamOutcome_class err) as [Hk Hv]. destruct Hr as (_ & _ & _ & Hcal & Hprov & Hcor & _).
      unfold terminal_record. destruct (streamOutcome err) as [o m]. cbn [fst snd] in Hk, Hv. subst m. cbn.
      rw Ha -app_assoc. by split_and!.
    + intros [= <- <-]. left. exists [decision_audit c capability d], e.
      split_and!; try done; by constructor.
Qed.

(** ** Identity *)

(** The deadline of the provider call: the tighter of the channel's and the soft one. *)
Definition tighter (dl : option Z) (soft : Z) : option Z :=
  if 0 <? soft then Some (match dl with Some d => Z.min d (UnixMilli soft) | None => UnixMilli soft end)
  else dl.

Lemma bound_deadline_spec c soft :
  deadline (bound_deadline c soft) = tighter (deadline c) soft /\
  outgoing (bound_deadline c soft) = outgoing c.
Proof.
  unfold bound_deadline, tighter. destruct (0 <? soft); [|done].
  destruct (deadline c) as [dl|] eqn:E; [|by rw /= E].
  destruct (Z.ltb_spec (UnixMilli soft) dl); simpl; rw E; split; try done; f_equal; lia.
Qed.

(** C1: On the plugin door a bearer token fixes the caller: whatever the wire
    envelope claims, the audit record names the token's plugin, and the envelope
    handed to the provider carries that plugin as caller, the original trace, subject
    and tenant, and a deadline no later than either bound. *)
Theorem plugin_door_identity g capability payload c w r w' tok name :
  firstHeader c pluginTokenHeader = tok -> tok <> "" -> name <> "" ->
  pluginTokens g !! tok = Some name ->
  PluginAuthUnaryInterceptor g c
    (Gateway_Invoke unmarshal marshal conn_Invoke g capability payload) w = Some (r, w') ->
  exists recs cs, audits w' = audits w ++ recs /\ calls w' = calls w ++ cs /\
    Forall (fun a => a_Caller a = name) recs /\
    Forall (fun '(conn, oc, method, p) => p = payload /\
      let inn := readCallMeta unmarshal c in
      deadline oc = tighter (deadline c) (GetDeadlineUnixMs inn) /\
      exists b, outgoing oc = outgoing c ++ [(callMetaHeader, b)] /\
        marshal (mkRequestContext (GetTrace inn)
          (Some (mkIdentity name (GetSubject (GetIdentity inn)) (GetTenant (GetIdentity inn))))
          (GetDeadlineUnixMs inn)) = Ok b) cs.
Proof.
  intros Htok Hne Hnm Hreg. unfold PluginAuthUnaryInterceptor, Gateway_authenticatePlugin.
  rw Htok Hreg bool_decide_eq_false_2 //=. unfold authenticated_ctx. rw decide_False //.
  set (c' := withAuthenticatedCaller c name).
  assert (forall inn, caller_of c' inn = name) as Hcal by (intros; unfold caller_of; simpl; by rw decide_False).
  unfold Gateway_Invoke. destruct (Gateway_openCall _ _ _ _ _ _) as [[r0 w0]|] eqn:Ho; [|done].
  apply openCall_cases in Ho as (Hc & [(Ht & Ha & ->)|(Ht & d & Hd & Ha & Hr)]); simpl.
  - intros [= <- <-]. exists [], []. rw !app_nil_r. by split_and!.
  - assert (a_Caller (decision_audit c' capability d) = name) as Hac by apply Hcal.
    destruct r0 as [oc|e]; intros [= <- <-]; exists [decision_audit c' capability d].
    + eexists. split_and!; [done|by rw /= Hc|by constructor|]. constructor; [|done].
      destruct Hr as (_ & _ & _ & _ & _ & _ & b & Hb & ->). split; [done|].
      split; [apply (proj1 (bound_deadline_spec (AppendToOutgoingContext c' callMetaHeader b) _))|]. exists b.
      split; [apply (proj2 (bound_deadline_spec (AppendToOutgoingContext c' callMetaHeader b) _))|].
      by rw Hcal in Hb.
    + exists []. rw app_nil_r. split_and!; try done. by constructor.
Qed.

End Laws.

(** Removing a plugin's tokens revokes exactly that plugin: afterwards no request
    authenticates as it — a request that bore one of its tokens is refused as
    unauthenticated — and every request that bore another plugin's token, an unknown
    token or none is judged as before. *)
Theorem RemovePluginToken_revokes {Conn : Type} (g : Gateway (Conn := Conn)) (name : string) (c : Ctx) :
  name <> "" ->
  Gateway_authenticatePlugin (Gateway_RemovePluginToken g name) c =
  match Gateway_authenticatePlugin g c with
  | Ok n => if decide (n = name) then Err (Status Unauthenticated "C2: invalid plugin token" []) else Ok n
  | Err e => Err e
  end.
Proof.
  intros Hne. unfold Gateway_authenticatePlugin. simpl.
  destruct (bool_decide (firstHeader c pluginTokenHeader = "")) eqn:Et; simpl.
  - destruct (requireAuth g); [done|]. by rw decide_False.
  - destruct (pluginTokens g !! firstHeader c pluginTokenHeader) as [n|] eqn:El.
    + rw map_lookup_filter El /=. destruct (decide (n = name)) as [->|Hn].
      * by rw option_guard_False; last tauto.
      * by rw option_guard_True.
    + rw map_lookup_filter_None_2 //. by left.
Qed.

(** ** The streaming relay *)

Section Relay.
Context (c : Ctx) (idle t0 : Z) (up : nat -> option error) (ms : nat -> recv).

(** When the relay last heard from the provider, before message [n]. *)
Definition heard (n : nat) : Z := match n with O => t0 | S k => r_at (ms k) end.

(** Message [n] comes within the idle window and before the call's context ends. *)
Definition in_time (n : nat) : Prop :=
  r_at (ms n) < heard n + idle /\ forall T e, ctx_end c = Some (T, e) -> r_at (ms n) < T.

(** Message [n] is a frame in time that the client takes. *)
Definition forwards (n : nat) : Prop := in_time n /\ (exists f, r_msg (ms n) = Ok f) /\ up n = None.

(** How the relay ends at message [n]. *)
Inductive ending (n : nat) : option error -> Prop :=
  | ends_closed : in_time n -> r_msg (ms n) = Err EOF -> ending n None
  | ends_provider pe : in_time n -> r_msg (ms n) = Err pe -> pe <> EOF -> ending n (Some pe)
  | ends_client f ue : in_time n -> r_msg (ms n) = Ok f -> up n = Some ue -> ending n (Some ue)
  | ends_deadline T : T <= r_at (ms n) -> T <= heard n + idle -> ctx_end c = Some (T, ContextDeadlineExceeded) ->
      ending n (Some (Status DeadlineExceeded "context deadline exceeded" []))
  | ends_canceled T : T <= r_at (ms n) -> T <= heard n + idle -> ctx_end c = Some (T, ContextCanceled) ->
      ending n (Some (Status Canceled "context canceled" []))
  | ends_idle : heard n + idle <= r_at (ms n) -> (forall T e, ctx_end c = Some (T, e) -> heard n + idle < T) ->
      ending n (Some (Status DeadlineExceeded "stream idle timeout: no frame within %s" [itoa idle])).

Lemma ctx_end_errors T e : ctx_end c = Some (T, e) -> e = ContextDeadlineExceeded \/ e = ContextCanceled.
Proof. unfold ctx_end. repeat case_match; intros [= <- <-]; auto. Qed.

(** The cut is the earlier of the context's end and the idle window's. *)
Lemma stream_cut_spec n :
  let cut := stream_cut c idle (heard n) in
  (r_at (ms n) < cut.1 <-> in_time n) /\ (cut.1 <= r_at (ms n) -> ending n (Some cut.2)).
Proof.
  unfold stream_cut, in_time. destruct (ctx_end c) as [[T e]|] eqn:Ec; [|split; cbn [fst snd]].
  - destruct (Z.leb_spec T (heard n + idle)); cbn [fst snd]; split.
    + split; [|by intros [_ H1]; eapply H1]. intros Hr. split; [lia|]. by intros ? ? [= <- <-].
    + intros Hr. destruct (ctx_end_errors T e Ec) as [-> | ->]; [by eapply ends_deadline|by eapply ends_canceled].
    + split; [|by intros [H1 _]]. intros Hr. split; [lia|]. intros ? ? [= <- <-]. lia.
    + intros Hr. apply ends_idle; [done|]. rewrite Ec. by intros ? ? [= <- <-].
  - split; [|by intros [H1 _]]. intros Hr. by split.
  - intros Hr. apply ends_idle; [done|]. by rewrite Ec.
Qed.

(** One message: forwarded, or the end. *)
Lemma relay_message fuel frames :
  let n := length frames in
  (exists f, forwards n /\ r_msg (ms n) = Ok f /\
     relay_loop (S fuel) c idle (heard n) up frames ms = relay_loop fuel c idle (heard (S n)) up (frames ++ [f]) ms) \/
  (exists e, ~ forwards n /\ ending n e /\ relay_loop (S fuel) c idle (heard n) up frames ms = (frames, Some e)).
Proof.
  intros n. cbn [relay_loop]. fold n. destruct (stream_cut_spec n) as [Hin Hout].
  destruct (stream_cut c idle (heard n)) as [cut ce]. cbn [fst snd] in *.
  destruct (Z.ltb_spec (r_at (ms n)) cut) as [Hr|Hr].
  - apply Hin in Hr. destruct (r_msg (ms n)) as [f|pe] eqn:Em.
    + destruct (up n) as [ue|] eqn:Eu.
      * right. exists (Some ue). split_and!; [by intros (_ & _ & ?); congruence|by eapply ends_client|done].
      * left. exists f. split_and!; [|done|done]. split_and!; [done|by exists f|done].
    + right. assert (~ forwards n) as Hn by (intros (_ & [f Hf] & _); congruence).
      destruct (decide (pe = EOF)) as [->|Hne]; [exists None; split_and!; [done|by apply ends_closed|done]|].
      exists (Some pe). split_and!; [done|by apply ends_provider|by destruct pe].
  - right. exists (Some ce). split_and!; [|by apply Hout|done]. intros (Hi & _). apply Hin in Hi. lia.
Qed.

Lemma relay_from fuel : forall frames0 frames e,
  relay_loop fuel c idle (heard (length frames0)) up frames0 ms = (frames, e) ->
  (exists new, frames = frames0 ++ new /\
    (forall i, (i < length new)%nat -> forwards (length frames0 + i) /\
       Ok <$> new !! i = Some (r_msg (ms (length frames0 + i)))) /\
    match e with
    | None => length new = fuel
    | Some e => (length new < fuel)%nat /\ ~ forwards (length frames) /\ ending (length frames) e
    end).
Proof.
  induction fuel as [|fuel IH]; intros frames0 frames e; [intros [= <- <-]; exists []; rewrite app_nil_r; by split_and!; [|intros i Hi; cbn in Hi; lia|]|].
  destruct (relay_message fuel frames0) as [(f & Hf & Em & E)|(e' & Hn & He & E)]; rewrite E.
  - intros Hl. replace (S (length frames0)) with (length (frames0 ++ [f])) in Hl by (rewrite length_app; cbn; lia).
    apply IH in Hl as (new & -> & Hnew & Hend). exists (f :: new). rewrite -app_assoc. split; [done|]. split.
    + intros [|i] Hi; [rewrite Nat.add_0_r; cbn; by rewrite Em|]. cbn [length] in Hi. rewrite length_app in Hnew.
      cbn [length] in Hnew. replace (length frames0 + S i)%nat with (length frames0 + 1 + i)%nat by lia. apply Hnew. lia.
    + destruct e; [|by cbn; f_equal]. rewrite -app_assoc in Hend. destruct Hend as (Hlt & ? & ?). split; [cbn; lia|done].
  - intros [= <- <-]. exists []. rewrite app_nil_r. split; [done|]. split; [intros i Hi; cbn in Hi; lia|]. by split; [cbn; lia|].
Qed.

Lemma relay_more fuel : forall fuel' frames0 t frames e,
  relay_loop fuel c idle t up frames0 ms = (frames, Some e) -> (fuel <= fuel')%nat ->
  relay_loop fuel' c idle t up frames0 ms = (frames, Some e).
Proof.
  induction fuel as [|fuel IH]; intros [|fuel'] frames0 t frames e; [done..| |]; [lia|]. cbn [relay_loop].
  destruct (stream_cut c idle t) as [cut ce]. destruct (r_at _ <? cut); [|done]. destruct (r_msg _) as [f|pe]; [|done].
  destruct (up _); [done|]. intros H Hl. eapply IH; [exact H|lia].
Qed.

End Relay.

(** ** Selector headers *)

Definition clean_token (s : string) : Prop :=
  no_byte "," s = true /\ no_byte "=" s = true /\ TrimSpace s = s.

Definition selector_pair (kv : string * string) : string := kv.1 +:+ "=" +:+ kv.2.

Lemma parse_pair_clean out k v :
  clean_token k -> clean_token v -> k <> "" ->
  parse_pair out (selector_pair (k, v)) = <[k := v]> out.
Proof.
  intros (_ & Hk & Hkt) (_ & _ & Hvt) Hne. unfold parse_pair, selector_pair. simpl.
  change (k +:+ "=" +:+ v) with (k +:+ String "=" v). rw Cut_app // Hkt Hvt.
  by rw bool_decide_eq_false_2.
Qed.

(** A selector written as the header's comma-separated [k=v] pairs is parsed back to
    itself, in whatever order the pairs are written. *)
Theorem parseSelector_roundtrip (sel : gmap string string) (kvs : list (string * string)) :
  kvs ≡ₚ map_to_list sel ->
  Forall (fun kv => clean_token kv.1 /\ clean_token kv.2 /\ kv.1 <> "") kvs ->
  parseSelector (Join (selector_pair <$> kvs) ",") = sel.
Proof.
  intros Hp Hc.
  assert (NoDup (kvs.*1)) as Hnd by (rw Hp; apply NoDup_fst_map_to_list).
  assert (sel = list_to_map kvs) as ->.
  { rewrite <- (list_to_map_to_list sel). symmetry. by apply list_to_map_proper. }
  clear Hp. destruct (decide (kvs = [])) as [->|Hne]; [done|].
  unfold parseSelector. rw decide_False; last first.
  { intros E. assert (no_byte "=" (TrimSpace (Join (selector_pair <$> kvs) ",")) = true) as H by by rw E.
    rw TrimSpace_no_byte in H; last (vm_compute; repeat constructor).
    destruct kvs as [|[k v] kvs]; [done|]. simpl in H. unfold Join in H.
    assert (exists t, String.concat "," (selector_pair <$> (k, v) :: kvs) = k +:+ String "=" t) as [t Ht].
    { rw fmap_cons. destruct kvs as [|kv kvs]; [by exists v|].
      exists (v +:+ ("," +:+ String.concat "," (selector_pair <$> kv :: kvs))).
      exact (str_app_assoc k ("=" +:+ v) _). }
    simpl in Ht. rw Ht no_byte_app in H. unfold no_byte in H. simpl in H. by rw andb_false_r in H. }
  rw Split_Join; [|by destruct kvs|].
  - assert (forall out, fold_left parse_pair (selector_pair <$> kvs) out = list_to_map kvs ∪ out) as ->;
      [|by rw right_id_L].
    clear Hne. induction kvs as [|[k v] kvs IH]; intros out; simpl; [by rw left_id_L|].
    inversion Hc as [|?? (? & ? & ?)]; inversion Hnd; subst.
    rw parse_pair_clean // IH // -insert_union_l insert_union_r //. by apply not_elem_of_list_to_map_1.
  - apply Forall_fmap, (Forall_impl _ _ _ Hc). intros [k v] (Hk & Hv & _). simpl.
    destruct Hk as (Hk & _), Hv as (Hv & _). unfold selector_pair. by rw !no_byte_app Hk Hv.
Qed.

(** ** The theorems at a concrete plane *)

Definition demo_rc : RequestContext :=
  mkRequestContext (Some (mkTrace "00-0af7651916cd43dd8448eb211c80319c-b7ad6b7169203331-01" "" "corr-1"))
    (Some (mkIdentity "root" None "acme")) 40.
Definition demo_unmarshal (b : string) : option RequestContext := Some demo_rc.
Definition demo_marshal (rc : RequestContext) : result string := Ok (GetCallerPlugin (rc_Identity rc)).
Definition demo_invoke (conn : unit) (c : Ctx) (method payload : string) : result string := Ok payload.

Definition demo_stream (conn : unit) (c : Ctx) (method payload : string) : stream_script :=
  mkScript None None None 0
    (fun n => match n with O => mkRecv 1 (Ok "f1") | 1%nat => mkRecv 2 (Ok "f2") | _ => mkRecv 3 (Err EOF) end) (fun _ => None).

Definition demo_routes : list FileDesc :=
  [[mkService "rat.engine.v1.EngineService" [mkMethod "Execute" execute_cap]]].

Definition demo_gateway : Gateway (Conn := unit) :=
  Gateway_SetPluginToken
    (gateway_New demo_registry {["duck" := Some tt; "spark" := Some tt]} demo_routes) "tok-1" "cli".

Definition demo_ctx (token : string) : Ctx :=
  mkCtx (Some {[callMetaHeader := ["envelope"]; pluginTokenHeader := [token];
                selectHeader := ["compute=big"]]}) [] None (Some 90000000) None.
Definition demo_world : World (Conn := unit) := mkWorld [] [] [].

(** The token's plugin is [cli] although the envelope claims [root]. *)
Lemma plugin_door_identity_witness :
  exists r w', PluginAuthUnaryInterceptor demo_gateway (demo_ctx "tok-1")
      (Gateway_Invoke demo_unmarshal demo_marshal demo_invoke demo_gateway execute_cap "q") demo_world
      = Some (r, w') /\ length (calls w') = 1%nat /\
    exists recs, audits w' = recs /\ Forall (fun a => a_Caller a = "cli") recs.
Proof.
  eexists _, _. split; [vm_compute; reflexivity|]. split; [reflexivity|].
  edestruct (plugin_door_identity demo_unmarshal demo_marshal demo_invoke demo_gateway execute_cap "q"
    (demo_ctx "tok-1") demo_world) as (recs & cs & Ha & _ & Hf & _).
  1, 4: vm_compute; reflexivity. 1, 2: discriminate. 1: vm_compute; reflexivity.
  exists recs. split; [exact Ha|exact Hf].
Defined.

Lemma Invoke_audited_once_witness :
  exists r w', Gateway_Invoke demo_unmarshal demo_marshal demo_invoke demo_gateway execute_cap "q"
      (withAuthenticatedCaller (demo_ctx "") "cli") demo_world = Some (r, w') /\
    exists d, Allowed d = true /\
      audits w' = [decision_audit demo_unmarshal (withAuthenticatedCaller (demo_ctx "") "cli") execute_cap d].
Proof.
  eexists _, _. split; [vm_compute; reflexivity|].
  edestruct (Invoke_audited_once demo_unmarshal demo_marshal demo_invoke demo_gateway execute_cap "q"
    (withAuthenticatedCaller (demo_ctx "") "cli") demo_world) as [(H & _)|(_ & d & Hd & Ha & Hc)].
  - vm_compute. reflexivity.
  - vm_compute in H. discriminate.
  - exists d. split; [|exact Ha]. vm_compute in Hd. injection Hd as <-. reflexivity.
Defined.

Lemma InvokeServerStream_audited_witness :
  exists r w', Gateway_InvokeServerStream demo_unmarshal demo_marshal demo_stream 5 demo_gateway execute_cap "q"
      (withAuthenticatedCaller (demo_ctx "") "cli") demo_world = Some (r, w') /\ r = Some None /\
    exists d t, audits w' = [d; t] /\ a_Terminal t = true /\ a_Frames t = 2 /\ a_Outcome t = "success".
Proof.
  eexists _, _. split; [vm_compute; reflexivity|]. split; [reflexivity|].
  edestruct (InvokeServerStream_audited demo_unmarshal demo_marshal demo_stream 5 demo_gateway execute_cap "q"
    (withAuthenticatedCaller (demo_ctx "") "cli") demo_world) as [H|H].
  - vm_compute. reflexivity.
  - destruct H as (ds & e & _ & _ & H & _). discriminate.
  - destruct H as (d & oc & fr & _ & Ho & _ & Hr & t & Ha & Ht & _ & Hn & Hs & _).
    eexists _, t. split; [exact Ha|]. split; [exact Ht|].
    destruct Ho as (_ & _ & _ & _ & _ & _ & b & Hb & Hcx). vm_compute in Hb. injection Hb as <-.
    destruct oc as [octx m cn ca pr co]. simpl in Hcx. subst octx. vm_compute in Hr.
    injection Hr as <-. split; [exact Hn|exact Hs].
Defined.

Lemma RemovePluginToken_revokes_witness :
  Gateway_authenticatePlugin demo_gateway (demo_ctx "tok-1") = Ok "cli" /\
  Gateway_authenticatePlugin (Gateway_RemovePluginToken demo_gateway "cli") (demo_ctx "tok-1") =
  Err (Status Unauthenticated "C2: invalid plugin token" []).
Proof.
  split; [vm_compute; reflexivity|].
  rewrite (RemovePluginToken_revokes demo_gateway "cli" (demo_ctx "tok-1")); [|discriminate].
  vm_compute. reflexivity.
Defined.


Lemma parseSelector_roundtrip_witness :
  parseSelector "region=eu,compute=big" = {["compute" := "big"; "region" := "eu"]}.
Proof.
  apply (parseSelector_roundtrip {["compute" := "big"; "region" := "eu"]}
           [("region", "eu"); ("compute", "big")]).
  - vm_compute. apply perm_swap || reflexivity.
  - repeat constructor; discriminate.
Defined.
