(* ===== verification/ContextCarriage.v ===== *)
(** The reference of the context-carriage contract and its conformance run
    (src/contracts/conformance/context-carriage/go/main.go): what a hop must accept, reject
    and re-stamp, and how the gateway of src/core/gateway compares.  The logical envelope has
    the fields of CallContext; ed25519, JSON and hexadecimal decoding are parameters. *)
From S2P Require Import Prelude Manifest Conformance Registry CallContext Gateway.

(** ** The contract of one hop *)

Definition canonicalSubject (principal tenant bound : string) (expires : Z) (keyID : string) : string :=
  principal +:+ String NUL (tenant +:+ String NUL (bound +:+ String NUL (itoa expires +:+ String NUL keyID))).

(** The reference's own check of a traceparent. *)
Definition ref_wellFormedTraceparent (tp : string) : bool :=
  match Split "-" tp with
  | [a; b; c; d] => (len a =? 2) && (len b =? 32) && (len c =? 16) && (len d =? 2)
  | _ => false
  end.

Section Carriage.
Context {PublicKey PrivateKey : Type}.
Context (ed25519_Verify : PublicKey -> string -> string -> bool).

(** The downstream envelope with the verified principal, or the reason of a rejection; [None]
    is the nil dereference of an envelope without an identity. *)
Definition stamp (inn : RequestContext) (channelCaller : string) (keyring : gmap string PublicKey) (nowMs : Z) :
    option (RequestContext * string + string) :=
  match rc_Trace inn with
  | None => Some (inr "traceparent")
  | Some t =>
      if negb (ref_wellFormedTraceparent (Traceparent t)) then Some (inr "traceparent")
      else if decide (CorrelationId t = "") then Some (inr "correlation")
      else
        i ← rc_Identity inn;
        let down principal :=
          Some (inl (mkRequestContext (Some t) (Some (mkIdentity channelCaller (Subject i) (Tenant i))) (rc_DeadlineUnixMs inn), principal)) in
        match Subject i with
        | None => down ""
        | Some s =>
            if negb (bool_decide (BoundCorrelationId s = CorrelationId t)) then Some (inr "subject-bound")
            else if ExpiresUnixMs s <? nowMs then Some (inr "subject-expired")
            else match keyring !! SubjectKeyId s with
                 | None => Some (inr "subject-signature")
                 | Some pub =>
                     if negb (ed25519_Verify pub (canonicalSubject (Principal s) (Tenant i) (BoundCorrelationId s) (ExpiresUnixMs s) (SubjectKeyId s))
                                (SubjectSignature s))
                     then Some (inr "subject-signature") else down (Principal s)
                 end
        end
  end.

(** ** The conformance run *)

Record signedVector := mkSigned { sv_Principal : string; sv_Tenant : string; sv_Bound : string; sv_Expires : Z; sv_KeyID : string }.
Record subjectVector := mkSubjectVector { sb_Signed : signedVector; sb_BarePrincipal : string; sb_Signature : string }.
Record inboundVector := mkInbound {
  ib_Traceparent : string; ib_Tracestate : string; ib_CorrelationID : string; ib_CallerPlugin : string;
  ib_Tenant : string; ib_DeadlineUnixMs : Z; ib_Subject : option subjectVector;
}.
Record downstreamVector := mkDownstream {
  dn_Traceparent : string; dn_Tracestate : string; dn_CorrelationID : string; dn_CallerPlugin : string;
  dn_Tenant : string; dn_SubjectPrincipal : string;
}.
Record expectVector := mkExpect { ex_Outcome : string; ex_Reason : string; ex_Downstream : option downstreamVector }.
Record vectorCase := mkCase {
  vc_Name : string; vc_ChannelCaller : string; vc_NowUnixMs : Z; vc_Inbound : inboundVector; vc_Expect : expectVector;
}.
Record vectors := mkVectors { vs_SeedHex : string; vs_KeyID : string; vs_Cases : list vectorCase }.

(** Whether the outcome is the expected one, with the detail printed; [None] where an accepted
    envelope has no expectation to compare with. *)
Definition checkExpect (exp : expectVector) (got : RequestContext * string + string) : option (bool * message) :=
  if decide (ex_Outcome exp = "reject") then
    Some match got with
         | inl _ => (false, ("want reject, got accept", []))
         | inr reject =>
             if negb (bool_decide (ex_Reason exp = "")) && negb (bool_decide (reject = ex_Reason exp))
             then (false, ("reject reason %q, want %q", [reject; ex_Reason exp]))
             else (true, ("reject:%s", [reject]))
         end
  else
    match got with
    | inr reject => Some (false, ("want accept, got reject:%s", [reject]))
    | inl (down, principal) =>
        d ← ex_Downstream exp;
        let t := GetTrace (Some down) in
        let i := GetIdentity (Some down) in
        Some (if negb (bool_decide (GetTraceparent t = dn_Traceparent d)) then (false, ("traceparent not propagated verbatim", []))
              else if negb (bool_decide (from_option Tracestate "" t = dn_Tracestate d)) then (false, ("tracestate not propagated verbatim", []))
              else if negb (bool_decide (GetCorrelationId t = dn_CorrelationID d)) then (false, ("correlation_id changed", []))
              else if negb (bool_decide (GetCallerPlugin i = dn_CallerPlugin d)) then
                (false, ("caller_plugin=%q, want re-derived %q", [GetCallerPlugin i; dn_CallerPlugin d]))
              else if negb (bool_decide (GetTenant i = dn_Tenant d)) then (false, ("tenant not propagated", []))
              else if negb (bool_decide (principal = dn_SubjectPrincipal d)) then
                (false, ("subject principal=%q, want %q", [principal; dn_SubjectPrincipal d]))
              else (true, ("accept", [])))
    end.

Context (ed25519_Sign : PrivateKey -> string -> string).

(** [sig[0] ^= 0xff]; a signature is never empty. *)
Definition tamper (sig : string) : string :=
  match sig with
  | "" => ""
  | String (Ascii b0 b1 b2 b3 b4 b5 b6 b7) s =>
      String (Ascii (negb b0) (negb b1) (negb b2) (negb b3) (negb b4) (negb b5) (negb b6) (negb b7)) s
  end.

Definition subject_of (priv : PrivateKey) (s : subjectVector) : SubjectAssertion :=
  let g := sb_Signed s in
  let sig := ed25519_Sign priv (canonicalSubject (sv_Principal g) (sv_Tenant g) (sv_Bound g) (sv_Expires g) (sv_KeyID g)) in
  mkSubject (sb_BarePrincipal s) (if decide (sb_Signature s = "tampered") then tamper sig else sig)
    (sv_Bound g) (sv_Expires g) (sv_KeyID g).

Definition inbound_of (priv : PrivateKey) (v : inboundVector) : RequestContext :=
  mkRequestContext (Some (mkTrace (ib_Traceparent v) (ib_Tracestate v) (ib_CorrelationID v)))
    (Some (mkIdentity (ib_CallerPlugin v) (subject_of priv <$> ib_Subject v) (ib_Tenant v))) (ib_DeadlineUnixMs v).

Definition run_case (priv : PrivateKey) (keyring : gmap string PublicKey) (c : vectorCase) : option (string * bool * message) :=
  got ← stamp (inbound_of priv (vc_Inbound c)) (vc_ChannelCaller c) keyring (vc_NowUnixMs c);
  '(ok, detail) ← checkExpect (vc_Expect c) got;
  Some (vc_Name c, ok, detail).

(** The exit code and the lines printed; [os.Args] without the program. *)
Context (json_Unmarshal : string -> result vectors) (hex_DecodeString : string -> result string).
Context (NewKeyFromSeed : string -> PrivateKey) (Public : PrivateKey -> PublicKey).
Definition carriage_main (os_ReadFile : string -> result string) (args : list string) : option (Z * list (string * bool * message)) :=
  match args with
  | [path] =>
      match os_ReadFile path with
      | Err _ => Some (2, [])
      | Ok raw =>
          match json_Unmarshal raw with
          | Err _ => Some (2, [])
          | Ok v =>
              match hex_DecodeString (vs_SeedHex v) with
              | Err _ => Some (2, [])
              | Ok seed =>
                  if negb (len seed =? 32) then Some (2, [])
                  else
                    let priv := NewKeyFromSeed seed in
                    lines ← mapM (run_case priv {[vs_KeyID v := Public priv]}) (vs_Cases v);
                    let fails := length (List.filter (fun l => negb l.1.2) lines) in
                    Some (if (0 <? fails)%nat then 1 else 0, lines)
              end
          end
      end
  | _ => Some (2, [])
  end.
End Carriage.

(** The shared golden vectors (context-carriage-v1.json). *)
Definition context_carriage_v1 : vectors :=
  mkVectors "0101010101010101010101010101010101010101010101010101010101010101" "core-k1"
    [
     mkCase "reject-missing-traceparent" "rat-format" 1000
       (mkInbound "" "" "op-1" "rat-strategy" "tenantA" 0
          None)
       (mkExpect "reject" "traceparent" None);
     mkCase "reject-illformed-traceparent" "rat-format" 1000
       (mkInbound "00-tooshort-01" "" "op-1" "rat-strategy" "tenantA" 0
          None)
       (mkExpect "reject" "traceparent" None);
     mkCase "reject-missing-correlation-id" "rat-format" 1000
       (mkInbound "00-4bf92f3577b34da6a3ce929d0e0e4736-00f067aa0ba902b7-01" "" "" "rat-strategy" "tenantA" 0
          None)
       (mkExpect "reject" "correlation" None);
     mkCase "accept-bootstrap-no-subject" "rat-identity" 1000
       (mkInbound "00-4bf92f3577b34da6a3ce929d0e0e4736-00f067aa0ba902b7-01" "vendor=x" "op-3" "rat-strategy" "" 0
          None)
       (mkExpect "accept" "" (Some (mkDownstream "00-4bf92f3577b34da6a3ce929d0e0e4736-00f067aa0ba902b7-01" "vendor=x" "op-3" "rat-identity" "" "")));
     mkCase "restamp-caller-rederived-not-propagated" "rat-format" 1000
       (mkInbound "00-4bf92f3577b34da6a3ce929d0e0e4736-00f067aa0ba902b7-01" "" "op-4" "rat-evil" "tenantA" 0
          (Some (mkSubjectVector (mkSigned "user-1" "tenantA" "op-4" 9999 "core-k1") "user-1" "valid")))
       (mkExpect "accept" "" (Some (mkDownstream "00-4bf92f3577b34da6a3ce929d0e0e4736-00f067aa0ba902b7-01" "" "op-4" "rat-format" "tenantA" "user-1")));
     mkCase "accept-valid-subject-trace-verbatim" "rat-format" 5000
       (mkInbound "00-11111111111111111111111111111111-2222222222222222-01" "a=b,c=d" "op-5" "rat-strategy" "tenantB" 123456
          (Some (mkSubjectVector (mkSigned "user-9" "tenantB" "op-5" 9999 "core-k1") "user-9" "valid")))
       (mkExpect "accept" "" (Some (mkDownstream "00-11111111111111111111111111111111-2222222222222222-01" "a=b,c=d" "op-5" "rat-format" "tenantB" "user-9")));
     mkCase "reject-subject-bad-signature" "rat-format" 1000
       (mkInbound "00-4bf92f3577b34da6a3ce929d0e0e4736-00f067aa0ba902b7-01" "" "op-6" "rat-strategy" "tenantA" 0
          (Some (mkSubjectVector (mkSigned "user-1" "tenantA" "op-6" 9999 "core-k1") "user-1" "tampered")))
       (mkExpect "reject" "subject-signature" None);
     mkCase "reject-subject-unknown-keyid" "rat-format" 1000
       (mkInbound "00-4bf92f3577b34da6a3ce929d0e0e4736-00f067aa0ba902b7-01" "" "op-7" "rat-strategy" "tenantA" 0
          (Some (mkSubjectVector (mkSigned "user-1" "tenantA" "op-7" 9999 "core-unknown") "user-1" "valid")))
       (mkExpect "reject" "subject-signature" None);
     mkCase "reject-subject-wrong-bound-correlation" "rat-format" 1000
       (mkInbound "00-4bf92f3577b34da6a3ce929d0e0e4736-00f067aa0ba902b7-01" "" "op-8" "rat-strategy" "tenantA" 0
          (Some (mkSubjectVector (mkSigned "user-1" "tenantA" "op-OTHER" 9999 "core-k1") "user-1" "valid")))
       (mkExpect "reject" "subject-bound" None);
     mkCase "reject-subject-expired" "rat-format" 10000
       (mkInbound "00-4bf92f3577b34da6a3ce929d0e0e4736-00f067aa0ba902b7-01" "" "op-9" "rat-strategy" "tenantA" 0
          (Some (mkSubjectVector (mkSigned "user-1" "tenantA" "op-9" 5000 "core-k1") "user-1" "valid")))
       (mkExpect "reject" "subject-expired" None);
     mkCase "reject-m4-tenant-mirror-mismatch" "rat-format" 1000
       (mkInbound "00-4bf92f3577b34da6a3ce929d0e0e4736-00f067aa0ba902b7-01" "" "op-10" "rat-strategy" "tenantB" 0
          (Some (mkSubjectVector (mkSigned "user-1" "tenantA" "op-10" 9999 "core-k1") "user-1" "valid")))
       (mkExpect "reject" "subject-signature" None);
     mkCase "reject-m4-principal-mirror-mismatch" "rat-format" 1000
       (mkInbound "00-4bf92f3577b34da6a3ce929d0e0e4736-00f067aa0ba902b7-01" "" "op-11" "rat-strategy" "tenantA" 0
          (Some (mkSubjectVector (mkSigned "user-1" "tenantA" "op-11" 9999 "core-k1") "user-2" "valid")))
       (mkExpect "reject" "subject-signature" None)].

(** ** Only the core can vouch for a principal *)

Fixpoint count_byte (c : ascii) (s : string) : nat :=
  match s with "" => 0%nat | String a s => if decide (a = c) then S (count_byte c s) else count_byte c s end.

Lemma count_byte_app c u v : count_byte c (u +:+ v) = (count_byte c u + count_byte c v)%nat.
Proof. induction u as [|a u IH]; [done|]. rewrite str_app_cons. simpl. rewrite IH. by destruct (decide _). Qed.
Lemma count_byte_sep c v : count_byte c (String c v) = S (count_byte c v).
Proof. simpl. by rewrite decide_True. Qed.
Lemma count_byte_none c s : no_byte c s = true <-> count_byte c s = 0%nat.
Proof.
  unfold no_byte. induction s as [|a s IH]; simpl; [done|]. rewrite andb_true_iff IH negb_true_iff bool_decide_eq_false.
  by destruct (decide (a = c)); split; intros; destruct_and?.
Qed.

(** A text without stray separators commits to the fields it was made of, whatever fields
    are claimed for it. *)
Lemma canonicalSubject_inj p t b e k p' t' b' e' k' :
  no_byte NUL p = true -> no_byte NUL t = true -> no_byte NUL b = true -> no_byte NUL k = true ->
  canonicalSubject p t b e k = canonicalSubject p' t' b' e' k' -> p = p' /\ t = t' /\ b = b' /\ e = e' /\ k = k'.
Proof.
  intros Hp Ht Hb Hk E. assert (forall z, no_byte NUL (itoa z) = true) as Hz by by intros z; apply itoa_no_byte.
  assert (no_byte NUL p' = true /\ no_byte NUL t' = true /\ no_byte NUL b' = true) as (Hp' & Ht' & Hb').
  { pose proof (f_equal (count_byte NUL) E) as Hc. unfold canonicalSubject in Hc.
    rewrite !(count_byte_app, count_byte_sep) in Hc. pose proof (Hz e) as H1. pose proof (Hz e') as H2.
    rewrite count_byte_none in H1. rewrite count_byte_none in H2.
    apply count_byte_none in Hp, Ht, Hb, Hk. rewrite !count_byte_none. lia. }
  unfold canonicalSubject in E. apply (sep_app_inj NUL) in E as [-> E]; [|done..].
  apply (sep_app_inj NUL) in E as [-> E]; [|done..]. apply (sep_app_inj NUL) in E as [-> E]; [|done..].
  apply (sep_app_inj NUL) in E as [E ->]; [|done..]. split_and!; try done. by apply (inj pretty).
Qed.

Lemma ref_wellFormedTraceparent_same tp : ref_wellFormedTraceparent tp = wellFormedTraceparent tp.
Proof. done. Qed.

Section Contract.
Context {PublicKey : Type} (ed25519_Verify : PublicKey -> string -> string -> bool).

(** What an accepted envelope had, and what is handed on. *)
Lemma stamp_accepts inn ch keyring now down principal :
  stamp ed25519_Verify inn ch keyring now = Some (inl (down, principal)) ->
  exists t i, rc_Trace inn = Some t /\ rc_Identity inn = Some i /\
    wellFormedTraceparent (Traceparent t) = true /\ CorrelationId t <> "" /\ down = restamp (Some inn) ch /\
    match Subject i with
    | None => principal = ""
    | Some s => principal = Principal s /\ BoundCorrelationId s = CorrelationId t /\ now <= ExpiresUnixMs s /\
        exists pub, keyring !! SubjectKeyId s = Some pub /\
          ed25519_Verify pub (canonicalSubject principal (Tenant i) (CorrelationId t) (ExpiresUnixMs s) (SubjectKeyId s)) (SubjectSignature s) = true
    end.
Proof.
  unfold stamp, restamp. destruct inn as [[t|] [i|] dl]; cbn [rc_Trace rc_Identity rc_DeadlineUnixMs]; [|
    destruct (negb _); [done|]; by destruct (decide _)|done..].
  rewrite ref_wellFormedTraceparent_same. destruct (wellFormedTraceparent _) eqn:Hw; [|done]. cbn [negb].
  destruct (decide _) as [|Hc]; [done|]. cbn [mbind option_bind]. intros H. exists t, i. split_and!; [done..| |].
  - destruct (Subject i) as [s|] eqn:Es; [|by injection H as <- _; rewrite /= Es].
    destruct (negb (bool_decide _)); [done|]. destruct (_ <? _); [done|]. destruct (keyring !! _); [|done].
    destruct (negb _); [done|]. injection H as <- _. by rewrite /= Es.
  - destruct (Subject i) as [s|]; [|by injection H].
    destruct (bool_decide _) eqn:Hb; [|done]. apply bool_decide_eq_true in Hb. cbn [negb] in H.
    destruct (Z.ltb_spec (ExpiresUnixMs s) now); [done|]. destruct (keyring !! SubjectKeyId s) as [pub|] eqn:Ek; [|done].
    destruct (ed25519_Verify _ _ _) eqn:Hv; [|done]. injection H as _ <-. split_and!; [done..|]. exists pub. by rewrite -Hb.
Qed.

(** C18: An accepted envelope is vouched for by the core.  When the keys of the keyring verify only
    texts the core signed, for assertions whose fields hold no NUL, an accepted envelope has
    a well-formed trace and an operation, is handed on with the trace and deadline it came
    with and the channel's caller in place of the claimed one, and the principal taken from
    it is empty, without an assertion, or one that the core asserted for this very tenant
    and operation, under the key named, and that has not expired: no choice of the claimed
    fields, NUL bytes included, passes off a signature for another principal, tenant,
    operation or lifetime. *)
Theorem stamp_trusts_only_the_core (issued : signedVector -> Prop) inn ch keyring now down principal :
  (forall k pub text sig, keyring !! k = Some pub -> ed25519_Verify pub text sig = true ->
     exists a, issued a /\ sv_KeyID a = k /\
       text = canonicalSubject (sv_Principal a) (sv_Tenant a) (sv_Bound a) (sv_Expires a) (sv_KeyID a)) ->
  (forall a, issued a -> Forall (fun f => no_byte NUL f = true) [sv_Principal a; sv_Tenant a; sv_Bound a; sv_KeyID a]) ->
  stamp ed25519_Verify inn ch keyring now = Some (inl (down, principal)) ->
  exists t i, rc_Trace inn = Some t /\ rc_Identity inn = Some i /\
    wellFormedTraceparent (Traceparent t) = true /\ CorrelationId t <> "" /\ down = restamp (Some inn) ch /\
    match Subject i with
    | None => principal = ""
    | Some s => now <= ExpiresUnixMs s /\
        issued (mkSigned principal (Tenant i) (CorrelationId t) (ExpiresUnixMs s) (SubjectKeyId s))
    end.
Proof.
  intros Hsig Hplain (t & i & Ht & Hi & Hw & Hc & Hd & Hs)%stamp_accepts. exists t, i. split_and!; [done..|].
  destruct (Subject i) as [s|]; [|done]. destruct Hs as (-> & _ & Hnow & pub & Hk & Hv). split; [done|].
  destruct (Hsig _ _ _ _ Hk Hv) as (a & Ha & Hka & Ea). pose proof (Hplain a Ha) as Hf. rewrite !Forall_cons in Hf.
  destruct Hf as (H1 & H2 & H3 & H4 & _). apply eq_sym, canonicalSubject_inj in Ea as (E1 & E2 & E3 & E4 & E5); [|done..].
  destruct a. simpl in *. by subst.
Qed.

(** ** The gateway against the contract *)

Context {Conn : Type} (unmarshal : string -> option RequestContext) (marshal : RequestContext -> result string).
Implicit Types (g : Gateway (Conn := Conn)) (w : World (Conn := Conn)).

Lemma gateway_hands_on g x cap w oc w' inn ch :
  readCallMeta unmarshal x = Some inn -> auth_caller x = Some ch -> ch <> "" ->
  Gateway_openCall unmarshal marshal g x cap w = Some (Ok oc, w') ->
  exists b, marshal (restamp (Some inn) ch) = Ok b /\ outgoing (oc_ctx oc) = outgoing x ++ [(callMetaHeader, b)].
Proof.
  intros Hr Ha Hch Ho. apply openCall_cases in Ho as (_ & [(_ & _ & ?)|(_ & d & _ & _ & Hop)]); [done|].
  destruct Hop as (_ & _ & _ & _ & _ & _ & b & Hb & Hctx). rewrite Hr in Hb, Hctx.
  unfold caller_of, authenticatedCaller in Hb. rewrite Ha /= decide_False // in Hb.
  exists b. split; [done|]. rewrite Hctx. by destruct (bound_deadline_spec (AppendToOutgoingContext x callMetaHeader b) (GetDeadlineUnixMs (Some inn))) as [_ ->].
Qed.

(** The gateway carries the context as the reference does.  On an authenticated channel, an
    envelope that the reference accepts is traced for the gateway and its caller is the
    channel's; what the gateway sends to the provider, when it opens the call, is exactly
    the envelope of the reference; and an envelope that the reference rejects for its
    traceparent is refused before any decision. *)
Theorem gateway_carries_context g x cap w inn ch keyring now :
  readCallMeta unmarshal x = Some inn -> auth_caller x = Some ch -> ch <> "" ->
  match stamp ed25519_Verify inn ch keyring now with
  | Some (inl (down, principal)) =>
      traced unmarshal x = true /\ caller_of x (Some inn) = ch /\
      forall oc w', Gateway_openCall unmarshal marshal g x cap w = Some (Ok oc, w') ->
        exists b, marshal down = Ok b /\ outgoing (oc_ctx oc) = outgoing x ++ [(callMetaHeader, b)]
  | Some (inr reason) => reason = "traceparent" ->
      Gateway_openCall unmarshal marshal g x cap w =
      Some (Err (Status InvalidArgument "C1: missing or ill-formed traceparent" []), observe cap "invalid_trace" w)
  | None => rc_Identity inn = None
  end.
Proof.
  intros Hr Ha Hch. destruct (stamp _ _ _ _ _) as [[[down principal]|reason]|] eqn:Es.
  - apply stamp_accepts in Es as (t & i & Ht & Hi & Hw & _ & -> & _). split_and!.
    + unfold traced. by rewrite Hr /= Ht.
    + unfold caller_of, authenticatedCaller. by rewrite Ha /= decide_False.
    + intros oc w'. by apply gateway_hands_on.
  - intros ->. assert (wellFormedTraceparent (GetTraceparent (rc_Trace inn)) = false) as Hw.
    { unfold stamp in Es. destruct (rc_Trace inn) as [t|]; [|done]. rewrite ref_wellFormedTraceparent_same in Es. simpl.
      destruct (wellFormedTraceparent _); [|done]. cbn [negb] in Es. destruct (decide _); [done|].
      destruct (rc_Identity inn) as [i|]; [|done]. cbn [mbind option_bind] in Es. destruct (Subject i) as [s|]; [|done].
      destruct (negb _); [done|]. destruct (_ <? _); [done|]. destruct (keyring !! _); [|done]. by destruct (negb _). }
    unfold Gateway_openCall. by rewrite Hr /= Hw.
  - unfold stamp in Es. destruct (rc_Trace inn) as [t|]; [|done]. destruct (negb _); [done|]. destruct (decide _); [done|].
    destruct (rc_Identity inn) as [i|]; [|done]. cbn [mbind option_bind] in Es. destruct (Subject i) as [s|]; [|done].
    destruct (negb _); [done|]. destruct (_ <? _); [done|]. destruct (keyring !! _); [|done]. by destruct (negb _).
Qed.

(** What the gateway does not do: an open call stays open, and is handed on as claimed, with
    any tenant, any assertion and no operation in place of the ones it came with. *)
Theorem gateway_forwards_claims g x x' cap w oc w' inn tp ts ch subject tenant op :
  readCallMeta unmarshal x = Some inn -> auth_caller x = Some ch -> ch <> "" ->
  GetTraceparent (rc_Trace inn) = tp ->
  Gateway_openCall unmarshal marshal g x cap w = Some (Ok oc, w') ->
  let claimed := mkRequestContext (Some (mkTrace tp ts op)) (Some (mkIdentity ch subject tenant)) (rc_DeadlineUnixMs inn) in
  readCallMeta unmarshal x' = Some claimed -> auth_caller x' = Some ch -> firstHeader x' selectHeader = firstHeader x selectHeader ->
  is_Ok (marshal claimed) = true ->
  exists oc' w'' b, Gateway_openCall unmarshal marshal g x' cap w = Some (Ok oc', w'') /\ oc_conn oc' = oc_conn oc /\
    marshal claimed = Ok b /\ outgoing (oc_ctx oc') = outgoing x' ++ [(callMetaHeader, b)].
Proof.
  intros Hr Ha Hch Htp Ho claimed Hr' Ha' Hsel Hm. pose proof Ho as Hop.
  apply openCall_cases in Hop as (_ & [(_ & _ & ?)|(Htr & d & Hd & _ & Hop)]); [done|].
  destruct Hop as (Hal & Hroute & Hprov & _). destruct (marshal claimed) as [b|] eqn:Eb; [|done].
  assert (caller_of x (Some inn) = ch /\ caller_of x' (Some claimed) = ch) as [Hc Hc'].
  { unfold caller_of, authenticatedCaller. rewrite Ha Ha' /=. by rewrite !decide_False. }
  unfold decision_of in Hd. rewrite Hr Hc in Hd. unfold traced in Htr. rewrite Hr /= Htp in Htr.
  assert (exists oc' w'', Gateway_openCall unmarshal marshal g x' cap w = Some (Ok oc', w'') /\ oc_conn oc' = oc_conn oc) as (oc' & w'' & E & Ec).
  { unfold Gateway_openCall. rewrite Hr' /= Htr /= Hc' Hsel Hd /= Hal. unfold route_call. rewrite Hroute Hprov.
    assert (restamp (Some claimed) ch = claimed) as -> by done. rewrite Eb. by eexists _, _. }
  destruct (gateway_hands_on g x' cap w oc' w'' claimed ch Hr' Ha' Hch E) as (b' & Hb' & Hout).
  exists oc', w'', b'. by split_and!; rewrite -?Hb'.
Qed.
End Contract.

(** ** The conformance run passes *)

Section Vectors.
Context {PublicKey PrivateKey : Type} (ed25519_Verify : PublicKey -> string -> string -> bool).
Context (ed25519_Sign : PrivateKey -> string -> string) (Public : PrivateKey -> PublicKey).

(** What the run relies on of ed25519. *)
Record signs : Prop := {
  sig_own : forall k d, ed25519_Verify (Public k) d (ed25519_Sign k d) = true;
  sig_other : forall k d d', d <> d' -> ed25519_Verify (Public k) d' (ed25519_Sign k d) = false;
  sig_tampered : forall k d d', ed25519_Verify (Public k) d' (tamper (ed25519_Sign k d)) = false;
}.

(** An envelope that has come as far as its signature. *)
Lemma stamp_signed inn ch keyring now t i s pub :
  rc_Trace inn = Some t -> rc_Identity inn = Some i -> Subject i = Some s ->
  wellFormedTraceparent (Traceparent t) = true -> CorrelationId t <> "" -> BoundCorrelationId s = CorrelationId t ->
  now <= ExpiresUnixMs s -> keyring !! SubjectKeyId s = Some pub ->
  stamp ed25519_Verify inn ch keyring now =
  Some (if ed25519_Verify pub (canonicalSubject (Principal s) (Tenant i) (BoundCorrelationId s) (ExpiresUnixMs s) (SubjectKeyId s)) (SubjectSignature s)
        then inl (restamp (Some inn) ch, Principal s) else inr "subject-signature").
Proof.
  intros Ht Hi Hs Hw Hc Hb He Hk. unfold stamp, restamp. simpl. rewrite Ht Hi /= Hs ref_wellFormedTraceparent_same Hw /=.
  rewrite decide_False // bool_decide_eq_true_2 //= Hk. destruct (Z.ltb_spec (ExpiresUnixMs s) now); [lia|].
  by destruct (ed25519_Verify _ _ _).
Qed.

Lemma cases_pass (Hs : signs) (k : PrivateKey) :
  Forall (fun c => exists detail, run_case ed25519_Verify ed25519_Sign k {["core-k1" := Public k]} c = Some (vc_Name c, true, detail))
    (vs_Cases context_carriage_v1).
Proof.
  pose proof (sig_own Hs k) as H1. pose proof (sig_other Hs k) as H2. pose proof (sig_tampered Hs k) as H3.
  repeat (apply Forall_cons; split; [|]); [..|apply Forall_nil_2]; unfold run_case; eexists; try reflexivity.
  all: erewrite stamp_signed; [|reflexivity|reflexivity|reflexivity|reflexivity|discriminate|reflexivity|by vm_compute|reflexivity].
  all: cbn [SubjectSignature Principal Tenant BoundCorrelationId ExpiresUnixMs SubjectKeyId].
  all: first [rewrite H1; reflexivity|rewrite H3; reflexivity|rewrite H2; [reflexivity|by vm_compute]].
Qed.

(** The reference passes the shared vectors: under any signature scheme that verifies its own
    signatures, and no others and no tampered ones, the conformance run over the vectors of
    the repository ends with exit code 0, every one of the twelve cases passing. *)
Theorem vectors_pass (Hs : signs) json_Unmarshal hex_DecodeString NewKeyFromSeed os_ReadFile path raw seed :
  os_ReadFile path = Ok raw -> json_Unmarshal raw = Ok context_carriage_v1 ->
  hex_DecodeString (vs_SeedHex context_carriage_v1) = Ok seed -> len seed = 32 ->
  exists lines, carriage_main ed25519_Verify ed25519_Sign json_Unmarshal hex_DecodeString NewKeyFromSeed Public os_ReadFile [path] = Some (0, lines) /\
    (fun l => l.1.1) <$> lines = vc_Name <$> vs_Cases context_carriage_v1 /\ Forall (fun l => l.1.2 = true) lines.
Proof.
  intros Hr Hj Hh Hl. unfold carriage_main. rewrite Hr Hj Hh (proj2 (Z.eqb_eq _ _) Hl). cbn [negb].
  change (vs_KeyID context_carriage_v1) with "core-k1". pose proof (cases_pass Hs (NewKeyFromSeed seed)) as Hc.
  assert (exists lines, mapM (run_case ed25519_Verify ed25519_Sign (NewKeyFromSeed seed) {["core-k1" := Public (NewKeyFromSeed seed)]})
            (vs_Cases context_carriage_v1) = Some lines /\ (fun l => l.1.1) <$> lines = vc_Name <$> vs_Cases context_carriage_v1 /\
            Forall (fun l => l.1.2 = true) lines) as (lines & E & Hn & Hok).
  { induction Hc as [|c cs [detail E] _ (lines & E' & Hn & Hok)]; [by exists []|].
    eexists. cbn [mapM mret]. rewrite E /= E' /=. split_and!; [done|by rewrite !fmap_cons Hn|by constructor]. }
  exists lines. rewrite E. split; [|done]. cbn [mbind option_bind].
  assert (List.filter (fun l : string * bool * message => negb l.1.2) lines = []) as ->; [|done].
  clear -Hok. induction Hok as [|l ls Hl _ IH]; [done|]. simpl. by rewrite Hl.
Qed.
End Vectors.

(** ** At concrete envelopes *)

Definition demo_seed : string := "0123456789abcdef0123456789abcdef".
Definition job_manifest (name : string) (provides requires : list string) : Manifest :=
  mkManifest "rat.dev/v1" "ui" (mkMetadata name "1.0" ∅) [] (mkRef <$> provides) (mkRef <$> requires) []
    (mkResources (mkQuantities "1" "1Gi") (mkQuantities "" "")) [] (mkContributes []) "".
Definition job_registry : Registry :=
  match New [job_manifest "pg" ["rat://state/v1/get"] []; job_manifest "etl" [] ["rat://state/v1/get"]] with Ok r => r | Err _ => empty_registry end.
Definition toy_Sign (_ : unit) (d : string) : string := "signed " +:+ d.
Definition toy_Verify (_ : unit) (d sig : string) : bool := bool_decide (sig = "signed " +:+ d).
Lemma toy_signs : signs toy_Verify toy_Sign (fun k : unit => k).
Proof.
  constructor; intros; unfold toy_Verify, toy_Sign.
  - by apply bool_decide_eq_true.
  - apply bool_decide_eq_false. intros E. by apply str_app_inj_r in E.
  - by apply bool_decide_eq_false.
Qed.

Lemma vectors_pass_witness :
  exists lines, carriage_main toy_Verify toy_Sign (fun _ => Ok context_carriage_v1) (fun _ => Ok demo_seed) (fun _ => tt) (fun k => k)
    (fun _ => Ok "") ["context-carriage-v1.json"] = Some (0, lines) /\ length lines = 12%nat.
Proof.
  destruct (vectors_pass toy_Verify toy_Sign (fun k => k) toy_signs (fun _ => Ok context_carriage_v1) (fun _ => Ok demo_seed) (fun _ => tt)
    (fun _ => Ok "") "context-carriage-v1.json" "" demo_seed) as (lines & E & Hn & _); [reflexivity..|].
  exists lines. split; [exact E|]. apply (f_equal length) in Hn. rewrite !length_fmap in Hn. exact Hn.
Defined.

(** The core has vouched for one principal, in one tenant, for one operation. *)
Definition vouched : signedVector := mkSigned "user-1" "tenantA" "op-4" 9999 "core-k1".
Definition vouched_text : string := canonicalSubject "user-1" "tenantA" "op-4" 9999 "core-k1".
Definition vouched_envelope (claimed tenant : string) : RequestContext :=
  mkRequestContext (Some (mkTrace "00-4bf92f3577b34da6a3ce929d0e0e4736-00f067aa0ba902b7-01" "" "op-4"))
    (Some (mkIdentity claimed (Some (mkSubject "user-1" (toy_Sign tt vouched_text) "op-4" 9999 "core-k1")) tenant)) 0.
Definition core_Verify (_ : unit) (d sig : string) : bool := bool_decide (d = vouched_text) && bool_decide (sig = toy_Sign tt d).
Definition keys : gmap string unit := {["core-k1" := tt]}.

Lemma stamp_trusts_only_the_core_witness :
  exists down, stamp core_Verify (vouched_envelope "rat-evil" "tenantA") "rat-format" keys 1000 = Some (inl (down, "user-1")) /\
    down = restamp (Some (vouched_envelope "rat-evil" "tenantA")) "rat-format" /\
    stamp core_Verify (vouched_envelope "rat-evil" "tenantB") "rat-format" keys 1000 = Some (inr "subject-signature").
Proof.
  eexists. split; [vm_compute; reflexivity|]. split; [|vm_compute; reflexivity].
  destruct (stamp_trusts_only_the_core core_Verify (fun a => a = vouched) (vouched_envelope "rat-evil" "tenantA") "rat-format" keys 1000
    (restamp (Some (vouched_envelope "rat-evil" "tenantA")) "rat-format") "user-1") as (t & i & _ & _ & _ & _ & Hd & _).
  - intros k pub text sig Hk Hv. unfold keys in Hk. apply lookup_singleton_Some in Hk as [<- _]. apply andb_true_iff in Hv as [Ht _].
    apply bool_decide_eq_true in Ht. exists vouched. split; [reflexivity|]. split; [reflexivity|exact Ht].
  - intros a ->. vm_compute. repeat constructor.
  - vm_compute. reflexivity.
  - exact Hd.
Defined.

(** A channel of the job, and the envelopes it may send. *)
Definition job_envelope : RequestContext := vouched_envelope "rat-evil" "tenantA".
Definition job_claims : RequestContext :=
  mkRequestContext (Some (mkTrace "00-4bf92f3577b34da6a3ce929d0e0e4736-00f067aa0ba902b7-01" "" ""))
    (Some (mkIdentity "etl" (Some (mkSubject "root" "forged" "" 0 "core-k1")) "tenantB")) 0.
Definition job_unmarshal (b : string) : option RequestContext :=
  if decide (b = "honest") then Some job_envelope else if decide (b = "claims") then Some job_claims else None.
Definition job_channel (b : string) : Ctx := mkCtx (Some {[callMetaHeader := [b]]}) [] (Some "etl") None None.
Definition job_gateway : Gateway (Conn := string) :=
  gateway_New job_registry {["pg" := Some "conn-pg"]} [[mkService "rat.state.v1.StateService" [mkMethod "Get" "rat://state/v1/get"]]].
Definition job_open (b : string) : option (result openedCall * World (Conn := string)) :=
  Gateway_openCall job_unmarshal (fun _ => Ok "marshalled") job_gateway (job_channel b) "rat://state/v1/get" (mkWorld [] [] []).

Lemma gateway_carries_context_witness :
  traced job_unmarshal (job_channel "honest") = true /\ is_Some (job_open "honest").
Proof.
  pose proof (gateway_carries_context toy_Verify job_unmarshal (fun _ => Ok "marshalled") job_gateway (job_channel "honest")
    "rat://state/v1/get" (mkWorld [] [] []) job_envelope "etl" keys 1000 eq_refl eq_refl ltac:(discriminate)) as H.
  assert (stamp toy_Verify job_envelope "etl" keys 1000 = Some (inl (restamp (Some job_envelope) "etl", "user-1"))) as E by evaluated.
  rewrite E in H. destruct H as (Ht & _ & _). split; [exact Ht|]. eexists. vm_compute. reflexivity.
Defined.

Lemma gateway_forwards_claims_witness :
  stamp toy_Verify job_claims "etl" keys 1000 = Some (inr "correlation") /\
  exists oc w, job_open "claims" = Some (Ok oc, w) /\ oc_conn oc = "conn-pg".
Proof.
  split; [vm_compute; reflexivity|].
  destruct (job_open "honest") as [[[oc|e] w]|] eqn:E; [|vm_compute in E; discriminate E..].
  destruct (gateway_forwards_claims job_unmarshal (fun _ => Ok "marshalled") job_gateway (job_channel "honest") (job_channel "claims")
    "rat://state/v1/get" (mkWorld [] [] []) oc w job_envelope "00-4bf92f3577b34da6a3ce929d0e0e4736-00f067aa0ba902b7-01" "" "etl"
    (Some (mkSubject "root" "forged" "" 0 "core-k1")) "tenantB" "") as (oc' & w'' & b & E' & Hc & _).
  1-4: vm_compute; (reflexivity || discriminate).
  1: exact E.
  1-4: vm_compute; reflexivity.
  exists oc', w''. split; [exact E'|]. rewrite Hc. vm_compute in E. injection E as <- _. reflexivity.
Defined.
