(* ===== verification/Lease.v ===== *)
(** Leader election (src/core/lease/lease.go): the [Backend] interface, the in-memory
    [Store] that implements it, the [Elector], and the interleavings of any number of
    candidates on one store. *)
From S2P Require Import Prelude.

(** ** Programs over a set of atomic operations

    A candidate's step calls its backend several times and other candidates may run in
    between, so a step is a tree of atomic operations: [Op e k] performs [e] and goes
    on with its result. *)
Inductive prog (E : Type -> Type) (A : Type) : Type :=
  | Ret (a : A)
  | Op (X : Type) (e : E X) (k : X -> prog E A).
Arguments Ret {E A} a.
Arguments Op {E A X} e k.

Fixpoint prog_bind {E A B} (p : prog E A) (f : A -> prog E B) : prog E B :=
  match p with
  | Ret a => f a
  | Op e k => Op e (fun x => prog_bind (k x) f)
  end.

Notation "'do!' x ':=' p 'in' q" := (prog_bind p (fun x => q))
  (at level 10, x pattern, p at level 100, q at level 200) : go_scope.

(** What an operation may assume and must guarantee, as a predicate transformer over a
    view [W] of the shared state; [wp] lifts it to programs. *)
Section WP.
Context {E : Type -> Type} {W : Type}.
Context (op_wp : forall X, E X -> (X -> W -> Prop) -> W -> Prop).

Fixpoint wp {A} (p : prog E A) (Q : A -> W -> Prop) (w : W) : Prop :=
  match p with
  | Ret a => Q a w
  | Op e k => op_wp _ e (fun x => wp (k x) Q) w
  end.

Context (op_wp_mono : forall X (e : E X) (P Q : X -> W -> Prop) w,
  (forall x w', P x w' -> Q x w') -> op_wp X e P w -> op_wp X e Q w).

Lemma wp_bind {A B} (p : prog E A) (f : A -> prog E B) Q w :
  wp p (fun a => wp (f a) Q) w -> wp (prog_bind p f) Q w.
Proof.
  revert w. induction p as [a|X e k IH]; intros w; simpl; [done|].
  apply op_wp_mono. intros x w'. apply IH.
Qed.
End WP.

(** ** The backend interface *)

(** [(ok, token, err)] of [Acquire] and [Renew]. *)
Definition lease_result : Type := (bool * Z * option error)%type.

Class Backend (E : Type -> Type) := {
  Acquire : string -> Z -> Z -> prog E lease_result;
  Renew : string -> Z -> Z -> Z -> prog E lease_result;
}.

(** ** The elector *)

Record Elector := mkElector {
  e_id : string;
  e_ttl : Z;
  leader : bool;
  token : Z;
  acquiredAt : Z;
  leaseExpiry : Z;
}.

Definition NewElector (id : string) (ttl : Z) : Elector := mkElector id ttl false 0 0 0.

Definition renewed (e : Elector) (tok now : Z) : Elector :=
  mkElector (e_id e) (e_ttl e) true tok (acquiredAt e) (now + e_ttl e).
Definition elected (e : Elector) (tok now : Z) : Elector :=
  mkElector (e_id e) (e_ttl e) true tok now (now + e_ttl e).
Definition stepped_down (e : Elector) : Elector :=
  mkElector (e_id e) (e_ttl e) false (token e) (acquiredAt e) (leaseExpiry e).

Section Step.
Context {E : Type -> Type} `{Backend E}.

Definition Elector_tryAcquire (e : Elector) (now : Z) : prog E (Elector * bool) :=
  do! (ok, tok, err) := Acquire (e_id e) now (e_ttl e) in
  Ret (match err with
       | None => if (ok : bool) then (elected e tok now, true) else (e, false)
       | Some _ => (e, false)
       end).

Definition Elector_Step (e : Elector) (now : Z) : prog E (Elector * bool) :=
  if leader e then
    do! (ok, newToken, err) := Renew (e_id e) (token e) now (e_ttl e) in
    if (ok : bool) then Ret (renewed e newToken now, true)
    else match err with
         | Some _ => if now <? leaseExpiry e then Ret (e, true)
                     else Elector_tryAcquire (stepped_down e) now
         | None => Elector_tryAcquire (stepped_down e) now
         end
  else Elector_tryAcquire e now.
End Step.

Definition Elector_IsLeader (e : Elector) : bool := leader e.
Definition Elector_HeldSince (e : Elector) : Z := if leader e then acquiredAt e else 0.

(** ** The in-memory store *)

Record Store := mkStore { holder : string; expiry : Z; version : Z }.
Definition NewStore : Store := mkStore "" 0 0.

(** The fencing token is a [uint64]. *)
Definition next_version (v : Z) : Z := (v + 1) mod 2^64.

Definition Store_Acquire (s : Store) (candidate : string) (now ttl : Z) : lease_result * Store :=
  if negb (bool_decide (holder s = "")) && (now <? expiry s) then ((false, 0, None), s)
  else let s' := mkStore candidate (now + ttl) (next_version (version s)) in
       ((true, version s', None), s').

Definition Store_Renew (s : Store) (candidate : string) (tok now ttl : Z) : lease_result * Store :=
  if negb (bool_decide (holder s = candidate)) || negb (version s =? tok) || negb (now <? expiry s)
  then ((false, 0, None), s)
  else ((true, tok, None), mkStore (holder s) (now + ttl) (version s)).

Definition Store_Holder (s : Store) (now : Z) : string :=
  if bool_decide (holder s = "") || negb (now <? expiry s) then "" else holder s.

(** Each method holds the store's mutex throughout: it is one atomic operation. *)
Inductive store_op : Type -> Type :=
  | OAcquire (candidate : string) (now ttl : Z) : store_op lease_result
  | ORenew (candidate : string) (tok now ttl : Z) : store_op lease_result.

#[export] Instance Store_Backend : Backend store_op := {
  Acquire c now ttl := Op (OAcquire c now ttl) Ret;
  Renew c tok now ttl := Op (ORenew c tok now ttl) Ret;
}.

Definition run_store_op {X} (e : store_op X) : Store -> X * Store :=
  match e with
  | OAcquire c now ttl => fun s => Store_Acquire s c now ttl
  | ORenew c tok now ttl => fun s => Store_Renew s c tok now ttl
  end.

Fixpoint run_store {A} (p : prog store_op A) (s : Store) : A * Store :=
  match p with
  | Ret a => (a, s)
  | Op e k => let '(x, s') := run_store_op e s in run_store (k x) s'
  end.

(** Two candidates on one store: [b] takes over only once [a]'s lease has run out. *)
Example election :
  let '((a, la), s) := run_store (Elector_Step (NewElector "a" 10) 100) NewStore in
  let '((b, lb), s) := run_store (Elector_Step (NewElector "b" 10) 105) s in
  let '((b', lb'), s) := run_store (Elector_Step b 110) s in
  let '((a', la'), s) := run_store (Elector_Step a 111) s in
  (la, lb, lb', la', Store_Holder s 111) = (true, false, true, false, "b").
Proof. reflexivity. Qed.

(** ** All interleavings of candidates on one store *)

(** A candidate between two steps, or inside the step it started at [now]; until the
    step returns, what is visible of it is the elector it started from. *)
Inductive thread (E : Type -> Type) : Type :=
  | Idle (e : Elector)
  | Running (e : Elector) (now : Z) (p : prog E (Elector * bool)).
Arguments Idle {E} e.
Arguments Running {E} e now p.

Definition visible {E} (th : thread E) : Elector :=
  match th with Idle e => e | Running e _ _ => e end.

(** Leadership that is in force: the flag is set and the local lease has not lapsed. *)
Definition leads (t : Z) (e : Elector) : Prop := leader e = true /\ t < leaseExpiry e.

Record mem_world := mkMem {
  m_time : Z;
  m_store : Store;
  m_threads : gmap string (thread store_op);
}.

Definition set_thread (w : mem_world) (i : string) (th : thread store_op) : mem_world :=
  mkMem (m_time w) (m_store w) (<[i := th]> (m_threads w)).

Inductive mem_step : mem_world -> mem_world -> Prop :=
  | mem_tick w t' : m_time w <= t' -> mem_step w (mkMem t' (m_store w) (m_threads w))
  | mem_start w i e :
      m_threads w !! i = Some (Idle e) ->
      mem_step w (set_thread w i (Running e (m_time w) (Elector_Step e (m_time w))))
  | mem_op w i e now X (o : store_op X) k x s' :
      m_threads w !! i = Some (Running e now (Op o k)) ->
      run_store_op o (m_store w) = (x, s') ->
      mem_step w (mkMem (m_time w) s' (<[i := Running e now (k x)]> (m_threads w)))
  | mem_return w i e now e' b :
      m_threads w !! i = Some (Running e now (Ret (e', b))) ->
      mem_step w (set_thread w i (Idle e')).

(** The electors start as followers, each under its own non-empty identity. *)
Definition mem_init (w : mem_world) : Prop :=
  m_store w = NewStore /\
  forall i th, m_threads w !! i = Some th ->
    i <> "" /\ exists ttl, 0 <= ttl /\ th = Idle (NewElector i ttl).

(** *** The invariant *)

(** A leader in force is the store's holder, and no longer than the store says. *)
Definition covered (i : string) (s : Store) (t : Z) (e : Elector) : Prop :=
  e_id e = i /\ 0 <= e_ttl e /\ (leads t e -> holder s = i /\ leaseExpiry e <= expiry s).

(** An elector's own view never runs ahead of a step started at [now]. *)
Definition bounded (now : Z) (e : Elector) : Prop := leader e = true -> leaseExpiry e <= now + e_ttl e.

(** What a candidate's running step must keep, whatever the others do to the store:
    worlds a step of [i] may observe. *)
Definition view := (Store * Z)%type.

Definition issued_by (i : string) (now ttl : Z) {X} (o : store_op X) : Prop :=
  match o with OAcquire c n ttl' | ORenew c _ n ttl' => c = i /\ n = now /\ ttl' = ttl end.

Definition mem_wp (i : string) (now ttl : Z) (X : Type) (o : store_op X) (Q : X -> view -> Prop) (v : view) : Prop :=
  issued_by i now ttl o /\
  forall s t, v.2 <= t -> let '(x, s') := run_store_op o s in Q x (s', t).

Lemma mem_wp_mono i now ttl X (o : store_op X) (P Q : X -> view -> Prop) v :
  (forall x v', P x v' -> Q x v') -> mem_wp i now ttl X o P v -> mem_wp i now ttl X o Q v.
Proof.
  intros HPQ [H1 H2]. split; [done|]. intros s t Ht. specialize (H2 s t Ht).
  destruct (run_store_op o s). by apply HPQ.
Qed.

(** The result of a step, in the world it returns to. *)
Definition step_post (i : string) (now ttl : Z) (r : Elector * bool) (v : view) : Prop :=
  covered i v.1 v.2 r.1 /\ bounded now r.1 /\ e_ttl r.1 = ttl.

Definition thread_inv (s : Store) (t : Z) (i : string) (th : thread store_op) : Prop :=
  i <> "" /\
  match th with
  | Idle e => covered i s t e /\ bounded t e
  | Running e now p =>
      now <= t /\ covered i s t e /\ bounded now e /\
      wp (mem_wp i now (e_ttl e)) p (step_post i now (e_ttl e)) (s, t)
  end.

Definition mem_inv (w : mem_world) : Prop :=
  forall i th, m_threads w !! i = Some th -> thread_inv (m_store w) (m_time w) i th.

Lemma covered_tick i s t t' e : t <= t' -> covered i s t e -> covered i s t' e.
Proof. intros Ht (H1 & H2 & H3). split_and!; [done..|]. intros [? ?]. apply H3. split; [done|lia]. Qed.

Lemma follower_covered i s t e : e_id e = i -> 0 <= e_ttl e -> leader e = false -> covered i s t e.
Proof. intros ? ? Hl. split_and!; [done..|]. intros [? _]. congruence. Qed.

(** An operation of [j], issued for time [now <= t], does not disturb a leader in
    force. *)
Lemma other_op_covered {X} (o : store_op X) i j now s s' x t e :
  i <> j -> i <> "" -> now <= t ->
  (exists ttl, issued_by j now ttl o) ->
  run_store_op o s = (x, s') -> covered i s t e -> covered i s' t e.
Proof.
  intros Hij Hi Hnow Ho Hrun (H1 & H2 & H3). split_and!; [done..|]. intros Hl.
  destruct (H3 Hl) as [Hh He]. destruct Hl as [_ Hlt], Ho as [ttl Ho]. destruct o; destruct Ho as (-> & -> & ->); simpl in Hrun.
  - unfold Store_Acquire in Hrun. rw bool_decide_eq_false_2 /= in Hrun; last congruence.
    destruct (Z.ltb_spec now (expiry s)); [by simplify_eq|lia].
  - unfold Store_Renew in Hrun. rw (bool_decide_eq_false_2 (holder s = j)) /= in Hrun; [by simplify_eq|congruence].
Qed.

(** Its own operations only extend it. *)
Lemma own_op_covered {X} (o : store_op X) i now s s' x t e :
  now <= t -> bounded now e ->
  issued_by i now (e_ttl e) o ->
  run_store_op o s = (x, s') -> covered i s t e -> covered i s' t e.
Proof.
  intros Hnow Hb Ho Hrun (H1 & H2 & H3). split_and!; [done..|]. intros Hl.
  destruct (H3 Hl) as [Hh He]. specialize (Hb (proj1 Hl)).
  destruct o; destruct Ho as (-> & -> & ->); simpl in Hrun; unfold Store_Acquire, Store_Renew in Hrun;
    case_match; by simplify_eq.
Qed.

Lemma follower_post i s t now e b :
  covered i s t e -> leader e = false -> step_post i now (e_ttl e) (e, b) (s, t).
Proof. intros ? Hl. split_and!; [done| |done]. intros ?. simpl in *. congruence. Qed.

Lemma tryAcquire_wp i now s t e :
  e_id e = i -> 0 <= e_ttl e -> leader e = false ->
  wp (mem_wp i now (e_ttl e)) (Elector_tryAcquire e now) (step_post i now (e_ttl e)) (s, t).
Proof.
  intros Hi Htt Hl. simpl. split; [done|]. intros s' t' Ht. simpl. unfold Store_Acquire.
  destruct (_ && _); simpl.
  { apply follower_post; [by apply follower_covered|done]. }
  split_and!; [|intros _; simpl; lia|done]. split_and!; [done..|]. by intros _.
Qed.

Lemma Step_wp i now s t e :
  covered i s t e ->
  wp (mem_wp i now (e_ttl e)) (Elector_Step e now) (step_post i now (e_ttl e)) (s, t).
Proof.
  intros (Hi & Htt & _). unfold Elector_Step.
  destruct (leader e) eqn:Hl; [|by apply tryAcquire_wp].
  simpl. split; [done|]. intros s' t' Ht. simpl. unfold Store_Renew. destruct (_ || _) eqn:Hc; simpl.
  - by apply (tryAcquire_wp i now s' t' (stepped_down e)).
  - bool_to_prop. split_and!; [|intros _; simpl; lia|done]. split_and!; [done..|]. intros _. simpl.
    split; [congruence|done].
Qed.

(** What [i]'s running step may rely on survives whatever leaves [i]'s leadership
    covered. *)
Lemma wp_stable i now ttl p Q s t s' t' :
  t <= t' ->
  (forall r, Q r (s, t) -> Q r (s', t')) ->
  wp (mem_wp i now ttl) (A := Elector * bool) p Q (s, t) -> wp (mem_wp i now ttl) p Q (s', t').
Proof.
  intros Ht HQ. destruct p as [r|X o k]; simpl; [apply HQ|].
  intros [H1 H2]. split; [done|]. intros s2 t2 Ht2. apply H2. simpl in *. lia.
Qed.

Lemma thread_inv_other s t s' t' i th :
  t <= t' -> (forall e, i <> "" -> covered i s t e -> covered i s' t' e) ->
  thread_inv s t i th -> thread_inv s' t' i th.
Proof.
  intros Ht HC [Hi Hth]. split; [done|]. destruct th as [e|e now p].
  - destruct Hth as [Hc Hb]. split; [by apply HC|]. intros Hl. specialize (Hb Hl). lia.
  - destruct Hth as (? & ? & ? & Hwp). split_and!; [lia|by apply HC|done|].
    eapply wp_stable; [done| |done]. intros r (? & ? & ?). split_and!; [by apply HC|done|done].
Qed.

Lemma mem_step_inv w w' : mem_inv w -> mem_step w w' -> mem_inv w'.
Proof.
  intros Hinv Hs j th. destruct Hs as [w t' Ht|w i e Hi|w i e now X o k x s' Hi Hrun|w i e now e' b Hi];
    simpl; [|rewrite lookup_insert_Some..].
  - intros Hj. eapply thread_inv_other; [exact Ht| |by apply Hinv]. intros. by eapply covered_tick.
  - intros [[<- <-]|[? Hj]]; [|by apply Hinv].
    destruct (Hinv i _ Hi) as (? & Hc & Hb). split_and!; [done|lia|done|done|by apply Step_wp].
  - destruct (Hinv i _ Hi) as (Hne & Hn & Hc & Hb & Ho & Hk). intros [[<- <-]|[Hij Hj]].
    + split; [done|]. split_and!; [done|by eapply own_op_covered|done|].
      specialize (Hk (m_store w) (m_time w) (Z.le_refl _)). by rewrite Hrun in Hk.
    + eapply thread_inv_other; [apply Z.le_refl| |by apply Hinv].
      intros e' ?. apply (other_op_covered o j i now _ _ x); try done. by eexists.
  - intros [[<- <-]|[? Hj]]; [|by apply Hinv].
    destruct (Hinv i _ Hi) as (Hne & Hn & Hc & Hb & Hp & Hpb & Htt). split_and!; [done|done|].
    intros Hl. specialize (Hpb Hl). simpl in *. lia.
Qed.

(** In-memory mutual exclusion, over every interleaving of the store operations of any
    number of candidates and any passage of time: at no moment do two candidates lead
    with a lease in force, and the one that does is the store's holder. *)
Theorem Store_mutual_exclusion (w0 w : mem_world) (i j : string) (thi thj : thread store_op) :
  mem_init w0 -> rtc mem_step w0 w ->
  m_threads w !! i = Some thi -> m_threads w !! j = Some thj ->
  leads (m_time w) (visible thi) -> leads (m_time w) (visible thj) ->
  i = j /\ Store_Holder (m_store w) (m_time w) = i.
Proof.
  intros [Hs0 Hinit] Hrtc. assert (mem_inv w) as Hinv.
  { assert (mem_inv w0) as H0.
    { intros k th Hk. destruct (Hinit k th Hk) as (Hne & ttl & Htt & ->). split; [done|].
      split; [by apply follower_covered|done]. }
    clear Hs0 Hinit. induction Hrtc as [|w1 w2 w3 Hst _ IH]; [done|]. by eapply IH, mem_step_inv. }
  assert (forall k th, m_threads w !! k = Some th -> leads (m_time w) (visible th) ->
    k <> "" /\ holder (m_store w) = k /\ m_time w < expiry (m_store w)) as HH.
  { intros k th Hk Hl. destruct (Hinv k th Hk) as [Hne Hth].
    assert (covered k (m_store w) (m_time w) (visible th)) as (_ & _ & H3).
    { destruct th; simpl in *; tauto. }
    destruct (H3 Hl), Hl. split_and!; [done|done|lia]. }
  intros Hi Hj Hli Hlj. destruct (HH i thi Hi Hli) as (Hne & Hh & Hx), (HH j thj Hj Hlj) as (_ & Hh' & _).
  split; [congruence|]. unfold Store_Holder. rw Hh bool_decide_eq_false_2 //=.
  by rw (proj2 (Z.ltb_lt _ _) Hx).
Qed.

(** ** At a concrete run: one of two candidates is elected *)

Definition mem_w0 : mem_world :=
  mkMem 100 NewStore {["a" := Idle (NewElector "a" 10); "b" := Idle (NewElector "b" 10)]}.

Definition mem_elected : mem_world :=
  mkMem 100 (mkStore "a" 110 1)
    {["a" := Idle (elected (NewElector "a" 10) 1 100); "b" := Idle (NewElector "b" 10)]}.

Lemma mem_w0_init : mem_init mem_w0.
Proof.
  split; [done|]. intros i th. simpl.
  rewrite !lookup_insert_Some lookup_empty. intros [[<- <-]|[_ [[<- <-]|[_ [=]]]]];
    (split; [done|]); exists 10; split; (done || reflexivity).
Qed.

Lemma mem_a_elected : rtc mem_step mem_w0 mem_elected.
Proof.
  eapply rtc_l; [by apply (mem_start _ "a")|].
  eapply rtc_l; [eapply (mem_op _ "a"); reflexivity|].
  eapply rtc_l; [eapply (mem_return _ "a"); reflexivity|].
  simpl. rewrite !insert_insert_eq. apply rtc_refl.
Qed.

Lemma Store_mutual_exclusion_witness :
  rtc mem_step mem_w0 mem_elected /\ "a" = "a" /\ Store_Holder (m_store mem_elected) 100 = "a".
Proof.
  split; [exact mem_a_elected|].
  apply (Store_mutual_exclusion mem_w0 mem_elected "a" "a"
    (Idle (elected (NewElector "a" 10) 1 100)) (Idle (elected (NewElector "a" 10) 1 100)));
    first [exact mem_w0_init | exact mem_a_elected | reflexivity | split; reflexivity].
Defined.
