(* ===== verification/StateLease.v ===== *)
(** The multi-replica lease (src/core/lease/statestore.go and its adapter in
    src/core/cmd/rat/lease.go): one key of a shared state backend driven by
    compare-and-set, with unconfirmed and late writes, and the mutual exclusion it
    gives at the granularity of the stored expiry. *)
From S2P Require Import Prelude Lease.

Definition ErrCreateIfAbsentUnsupported : error :=
  Sentinel "lease: backend has no create-if-absent (state/v1 ADR-049)".

Record leaseRecord := mkLease { Holder : string; ExpiryUnixMs : Z }.

(** [t.UnixMilli()] truncates to whole milliseconds. *)
Definition toUnixMilli (t : Z) : Z := t / 1000000.

(** Go's conversions between [int64] and [uint64]. *)
Definition to_uint64 (z : Z) : Z := z mod 2^64.
Definition to_int64 (z : Z) : Z := wrap64 z.

(** ** The state-backend client (cmd/rat/lease.go) *)

Inductive PutOutcome := UNSPECIFIED | COMMITTED | CONFLICT | UNKNOWN.
Definition PutOutcome_String (o : PutOutcome) : string :=
  match o with
  | UNSPECIFIED => "PUT_OUTCOME_UNSPECIFIED" | COMMITTED => "PUT_OUTCOME_COMMITTED"
  | CONFLICT => "PUT_OUTCOME_CONFLICT" | UNKNOWN => "PUT_OUTCOME_UNKNOWN"
  end.

Definition outcomeToCAS (outcome : PutOutcome) (revision : Z) (op : string) : result (bool * Z) :=
  match outcome with
  | COMMITTED => Ok (true, revision)
  | CONFLICT => Ok (false, revision)
  | _ => Err (Errorf "state %s unconfirmed (outcome=%s)" [op; PutOutcome_String outcome])
  end.

Definition stateCAS_Put (r : result (PutOutcome * Z)) : result (bool * Z) :=
  match r with Err e => Err e | Ok (o, rev) => outcomeToCAS o rev "put" end.

Definition stateCAS_CreateIfAbsent (r : result (PutOutcome * Z)) : result (bool * Z) :=
  match r with
  | Err e => if decide (status_Code e = Unimplemented) then Err ErrCreateIfAbsentUnsupported else Err e
  | Ok (o, rev) => outcomeToCAS o rev "create-if-absent"
  end.

Definition leaseCandidateID (newPluginToken instance : string) : string :=
  let id := if decide (instance = "") then "rat-serve" else "rat-serve" +:+ "-" +:+ instance in
  id +:+ "-" +:+ String.substring 0 8 newPluginToken.

(** ** The lease over compare-and-set

    [Bytes] is the encoded form of a record; the JSON codec is a parameter of which
    only the round trip is used. *)
Section StateStore.
Context {Bytes : Type}.
Context (json_Marshal : leaseRecord -> Bytes) (json_Unmarshal : Bytes -> result leaseRecord).

(** [Get] returns [None] for an absent key, else its value and revision; the two writes
    return [(committed, revision)] or the unconfirmed case. *)
Inductive cas_op : Type -> Type :=
  | CGet (key : string) : cas_op (result (option (Bytes * Z)))
  | CPut (key : string) (value : Bytes) (ifRevision : Z) : cas_op (result (bool * Z))
  | CCreate (key : string) (value : Bytes) : cas_op (result (bool * Z)).

Record StateStore := mkStateStore { ss_key : string; callTimeout : Z }.

Definition NewStateStore (key : string) (timeout : Z) : StateStore :=
  mkStateStore key (if timeout <=? 0 then 3 * 1000000000 else timeout).

Definition StateStore_outcome (r : result (bool * Z)) : lease_result :=
  match r with
  | Err e => (false, 0, Some e)
  | Ok (false, _) => (false, 0, None)
  | Ok (true, newRev) => (true, to_uint64 newRev, None)
  end.

Definition lease_value (candidate : string) (exp : Z) : Bytes :=
  json_Marshal (mkLease candidate (toUnixMilli exp)).

Definition StateStore_put (s : StateStore) (candidate : string) (exp ifRevision : Z) :
    prog cas_op (result (bool * Z)) :=
  Op (CPut (ss_key s) (lease_value candidate exp) ifRevision) Ret.

Definition StateStore_createIfAbsent (s : StateStore) (candidate : string) (exp : Z) :
    prog cas_op (result (bool * Z)) :=
  Op (CCreate (ss_key s) (lease_value candidate exp)) Ret.

(** Held by someone else and still live. *)
Definition held_by_other (candidate : string) (now : Z) (val : Bytes) : bool :=
  match json_Unmarshal val with
  | Ok rec => negb (bool_decide (Holder rec = "")) && negb (bool_decide (Holder rec = candidate)) &&
              (toUnixMilli now <? ExpiryUnixMs rec)
  | Err _ => false
  end.

Definition StateStore_Acquire (s : StateStore) (candidate : string) (now ttl : Z) :
    prog cas_op lease_result :=
  do! g := Op (CGet (ss_key s)) Ret in
  match g with
  | Err e => Ret (false, 0, Some e)
  | Ok (Some (val, rev)) =>
      if held_by_other candidate now val then Ret (false, 0, None)
      else do! r := StateStore_put s candidate (now + ttl) rev in Ret (StateStore_outcome r)
  | Ok None =>
      do! r := StateStore_createIfAbsent s candidate (now + ttl) in
      match r with
      | Err e =>
          if errors_Is e ErrCreateIfAbsentUnsupported then
            do! r := StateStore_put s candidate (now + ttl) 0 in Ret (StateStore_outcome r)
          else Ret (StateStore_outcome r)
      | Ok _ => Ret (StateStore_outcome r)
      end
  end.

Definition StateStore_Renew (s : StateStore) (candidate : string) (tok now ttl : Z) :
    prog cas_op lease_result :=
  do! r := StateStore_put s candidate (now + ttl) (to_int64 tok) in Ret (StateStore_outcome r).

Definition StateStore_Backend (s : StateStore) : Backend cas_op := {|
  Acquire := StateStore_Acquire s;
  Renew := StateStore_Renew s;
|}.

(** ** A shared backend and any number of replicas

    The key's history: each write's revision and value, the last one current, and an empty
    history an absent key.  The backend counts its revisions over all keys, so the next
    revision of a key is any later number.  A write the client gave up on may still be in
    flight and land at any later time. *)
Inductive write_mode := IfRevision (r : Z) | IfAbsent.
Record write := mkWrite { w_value : Bytes; w_mode : write_mode }.

Definition versions := list (Z * Bytes).

Definition revision (h : versions) : Z := match last h with Some (r, _) => r | None => 0 end.

(** Whether a write is made: without a positive revision a put is unconditional. *)
Definition admits (h : versions) (w : write) : bool :=
  match w_mode w with
  | IfRevision r => (r <=? 0) || (r =? revision h)
  | IfAbsent => bool_decide (h = [])
  end.

(** A revision the backend may give the next write. *)
Definition later (h : versions) (rev : Z) : Prop := revision h < rev < 2^63.
Definition commit_write (h : versions) (rev : Z) (w : write) : versions := h ++ [(rev, w_value w)].

Definition op_write {X} (o : cas_op X) : option write :=
  match o with
  | CGet _ => None
  | CPut _ v r => Some (mkWrite v (IfRevision r))
  | CCreate _ v => Some (mkWrite v IfAbsent)
  end.

(** The adapter's answer to a server response. *)
Definition adapt {X} (o : cas_op X) : result (PutOutcome * Z) -> option X :=
  match o with
  | CGet _ => fun _ => None
  | CPut _ _ _ => fun r => Some (stateCAS_Put r)
  | CCreate _ _ => fun r => Some (stateCAS_CreateIfAbsent r)
  end.

Definition current (h : versions) : option (Bytes * Z) :=
  match last h with Some (rev, v) => Some (v, rev) | None => None end.

(** A failed or unconfirmed write: a transport error, or the server's own [UNKNOWN].  A
    backend that supports create-if-absent does not answer [Unimplemented]. *)
Definition unconfirmed (r : result (PutOutcome * Z)) : Prop :=
  match r with
  | Err e => status_Code e <> Unimplemented /\ errors_Is e ErrCreateIfAbsentUnsupported = false
  | Ok (o, _) => o = UNKNOWN \/ o = UNSPECIFIED
  end.

Inductive serve : forall X, cas_op X -> versions * list write -> X -> versions * list write -> Prop :=
  | serve_get key h pd : serve _ (CGet key) (h, pd) (Ok (current h)) (h, pd)
  | serve_get_err key h pd e : serve _ (CGet key) (h, pd) (Err e) (h, pd)
  | serve_commit X (o : cas_op X) h pd w rev x :
      op_write o = Some w -> admits h w = true -> later h rev ->
      adapt o (Ok (COMMITTED, rev)) = Some x ->
      serve X o (h, pd) x (commit_write h rev w, pd)
  | serve_conflict X (o : cas_op X) h pd w x :
      op_write o = Some w -> admits h w = false ->
      adapt o (Ok (CONFLICT, revision h)) = Some x ->
      serve X o (h, pd) x (h, pd)
  | serve_inflight X (o : cas_op X) h pd w r x :
      op_write o = Some w -> unconfirmed r -> adapt o r = Some x ->
      serve X o (h, pd) x (h, w :: pd).

Record ha_world := mkHA {
  ha_time : Z;
  ha_hist : versions;
  ha_pending : list write;
  ha_threads : gmap string (thread cas_op);
}.

Inductive ha_step (s : StateStore) : ha_world -> ha_world -> Prop :=
  | ha_tick w t' :
      ha_time w <= t' < 2^63 -> ha_step s w (mkHA t' (ha_hist w) (ha_pending w) (ha_threads w))
  | ha_start w i e :
      ha_threads w !! i = Some (Idle e) ->
      ha_step s w (mkHA (ha_time w) (ha_hist w) (ha_pending w)
        (<[i := Running e (ha_time w) (Elector_Step (H := StateStore_Backend s) e (ha_time w))]> (ha_threads w)))
  | ha_op w i e now X (o : cas_op X) k x h' pd' :
      ha_threads w !! i = Some (Running e now (Op o k)) ->
      serve X o (ha_hist w, ha_pending w) x (h', pd') ->
      ha_step s w (mkHA (ha_time w) h' pd' (<[i := Running e now (k x)]> (ha_threads w)))
  | ha_return w i e now e' b :
      ha_threads w !! i = Some (Running e now (Ret (e', b))) ->
      ha_step s w (mkHA (ha_time w) (ha_hist w) (ha_pending w) (<[i := Idle e']> (ha_threads w)))
  | ha_deliver w pd1 pw pd2 rev :
      ha_pending w = pd1 ++ pw :: pd2 -> admits (ha_hist w) pw = true -> later (ha_hist w) rev ->
      ha_step s w (mkHA (ha_time w) (commit_write (ha_hist w) rev pw) (pd1 ++ pd2) (ha_threads w))
  | ha_drop w pd1 pw pd2 :
      ha_pending w = pd1 ++ pw :: pd2 ->
      ha_step s w (mkHA (ha_time w) (ha_hist w) (pd1 ++ pd2) (ha_threads w)).

(** The identities a record can carry are the codec's; the clock and the durations are
    64-bit nanoseconds. *)
Definition ha_init (codable : string -> Prop) (w : ha_world) : Prop :=
  ha_hist w = [] /\ ha_pending w = [] /\ 0 <= ha_time w < 2^63 /\
  forall i th, ha_threads w !! i = Some th ->
    (i <> "" /\ codable i) /\ exists ttl, 0 <= ttl < 2^63 /\ th = Idle (NewElector i ttl).

(** Leadership in force, in whole milliseconds as the stored record sees it. *)
Definition leads_ms (t : Z) (e : Elector) : Prop :=
  leader e = true /\ toUnixMilli t < toUnixMilli (leaseExpiry e).
End StateStore.

(** ** Safety *)

Section Safety.
Context {Bytes : Type}.
Context (json_Marshal : leaseRecord -> Bytes) (json_Unmarshal : Bytes -> result leaseRecord).
Context (codable : string -> Prop).
Context (json_roundtrip : forall i t, codable i -> 0 <= t < 2^64 ->
  json_Unmarshal (json_Marshal (mkLease i (toUnixMilli t))) = Ok (mkLease i (toUnixMilli t))).
Context (s : StateStore).
Implicit Types (h : versions (Bytes := Bytes)) (pd : list (write (Bytes := Bytes))).

Definition named (i : string) : Prop := i <> "" /\ codable i.

(** A value a candidate wrote. *)
Definition encodes (v : Bytes) (r : leaseRecord) : Prop :=
  v = json_Marshal r /\ exists i t, named i /\ 0 <= t < 2^64 /\ r = mkLease i (toUnixMilli t).

Lemma encodes_decode v r : encodes v r -> json_Unmarshal v = Ok r.
Proof. intros (-> & i & t & [_ Hi] & Ht & ->). by apply json_roundtrip. Qed.

Lemma encodes_unique v r1 r2 : encodes v r1 -> encodes v r2 -> r1 = r2.
Proof. intros H1%encodes_decode H2%encodes_decode. rw H1 in H2. by injection H2. Qed.

Lemma encodes_holder v r : encodes v r -> Holder r <> "".
Proof. by intros (_ & i & t & [? _] & _ & ->). Qed.

(** A write at revision [r] is legitimate when the record it replaces is the writer's own
    and not longer-lived, or has run out. *)
Definition replaces (t : Z) (old new : leaseRecord) : Prop :=
  (Holder old = Holder new /\ ExpiryUnixMs old <= ExpiryUnixMs new) \/
  ExpiryUnixMs old <= toUnixMilli t.

Definition entry h (n : nat) (rev : Z) (r : leaseRecord) : Prop := exists v, h !! n = Some (rev, v) /\ encodes v r.

Definition chain h (t : Z) : Prop :=
  forall n rev r rev' r', entry h n rev r -> entry h (S n) rev' r' -> replaces t r r'.

Definition wf_entries h : Prop :=
  (forall n rev v, h !! n = Some (rev, v) -> 0 < rev < 2^63 /\ exists r, encodes v r) /\
  (forall n m x y, (n < m)%nat -> h !! n = Some x -> h !! m = Some y -> x.1 < y.1).

Definition write_ok h (t : Z) (w : write) : Prop :=
  exists new, encodes (w_value w) new /\
  match w_mode w with
  | IfRevision r => exists n old, entry h n r old /\ replaces t old new
  | IfAbsent => True
  end.

(** Every record in the candidate's name was written for an expiry no later than a step
    started at [now] would set. *)
Definition own_bound (i : string) (now ttl : Z) h : Prop :=
  forall n rev r, entry h n rev r -> Holder r = i -> ExpiryUnixMs r <= toUnixMilli (now + ttl).

Definition own_pending (i : string) (now ttl : Z) pd : Prop :=
  forall w r, w ∈ pd -> encodes (w_value w) r -> Holder r = i ->
    ExpiryUnixMs r <= toUnixMilli (now + ttl).

(** A leader's token names its own record in the history. *)
Definition fenced (i : string) h (e : Elector) : Prop :=
  e_id e = i /\ 0 <= e_ttl e < 2^63 /\
  (leader e = true -> exists n, entry h n (token e) (mkLease i (toUnixMilli (leaseExpiry e)))).

Definition hview := (versions (Bytes := Bytes) * Z)%type.

Definition extends (v v' : hview) : Prop := v.1 `prefix_of` v'.1 /\ v.2 <= v'.2.

Definition own_value (i : string) (now ttl : Z) : Bytes :=
  lease_value json_Marshal i (now + ttl).

Definition op_ok (i : string) (now ttl : Z) {X} (o : cas_op (Bytes := Bytes) X) (v : hview) : Prop :=
  match op_write o with
  | None => True
  | Some w => w_value w = own_value i now ttl /\ write_ok v.1 v.2 w
  end.

(** The answers a step must be ready for, given the history after the operation. *)
Definition answers {X} (o : cas_op X) h : X -> Prop :=
  match o with
  | CGet _ => fun x => x = Ok (current h) \/ exists e, x = Err e
  | CPut _ v _ => fun x => (exists rev, x = Ok (true, rev) /\ last h = Some (rev, v)) \/
                    (exists n, x = Ok (false, n)) \/ exists e, x = Err e
  | CCreate _ v => fun x => (exists rev, x = Ok (true, rev) /\ last h = Some (rev, v)) \/
                    (exists n, x = Ok (false, n)) \/
                    exists e, x = Err e /\ errors_Is e ErrCreateIfAbsentUnsupported = false
  end.

Definition cas_wp (i : string) (now ttl : Z) (X : Type) (o : cas_op X) (Q : X -> hview -> Prop)
    (v : hview) : Prop :=
  op_ok i now ttl o v /\
  forall v' x, extends v v' -> wf_entries v'.1 -> own_bound i now ttl v'.1 -> now <= v'.2 ->
    answers o v'.1 x -> Q x v'.

Lemma cas_wp_mono i now ttl X (o : cas_op X) (P Q : X -> hview -> Prop) v :
  (forall x v', P x v' -> Q x v') -> cas_wp i now ttl X o P v -> cas_wp i now ttl X o Q v.
Proof. intros HPQ [H1 H2]. split; [done|]. intros. by apply HPQ, H2. Qed.

Definition step_result (i : string) (ttl : Z) (r : Elector * bool) (v : hview) : Prop :=
  fenced i v.1 r.1 /\ e_ttl r.1 = ttl.

Lemma entry_extends h h' n rev r : h `prefix_of` h' -> entry h n rev r -> entry h' n rev r.
Proof. intros Hp (v & H & He). exists v. split; [by eapply prefix_lookup_Some|done]. Qed.

Lemma entry_unique h n rev rev' r r' : entry h n rev r -> entry h n rev' r' -> rev = rev' /\ r = r'.
Proof. intros (v & Hn & He) (v' & Hn' & He'). rw Hn in Hn'. injection Hn' as <- <-. split; [done|by eapply encodes_unique]. Qed.

Lemma entry_lt h n rev r : entry h n rev r -> (n < length h)%nat.
Proof. intros (v & Hn & _). by eapply lookup_lt_Some. Qed.

Lemma entry_revision h n rev r : wf_entries h -> entry h n rev r -> 0 < rev < 2^63.
Proof. intros [Hw _] (v & Hn & _). by destruct (Hw _ _ _ Hn). Qed.

Lemma replaces_later t t' r r' : t <= t' -> replaces t r r' -> replaces t' r r'.
Proof.
  intros Ht [?|H]; [by left|right]. etrans; [done|]. by apply Z.div_le_mono.
Qed.

Lemma write_ok_extends h h' t t' w :
  h `prefix_of` h' -> t <= t' -> write_ok h t w -> write_ok h' t' w.
Proof.
  intros Hp Ht (new & ? & Hm). exists new. split; [done|].
  destruct (w_mode w); [|done]. destruct Hm as (n & old & ? & ?). exists n, old.
  split; [by eapply entry_extends|by eapply replaces_later].
Qed.

Lemma fenced_extends i h h' e : h `prefix_of` h' -> fenced i h e -> fenced i h' e.
Proof.
  intros Hp (? & ? & H3). split; [done|split; [done|]]. intros Hl. destruct (H3 Hl) as (n & ?).
  exists n. by eapply entry_extends.
Qed.

Lemma follower_fenced i h e : e_id e = i -> 0 <= e_ttl e < 2^63 -> leader e = false -> fenced i h e.
Proof. intros ? ? Hl. split; [done|split; [done|]]. congruence. Qed.

Lemma last_entry h x : last h = Some x -> exists n, length h = S n /\ h !! n = Some x.
Proof. intros H. rw last_lookup in H. destruct h as [|y h]; [done|]. exists (length h). by simpl in *. Qed.

Lemma last_revision h rev v : last h = Some (rev, v) -> revision h = rev.
Proof. intros H. unfold revision. by rw H. Qed.

Lemma revision_conversions rev : 0 < rev < 2^63 -> to_uint64 rev = rev /\ to_int64 rev = rev.
Proof.
  intros Hr. unfold to_uint64, to_int64. split; [rw Z.mod_small; lia|].
  apply wrap64_id. unfold in_int64. lia.
Qed.

(** A revision names one write, and the last write has the latest. *)
Lemma revision_unique h n m rev v v' :
  wf_entries h -> h !! n = Some (rev, v) -> h !! m = Some (rev, v') -> n = m.
Proof.
  intros [_ Hinc] Hn Hm. destruct (lt_eq_lt_dec n m) as [[Hlt|]|Hlt]; [|done|];
    pose proof (Hinc _ _ _ _ Hlt ltac:(eassumption) ltac:(eassumption)); simpl in *; lia.
Qed.

Lemma revision_latest h n rev v : wf_entries h -> h !! n = Some (rev, v) -> rev <= revision h.
Proof.
  intros [_ Hinc] Hn. destruct (last h) as [[rl vl]|] eqn:Hl; [|apply last_None in Hl; by subst].
  rw (last_revision _ _ _ Hl). apply last_entry in Hl as (m & Hm & Hl). apply lookup_lt_Some in Hn as Hlt.
  destruct (decide (n = m)) as [->|]; [rw Hn in Hl; injection Hl as -> ->; lia|].
  assert (n < m)%nat as H' by lia. pose proof (Hinc _ _ _ _ H' Hn Hl). simpl in *. lia.
Qed.

Lemma own_encodes i now ttl : named i -> 0 <= now < 2^63 -> 0 <= ttl < 2^63 ->
  encodes (own_value i now ttl) (mkLease i (toUnixMilli (now + ttl))).
Proof. intros. split; [done|]. exists i, (now + ttl). split; [done|]. split; [lia|done]. Qed.

(** A committed write makes its author a fenced leader. *)
Lemma committed_fenced i now e (v : hview) rev :
  e_id e = i -> named i -> 0 <= now < 2^63 -> 0 <= e_ttl e < 2^63 -> wf_entries v.1 ->
  last v.1 = Some (rev, own_value i now (e_ttl e)) ->
  fenced i v.1 (elected e (to_uint64 rev) now) /\ fenced i v.1 (renewed e (to_uint64 rev) now).
Proof.
  intros Hi Hne Hnow Htt [Hw _] Hl. apply last_entry in Hl as (n & Hn & Hl).
  destruct (Hw _ _ _ Hl) as [Hr _]. destruct (revision_conversions rev Hr) as [-> _].
  split; (split; [done|split; [done|]]); intros _; exists n, (own_value i now (e_ttl e)); (split; [done|by apply own_encodes]).
Qed.

Lemma tryAcquire_cas_wp i now e (v : hview) :
  e_id e = i -> named i -> 0 <= now < 2^63 -> 0 <= e_ttl e < 2^63 -> leader e = false ->
  wp (cas_wp i now (e_ttl e)) (Elector_tryAcquire (H := StateStore_Backend json_Marshal json_Unmarshal s) e now)
    (step_result i (e_ttl e)) v.
Proof.
  intros Hi Hne Hn0 Htt Hl. pose proof (own_encodes i now (e_ttl e) Hne Hn0 Htt) as Hown0.
  assert (forall v' b, step_result i (e_ttl e) (e, b) v') as Hfail.
  { intros v' b. split; [by apply follower_fenced|done]. }
  assert (forall v' r, wf_entries v'.1 ->
    (forall rev, r = Ok (true, rev) -> last v'.1 = Some (rev, own_value i now (e_ttl e))) ->
    step_result i (e_ttl e)
      (let '(ok, tok, err) := StateStore_outcome r in
       match err with None => if (ok : bool) then (elected e tok now, true) else (e, false)
                 | Some _ => (e, false) end) v') as Hout.
  { intros v' [[[] n]|er] Hwf Hr; simpl; try apply Hfail.
    split; [|done]. by apply (committed_fenced i now e v' n Hi Hne Hn0 Htt Hwf (Hr n eq_refl)). }
  simpl. split; [done|]. intros v1 x _ Hwf Hown Hnow [->|[er ->]]; simpl; [|apply Hfail].
  unfold current. destruct (last v1.1) as [[rev val]|] eqn:Hlast.
  - destruct (last_entry _ _ Hlast) as (n & Hn & Hval).
    destruct (proj1 Hwf n rev val Hval) as (_ & rec & Henc). pose proof (encodes_holder _ _ Henc) as Hrec.
    unfold held_by_other. rw (encodes_decode _ _ Henc). destruct (_ && _ && _) eqn:Hheld; simpl; [apply Hfail|].
    split.
    + split; [by rw Hi|]. exists (mkLease i (toUnixMilli (now + e_ttl e))). simpl.
      split; [by rw Hi|]. exists n, rec. assert (entry v1.1 n rev rec) as Hent by (by exists val). split; [done|].
      bool_to_prop. destruct Hheld as [Hh|Hh]; [|bool_to_prop; right].
      * left. apply andb_false_iff in Hh as [Hh|Hh]; bool_to_prop; [done|]. simpl.
        assert (Holder rec = i) as Hri by congruence. split; [done|]. by eapply Hown.
      * etrans; [done|]. by apply Z.div_le_mono.
    + intros v2 x Hext Hwf2 _ _ Hans. simpl in Hans. simpl.
      pose proof (Hout v2 x Hwf2) as Ho. rw Hi in Hans.
      destruct (StateStore_outcome x) as [[ok tok] err] eqn:Ex. apply Ho. intros m ->.
      destruct Hans as [(m' & [= ->] & ?)|[[? [=]]|[? [=]]]]. done.
  - simpl. split; [split; [by rw Hi|]|].
    + exists (mkLease i (toUnixMilli (now + e_ttl e))). by rw Hi /=.
    + intros v2 x Hext Hwf2 _ _ Hans. simpl in Hans. simpl.
      pose proof (Hout v2 x Hwf2) as Ho. rw Hi in Hans.
      destruct Hans as [(m & -> & ?)|[[m ->]|[er [-> Her]]]]; simpl in *.
      * apply Ho. by intros ? [= <-].
      * apply Hfail.
      * rw Her. apply Hfail.
Qed.

Lemma Step_cas_wp i now e (v : hview) :
  named i -> 0 <= now < 2^63 -> fenced i v.1 e -> wf_entries v.1 -> own_bound i now (e_ttl e) v.1 -> now <= v.2 ->
  wp (cas_wp i now (e_ttl e)) (Elector_Step (H := StateStore_Backend json_Marshal json_Unmarshal s) e now)
    (step_result i (e_ttl e)) v.
Proof.
  intros Hne Hn0 Hf Hwf Hown Hnow. pose proof Hf as (Hi & Htt & Hlead). unfold Elector_Step.
  destruct (leader e) eqn:Hl; [|by apply tryAcquire_cas_wp].
  destruct (Hlead eq_refl) as (n & Hent). simpl. split.
  - split; [by rw Hi|]. exists (mkLease i (toUnixMilli (now + e_ttl e))). simpl.
    split; [rw Hi; by apply own_encodes|]. exists n, (mkLease i (toUnixMilli (leaseExpiry e))).
    destruct (revision_conversions _ (entry_revision _ _ _ _ Hwf Hent)) as [_ ->].
    split; [done|left; simpl; split; [done|by eapply (Hown _ _ _ Hent)]].
  - intros v1 x Hext Hwf1 _ Hnow1 Hans. simpl in Hans. rw Hi in Hans.
    assert (forall v', wp (cas_wp i now (e_ttl e))
      (Elector_tryAcquire (H := StateStore_Backend json_Marshal json_Unmarshal s) (stepped_down e) now)
      (step_result i (e_ttl e)) v') as Hta.
    { intros v'. by apply (tryAcquire_cas_wp i now (stepped_down e) v'). }
    destruct Hans as [(m & -> & Hlast)|[[m ->]|[er ->]]]; cbn -[Elector_tryAcquire wp].
    + split; [|done]. by apply (committed_fenced i now e v1 m Hi Hne Hn0 Htt Hwf1 Hlast).
    + apply Hta.
    + destruct (now <? leaseExpiry e); [|apply Hta]. split; [|done]. by apply (fenced_extends i v.1); [apply Hext|].
Qed.

(** An unconfirmed answer reaches the lease as an error that is not the
    missing-capability one. *)
Lemma unconfirmed_put r : unconfirmed r -> exists e, stateCAS_Put r = Err e.
Proof. destruct r as [[o n]|e]; simpl; [intros [-> | ->]; simpl; eauto|eauto]. Qed.

Lemma unconfirmed_create r :
  unconfirmed r ->
  exists e, stateCAS_CreateIfAbsent r = Err e /\ errors_Is e ErrCreateIfAbsentUnsupported = false.
Proof.
  destruct r as [[o n]|e]; simpl.
  - intros [-> | ->]; eexists; split; reflexivity.
  - intros [? ?]. rw decide_False //. by exists e.
Qed.

(** *** The world invariant *)

Definition ha_thread_inv h (t : Z) pd (i : string) (th : thread (cas_op (Bytes := Bytes))) : Prop :=
  named i /\ fenced i h (visible th) /\
  match th with
  | Idle e => own_bound i t (e_ttl e) h /\ own_pending i t (e_ttl e) pd
  | Running e now p =>
      0 <= now <= t /\ own_bound i now (e_ttl e) h /\ own_pending i now (e_ttl e) pd /\
      wp (cas_wp i now (e_ttl e)) p (step_result i (e_ttl e)) (h, t)
  end.

Definition ha_inv (w : ha_world (Bytes := Bytes)) : Prop :=
  0 <= ha_time w < 2^63 /\ chain (ha_hist w) (ha_time w) /\ wf_entries (ha_hist w) /\
  (forall pw, pw ∈ ha_pending w -> write_ok (ha_hist w) (ha_time w) pw) /\
  (forall i th, ha_threads w !! i = Some th -> ha_thread_inv (ha_hist w) (ha_time w) (ha_pending w) i th).

Lemma entry_snoc h rv w n rev r :
  entry (commit_write h rv w) n rev r <-> entry h n rev r \/ n = length h /\ rev = rv /\ encodes (w_value w) r.
Proof.
  unfold entry, commit_write. split.
  - intros (v & [?|[Hle H]]%lookup_app_Some & He); [left; by exists v|right].
    apply list_lookup_singleton_Some in H as [? [= <- <-]]. split; [lia|done].
  - intros [(v & ? & ?)|(-> & -> & ?)]; [exists v|exists (w_value w)]; (split; [|done]); apply lookup_app_Some; [by left|right].
    split; [done|]. by rw Nat.sub_diag.
Qed.

Lemma commit_prefix h rev w : h `prefix_of` commit_write h rev w.
Proof. by apply prefix_app_r. Qed.

(** Applying a legitimate write keeps the history well formed. *)
Lemma commit_write_wf h rev w :
  wf_entries h -> later h rev -> (exists new, encodes (w_value w) new) ->
  wf_entries (commit_write h rev w).
Proof.
  intros Hwf [Hlt Hrev] Hnew. split.
  - intros n rv v [H|[_ H]]%lookup_app_Some; [by eapply Hwf|].
    apply list_lookup_singleton_Some in H as [_ [= <- <-]]. split; [|exact Hnew].
    destruct h as [|x h]; [unfold revision in Hlt; simpl in Hlt; lia|].
    pose proof (revision_latest (x :: h) 0 x.1 x.2 Hwf) as H0. simpl in H0. rw -surjective_pairing in H0.
    specialize (H0 eq_refl). destruct (proj1 Hwf 0%nat x.1 x.2) as [? _]; [by destruct x|]. lia.
  - intros n m x y Hnm Hn [Hm|[Hge Hm]]%lookup_app_Some.
    + apply lookup_app_Some in Hn as [Hn|[Hge _]]; [by eapply (proj2 Hwf)|]. apply lookup_lt_Some in Hm. lia.
    + apply list_lookup_singleton_Some in Hm as [Hm <-]. simpl.
      apply lookup_app_Some in Hn as [Hn|[Hge' Hn]]; [|apply lookup_lt_Some in Hn; simpl in Hn; lia].
      destruct x as [rx vx]. pose proof (revision_latest h n rx vx Hwf Hn). simpl. lia.
Qed.

Lemma commit_inv h t w rev :
  chain h t -> wf_entries h -> write_ok h t w -> admits h w = true -> later h rev ->
  chain (commit_write h rev w) t /\ wf_entries (commit_write h rev w).
Proof.
  intros Hc Hwf (new & Hv & Hm) Ha Hlt. split; [|apply commit_write_wf; eauto].
  intros n rv r rv' r' [Hr|(-> & _ & Hr)]%entry_snoc [Hr'|(Hn & _ & Hr')]%entry_snoc; [by eapply Hc| | |lia].
  - pose proof (encodes_unique _ _ _ Hv Hr') as <-. unfold admits in Ha. destruct (w_mode w) as [q|]; bool_to_prop.
    + destruct Hm as (m & old & Hold & Hrep). pose proof (entry_revision _ _ _ _ Hwf Hold) as Hq.
      destruct Ha as [Ha|Ha]; bool_to_prop; [lia|]. destruct Hr as (v & Hr & Hrv), Hold as (v' & Hold & Hov).
      assert (last h = Some (rv, v)) as Hlast by by rw last_lookup -Hn.
      rw (last_revision _ _ _ Hlast) in Ha. subst q.
      assert (m = n) as -> by by eapply revision_unique. rw Hold in Hr. injection Hr as ->.
      by pose proof (encodes_unique _ _ _ Hov Hrv) as ->.
    + subst h. by apply entry_lt in Hr.
  - apply entry_lt in Hr'. lia.
Qed.

Lemma cas_wp_stable i now ttl p v v' :
  extends v v' ->
  wp (cas_wp i now ttl) p (step_result i ttl) v -> wp (cas_wp i now ttl) p (step_result i ttl) v'.
Proof.
  intros [Hp Ht]. destruct p as [r|X o k]; simpl.
  - intros [? ?]. split; [by eapply fenced_extends|done].
  - intros [Hop Hk]. split.
    + unfold op_ok in *. destruct (op_write o); [|done]. destruct Hop as [? ?].
      split; [done|by eapply write_ok_extends].
    + intros v2 x [? ?] ? ? ? ?. apply Hk; [|done..]. split; [by etrans|lia].
Qed.

(** Another replica's progress leaves a candidate's invariant alone. *)
Lemma ha_thread_inv_other h t pd h' t' pd' i th :
  h `prefix_of` h' -> t <= t' ->
  (forall n rev r, entry h' n rev r -> Holder r = i -> entry h n rev r \/ exists w, w ∈ pd /\ encodes (w_value w) r) ->
  (forall w r, w ∈ pd' -> encodes (w_value w) r -> Holder r = i -> w ∈ pd) ->
  ha_thread_inv h t pd i th -> ha_thread_inv h' t' pd' i th.
Proof.
  intros Hp Ht Hh Hpd (Hne & Hf & Hth). split_and!; [done|by eapply fenced_extends|].
  assert (forall now ttl, own_bound i now ttl h -> own_pending i now ttl pd ->
    own_bound i now ttl h' /\ own_pending i now ttl pd') as Hb.
  { intros now ttl Hb1 Hb2. split.
    - intros n rev r He Hr. destruct (Hh n rev r He Hr) as [?|(w & ? & ?)]; [by eapply Hb1|by eapply Hb2].
    - intros w r Hw He Hr. eapply Hb2; eauto. }
  destruct th as [e|e now p].
  - destruct Hth as [H1 H2]. destruct (Hb _ _ H1 H2) as [H3 H4].
    assert (toUnixMilli (t + e_ttl e) <= toUnixMilli (t' + e_ttl e)) as Hm by (apply Z.div_le_mono; lia).
    split; [intros n rev r ? ?|intros w r ? ? ?]; (etrans; [|exact Hm]); eauto.
  - destruct Hth as (Hn & H1 & H2 & Hwp). destruct (Hb _ _ H1 H2). split; [lia|split; [done|split; [done|]]].
    eapply cas_wp_stable; [|done]. done.
Qed.

(** The operation of a running candidate, and what it leaves to the candidate itself. *)
Lemma serve_inv {X} (o : cas_op (Bytes := Bytes) X) i now ttl h pd x h' pd' t k :
  named i -> 0 <= now <= t -> t < 2^63 -> 0 <= ttl < 2^63 -> chain h t -> wf_entries h -> (forall pw, pw ∈ pd -> write_ok h t pw) ->
  own_bound i now ttl h -> own_pending i now ttl pd ->
  wp (cas_wp i now ttl) (Op o k) (step_result i ttl) (h, t) ->
  serve X o (h, pd) x (h', pd') ->
  (chain h' t /\ wf_entries h' /\ (forall pw, pw ∈ pd' -> write_ok h' t pw)) /\
  (own_bound i now ttl h' /\ own_pending i now ttl pd' /\
   wp (cas_wp i now ttl) (k x) (step_result i ttl) (h', t)) /\
  h `prefix_of` h' /\
  (forall j, j <> i ->
     (forall n rev r, entry h' n rev r -> Holder r = j -> entry h n rev r) /\
     (forall w r, w ∈ pd' -> encodes (w_value w) r -> Holder r = j -> w ∈ pd)).
Proof.
  intros Hne Hnow Ht Htt Hc Hwf Hpd Hob Hop [Hok Hk] Hs.
  pose proof (own_encodes i now ttl Hne ltac:(lia) Htt) as Hown.
  assert (forall v r, v = own_value i now ttl -> encodes v r -> r = mkLease i (toUnixMilli (now + ttl))) as Hval'.
  { intros v r -> Hr. by eapply encodes_unique. }
  assert (forall w, op_write o = Some w -> w_value w = own_value i now ttl /\ write_ok h t w) as Hw.
  { intros w Ho. unfold op_ok in Hok. by rw Ho in Hok. }
  assert (answers o h x -> h' = h -> wp (cas_wp i now ttl) (k x) (step_result i ttl) (h', t)) as Hsame.
  { intros Ha ->. apply Hk; done || (simpl; lia). }
  remember (h, pd) as a eqn:Ea. remember (h', pd') as b eqn:Eb. destruct Hs; simplify_eq.
  - split_and!; try done. apply Hsame; [by left|done].
  - split_and!; try done. apply Hsame; [right; eauto|done].
  - destruct (Hw w ltac:(done)) as [Hval Hwok].
    destruct (commit_inv h t w rev Hc Hwf Hwok ltac:(done) ltac:(done)) as (Hc' & Hwf').
    assert (own_bound i now ttl (commit_write h rev w)) as Hob'.
    { intros n rv r [?|(-> & _ & Hr)]%entry_snoc Hh; [by eapply Hob|]. by apply (Hval' _ _ Hval) in Hr as ->. }
    split_and!; try done.
    + intros pw Hpw. apply (write_ok_extends h _ t); [apply commit_prefix|lia|by apply Hpd].
    + apply Hk; try done; [by split; [apply commit_prefix|]|simpl; lia|].
      destruct o; simplify_eq/=; left; exists rev; by rw last_snoc.
    + apply commit_prefix.
    + intros j Hj. split; [|naive_solver]. intros n rv r [?|(-> & _ & Hr)]%entry_snoc Hh; [done|].
      by apply (Hval' _ _ Hval) in Hr as ->.
  - split_and!; try done. apply Hsame; [|done].
    destruct o; simplify_eq/=; right; left; eauto.
  - destruct (Hw w ltac:(done)) as [Hval Hwok]. split_and!; try done.
    + intros pw [->|?]%elem_of_cons; [done|by apply Hpd].
    + intros pw r' [->|Hin]%elem_of_cons Hr Hh; [|by eapply Hop].
      by apply (Hval' _ _ Hval) in Hr as ->.
    + apply Hsame; [|done]. destruct o; simplify_eq/=; right; right.
      * by apply unconfirmed_put.
      * destruct (unconfirmed_create r) as (e & ? & ?); [done|]. by exists e.
    + intros j Hj. split; [done|]. intros pw r' [->|?]%elem_of_cons Hr Hh; [|done].
      by apply (Hval' _ _ Hval) in Hr as ->.
Qed.

Lemma ha_step_inv w w' :
  ha_inv w -> ha_step json_Marshal json_Unmarshal s w w' -> ha_inv w'.
Proof.
  intros (Ht0 & Hc & Hwf & Hpd & Hth) Hs. pose proof Ht0 as [Ht1 Ht2].
  destruct Hs as [w t' Ht|w i e Hi|w i e now X o k x h' pd' Hi Hsv|w i e now e' b Hi
                 |w pd1 pw pd2 rev Ep Ha Hlt|w pd1 pw pd2 Ep].
  - split; [simpl; lia|]. split_and!; simpl; [|done| |].
    + intros n rev r rev' r' ? ?. apply (replaces_later (ha_time w)); [lia|by eapply Hc].
    + intros pw ?. apply (write_ok_extends (ha_hist w) _ (ha_time w)); [done|lia|auto].
    + intros j th Hj. apply (ha_thread_inv_other (ha_hist w) (ha_time w) (ha_pending w)); [done|simpl; lia| |done|by apply Hth]. by left.
  - split_and!; simpl; [done..|]. intros j th. rewrite lookup_insert_Some.
    intros [[<- <-]|[? Hj]]; [|by apply Hth].
    destruct (Hth i _ Hi) as (? & ? & Hb & Hbp). split; [done|split; [done|split; [lia|split; [done|split; [done|]]]]].
    by apply Step_cas_wp.
  - destruct (Hth i _ Hi) as (Hne & Hf & Hn & Hb & Hbp & Hwp).
    destruct (serve_inv o i now (e_ttl e) _ _ x _ _ (ha_time w) k Hne Hn (proj2 Ht0) (proj1 (proj2 Hf)) Hc Hwf Hpd Hb Hbp Hwp Hsv)
      as ((? & ? & ?) & (? & ? & ?) & Hpre & Hoth).
    split_and!; simpl; [done..|]. intros j th. rewrite lookup_insert_Some.
    intros [[<- <-]|[Hij Hj]].
    + split; [done|split; [by eapply fenced_extends|done]].
    + destruct (Hoth j) as [Hj1 Hj2]; [done|].
      apply (ha_thread_inv_other (ha_hist w) (ha_time w) (ha_pending w)); [done|lia| |done|by apply Hth]. left. by eapply Hj1.
  - split_and!; simpl; [done..|]. intros j th. rewrite lookup_insert_Some.
    intros [[<- <-]|[? Hj]]; [|by apply Hth].
    destruct (Hth i _ Hi) as (Hne & Hf & Hn & Hb & Hbp & Hf' & Htt). simpl in *.
    split; [done|split; [done|]].
    assert (toUnixMilli (now + e_ttl e) <= toUnixMilli (ha_time w + e_ttl e)) as Hm
      by (apply Z.div_le_mono; lia).
    rw Htt. split; [intros n rev r ? ?|intros pw r ? ? ?]; (etrans; [|exact Hm]); eauto.
  - destruct (commit_inv _ _ pw rev Hc Hwf) as (? & ?); [|done|done|].
    { apply Hpd. rw Ep. set_solver. }
    split_and!; simpl; [done..| |].
    + intros pw' ?. apply (write_ok_extends (ha_hist w) _ (ha_time w)); [apply commit_prefix|lia|].
      apply Hpd. rw Ep. set_solver.
    + intros j th Hj. apply (ha_thread_inv_other (ha_hist w) (ha_time w) (ha_pending w)); [apply commit_prefix|lia| | |by apply Hth].
      * intros n rv r [?|(-> & _ & Hr)]%entry_snoc Hh; [by left|right]. exists pw. rw Ep. set_solver.
      * intros w0 r Hw0 _ _. rw Ep. set_solver.
  - split_and!; simpl; [done..| |].
    + intros pw' ?. apply Hpd. rw Ep. set_solver.
    + intros j th Hj. apply (ha_thread_inv_other (ha_hist w) (ha_time w) (ha_pending w)); [done|lia|by left| |by apply Hth].
      intros w0 r Hw0 _ _. rw Ep. set_solver.
Qed.

Lemma ha_init_inv w : ha_init codable w -> ha_inv w.
Proof.
  intros (Hh & Hp & Ht & Hth). unfold ha_inv. rw Hh Hp.
  assert (forall n rev r, ~ entry [] n rev r) as Hnil by (by intros n rev r (v & Hr & _); rw lookup_nil in Hr).
  split; [exact Ht|]. split_and!.
  - intros n rev r rev' r' Hr. by apply Hnil in Hr.
  - split; [intros n rev v Hn; by rw lookup_nil in Hn|intros n m x y _ Hn; by rw lookup_nil in Hn].
  - intros pw Hpw. by apply elem_of_nil in Hpw.
  - intros i th Hi. destruct (Hth i th Hi) as (? & ttl & ? & ->). split; [done|split; [by apply follower_fenced|]].
    split; [intros n rev r Hr; by apply Hnil in Hr|intros pw r Hpw; by apply elem_of_nil in Hpw].
Qed.

Lemma ha_run_inv w0 w : ha_init codable w0 -> rtc (ha_step json_Marshal json_Unmarshal s) w0 w -> ha_inv w.
Proof.
  intros Hinit%ha_init_inv Hrtc. induction Hrtc as [|w1 w2 w3 Hst _ IH]; [done|]. by eapply IH, ha_step_inv.
Qed.

(** From the record of a leader in force on, every later record is the same leader's. *)
Lemma leader_record_persists h t n rev i exp m rev' r :
  chain h t -> wf_entries h -> entry h n rev (mkLease i exp) -> toUnixMilli t < exp ->
  entry h (n + m) rev' r -> Holder r = i /\ exp <= ExpiryUnixMs r.
Proof.
  intros Hc [Hw _] Hn Ht. revert rev' r. induction m as [|m IH]; intros rev' r Hr.
  - rw Nat.add_0_r in Hr. by destruct (entry_unique _ _ _ _ _ _ Hn Hr) as [_ <-].
  - replace (n + S m)%nat with (S (n + m)) in Hr by lia.
    destruct (h !! (n + m)%nat) as [[rv v]|] eqn:Hv; last first.
    { apply lookup_ge_None in Hv. apply entry_lt in Hr. lia. }
    destruct (Hw _ _ _ Hv) as (_ & r0 & He0). assert (entry h (n + m) rv r0) as Hr0 by by exists v.
    destruct (IH rv r0 Hr0) as [Hh He]. destruct (Hc _ _ _ _ _ Hr0 Hr) as [[? ?]|?]; [split; [congruence|lia]|lia].
Qed.

(** A leader in force is named by the current record, for no less time than it thinks. *)
Lemma leader_is_current w i th :
  ha_inv w -> ha_threads w !! i = Some th -> leads_ms (ha_time w) (visible th) ->
  exists v rev r, current (ha_hist w) = Some (v, rev) /\ json_Unmarshal v = Ok r /\
    Holder r = i /\ toUnixMilli (leaseExpiry (visible th)) <= ExpiryUnixMs r.
Proof.
  intros (_ & Hc & Hwf & _ & Hth) Hi [Hl Ht]. destruct (Hth i _ Hi) as (_ & (_ & _ & Hf) & _).
  destruct (Hf Hl) as [n Hn]. pose proof (entry_lt _ _ _ _ Hn) as Hlt. unfold current.
  destruct (last (ha_hist w)) as [[rev v]|] eqn:E; last first.
  { apply last_None in E. rw E /= in Hlt. lia. }
  destruct (last_entry _ _ E) as (m & Hm & Hv). destruct (proj1 Hwf _ _ _ Hv) as (_ & r & He).
  exists v, rev, r. split; [done|split; [by apply encodes_decode|]].
  apply (leader_record_persists _ (ha_time w) n (token (visible th)) i _ (m - n) rev r Hc Hwf Hn Ht).
  replace (n + (m - n))%nat with m by lia. by exists v.
Qed.

(** C3: Multi-replica mutual exclusion.  Replicas share one key of a state backend that
    supports create-if-absent; their steps interleave call by call, reads and writes may
    fail, a write may be left unconfirmed and land arbitrarily late or never, the backend's
    revisions jump as it serves others, and time passes freely.  At no moment do two
    replicas lead with a lease that is in force at the millisecond granularity of the
    stored expiry, and the stored record names the one that does. *)
Theorem StateStore_mutual_exclusion (w0 w : ha_world (Bytes := Bytes)) (i j : string) (thi thj : thread cas_op) :
  ha_init codable w0 -> rtc (ha_step json_Marshal json_Unmarshal s) w0 w ->
  ha_threads w !! i = Some thi -> ha_threads w !! j = Some thj ->
  leads_ms (ha_time w) (visible thi) -> leads_ms (ha_time w) (visible thj) ->
  i = j /\
  exists v rev r, current (ha_hist w) = Some (v, rev) /\ json_Unmarshal v = Ok r /\ Holder r = i.
Proof.
  intros Hinit Hrtc Hi Hj Hli Hlj. pose proof (ha_run_inv w0 w Hinit Hrtc) as Hinv.
  destruct (leader_is_current w i thi Hinv Hi Hli) as (v & rev & r & Hc & Hd & Hh & _).
  destruct (leader_is_current w j thj Hinv Hj Hlj) as (v' & rev' & r' & Hc' & Hd' & Hh' & _).
  split; [|by exists v, rev, r]. rw Hc in Hc'. injection Hc' as <- <-. rw Hd in Hd'. injection Hd' as <-. congruence.
Qed.
End Safety.

(** ** Concrete runs *)

Definition id_marshal (r : leaseRecord) : leaseRecord := r.
Definition id_unmarshal (r : leaseRecord) : result leaseRecord := Ok r.
Definition demo_store : StateStore := NewStateStore "rat/lease/rat-serve" 0.

Definition second : Z := 1000000000.
Definition demo_elector (i : string) : Elector := NewElector i (15 * second).

(** Two replicas; the first steps half a millisecond after the clock's origin. *)
Definition ha_start_world : ha_world (Bytes := leaseRecord) :=
  mkHA 500000 [] [] {["a" := Idle (demo_elector "a"); "b" := Idle (demo_elector "b")]}.

Definition a_leads : Elector := elected (demo_elector "a") 1 500000.
Definition ha_a_leads (t : Z) : ha_world (Bytes := leaseRecord) :=
  mkHA t [(1, mkLease "a" 15000)] [] {["a" := Idle a_leads; "b" := Idle (demo_elector "b")]}.

Lemma ha_start_init : ha_init (fun _ => True) ha_start_world.
Proof.
  split; [done|split; [done|split; [done|]]]. intros i th. simpl.
  rewrite !lookup_insert_Some lookup_empty. intros [[<- <-]|[_ [[<- <-]|[_ [=]]]]];
    (split; [done|]); exists (15 * second); split; (done || reflexivity).
Qed.

Lemma ha_a_acquires : rtc (ha_step id_marshal id_unmarshal demo_store) ha_start_world (ha_a_leads 500000).
Proof.
  eapply rtc_l; [by apply (ha_start _ _ _ _ "a")|].
  eapply rtc_l; [eapply (ha_op _ _ _ _ "a"); [reflexivity|apply serve_get]|].
  eapply rtc_l; [eapply (ha_op _ _ _ _ "a"); [reflexivity|eapply (serve_commit _ _ _ _ _ 1); [reflexivity|reflexivity|split; reflexivity|reflexivity]]|].
  eapply rtc_l; [eapply (ha_return _ _ _ _ "a"); reflexivity|].
  simpl. rewrite !insert_insert_eq. apply rtc_refl.
Qed.

Lemma StateStore_mutual_exclusion_witness :
  rtc (ha_step id_marshal id_unmarshal demo_store) ha_start_world (ha_a_leads 500000) /\
  leads_ms 500000 (visible (Idle a_leads : thread (cas_op (Bytes := leaseRecord)))) /\
  ("a" = "a" /\ exists v rev r, current (ha_hist (ha_a_leads 500000)) = Some (v, rev) /\ id_unmarshal v = Ok r /\ Holder r = "a").
Proof.
  split; [exact ha_a_acquires|]. split; [split; reflexivity|].
  apply (StateStore_mutual_exclusion id_marshal id_unmarshal (fun _ => True) (fun i t _ _ => eq_refl) demo_store
    ha_start_world (ha_a_leads 500000) "a" "a" (Idle a_leads) (Idle a_leads));
    first [exact ha_start_init | exact ha_a_acquires | reflexivity | split; reflexivity].
Defined.

(** The stored expiry is truncated to milliseconds while the leader's own view keeps
    nanoseconds, so for less than a millisecond two replicas both lead with a lease that
    their own [leaseExpiry] still calls valid. *)
Theorem StateStore_submillisecond_overlap :
  exists w ea eb, rtc (ha_step id_marshal id_unmarshal demo_store) ha_start_world w /\
    ha_threads w !! "a" = Some (Idle ea) /\ ha_threads w !! "b" = Some (Idle eb) /\
    leads (ha_time w) ea /\ leads (ha_time w) eb.
Proof.
  eexists (mkHA _ _ _ _), _, _. split.
  - etrans; [apply ha_a_acquires|].
    eapply rtc_l; [apply (ha_tick _ _ _ _ (15 * second + 200000)); split; [vm_compute; discriminate|reflexivity]|].
    eapply rtc_l; [by apply (ha_start _ _ _ _ "b")|].
    eapply rtc_l; [eapply (ha_op _ _ _ _ "b"); [reflexivity|apply serve_get]|].
    eapply rtc_l; [eapply (ha_op _ _ _ _ "b"); [reflexivity|eapply (serve_commit _ _ _ _ _ 2); [reflexivity|reflexivity|split; reflexivity|reflexivity]]|].
    eapply rtc_l; [eapply (ha_return _ _ _ _ "b"); reflexivity|].
    simpl. rewrite !insert_insert_eq. apply rtc_refl.
  - simpl. split; [reflexivity|]. split; [reflexivity|]. split; split; reflexivity.
Qed.
