(* ===== verification/Reconciler.v ===== *)
(** The plugin reconciler (src/core/reconciler/reconciler.go and loop.go): desired set,
    per-plugin state machine, crash-loop discipline, routing hooks and the published
    status, against any deployment runtime. *)
From S2P Require Import Prelude Lease.

Inductive State := Pending | Healthy | Degraded.
#[export] Instance State_eq_dec : EqDecision State.
Proof. solve_decision. Defined.

Definition State_String (s : State) : string :=
  match s with Healthy => "Healthy" | Degraded => "Degraded" | Pending => "Pending" end.

Inductive HealthStatus := HEALTH_UNSPECIFIED | HEALTHY | UNHEALTHY | HEALTH_UNKNOWN.
#[export] Instance HealthStatus_eq_dec : EqDecision HealthStatus.
Proof. solve_decision. Defined.

(** The deployment-runtime interface: [R] is the runtime's own state; every call carries
    the deadline the reconciler bounds it with. *)
Class DeploymentRuntime (R LaunchSpec : Type) := {
  rt_Launch : R -> Z -> string -> LaunchSpec -> result (string * string) * R;
  rt_Healthcheck : R -> Z -> string -> result HealthStatus * R;
  rt_Terminate : R -> Z -> string -> R;
}.

(** [t.Sub(u)] saturates at the range of a duration. *)
Definition time_Sub (t u : Z) : Z := Z.max (-2^63) (Z.min (2^63 - 1) (t - u)).

Definition defaultRPCTimeout : Z := 5 * 1000000000.

Record Config := mkConfig {
  BaseBackoff : Z;
  MaxBackoff : Z;
  CrashLoopCap : Z;
  ReadinessTimeout : Z;
  RPCTimeout : Z;
  Jitter : Z -> Z;
}.

Record pluginStatus := mkStatus {
  ps_state : State;
  instanceID : string;
  endpoint : string;
  attempts : Z;
  nextRetryAt : Z;
  launchedAt : Z;
}.

Definition new_status : pluginStatus := mkStatus Pending "" "" 0 0 0.

Record statusView := mkView { v_state : State; v_attempts : Z; v_nextRetryAt : Z; v_endpoint : string }.

Definition view_of (ps : pluginStatus) : statusView :=
  mkView (ps_state ps) (attempts ps) (nextRetryAt ps) (endpoint ps).

(** What a pass does to the outside, in order: runtime calls and rewire notifications. *)
Inductive event :=
  | ELaunch (name : string)
  | ETerminate (id : string)
  | EBind (name endpoint : string)
  | EUnbind (name : string).
#[export] Instance event_eq_dec : EqDecision event.
Proof. solve_decision. Defined.

Section Reconciler.
Context {R LaunchSpec : Type} `{DeploymentRuntime R LaunchSpec}.
Context (cfg : Config).

Record Desired := mkDesired { d_Name : string; d_Launch : LaunchSpec }.

(** [desired] under its own lock; [plugins] under the pass's; [snap] under the readers'.
    [events] is ghost. *)
Record Reconciler := mkReconciler {
  desired : list Desired;
  plugins : gmap string pluginStatus;
  snap : gmap string statusView;
  runtime : R;
  events : list event;
}.

Definition reconciler_New (rt : R) (ds : list Desired) : Reconciler := mkReconciler ds ∅ ∅ rt [].

Definition set_desired (r : Reconciler) ds := mkReconciler ds (plugins r) (snap r) (runtime r) (events r).
Definition set_runtime (r : Reconciler) rt e := mkReconciler (desired r) (plugins r) (snap r) rt (events r ++ e).
Definition emit (r : Reconciler) e := set_runtime r (runtime r) [e].
Definition set_plugin (r : Reconciler) (name : string) (ps : pluginStatus) :=
  mkReconciler (desired r) (<[name := ps]> (plugins r)) (snap r) (runtime r) (events r).

Definition Reconciler_AddDesired (r : Reconciler) (d : Desired) : result Reconciler :=
  if existsb (fun x => bool_decide (d_Name x = d_Name d)) (desired r)
  then Err (Errorf "plugin %q is already in the desired set" [d_Name d])
  else Ok (set_desired r (desired r ++ [d])).

Definition Reconciler_DesiredNames (r : Reconciler) : list string := d_Name <$> desired r.

Definition rpc_timeout : Z := if RPCTimeout cfg <=? 0 then defaultRPCTimeout else RPCTimeout cfg.

Definition Reconciler_publishLocked (r : Reconciler) (name : string) : Reconciler :=
  mkReconciler (desired r) (plugins r)
    (match plugins r !! name with
     | None => delete name (snap r)
     | Some ps => <[name := view_of ps]> (snap r)
     end) (runtime r) (events r).

Definition Reconciler_terminate (r : Reconciler) (id : string) : Reconciler :=
  if decide (id = "") then r
  else set_runtime r (rt_Terminate (runtime r) rpc_timeout id) [ETerminate id].

Definition Reconciler_bind (r : Reconciler) (name ep : string) : Reconciler := emit r (EBind name ep).
Definition Reconciler_unbind (r : Reconciler) (name : string) : Reconciler := emit r (EUnbind name).

(** [BaseBackoff << (attempt-1)] on a 64-bit duration. *)
Definition Reconciler_backoffFor (attempt : Z) : Z :=
  let d := shl64 (BaseBackoff cfg) (attempt - 1) in
  let d := if (d <=? 0) || (MaxBackoff cfg <? d) then MaxBackoff cfg else d in
  wrap64 (d + Jitter cfg d).

(** The methods below update the plugin's status record, passed and returned. *)
Definition Reconciler_fail (r : Reconciler) (ps : pluginStatus) (now : Z) : Reconciler * pluginStatus :=
  let '(r, id, ep) := if decide (instanceID ps = "") then (r, instanceID ps, endpoint ps)
                      else (Reconciler_terminate r (instanceID ps), "", "") in
  let att := attempts ps + 1 in
  if CrashLoopCap cfg <=? att
  then (r, mkStatus Degraded id ep att (nextRetryAt ps) (launchedAt ps))
  else (r, mkStatus Pending id ep att (now + Reconciler_backoffFor att) (launchedAt ps)).

Definition Reconciler_launch (r : Reconciler) (ps : pluginStatus) (d : Desired) (now : Z) :
    Reconciler * pluginStatus :=
  let '(res, rt) := rt_Launch (runtime r) rpc_timeout (d_Name d) (d_Launch d) in
  let r := set_runtime r rt [ELaunch (d_Name d)] in
  match res with
  | Err _ => Reconciler_fail r ps now
  | Ok (id, ep) => (r, mkStatus (ps_state ps) id ep (attempts ps) (nextRetryAt ps) now)
  end.

Definition Reconciler_status (r : Reconciler) (ps : pluginStatus) : HealthStatus * Reconciler :=
  if decide (instanceID ps = "") then (UNHEALTHY, r)
  else let '(res, rt) := rt_Healthcheck (runtime r) rpc_timeout (instanceID ps) in
       (match res with Ok h => h | Err _ => UNHEALTHY end, set_runtime r rt []).

(** One observe-or-act step on a plugin's status. *)
Definition advance (r : Reconciler) (d : Desired) (ps : pluginStatus) (now : Z) : Reconciler * pluginStatus :=
  match ps_state ps with
  | Degraded => (r, ps)
  | Healthy =>
      let '(h, r) := Reconciler_status r ps in
      if decide (h = HEALTHY) then (r, ps) else Reconciler_fail (Reconciler_unbind r (d_Name d)) ps now
  | Pending =>
      if decide (instanceID ps = "") then
        if now <? nextRetryAt ps then (r, ps) else Reconciler_launch r ps d now
      else
        let '(h, r) := Reconciler_status r ps in
        match h with
        | HEALTHY =>
            (Reconciler_bind r (d_Name d) (endpoint ps),
             mkStatus Healthy (instanceID ps) (endpoint ps) 0 (nextRetryAt ps) (launchedAt ps))
        | HEALTH_UNKNOWN =>
            if ReadinessTimeout cfg <? time_Sub now (launchedAt ps) then Reconciler_fail r ps now else (r, ps)
        | _ => Reconciler_fail r ps now
        end
  end.

Definition Reconciler_reconcileOne (r : Reconciler) (d : Desired) (now : Z) : Reconciler :=
  let ps := default new_status (plugins r !! d_Name d) in
  let '(r, ps) := advance r d ps now in
  Reconciler_publishLocked (set_plugin r (d_Name d) ps) (d_Name d).

(** A pass over a copy of the desired set; the copy is taken under [desMu], before the
    reconcile mutex is held. *)
Definition Reconcile_pass (r : Reconciler) (copy : list Desired) (now : Z) : Reconciler :=
  fold_left (fun r d => Reconciler_reconcileOne r d now) copy r.

Definition Reconciler_Reconcile (r : Reconciler) (now : Z) : Reconciler := Reconcile_pass r (desired r) now.

Definition Reconciler_RemoveDesired (r : Reconciler) (name : string) : Reconciler :=
  let r := set_desired r (filter (fun x => d_Name x <> name) (desired r)) in
  match plugins r !! name with
  | None => r
  | Some ps =>
      let r := mkReconciler (desired r) (delete name (plugins r)) (snap r) (runtime r) (events r) in
      let r := Reconciler_publishLocked r name in
      Reconciler_terminate (Reconciler_unbind r name) (instanceID ps)
  end.

Definition Reconciler_Status (r : Reconciler) (name : string) : State * Z * Z :=
  match snap r !! name with
  | None => (Pending, 0, 0)
  | Some v => (v_state v, v_attempts v, v_nextRetryAt v)
  end.

Definition Reconciler_Endpoint (r : Reconciler) (name : string) : string :=
  match snap r !! name with
  | Some v => if decide (v_state v = Healthy) then v_endpoint v else ""
  | None => ""
  end.

(** [order] is the order in which the map of plugins happens to be iterated. *)
Definition forget_instance (r : Reconciler) (name : string) : Reconciler :=
  match plugins r !! name with
  | Some ps =>
      if decide (instanceID ps = "") then r
      else Reconciler_publishLocked
             (set_plugin r name (mkStatus (ps_state ps) "" (endpoint ps) (attempts ps)
                (nextRetryAt ps) (launchedAt ps))) name
  | None => r
  end.

Definition Reconciler_Shutdown (r : Reconciler) (order : list string) : Reconciler :=
  let ids := omap (fun n => ps ← plugins r !! n; if decide (instanceID ps = "") then None else Some (instanceID ps)) order in
  let r := fold_left forget_instance order r in
  fold_left Reconciler_terminate ids r.

(** One tick of [Loop.Run] on a replica that contends on an in-memory lease. *)
Definition Loop_tick (e : Elector) (s : Store) (r : Reconciler) (now : Z) : Elector * Store * Reconciler :=
  let '((e, leads), s) := run_store (Elector_Step e now) s in
  (e, s, if (leads : bool) then Reconciler_Reconcile r now else r).

(** The next tick's delay. *)
Definition Loop_delay (tick : Z) (jitter : Z -> Z) : Z := wrap64 (tick + jitter tick).
End Reconciler.
Arguments Desired LaunchSpec : clear implicits.
Arguments Reconciler R LaunchSpec : clear implicits.

(** ** Frames and the invariant *)

(** The routing table the rewire notifications leave behind. *)
Definition route_event (rs : gmap string string) (e : event) : gmap string string :=
  match e with
  | EBind n ep => <[n := ep]> rs
  | EUnbind n => delete n rs
  | _ => rs
  end.
Definition routes_of (es : list event) : gmap string string := fold_left route_event es ∅.

Lemma routes_of_app es1 es2 : routes_of (es1 ++ es2) = fold_left route_event es2 (routes_of es1).
Proof. unfold routes_of. by rw fold_left_app. Qed.

Section Invariant.
Context {R LaunchSpec : Type} `{DeploymentRuntime R LaunchSpec}.
Context (cfg : Config).
Implicit Types (r : Reconciler R LaunchSpec) (d : Desired LaunchSpec).

Definition status_ok (ps : pluginStatus) : Prop :=
  0 <= attempts ps /\
  match ps_state ps with
  | Pending => attempts ps < CrashLoopCap cfg
  | Healthy => instanceID ps <> "" /\ attempts ps = 0
  | Degraded => instanceID ps = "" /\ CrashLoopCap cfg <= attempts ps
  end.

(** What the routing table must say about a plugin with this status. *)
Definition route_for (ps : option pluginStatus) : option string :=
  match ps with
  | Some ps => if decide (ps_state ps = Healthy) then Some (endpoint ps) else None
  | None => None
  end.

Record reconciler_ok r : Prop := {
  ok_snap : snap r = view_of <$> plugins r;
  ok_routes : forall n, routes_of (events r) !! n = route_for (plugins r !! n);
  ok_status : forall n ps, plugins r !! n = Some ps -> status_ok ps;
}.

Lemma terminate_frame r id :
  desired (Reconciler_terminate cfg r id) = desired r /\ plugins (Reconciler_terminate cfg r id) = plugins r /\
  snap (Reconciler_terminate cfg r id) = snap r /\
  exists es, events (Reconciler_terminate cfg r id) = events r ++ es /\ (es = [] \/ es = [ETerminate id]).
Proof.
  unfold Reconciler_terminate. case_decide; simpl; [|by eauto 8].
  split_and!; [done..|]. exists []. rw app_nil_r. eauto.
Qed.

(** A failure terminates at most the plugin's instance and leaves it without one. *)
Lemma fail_spec r ps now r' ps' :
  Reconciler_fail cfg r ps now = (r', ps') ->
  plugins r' = plugins r /\ snap r' = snap r /\ desired r' = desired r /\
  (exists es, events r' = events r ++ es /\ (es = [] \/ es = [ETerminate (instanceID ps)])) /\
  instanceID ps' = "" /\ attempts ps' = attempts ps + 1 /\
  ps_state ps' = (if CrashLoopCap cfg <=? attempts ps + 1 then Degraded else Pending).
Proof.
  unfold Reconciler_fail. destruct (decide (instanceID ps = "")) as [Hid|Hid].
  - destruct (CrashLoopCap cfg <=? attempts ps + 1); intros [= <- <-]; simpl; split_and!; try done;
      exists []; rw app_nil_r; eauto.
  - destruct (terminate_frame r (instanceID ps)) as (? & ? & ? & ?).
    destruct (CrashLoopCap cfg <=? attempts ps + 1); intros [= <- <-]; simpl; by split_and!.
Qed.

Definition same_tables r r' : Prop :=
  plugins r' = plugins r /\ snap r' = snap r /\ desired r' = desired r.

Lemma status_frame r ps : same_tables r (Reconciler_status cfg r ps).2 /\
  events (Reconciler_status cfg r ps).2 = events r.
Proof.
  unfold Reconciler_status. case_decide; [done|].
  destruct (rt_Healthcheck _ _ _) as [res rt]. simpl. by rw app_nil_r.
Qed.

Lemma status_healthy_instance r ps : (Reconciler_status cfg r ps).1 = HEALTHY -> instanceID ps <> "".
Proof. unfold Reconciler_status. by case_decide. Qed.

(** The observable effect of one step on plugin [n]: its rewire notifications bring the
    routing table from the old status to the new one and touch no other plugin. *)
Definition rewires (n : string) (ps ps' : pluginStatus) (es : list event) : Prop :=
  forall rs : gmap string string, rs !! n = route_for (Some ps) ->
    fold_left route_event es rs !! n = route_for (Some ps') /\
    forall m, m <> n -> fold_left route_event es rs !! m = rs !! m.

Lemma rewires_quiet n ps ps' es :
  Forall (fun e => match e with ELaunch _ | ETerminate _ => True | _ => False end) es ->
  route_for (Some ps') = route_for (Some ps) -> rewires n ps ps' es.
Proof.
  intros Hq Heq rs Hrs. assert (fold_left route_event es rs = rs) as ->.
  { induction Hq as [|e es He _ IH]; [done|]. by destruct e. }
  split; [congruence|done].
Qed.

Lemma fail_ok ps ps' :
  status_ok ps -> instanceID ps' = "" -> attempts ps' = attempts ps + 1 ->
  ps_state ps' = (if CrashLoopCap cfg <=? attempts ps + 1 then Degraded else Pending) ->
  status_ok ps' /\ route_for (Some ps') = None.
Proof.
  intros [Ha _] Hi Hat Hst. unfold status_ok. simpl. rw Hst Hat.
  destruct (Z.leb_spec (CrashLoopCap cfg) (attempts ps + 1)); split; try done;
    split_and!; try done; lia.
Qed.

Lemma quiet_cases es id :
  es = [] \/ es = [ETerminate id] ->
  Forall (fun e => match e with ELaunch _ | ETerminate _ => True | _ => False end) es.
Proof. intros [-> | ->]; repeat constructor. Qed.

Lemma advance_ok r d ps now r' ps' :
  status_ok ps -> advance cfg r d ps now = (r', ps') ->
  same_tables r r' /\ status_ok ps' /\
  exists es, events r' = events r ++ es /\ rewires (d_Name d) ps ps' es.
Proof.
  intros Hok. unfold advance.
  assert (forall r0 es0 n psf rf, same_tables r r0 -> events r0 = events r ++ es0 ->
    (forall rs : gmap string string, rs !! n = route_for (Some ps) ->
       fold_left route_event es0 rs !! n = None /\
       forall m, m <> n -> fold_left route_event es0 rs !! m = rs !! m) ->
    Reconciler_fail cfg r0 ps now = (rf, psf) ->
    same_tables r rf /\ status_ok psf /\ exists es, events rf = events r ++ es /\ rewires n ps psf es) as Hfail.
  { intros r0 es0 n psf rf (? & ? & ?) He0 Hrs (? & ? & ? & (es & Hes & Hq) & Hi & Ha & Hst)%fail_spec.
    destruct (fail_ok ps psf Hok Hi Ha Hst) as [? Hrt].
    split; [by split_and!; etrans|]. split; [done|]. exists (es0 ++ es). split; [by rw Hes He0 app_assoc|].
    intros rs Hr0. rw fold_left_app. destruct (Hrs rs Hr0) as [Hr1 Hr2].
    assert (forall rs', fold_left route_event es rs' = rs') as -> by by destruct Hq as [-> | ->].
    by rw Hr1 Hrt. }
  assert (forall r0 psf rf, same_tables r r0 -> events r0 = events r -> ps_state ps <> Healthy ->
    Reconciler_fail cfg r0 ps now = (rf, psf) ->
    same_tables r rf /\ status_ok psf /\ exists es, events rf = events r ++ es /\ rewires (d_Name d) ps psf es) as Hfail0.
  { intros r0 psf rf ? He Hne. apply (Hfail r0 []); [done|by rw app_nil_r|].
    intros rs Hrs. simpl in *. by rw decide_False in Hrs. }
  assert (forall r0 psf, same_tables r r0 -> events r0 = events r -> status_ok psf ->
    route_for (Some psf) = route_for (Some ps) ->
    same_tables r r0 /\ status_ok psf /\ exists es, events r0 = events r ++ es /\ rewires (d_Name d) ps psf es) as Hquiet.
  { intros r0 psf ? He ? ?. split_and!; try done. exists []. rw app_nil_r. split; [done|]. by apply rewires_quiet. }
  destruct (status_frame r ps) as [Hsf Hse]. pose proof (status_healthy_instance r ps) as Hsi.
  destruct (ps_state ps) eqn:Est.
  - destruct (decide (instanceID ps = "")) as [Hid|Hid].
    + destruct (now <? nextRetryAt ps); [intros [= <- <-]; by apply Hquiet|].
      unfold Reconciler_launch. destruct (rt_Launch _ _ _ _) as [[[id ep]|er] rt].
      * intros [= <- <-]. split; [done|]. split; [by unfold status_ok in *; simpl; rw Est in Hok *|].
        exists [ELaunch (d_Name d)]. split; [done|]. apply rewires_quiet; [by repeat constructor|].
        simpl. by rw Est.
      * apply (Hfail _ [ELaunch (d_Name d)]); [done|done|]. intros rs Hrs. simpl in *. by rw Est in Hrs.
    + destruct (Reconciler_status cfg r ps) as [h r1]; simpl in *. destruct h.
      * by apply Hfail0.
      * intros [= <- <-]. destruct Hok as [Ha _]. split; [done|]. split.
        { split; [done|]. split; [by apply Hsi|done]. }
        exists [EBind (d_Name d) (endpoint ps)]. split; [by rw -Hse|]. intros rs Hrs. simpl.
        split; [by rw lookup_insert_eq|]. intros m Hm. by rw lookup_insert_ne.
      * by apply Hfail0.
      * destruct (_ <? _); [by apply Hfail0|]. intros [= <- <-]. by apply Hquiet.
  - destruct (Reconciler_status cfg r ps) as [h r1]; simpl in *.
    destruct (decide (h = HEALTHY)); [intros [= <- <-]; by apply Hquiet|].
    apply (Hfail _ [EUnbind (d_Name d)]); [done|by rw -Hse|]. intros rs Hrs. simpl.
    split; [by rw lookup_delete_eq|]. intros m Hm. by rw lookup_delete_ne.
  - intros [= <- <-]. by apply Hquiet.
Qed.

Lemma new_status_ok : 0 < CrashLoopCap cfg -> status_ok new_status.
Proof. intros ?. split; simpl; lia. Qed.

Lemma default_status_ok r n :
  0 < CrashLoopCap cfg -> reconciler_ok r -> status_ok (default new_status (plugins r !! n)).
Proof.
  intros Hcap Hok. destruct (plugins r !! n) as [ps|] eqn:E; [by eapply ok_status|by apply new_status_ok].
Qed.

Lemma publish_ok r n ps :
  (forall m, m <> n -> snap r !! m = view_of <$> plugins r !! m) ->
  snap (Reconciler_publishLocked (set_plugin r n ps) n) = view_of <$> <[n := ps]> (plugins r).
Proof.
  intros Hm. unfold Reconciler_publishLocked. simpl. rw lookup_insert_eq. simpl.
  apply map_eq. intros m. rw lookup_fmap. destruct (decide (m = n)) as [->|Hne].
  - by rw !lookup_insert_eq.
  - rw !lookup_insert_ne //. by apply Hm.
Qed.

Lemma reconcileOne_ok r d now :
  0 < CrashLoopCap cfg -> reconciler_ok r -> reconciler_ok (Reconciler_reconcileOne cfg r d now).
Proof.
  intros Hcap Hok. unfold Reconciler_reconcileOne.
  set (ps := default new_status (plugins r !! d_Name d)).
  destruct (advance cfg r d ps now) as [r' ps'] eqn:Ea.
  destruct (advance_ok r d ps now r' ps') as ((Hp & Hs & _) & Hst & es & Hes & Hrw); [by apply default_status_ok|done|].
  assert (routes_of (events r) !! d_Name d = route_for (Some ps)) as H0.
  { rw ok_routes //. unfold ps. by destruct (plugins r !! d_Name d). }
  destruct (Hrw _ H0) as [H1 H2]. constructor.
  - rw publish_ok; simpl; [done|]. intros m _. by rw Hs Hp (ok_snap r Hok) lookup_fmap.
  - intros n. simpl. rw Hes routes_of_app. destruct (decide (n = d_Name d)) as [->|Hne].
    + by rw H1 lookup_insert_eq.
    + rw H2 // lookup_insert_ne // Hp. by apply ok_routes.
  - intros n psn. simpl. rewrite lookup_insert_Some. intros [[<- <-]|[_ Hn]]; [done|].
    rw Hp in Hn. by eapply ok_status.
Qed.

Lemma Reconcile_pass_ok r copy now :
  0 < CrashLoopCap cfg -> reconciler_ok r -> reconciler_ok (Reconcile_pass cfg r copy now).
Proof.
  intros Hcap. unfold Reconcile_pass. revert r.
  induction copy as [|d copy IH]; intros r Hok; [done|]. by apply IH, reconcileOne_ok.
Qed.

Lemma RemoveDesired_ok r n : reconciler_ok r -> reconciler_ok (Reconciler_RemoveDesired cfg r n).
Proof.
  intros Hok. unfold Reconciler_RemoveDesired. simpl.
  destruct (plugins r !! n) as [ps|] eqn:En; [|by destruct Hok; constructor].
  set (r2 := Reconciler_unbind _ _).
  destruct (terminate_frame r2 (instanceID ps)) as (_ & Hp & Hs & es & Hes & Hq).
  assert (events (Reconciler_terminate cfg r2 (instanceID ps)) = events r ++ EUnbind n :: es) as Hev
    by by rw Hes /r2 /= -app_assoc.
  constructor.
  - rw Hs Hp /r2 /= /Reconciler_publishLocked /= lookup_delete_eq /= (ok_snap r Hok).
    by rw fmap_delete.
  - intros m. rw Hev Hp routes_of_app /=.
    assert (forall rs', fold_left route_event es rs' = rs') as -> by by destruct Hq as [-> | ->].
    destruct (decide (m = n)) as [->|Hne]; [by rw !lookup_delete_eq|].
    rw !lookup_delete_ne //. by apply ok_routes.
  - intros m psm. rw Hp /=. rewrite lookup_delete_Some. intros [_ ?]. by eapply ok_status.
Qed.

(** Everything that can happen to a running reconciler.  A pass works on a copy of the
    desired set that may be stale by the time it holds the reconcile mutex. *)
Inductive reconciler_step : Reconciler R LaunchSpec -> Reconciler R LaunchSpec -> Prop :=
  | rstep_pass r copy now : reconciler_step r (Reconcile_pass cfg r copy now)
  | rstep_add r d r' : Reconciler_AddDesired r d = Ok r' -> reconciler_step r r'
  | rstep_remove r n : reconciler_step r (Reconciler_RemoveDesired cfg r n).

Lemma reconciler_step_ok r r' :
  0 < CrashLoopCap cfg -> reconciler_ok r -> reconciler_step r r' -> reconciler_ok r'.
Proof.
  intros Hcap Hok Hs. destruct Hs as [r copy now|r d r' Ha|r n].
  - by apply Reconcile_pass_ok.
  - unfold Reconciler_AddDesired in Ha. destruct (existsb _ _); [done|]. injection Ha as <-.
    by destruct Hok; constructor.
  - by apply RemoveDesired_ok.
Qed.

(** Events are only ever added, and a pass leaves the desired set alone. *)
Lemma pass_frame copy r now :
  0 < CrashLoopCap cfg -> reconciler_ok r ->
  desired (Reconcile_pass cfg r copy now) = desired r /\
  exists es, events (Reconcile_pass cfg r copy now) = events r ++ es.
Proof.
  intros Hcap. unfold Reconcile_pass. revert r. induction copy as [|d copy IH]; intros r Hok.
  { split; [done|]. exists []. by rw app_nil_r. }
  simpl. destruct (IH (Reconciler_reconcileOne cfg r d now)) as (-> & es & ->); [by apply reconcileOne_ok|].
  unfold Reconciler_reconcileOne. destruct (advance cfg r d _ now) as [r' ps'] eqn:Ea.
  destruct (advance_ok r d _ now r' ps' (default_status_ok r _ Hcap Hok) Ea) as ((_ & _ & ?) & _ & es0 & He & _).
  split; [done|]. exists (es0 ++ es). simpl. by rw He app_assoc.
Qed.

Lemma pass_desired copy r now :
  0 < CrashLoopCap cfg -> reconciler_ok r -> desired (Reconcile_pass cfg r copy now) = desired r.
Proof. intros. by apply pass_frame. Qed.

Lemma RemoveDesired_frame r n :
  desired (Reconciler_RemoveDesired cfg r n) = filter (fun x => d_Name x <> n) (desired r) /\
  plugins (Reconciler_RemoveDesired cfg r n) = delete n (plugins r) /\
  exists es, events (Reconciler_RemoveDesired cfg r n) = events r ++ es.
Proof.
  unfold Reconciler_RemoveDesired. simpl. destruct (plugins r !! n) as [ps|] eqn:En; simpl.
  - match goal with |- context [Reconciler_terminate cfg ?r0 ?id] =>
      destruct (terminate_frame r0 id) as (-> & -> & _ & es & -> & _) end.
    split_and!; [done|done|]. exists (EUnbind n :: es). simpl. by rw -app_assoc.
  - split_and!; [done|by rw delete_id|]. exists []. by rw app_nil_r.
Qed.

(** C4: Whatever the runtime answers and however passes, additions and removals follow each
    other (a pass may even work on a stale copy of the desired set), the published
    status is exactly the projection of the internal one, the routing table built by
    the rewire notifications lists exactly the healthy plugins at their current
    endpoints, and every status is consistent: healthy means an instance and no counted
    failure, degraded means the cap was reached and nothing runs, pending means the cap
    was not reached. *)
Theorem reconciler_invariant (rt : R) (ds : list (Desired LaunchSpec)) (r : Reconciler R LaunchSpec) :
  0 < CrashLoopCap cfg -> rtc reconciler_step (reconciler_New rt ds) r -> reconciler_ok r.
Proof.
  intros Hcap Hs. assert (reconciler_ok (reconciler_New rt ds)) as H0 by by constructor.
  induction Hs as [|r1 r2 r3 Hst _ IH]; [done|]. by eapply IH, reconciler_step_ok.
Qed.

(** ** The crash-loop cap *)

Definition launches (n : string) (es : list event) : Z :=
  Z.of_nat (length (filter (fun e => e = ELaunch n) es)).

Lemma launches_app n es1 es2 : launches n (es1 ++ es2) = launches n es1 + launches n es2.
Proof. unfold launches. rw filter_app length_app. lia. Qed.

Lemma launches_one n m : launches n [ELaunch m] = if decide (m = n) then 1 else 0.
Proof.
  unfold launches. case_decide as Hm; [subst; by rw filter_cons_True|].
  rw filter_cons_False //. congruence.
Qed.

Lemma launches_other n e : (forall m, e <> ELaunch m) -> launches n [e] = 0.
Proof. intros He. unfold launches. rw filter_cons_False //. Qed.

Definition running (ps : pluginStatus) : Z := if decide (instanceID ps = "") then 0 else 1.

Lemma running_none ps : instanceID ps = "" -> running ps = 0.
Proof. intros Hi. unfold running. by case_decide. Qed.
Lemma running_some ps : instanceID ps <> "" -> running ps = 1.
Proof. intros Hi. unfold running. by case_decide. Qed.

(** A runtime under which nothing ever becomes healthy, though it may launch. *)
Definition never_healthy : Prop :=
  (forall rt t id, (rt_Healthcheck (R := R) rt t id).1 <> Ok HEALTHY) /\
  (forall rt t n spec id ep, (rt_Launch (R := R) (LaunchSpec := LaunchSpec) rt t n spec).1 = Ok (id, ep) -> id <> "").

(** A crash-looping plugin: every launch but the running one has been counted. *)
Definition crash_looping (r : Reconciler R LaunchSpec) (n : string) : Prop :=
  match plugins r !! n with
  | None => launches n (events r) = 0
  | Some ps => ps_state ps <> Healthy /\ status_ok ps /\ attempts ps <= CrashLoopCap cfg /\
               launches n (events r) = attempts ps + running ps
  end.

Lemma fail_crash r ps now r' ps' n :
  Reconciler_fail cfg r ps now = (r', ps') -> attempts ps < CrashLoopCap cfg -> 0 <= attempts ps ->
  launches n (events r') = launches n (events r) /\
  ps_state ps' <> Healthy /\ status_ok ps' /\ attempts ps' <= CrashLoopCap cfg /\
  attempts ps' + running ps' = attempts ps + 1.
Proof.
  intros (_ & _ & _ & (es & -> & Hq) & Hi & Ha & Hst)%fail_spec Hlt Hge. unfold status_ok.
  rw launches_app (running_none ps') // Hi Ha Hst. split.
  - destruct Hq as [-> | ->]; [|rw launches_other //]; unfold launches; simpl; lia.
  - destruct (Z.leb_spec (CrashLoopCap cfg) (attempts ps + 1)); split_and!; try done; lia.
Qed.

Lemma advance_crash r d ps now r' ps' :
  never_healthy -> ps_state ps <> Healthy -> status_ok ps -> attempts ps <= CrashLoopCap cfg ->
  launches (d_Name d) (events r) = attempts ps + running ps ->
  advance cfg r d ps now = (r', ps') ->
  ps_state ps' <> Healthy /\ status_ok ps' /\ attempts ps' <= CrashLoopCap cfg /\
  launches (d_Name d) (events r') = attempts ps' + running ps' /\
  (forall n, n <> d_Name d -> launches n (events r') = launches n (events r)).
Proof.
  intros [Hnh Hid] Hst Hok Hle Hcnt. unfold advance. pose proof Hok as [Ha Hok2].
  assert (forall r0 rf psf k, (forall n, n <> d_Name d -> launches n (events r0) = launches n (events r)) ->
    launches (d_Name d) (events r0) = attempts ps + 1 -> ps_state ps = Pending -> k = (rf, psf) ->
    Reconciler_fail cfg r0 ps now = k ->
    ps_state psf <> Healthy /\ status_ok psf /\ attempts psf <= CrashLoopCap cfg /\
    launches (d_Name d) (events rf) = attempts psf + running psf /\
    (forall n, n <> d_Name d -> launches n (events rf) = launches n (events r))) as Hfail.
  { intros r0 rf psf k Ho Hn Hp -> Hf. rw Hp in Hok2.
    destruct (fail_crash r0 ps now rf psf (d_Name d) Hf Hok2 Ha) as (Hl & ? & ? & ? & Hsum).
    split_and!; try done; [lia|]. intros n Hne.
    destruct (fail_crash r0 ps now rf psf n Hf Hok2 Ha) as (-> & _). by apply Ho. }
  destruct (ps_state ps) eqn:Est; [|done|intros [= <- <-]; rw Est; by split_and!].
  destruct (decide (instanceID ps = "")) as [Hi|Hi].
  - destruct (now <? nextRetryAt ps); [intros [= <- <-]; rw Est; by split_and!|].
    pose proof (running_none ps Hi) as Hrun.
    unfold Reconciler_launch. specialize (Hid (runtime r) (rpc_timeout cfg) (d_Name d) (d_Launch d)).
    destruct (rt_Launch _ _ _ _) as [[[id ep]|er] rt]; simpl in Hid.
    + intros [= <- <-]. simpl. rw Est. split_and!; try done.
      * rw launches_app launches_one decide_True // Hcnt Hrun running_some; [simpl; lia|by eapply Hid].
      * intros n Hne. rw launches_app launches_one decide_False //. lia.
    + intros Hk. refine (Hfail _ _ _ _ _ _ eq_refl Hk eq_refl).
      * intros n Hne. simpl. rw launches_app launches_one decide_False //. lia.
      * simpl. rw launches_app launches_one decide_True // Hcnt Hrun. lia.
  - pose proof (running_some ps Hi) as Hrun.
    destruct (status_frame r ps) as [_ Hse].
    assert ((Reconciler_status cfg r ps).1 <> HEALTHY) as Hne.
    { unfold Reconciler_status. rw decide_False //. specialize (Hnh (runtime r) (rpc_timeout cfg) (instanceID ps)).
      destruct (rt_Healthcheck _ _ _) as [[h|er] rt]; simpl in *; congruence. }
    destruct (Reconciler_status cfg r ps) as [h r1]; simpl in *.
    destruct h; [| done | |]; intros Hk.
    + refine (Hfail _ _ _ _ _ _ eq_refl Hk eq_refl); rw Hse //. lia.
    + refine (Hfail _ _ _ _ _ _ eq_refl Hk eq_refl); rw Hse //. lia.
    + destruct (_ <? _); [refine (Hfail _ _ _ _ _ _ eq_refl Hk eq_refl); rw Hse //; lia|].
      injection Hk as <- <-. rw Est Hse. by split_and!.
Qed.

Lemma reconcileOne_crash r d now n :
  0 < CrashLoopCap cfg -> never_healthy -> (forall m, crash_looping r m) ->
  crash_looping (Reconciler_reconcileOne cfg r d now) n.
Proof.
  intros Hcap Hnh Hcl. unfold Reconciler_reconcileOne.
  set (ps := default new_status (plugins r !! d_Name d)).
  assert (ps_state ps <> Healthy /\ status_ok ps /\ attempts ps <= CrashLoopCap cfg /\
    launches (d_Name d) (events r) = attempts ps + running ps) as (? & Hok & ? & ?).
  { pose proof (Hcl (d_Name d)) as Hd. unfold crash_looping in Hd. unfold ps.
    destruct (plugins r !! d_Name d); [done|]. simpl. split_and!; [done|by apply new_status_ok|simpl; lia|].
    rw Hd. done. }
  destruct (advance cfg r d ps now) as [r' ps'] eqn:Ea.
  destruct (advance_ok r d ps now r' ps' Hok Ea) as ((Hp & _ & _) & _).
  destruct (advance_crash r d ps now r' ps') as (? & ? & ? & ? & Hoth); [done..|].
  unfold crash_looping. simpl. destruct (decide (d_Name d = n)) as [<-|Hne].
  - by rw lookup_insert_eq.
  - rw lookup_insert_ne // Hp. specialize (Hcl n). unfold crash_looping in Hcl. by rw Hoth; last congruence.
Qed.

(** C31: The crash-loop cap holds: against a runtime under which the plugins never become
    healthy, any number of passes at any times launches each plugin at most
    [CrashLoopCap] times. *)
Theorem crash_loop_cap (rt : R) (ds : list (Desired LaunchSpec))
    (ps : list (list (Desired LaunchSpec) * Z)) (n : string) :
  0 < CrashLoopCap cfg -> never_healthy ->
  launches n (events (fold_left (fun r p => Reconcile_pass cfg r p.1 p.2) ps (reconciler_New rt ds)))
    <= CrashLoopCap cfg.
Proof.
  intros Hcap Hnh.
  enough (forall r, (forall m, crash_looping r m) ->
    forall m, crash_looping (fold_left (fun r p => Reconcile_pass cfg r p.1 p.2) ps r) m) as HH.
  { specialize (HH (reconciler_New rt ds) ltac:(done) n). unfold crash_looping in HH.
    destruct (plugins _ !! n) as [st|]; [|lia]. destruct HH as (Hst & [Ha Hok] & Hle & ->).
    destruct (ps_state st); [unfold running; case_decide; lia|done|].
    destruct Hok as [Hi _]. rw running_none //. lia. }
  induction ps as [|[copy now] ps IH]; intros r Hr; [done|]. apply IH. simpl. clear IH.
  unfold Reconcile_pass. revert r Hr. induction copy as [|d copy IH]; intros r Hr; [done|].
  apply IH. intros m. by apply reconcileOne_crash.
Qed.
End Invariant.

(** ** Backoff *)

Lemma shl64_exact x n : 0 <= n -> in_int64 (x * 2^n) -> shl64 x n = x * 2^n.
Proof. intros _ H. unfold shl64. by apply wrap64_id. Qed.

(** A wrapped shift stays a multiple of the shifted-in zeros. *)
Lemma wrap64_multiple x m : 0 <= m <= 64 -> (2^m | x) -> (2^m | wrap64 x).
Proof.
  intros Hm [q Hq]. unfold wrap64. rw Z.mod_eq; [|lia].
  exists (q - 2^(64 - m) * ((x + 2^63) / 2^64)). rw Hq.
  assert (2^64 = 2^(64-m) * 2^m) as E by (rw -Z.pow_add_r; [f_equal; lia|lia|lia]).
  rw {1}E. ring_simplify. lia.
Qed.

(** The backoff is exactly [min(BaseBackoff * 2^(attempt-1), MaxBackoff)] plus jitter
    at every attempt, however high, when the base is [o * 2^k] with [o * MaxBackoff]
    below [2^63]: a shift that overflows either turns non-positive or leaves a multiple
    of a power of two beyond the cap. *)
Theorem backoffFor_exact (cfg : Config) (o k attempt : Z) :
  1 <= o -> 0 <= k -> BaseBackoff cfg = o * 2^k -> in_int64 (BaseBackoff cfg) ->
  0 < MaxBackoff cfg -> o * MaxBackoff cfg < 2^63 -> 1 <= attempt ->
  Reconciler_backoffFor cfg attempt =
  let d := Z.min (BaseBackoff cfg * 2^(attempt - 1)) (MaxBackoff cfg) in wrap64 (d + Jitter cfg d).
Proof.
  intros Ho Hk HB HBr HM HoM Hatt. unfold Reconciler_backoffFor. cbv zeta.
  set (n := attempt - 1). assert (0 <= n) as Hn by lia.
  assert (0 < 2^n) as H2n by (apply Z.pow_pos_nonneg; lia).
  assert (0 < 2^k) as H2k by (apply Z.pow_pos_nonneg; lia).
  enough ((if (shl64 (BaseBackoff cfg) n <=? 0) || (MaxBackoff cfg <? shl64 (BaseBackoff cfg) n)
           then MaxBackoff cfg else shl64 (BaseBackoff cfg) n) =
          Z.min (BaseBackoff cfg * 2^n) (MaxBackoff cfg)) as -> by done.
  destruct (Z.lt_ge_cases (BaseBackoff cfg * 2^n) (2^63)) as [Hs|Hbig].
  - rw shl64_exact //; [|split; [nia|done]].
    destruct (Z.leb_spec (BaseBackoff cfg * 2^n) 0); [nia|].
    destruct (Z.ltb_spec (MaxBackoff cfg) (BaseBackoff cfg * 2^n)); simpl; lia.
  - assert (MaxBackoff cfg < 2^63) as HM63 by nia.
    rw Z.min_r; [|lia]. destruct (Z.leb_spec (shl64 (BaseBackoff cfg) n) 0); [done|]. simpl.
    destruct (Z.ltb_spec (MaxBackoff cfg) (shl64 (BaseBackoff cfg) n)) as [|Hle]; [done|]. exfalso.
    set (m := Z.min 64 (k + n)).
    assert ((2^m | shl64 (BaseBackoff cfg) n)) as [q Hq].
    { apply wrap64_multiple; [lia|]. exists (o * 2^(k + n - m)).
      rw HB -!Z.mul_assoc. f_equal. rw -!Z.pow_add_r; [f_equal|..]; lia. }
    assert (0 < 2^m) by (apply Z.pow_pos_nonneg; lia).
    assert (1 <= q) by nia. assert (2^m <= MaxBackoff cfg) as Hm by nia.
    destruct (Z.le_gt_cases 64 (k + n)) as [Hge|Hlt].
    + assert (m = 64) as Em by lia. rw Em in Hm. lia.
    + assert (m = k + n) as Em by lia. rw Em in Hm.
      assert (BaseBackoff cfg * 2^n = o * 2^(k+n)) as E by (rw HB Z.pow_add_r; lia). nia.
Qed.

(** The overflow guard of [backoffFor] is not enough on its own for an arbitrary base: with
    a one-minute cap and a base of [2^29 + 1] ns (about 537 ms), the shift of the 36th
    attempt wraps to a small positive delay below the cap it is meant to be held at. *)
Theorem backoffFor_overflow_unguarded :
  let cfg := mkConfig 536870913 60000000000 100 0 0 (fun _ => 0) in
  Reconciler_backoffFor cfg 36 = 34359738368 /\ 2^63 < BaseBackoff cfg * 2^(36 - 1).
Proof. split; vm_compute; reflexivity. Qed.

(** ** Convergence *)

Section Convergence.
Context {R LaunchSpec : Type} `{DeploymentRuntime R LaunchSpec}.
Context (cfg : Config).
Implicit Types (r : Reconciler R LaunchSpec) (d : Desired LaunchSpec).

(** A runtime that works: launches succeed with an instance id, and every instance reports
    healthy. *)
Definition works : Prop :=
  (forall rt t n spec, exists id ep, id <> "" /\ (rt_Launch (R := R) (LaunchSpec := LaunchSpec) rt t n spec).1 = Ok (id, ep)) /\
  (forall rt t id, (rt_Healthcheck (R := R) rt t id).1 = Ok HEALTHY).

(** How far a plugin is on its way up. *)
Inductive progress := Waiting | Launched | Up | Capped.
Definition progress_of (ps : pluginStatus) : progress :=
  match ps_state ps with
  | Degraded => Capped
  | Healthy => Up
  | Pending => if decide (instanceID ps = "") then Waiting else Launched
  end.
Definition progress_at r (n : string) : progress :=
  progress_of (default new_status (plugins r !! n)).

Definition next_progress (p : progress) : progress :=
  match p with Waiting => Launched | Launched | Up => Up | Capped => Capped end.

Definition due r (n : string) (now : Z) : Prop :=
  nextRetryAt (default new_status (plugins r !! n)) <= now.

Lemma advance_progress r d ps now :
  works -> status_ok cfg ps -> nextRetryAt ps <= now ->
  progress_of (advance cfg r d ps now).2 = next_progress (progress_of ps) /\
  nextRetryAt (advance cfg r d ps now).2 = nextRetryAt ps.
Proof.
  intros [Hl Hh] [_ Hok] Hdue. unfold advance, progress_of.
  assert (instanceID ps <> "" -> (Reconciler_status cfg r ps).1 = HEALTHY) as Hs.
  { intros Hi. unfold Reconciler_status. rw decide_False //.
    specialize (Hh (runtime r) (rpc_timeout cfg) (instanceID ps)).
    destruct (rt_Healthcheck _ _ _) as [res rt]. simpl in *. by rw Hh. }
  destruct (ps_state ps) eqn:Est.
  - destruct (decide (instanceID ps = "")) as [Hi|Hi].
    + destruct (Z.ltb_spec now (nextRetryAt ps)); [lia|]. unfold Reconciler_launch.
      destruct (Hl (runtime r) (rpc_timeout cfg) (d_Name d) (d_Launch d)) as (id & ep & Hne & Hr).
      destruct (rt_Launch _ _ _ _) as [res rt]. simpl in Hr. rw Hr. simpl. rw Est. by rw decide_False.
    + specialize (Hs Hi). destruct (Reconciler_status cfg r ps) as [h r1]. simpl in Hs. by rw Hs.
  - destruct Hok as [Hi _]. specialize (Hs Hi). destruct (Reconciler_status cfg r ps) as [h r1].
    simpl in Hs. rw Hs. simpl. by rw Est.
  - simpl. by rw Est.
Qed.

Lemma reconcileOne_progress r d now n :
  works -> 0 < CrashLoopCap cfg -> reconciler_ok cfg r -> due r (d_Name d) now ->
  progress_at (Reconciler_reconcileOne cfg r d now) n =
    (if decide (d_Name d = n) then next_progress (progress_at r n) else progress_at r n) /\
  (forall t, due r n t -> due (Reconciler_reconcileOne cfg r d now) n t).
Proof.
  intros Hw Hcap Hok Hdue. unfold Reconciler_reconcileOne, progress_at, due in *.
  set (ps := default new_status (plugins r !! d_Name d)) in *.
  assert (status_ok cfg ps) as Hps by by apply default_status_ok.
  destruct (advance_progress r d ps now Hw Hps Hdue) as [Hp Hn].
  destruct (advance cfg r d ps now) as [r' ps'] eqn:Ea. simpl in *.
  destruct (advance_ok cfg r d ps now r' ps' Hps Ea) as ((Hpl & _) & _).
  case_decide as Hd; simpl.
  - subst n. rw lookup_insert_eq /=. split; [done|]. intros t. by rw Hn.
  - by rw lookup_insert_ne // Hpl.
Qed.

(** What a pass leaves a plugin at: some number of steps further, at least one if the
    pass covers it. *)
Lemma pass_progress copy r now n :
  works -> 0 < CrashLoopCap cfg -> reconciler_ok cfg r -> (forall m, due r m now) ->
  exists k, progress_at (Reconcile_pass cfg r copy now) n = Nat.iter k next_progress (progress_at r n) /\
    (n ∈ d_Name <$> copy -> (1 <= k)%nat) /\ forall t, due r n t -> due (Reconcile_pass cfg r copy now) n t.
Proof.
  intros Hw Hcap. revert r. induction copy as [|d copy IH]; intros r Hok Hdue.
  { exists 0%nat. split_and!; [done|by intros ?%elem_of_nil|done]. }
  unfold Reconcile_pass in *. simpl.
  destruct (IH (Reconciler_reconcileOne cfg r d now)) as (k & Hk & Hk1 & Hkd).
  { by apply reconcileOne_ok. }
  { intros m. destruct (reconcileOne_progress r d now m) as [_ Hd]; auto. }
  destruct (reconcileOne_progress r d now n) as [Hp Hd]; [done..|].
  exists (if decide (d_Name d = n) then S k else k). rw Hk Hp.
  case_decide as Hn; split_and!; auto.
  - by rw -Nat.iter_succ_r.
  - intros _. lia.
  - rewrite elem_of_cons. intros [?|?]; [congruence|auto].
Qed.

Lemma progress_two k p : p <> Capped -> (2 <= k)%nat -> Nat.iter k next_progress p = Up.
Proof.
  intros Hp. induction k as [|[|k] IH]; intros Hk; [lia|lia|].
  destruct k as [|k]; [by destruct p|]. change (next_progress (Nat.iter (S (S k)) next_progress p) = Up). rw IH; [done|lia].
Qed.

Lemma Status_state r n :
  reconciler_ok cfg r -> (Reconciler_Status r n).1.1 = ps_state (default new_status (plugins r !! n)).
Proof.
  intros Hok. unfold Reconciler_Status. rw (ok_snap cfg r Hok) lookup_fmap.
  by destruct (plugins r !! n).
Qed.

Lemma Endpoint_route r n :
  reconciler_ok cfg r -> (Reconciler_Status r n).1.1 = Healthy ->
  routes_of (events r) !! n = Some (Reconciler_Endpoint r n).
Proof.
  intros Hok. unfold Reconciler_Status, Reconciler_Endpoint.
  rw (ok_routes cfg r Hok) (ok_snap cfg r Hok) lookup_fmap.
  destruct (plugins r !! n) as [ps|]; [|done]. simpl. intros ->. by repeat case_decide.
Qed.

(** C11: Convergence: over a working runtime, two passes that are past every retry time
    bring every desired plugin that is not degraded to healthy, with its endpoint
    published and routed. *)
Theorem two_passes_converge r now1 now2 n :
  works -> 0 < CrashLoopCap cfg -> reconciler_ok cfg r ->
  (forall m, due r m now1) -> now1 <= now2 ->
  n ∈ Reconciler_DesiredNames r -> (Reconciler_Status r n).1.1 <> Degraded ->
  let r' := Reconciler_Reconcile cfg (Reconciler_Reconcile cfg r now1) now2 in
  (Reconciler_Status r' n).1.1 = Healthy /\
  routes_of (events r') !! n = Some (Reconciler_Endpoint r' n).
Proof.
  intros Hw Hcap Hok Hdue Hle Hn Hnd. unfold Reconciler_Reconcile.
  set (r1 := Reconcile_pass cfg r (desired r) now1).
  assert (reconciler_ok cfg r1) as Hok1 by by apply Reconcile_pass_ok.
  destruct (pass_progress (desired r) r now1 n Hw Hcap Hok Hdue) as (k1 & Hk1 & Hk1' & _).
  destruct (pass_progress (desired r1) r1 now2 n Hw Hcap Hok1) as (k2 & Hk2 & Hk2' & _).
  { intros m. destruct (pass_progress (desired r) r now1 m Hw Hcap Hok Hdue) as (? & _ & _ & Hd).
    apply Hd. specialize (Hdue m). unfold due in *. lia. }
  set (r2 := Reconcile_pass cfg r1 (desired r1) now2) in *.
  assert (reconciler_ok cfg r2) as Hok2 by by apply Reconcile_pass_ok.
  enough ((Reconciler_Status r2 n).1.1 = Healthy) as Hh by (split; [done|by apply Endpoint_route]).
  assert (progress_at r n <> Capped) as Hnc.
  { rw Status_state // in Hnd. unfold progress_at, progress_of.
    destruct (ps_state _); [by case_decide|done|done]. }
  assert (progress_at r2 n = Up) as Hup.
  { rw Hk2 -/r1 Hk1 -Nat.iter_add. apply progress_two; [done|].
    unfold r1 in Hk2'. rw pass_desired // in Hk2'. specialize (Hk1' Hn). specialize (Hk2' Hn). lia. }
  rw Status_state //. unfold progress_at, progress_of in Hup.
  destruct (ps_state _); [by destruct (decide _)|done|done].
Qed.
End Convergence.

(** ** The race between a removal and a pass *)

(** A runtime whose instances are named after their plugin and always healthy. *)
#[export] Instance demo_runtime : DeploymentRuntime (list string) unit := {
  rt_Launch rt _ n _ := (Ok (n +:+ "-1", n +:+ ":80"), n :: rt);
  rt_Healthcheck rt _ _ := (Ok HEALTHY, rt);
  rt_Terminate rt _ id := rt;
}.

Definition demo_cfg : Config := mkConfig 500000000 10000000000 6 30000000000 0 (fun _ => 0).
Definition demo_rec : Reconciler (list string) unit :=
  reconciler_New [] [mkDesired "duck" tt; mkDesired "spark" tt].

(** A pass copies the desired set before it takes the reconcile mutex.  If a plugin is
    removed in between, the pass still launches it from the stale copy; it is then in
    no desired set, and no later pass ever checks, routes or terminates it. *)
Theorem RemoveDesired_race_orphans :
  let copy := desired demo_rec in
  let removed := Reconciler_RemoveDesired demo_cfg demo_rec "spark" in
  let raced := Reconcile_pass demo_cfg removed copy 0 in
  Reconciler_DesiredNames raced = ["duck"] /\
  (instanceID <$> plugins raced !! "spark") = Some "spark-1" /\
  forall nows, plugins (fold_left (Reconciler_Reconcile demo_cfg) nows raced) !! "spark" = plugins raced !! "spark".
Proof.
  intros copy removed raced. split; [vm_compute; reflexivity|]. split; [vm_compute; reflexivity|].
  assert (desired raced = [mkDesired "duck" tt] /\ reconciler_ok demo_cfg raced) as Hraced.
  { split; [vm_compute; reflexivity|].
    apply Reconcile_pass_ok; [done|]. apply RemoveDesired_ok. by constructor. }
  generalize dependent raced. intros r Hr nows. revert r Hr.
  induction nows as [|now nows IH]; intros r [Hd Hok]; [done|]. simpl. rw IH.
  - unfold Reconciler_Reconcile. rw Hd. unfold Reconcile_pass. simpl. unfold Reconciler_reconcileOne.
    destruct (advance demo_cfg r _ _ now) as [r' ps'] eqn:Ea. simpl. rw lookup_insert_ne //.
    by destruct (advance_ok demo_cfg r (mkDesired "duck" tt) _ now r' ps' (default_status_ok demo_cfg r _ eq_refl Hok) Ea)
      as ((-> & _) & _).
  - split; [|by apply Reconcile_pass_ok]. unfold Reconciler_Reconcile. by rw pass_desired.
Qed.

(** ** At concrete runs *)

Lemma reconciler_invariant_witness :
  let r := Reconciler_Reconcile demo_cfg (Reconciler_Reconcile demo_cfg demo_rec 0) 1 in
  reconciler_ok demo_cfg r /\ routes_of (events r) !! "duck" = Some "duck:80".
Proof.
  intros r. split; [|vm_compute; reflexivity].
  apply (reconciler_invariant demo_cfg [] [mkDesired "duck" tt; mkDesired "spark" tt] r); [reflexivity|].
  eapply rtc_l; [apply rstep_pass|]. eapply rtc_l; [apply rstep_pass|]. apply rtc_refl.
Defined.

(** A runtime whose instances die at once. *)
Definition dead_runtime : DeploymentRuntime nat unit := {|
  rt_Launch rt _ n _ := (Ok (n +:+ "-1", ""), S rt);
  rt_Healthcheck rt _ _ := (Ok UNHEALTHY, rt);
  rt_Terminate rt _ id := rt;
|}.

Lemma append_dash_1 n : n +:+ "-1" <> "".
Proof. by destruct n. Qed.

Lemma crash_loop_cap_witness :
  let passes := (fun k => ([mkDesired "duck" tt], Z.of_nat k * 100000000000)) <$> seq 0 40 in
  let r := fold_left (fun r p => Reconcile_pass (H := dead_runtime) demo_cfg r p.1 p.2) passes
             (reconciler_New 0%nat [mkDesired "duck" tt]) in
  launches "duck" (events r) = 6 /\ launches "duck" (events r) <= CrashLoopCap demo_cfg.
Proof.
  intros passes r. split; [vm_compute; reflexivity|].
  apply (crash_loop_cap (H := dead_runtime) demo_cfg 0%nat [mkDesired "duck" tt] passes "duck"); [reflexivity|].
  split; [discriminate|]. intros rt t n spec id ep [= <- <-]. apply append_dash_1.
Defined.

Lemma backoffFor_exact_witness :
  Reconciler_backoffFor demo_cfg 5 = 8000000000 /\ Reconciler_backoffFor demo_cfg 60 = 10000000000.
Proof.
  split.
  - rewrite (backoffFor_exact demo_cfg 1953125 8 5);
      vm_compute; repeat split; (reflexivity || discriminate).
  - rewrite (backoffFor_exact demo_cfg 1953125 8 60);
      vm_compute; repeat split; (reflexivity || discriminate).
Defined.

Lemma two_passes_converge_witness :
  let r := Reconciler_Reconcile demo_cfg (Reconciler_Reconcile demo_cfg demo_rec 0) 1 in
  (Reconciler_Status r "spark").1.1 = Healthy /\
  routes_of (events r) !! "spark" = Some (Reconciler_Endpoint r "spark").
Proof.
  apply (two_passes_converge demo_cfg demo_rec 0 1 "spark").
  - split; [|done]. intros rt t n spec. exists (n +:+ "-1"), (n +:+ ":80").
    split; [apply append_dash_1|reflexivity].
  - reflexivity.
  - by constructor.
  - intros m. vm_compute. discriminate.
  - lia.
  - right. left.
  - vm_compute. discriminate.
Defined.
