(* ===== verification/Loop.v ===== *)
(** The reconcile loop of one replica (src/core/reconciler/loop.go) and of several that share a
    lease: a replica makes a pass when a step of its elector says it leads, and nothing looks
    at the lease again until the pass is over. *)
From S2P Require Import Prelude Lease Manifest Reconciler.

(** ** One replica *)

(** What [select] finds ready: the cancelled context, or the timer, with the time it is. *)
Inductive wake := Cancelled | Fired (now : Z).

Section Run.
Context {R LaunchSpec : Type} `{DeploymentRuntime R LaunchSpec} (cfg : Config).
Context (Tick : Z) (jitter : Z -> Z).

(** The elector, the lease, the reconciler and the delays the timer was reset to; [None] while
    the loop waits for more. *)
Fixpoint Loop_Run (ready : list wake) (e : Elector) (s : Store) (r : Reconciler R LaunchSpec) (delays : list Z) :
    option (Elector * Store * Reconciler R LaunchSpec * list Z) :=
  match ready with
  | [] => None
  | Cancelled :: _ => Some (e, s, r, delays)
  | Fired now :: ready =>
      let '(e, s, r) := Loop_tick cfg e s r now in
      Loop_Run ready e s r (delays ++ [Loop_delay Tick jitter])
  end.
End Run.

(** ** Replicas over one lease

    A replica waits, is inside the operations of a step of its elector, or is making the pass
    that the step allowed. *)
Inductive phase (E : Type -> Type) : Type :=
  | Waiting (e : Elector)
  | Electing (e : Elector) (now : Z) (p : prog E (Elector * bool))
  | Converging (e : Elector).
Arguments Waiting {E} e.
Arguments Electing {E} e now p.
Arguments Converging {E} e.

Record replicas := mkReplicas { l_time : Z; l_store : Store; l_phase : gmap string (phase store_op) }.
Definition set_phase (w : replicas) (i : string) (ph : phase store_op) : replicas :=
  mkReplicas (l_time w) (l_store w) (<[i := ph]> (l_phase w)).

Inductive loop_step : replicas -> replicas -> Prop :=
  | loop_time w t' : l_time w <= t' -> loop_step w (mkReplicas t' (l_store w) (l_phase w))
  | loop_fire w i e :
      l_phase w !! i = Some (Waiting e) ->
      loop_step w (set_phase w i (Electing e (l_time w) (Elector_Step e (l_time w))))
  | loop_op w i e now X (o : store_op X) k x s' :
      l_phase w !! i = Some (Electing e now (Op o k)) -> run_store_op o (l_store w) = (x, s') ->
      loop_step w (mkReplicas (l_time w) s' (<[i := Electing e now (k x)]> (l_phase w)))
  | loop_return w i e now e' (leads : bool) :
      l_phase w !! i = Some (Electing e now (Ret (e', leads))) ->
      loop_step w (set_phase w i (if leads then Converging e' else Waiting e'))
  | loop_converged w i e :
      l_phase w !! i = Some (Converging e) -> loop_step w (set_phase w i (Waiting e)).

Definition loop_init (w : replicas) : Prop :=
  l_store w = NewStore /\
  forall i ph, l_phase w !! i = Some ph -> i <> "" /\ exists ttl, 0 <= ttl /\ ph = Waiting (NewElector i ttl).

(** ** A step that allows a pass leaves the elector leading *)

Section Allows.
Context {E : Type -> Type} `{Backend E}.

Fixpoint allows (p : prog E (Elector * bool)) : Prop :=
  match p with
  | Ret (e, b) => b = true -> leader e = true
  | Op _ k => forall x, allows (k x)
  end.

Lemma allows_bind {A} (p : prog E A) f : (forall x, allows (f x)) -> allows (prog_bind p f).
Proof. intros Hf. induction p as [a|X o k IH]; simpl; auto. Qed.

Lemma Elector_tryAcquire_allows e now : allows (Elector_tryAcquire e now).
Proof. apply allows_bind. intros [[[] tok] [err|]]; simpl; done. Qed.

Lemma Elector_Step_allows e now : allows (Elector_Step e now).
Proof.
  unfold Elector_Step. destruct (leader e) eqn:El; [|apply Elector_tryAcquire_allows].
  apply allows_bind. intros [[[] tok] [err|]]; [done|done| |apply Elector_tryAcquire_allows].
  destruct (now <? leaseExpiry e); [by intros _|apply Elector_tryAcquire_allows].
Qed.

Definition phase_ok (ph : phase E) : Prop :=
  match ph with Waiting _ => True | Electing _ _ p => allows p | Converging e => leader e = true end.
End Allows.

(** ** Passes do not overlap while leases last *)

(** What a replica looks like to the lease. *)
Definition thread_of {E} (ph : phase E) : thread E :=
  match ph with Waiting e | Converging e => Idle e | Electing e now p => Running e now p end.
Definition lease_view (w : replicas) : mem_world := mkMem (l_time w) (l_store w) (thread_of <$> l_phase w).

Lemma lease_view_set w i ph : lease_view (set_phase w i ph) = set_thread (lease_view w) i (thread_of ph).
Proof. unfold lease_view, set_phase, set_thread. simpl. by rw fmap_insert. Qed.

(** Every step of a replica is one of the lease's, or none. *)
Lemma loop_step_view w w' : loop_step w w' -> rtc mem_step (lease_view w) (lease_view w').
Proof.
  assert (forall w i ph, l_phase w !! i = Some ph -> m_threads (lease_view w) !! i = Some (thread_of ph)) as Hth.
  { intros v i ph Hi. simpl. by rw lookup_fmap Hi. }
  intros Hs. destruct Hs as [w t' Ht|w i e Hi|w i e now X o k x s' Hi Ho|w i e now e' b Hi|w i e Hi]; apply Hth in Hi || idtac.
  - apply rtc_once. by apply (mem_tick (lease_view w)).
  - apply rtc_once. rw lease_view_set. by apply (mem_start (lease_view w)).
  - apply rtc_once. pose proof (mem_op (lease_view w) i e now X o k x s' Hi Ho) as Hm. unfold lease_view in *. simpl in *. by rw fmap_insert.
  - apply rtc_once. rw lease_view_set. destruct b; by eapply (mem_return (lease_view w)).
  - rw lease_view_set. unfold set_thread. by rw insert_id.
Qed.

Lemma loop_step_ok w w' : loop_step w w' -> map_Forall (fun _ => phase_ok) (l_phase w) -> map_Forall (fun _ => phase_ok) (l_phase w').
Proof.
  intros Hs Hok. destruct Hs as [w t' Ht|w i e Hi|w i e now X o k x s' Hi Ho|w i e now e' b Hi|w i e Hi]; [done|..];
    apply map_Forall_insert_2; try exact Hok; specialize (Hok _ _ Hi); simpl in Hok |- *; try done.
  - apply Elector_Step_allows.
  - by destruct b; [apply Hok|].
Qed.

(** Only the leader converges the plane, while leases last.  Any number of replicas loop over one
    lease, their elections interleaved operation by operation and their passes of any length:
    at a moment at which two replicas are making a pass and neither pass has outlived the
    lease it began under, the two are the same replica, and it holds the lease. *)
Theorem only_leader_converges w0 w i j ei ej :
  loop_init w0 -> rtc loop_step w0 w ->
  l_phase w !! i = Some (Converging ei) -> l_phase w !! j = Some (Converging ej) ->
  l_time w < leaseExpiry ei -> l_time w < leaseExpiry ej ->
  i = j /\ Store_Holder (l_store w) (l_time w) = i.
Proof.
  intros [Hs0 Hinit] Hrtc Hi Hj Hti Htj.
  assert (mem_init (lease_view w0)) as Hm.
  { split; [done|]. intros k th. simpl. rewrite lookup_fmap fmap_Some. intros (ph & Hk & ->).
    destruct (Hinit k ph Hk) as (Hne & ttl & Htt & ->). split; [done|]. by exists ttl. }
  assert (map_Forall (fun _ => phase_ok) (l_phase w)) as Hok.
  { assert (map_Forall (fun _ => phase_ok) (l_phase w0)) as H0.
    { intros k ph Hk. by destruct (Hinit k ph Hk) as (_ & ttl & _ & ->). }
    clear -Hrtc H0. induction Hrtc as [|w1 w2 w3 Hs _ IH]; [done|]. by eapply IH, loop_step_ok. }
  assert (rtc mem_step (lease_view w0) (lease_view w)) as Hr.
  { clear -Hrtc. induction Hrtc as [|w1 w2 w3 Hs _ IH]; [done|]. by etransitivity; [apply loop_step_view|]. }
  apply (Store_mutual_exclusion (lease_view w0) (lease_view w) i j (Idle ei) (Idle ej) Hm Hr).
  - simpl. by rw lookup_fmap Hi.
  - simpl. by rw lookup_fmap Hj.
  - split; [exact (Hok _ _ Hi)|done].
  - split; [exact (Hok _ _ Hj)|done].
Qed.

(** ** Concrete replicas *)

Definition two_replicas : replicas :=
  mkReplicas 100 NewStore {["a" := Waiting (NewElector "a" 10); "b" := Waiting (NewElector "b" 10)]}.
Definition a_leads : Elector := elected (NewElector "a" 10) 1 100.
Definition b_leads : Elector := elected (NewElector "b" 10) 2 110.
Definition a_converging : replicas :=
  mkReplicas 105 (mkStore "a" 110 1) {["a" := Converging a_leads; "b" := Waiting (NewElector "b" 10)]}.
Definition both_converging : replicas :=
  mkReplicas 110 (mkStore "b" 120 2) {["a" := Converging a_leads; "b" := Converging b_leads]}.

Lemma two_replicas_init : loop_init two_replicas.
Proof.
  split; [done|]. intros i ph. simpl. rewrite !lookup_insert_Some lookup_empty.
  intros [[<- <-]|[_ [[<- <-]|[_ [=]]]]]; (split; [done|]); exists 10; by split.
Qed.

Lemma a_converges : rtc loop_step two_replicas a_converging.
Proof.
  eapply rtc_l; [by apply (loop_fire _ "a")|]. eapply rtc_l; [eapply (loop_op _ "a"); reflexivity|].
  eapply rtc_l; [eapply (loop_return _ "a"); reflexivity|]. eapply rtc_l; [apply (loop_time _ 105); simpl; lia|].
  simpl. unfold a_converging. rewrite !insert_insert_eq. apply rtc_refl.
Qed.

Lemma only_leader_converges_witness : Store_Holder (l_store a_converging) (l_time a_converging) = "a".
Proof.
  refine (proj2 (only_leader_converges two_replicas a_converging "a" "a" a_leads a_leads two_replicas_init a_converges _ _ _ _));
    reflexivity.
Defined.

(** The loop does not keep the leases lasting: a pass that takes as long as the lease, which one
    wedged plugin is enough for, goes on while the next leader makes its own. *)
Theorem long_pass_overlaps :
  rtc loop_step two_replicas both_converging /\
  l_phase both_converging !! "a" = Some (Converging a_leads) /\ l_phase both_converging !! "b" = Some (Converging b_leads).
Proof.
  split; [|done]. etransitivity; [exact a_converges|]. eapply rtc_l; [apply (loop_time _ 110); simpl; lia|].
  eapply rtc_l; [by apply (loop_fire _ "b")|]. eapply rtc_l; [eapply (loop_op _ "b"); reflexivity|].
  eapply rtc_l; [eapply (loop_return _ "b"); reflexivity|]. simpl. unfold both_converging, a_converging. simpl.
  match goal with |- rtc _ ?x ?y => replace x with y; [apply rtc_refl|] end. f_equal.
Qed.
