(* ===== verification/ArrowTicket.v ===== *)
(** Single-use data-plane tickets (src/core/arrowticket/arrowticket.go and
    statecas/statecas.go): minting, validation, and the stores that make a ticket
    redeemable once.  HMAC, base64 and JSON are parameters. *)
From S2P Require Import Prelude Conformance StateLease.

Definition ErrMalformed : error := Sentinel "arrowticket: malformed".
Definition ErrTampered : error := Sentinel "arrowticket: signature mismatch (tampered or wrong key)".
Definition ErrExpired : error := Sentinel "arrowticket: expired".
Definition ErrNotBound : error := Sentinel "arrowticket: not bound to this stream/caller/tenant".
Definition ErrReplay : error := Sentinel "arrowticket: already used (single-use)".

Record claims := mkClaims {
  c_StreamID : string;
  c_CallerPlugin : string;
  c_Tenant : string;
  c_ExpiresUnixMs : Z;
  c_Nonce : string;
}.

Record wireTicket := mkTicket { Claims : claims; Sig : string }.

(** ** Single-use stores *)

(** The interface: [Consume] reports whether this is the first use, or that it could not
    tell. *)
Class SingleUseStore (S : Type) := Consume : S -> string -> result bool * S.

(** What a store promises: [spent] ids stay spent, and a first use is reported only for
    an id that was not spent and is afterwards. *)
Class SingleUseLaws (S : Type) `{SingleUseStore S} := {
  spent : S -> string -> Prop;
  spent_mono : forall s id i, spent s i -> spent (Consume s id).2 i;
  first_use_fresh : forall s id, (Consume s id).1 = Ok true -> ~ spent s id /\ spent (Consume s id).2 id;
}.

(** The in-memory store: a set of used ids. *)
Record MemStore := mkMemStore { used : gset string }.
Definition NewMemStore : MemStore := mkMemStore ∅.

Definition MemStore_Consume (s : MemStore) (id : string) : result bool * MemStore :=
  if decide (id ∈ used s) then (Ok false, s) else (Ok true, mkMemStore ({[id]} ∪ used s)).

#[export] Instance MemStore_SingleUse : SingleUseStore MemStore := MemStore_Consume.

#[export, refine] Instance MemStore_Laws : SingleUseLaws MemStore := { spent s i := i ∈ used s }.
Proof.
  - intros s id i H. unfold Consume, MemStore_SingleUse, MemStore_Consume. case_decide; simpl; set_solver.
  - intros s id. unfold Consume, MemStore_SingleUse, MemStore_Consume. case_decide; simpl; set_solver.
Defined.

(** The shared store over an atomic create-if-absent. *)
Class SingleUseCAS (B : Type) := PutIfAbsent : B -> string -> result bool * B.

Record CASStore (B : Type) := mkCASStore { cas : B; keyPrefix : string }.
Arguments mkCASStore {B}.
Arguments cas {B}.
Arguments keyPrefix {B}.

Definition CASStore_Consume {B} `{SingleUseCAS B} (s : CASStore B) (id : string) : result bool * CASStore B :=
  let '(r, b) := PutIfAbsent (cas s) (keyPrefix s +:+ id) in (r, mkCASStore b (keyPrefix s)).

#[export] Instance CASStore_SingleUse {B} `{SingleUseCAS B} : SingleUseStore (CASStore B) := CASStore_Consume.

(** ** The state/v1 adapter (statecas.go) *)

Definition statecas_default_timeout (t : Z) : Z := if t <=? 0 then 3 * 1000000000 else t.

Definition CAS_response (r : result (PutOutcome * Z)) : result bool :=
  match r with
  | Err e =>
      if decide (status_Code e = Unimplemented) then
        Err (Errorf "statecas: backend has no create-if-absent (state/v1 ADR-049) — cannot back a shared ticket store" [])
      else Err e
  | Ok (COMMITTED, _) => Ok true
  | Ok (CONFLICT, _) => Ok false
  | Ok (o, _) => Err (Errorf "statecas: create-if-absent unconfirmed (outcome=%s)" [PutOutcome_String o])
  end.

(** A shared backend as the adapter sees it: a set of keys and the fate of each coming
    call.  A call may be answered, answered as unconfirmed after or without taking
    effect, or fail. *)
Inductive fate := Answered | Unconfirmed (applied : bool) | Failed (applied : bool) (e : error).
Record SharedBackend := mkShared { stored : gset string; fates : list fate }.

Definition SharedBackend_CreateIfAbsent (b : SharedBackend) (key : string) :
    result (PutOutcome * Z) * SharedBackend :=
  let present := bool_decide (key ∈ stored b) in
  let create (a : bool) := if a then {[key]} ∪ stored b else stored b in
  match fates b with
  | Unconfirmed a :: fs => (Ok (UNKNOWN, 0), mkShared (create a) fs)
  | Failed a e :: fs => (Err e, mkShared (create a) fs)
  | fs => (Ok (if present then CONFLICT else COMMITTED, 1), mkShared (create true) (tail fs))
  end.

#[export] Instance SharedBackend_CAS : SingleUseCAS SharedBackend := fun b key =>
  let '(r, b') := SharedBackend_CreateIfAbsent b key in (CAS_response r, b').

#[export, refine] Instance CASStore_Laws : SingleUseLaws (CASStore SharedBackend) := {
  spent s i := keyPrefix s +:+ i ∈ stored (cas s);
}.
Proof.
  - intros [[ks fs] p] id i. unfold Consume, CASStore_SingleUse, CASStore_Consume, PutIfAbsent,
      SharedBackend_CAS, SharedBackend_CreateIfAbsent. simpl.
    destruct fs as [|[|[]|[] e] fs]; simpl; set_solver.
  - intros [[ks fs] p] id. unfold Consume, CASStore_SingleUse, CASStore_Consume, PutIfAbsent,
      SharedBackend_CAS, SharedBackend_CreateIfAbsent. simpl.
    destruct fs as [|[|a|a e] fs]; simpl; try (by case_decide); try case_bool_decide; simpl;
      try done; intros _; split; set_solver.
Defined.

(** ** Minting and validating *)
Section Minter.
Context {Bytes : Type}.
Context (json_Marshal : wireTicket -> Bytes) (json_Unmarshal : Bytes -> result wireTicket).
Context (hmac_sha256 : string -> string -> string).
Context (base64 : string -> string).

(** The signed text. *)
Definition sign_payload (c : claims) : string :=
  c_StreamID c +:+ nul +:+ c_CallerPlugin c +:+ nul +:+ c_Tenant c +:+ nul +:+
  itoa (c_ExpiresUnixMs c) +:+ nul +:+ c_Nonce c.

Definition Minter_sign (key : string) (c : claims) : string := hmac_sha256 key (sign_payload c).

(** [newNonce] draws from the system's random source: its outcome is an argument. *)
Definition Minter_Mint (key : string) (now : Z) (newNonce : result string)
    (streamID caller tenant : string) (ttl : Z) : result Bytes :=
  let? nonce := newNonce in
  let c := mkClaims streamID caller tenant (toUnixMilli (now + ttl)) nonce in
  Ok (json_Marshal (mkTicket c (Minter_sign key c))).

Definition Minter_Validate {S} `{SingleUseStore S} (key : string) (now : Z) (s : S) (ticket : Bytes)
    (streamID caller tenant : string) : option error * S :=
  match json_Unmarshal ticket with
  | Err _ => (Some ErrMalformed, s)
  | Ok wt =>
      let c := Claims wt in
      if negb (bool_decide (Sig wt = Minter_sign key c)) then (Some ErrTampered, s)
      else if c_ExpiresUnixMs c <? toUnixMilli now then (Some ErrExpired, s)
      else if negb (bool_decide (c_StreamID c = streamID)) || negb (bool_decide (c_CallerPlugin c = caller)) ||
              negb (bool_decide (c_Tenant c = tenant)) then (Some ErrNotBound, s)
      else
        let '(r, s') := Consume s (base64 (Sig wt)) in
        (match r with
         | Err e => Some (Wrap "arrowticket: single-use store: %w" [] e)
         | Ok false => Some ErrReplay
         | Ok true => None
         end, s')
  end.

(** ** Properties *)

Lemma Validate_store {S} `{SingleUseStore S} key now (s : S) tk sid c t :
  (Minter_Validate key now s tk sid c t).2 = s \/
  exists id, (Minter_Validate key now s tk sid c t).2 = (Consume s id).2.
Proof.
  unfold Minter_Validate. destruct (json_Unmarshal tk) as [wt|]; [|by left].
  repeat (case_match; [by left|]). right. exists (base64 (Sig wt)). by destruct (Consume s _).
Qed.

Lemma Validate_accepts {S} `{SingleUseStore S} key now (s : S) tk sid c t :
  (Minter_Validate key now s tk sid c t).1 = None ->
  exists wt, json_Unmarshal tk = Ok wt /\ Sig wt = Minter_sign key (Claims wt) /\
    toUnixMilli now <= c_ExpiresUnixMs (Claims wt) /\
    c_StreamID (Claims wt) = sid /\ c_CallerPlugin (Claims wt) = c /\ c_Tenant (Claims wt) = t /\
    (Consume s (base64 (Sig wt))).1 = Ok true /\
    (Minter_Validate key now s tk sid c t).2 = (Consume s (base64 (Sig wt))).2.
Proof.
  unfold Minter_Validate. destruct (json_Unmarshal tk) as [wt|]; [|done].
  destruct (negb (bool_decide (Sig wt = _))) eqn:E1; [done|].
  destruct (_ <? _) eqn:E2; [done|]. destruct (_ || _) eqn:E3; [done|].
  destruct (Consume s _) as [[[]|] s'] eqn:E4; simpl; try done. intros _. bool_to_prop.
  exists wt. rw E4. by split_and!.
Qed.

(** Round trip: a freshly minted ticket validates, for the same binding and before it
    expires, on any store that has not spent it; a second validation on the resulting
    in-memory store is a replay. *)
Theorem Mint_Validate_once (key nonce streamID caller tenant : string) (now now1 now2 ttl : Z) (s : MemStore) :
  let c := mkClaims streamID caller tenant (toUnixMilli (now + ttl)) nonce in
  let wt := mkTicket c (Minter_sign key c) in
  json_Unmarshal (json_Marshal wt) = Ok wt ->
  toUnixMilli now1 <= toUnixMilli (now + ttl) -> toUnixMilli now2 <= toUnixMilli (now + ttl) ->
  base64 (Sig wt) ∉ used s ->
  exists tk s1, Minter_Mint key now (Ok nonce) streamID caller tenant ttl = Ok tk /\
    Minter_Validate key now1 s tk streamID caller tenant = (None, s1) /\
    Minter_Validate key now2 s1 tk streamID caller tenant = (Some ErrReplay, s1).
Proof.
  intros c wt Hj H1 H2 Hfresh. eexists _, _. split; [reflexivity|].
  unfold Minter_Validate. fold c. fold wt. rw Hj /=.
  rw !(bool_decide_eq_true_2 _ eq_refl) /= !(proj2 (Z.ltb_ge _ _)) //=.
  unfold Consume, MemStore_SingleUse, MemStore_Consume. rw decide_False //.
  split; [done|]. simpl. rw decide_True //. set_solver.
Qed.

(** One redemption attempt: by any minter sharing the key, at any time. *)
Record attempt := mkAttempt { at_now : Z; at_ticket : Bytes; at_stream : string; at_caller : string; at_tenant : string }.

Fixpoint attempts {S} `{SingleUseStore S} (key : string) (s : S) (l : list attempt) : list (option error) :=
  match l with
  | [] => []
  | a :: l' =>
      let '(r, s') := Minter_Validate key (at_now a) s (at_ticket a) (at_stream a) (at_caller a) (at_tenant a) in
      r :: attempts key s' l'
  end.

Lemma attempts_spent {S} `{SingleUseLaws S} key l (s : S) tk wt id :
  spent s id -> json_Unmarshal tk = Ok wt -> base64 (Sig wt) = id ->
  Forall2 (fun a r => at_ticket a = tk -> r <> None) l (attempts key s l).
Proof.
  intros Hs Htk Hid. revert s Hs. induction l as [|a l IH]; intros s Hs; simpl; [constructor|].
  destruct (Minter_Validate _ _ _ _ _ _ _) as [r s'] eqn:Ev. constructor.
  - intros Ha ->. destruct (Validate_accepts key (at_now a) s (at_ticket a) (at_stream a) (at_caller a) (at_tenant a))
      as (wt' & Hwt & _ & _ & _ & _ & _ & Hc & _); [by rw Ev|].
    rw Ha Htk in Hwt. injection Hwt as <-. apply first_use_fresh in Hc as [Hns _]. by rw Hid in Hns.
  - apply IH. destruct (Validate_store key (at_now a) s (at_ticket a) (at_stream a) (at_caller a) (at_tenant a)) as [E|[i E]];
      rw Ev in E; simpl in E; subst s'; [done|by apply spent_mono].
Qed.

(** Single use, over any store that keeps its promise (the in-memory one, and the
    shared one whose writes may be unconfirmed): of all attempts to redeem a given
    ticket, by whatever producers and in whatever order, at most one succeeds. *)
Theorem ticket_single_use {S} `{SingleUseLaws S} (key : string) (s : S) (l : list attempt) (i j : nat) (tk : Bytes) :
  at_ticket <$> l !! i = Some tk -> at_ticket <$> l !! j = Some tk ->
  attempts key s l !! i = Some None -> attempts key s l !! j = Some None -> i = j.
Proof.
  revert s i j. induction l as [|a l IH]; intros s i j; [done|]. simpl.
  destruct (Minter_Validate _ _ _ _ _ _ _) as [r s'] eqn:Ev.
  assert (at_ticket a = tk -> r = None -> forall k, at_ticket <$> l !! k = Some tk ->
    attempts key s' l !! k = Some None -> False) as Hrest.
  { intros Ha -> k Hk Hr.
    destruct (Validate_accepts key (at_now a) s (at_ticket a) (at_stream a) (at_caller a) (at_tenant a))
      as (wt & Hwt & _ & _ & _ & _ & _ & Hc & Hs); [by rw Ev|]. rw Ev in Hs. simpl in Hs.
    apply first_use_fresh in Hc as [_ Hsp]. rw -Hs in Hsp. rw Ha in Hwt.
    pose proof (attempts_spent key l s' tk wt _ Hsp Hwt eq_refl) as HF.
    destruct (l !! k) as [b|] eqn:Eb; [|done]. injection Hk as Hb.
    by apply (Forall2_lookup_lr _ _ _ _ _ _ HF Eb Hr). }
  destruct i as [|i], j as [|j]; simpl; intros Hi Hj Ri Rj; simplify_eq; try done.
  - exfalso. by eapply Hrest.
  - exfalso. by eapply Hrest.
  - f_equal. by eapply IH.
Qed.
End Minter.

(** The signed text commits to every claim as long as no field holds a NUL byte. *)
Theorem sign_payload_injective (c1 c2 : claims) :
  plain_name (c_StreamID c1) -> plain_name (c_CallerPlugin c1) -> plain_name (c_Tenant c1) ->
  plain_name (c_StreamID c2) -> plain_name (c_CallerPlugin c2) -> plain_name (c_Tenant c2) ->
  sign_payload c1 = sign_payload c2 -> c1 = c2.
Proof.
  intros Hs1 Hc1 Ht1 Hs2 Hc2 Ht2. destruct c1, c2. unfold sign_payload, plain_name in *. simpl in *.
  intros [-> E]%(sep_app_inj NUL); [|done..]. apply (sep_app_inj NUL) in E as [-> E]; [|done..].
  apply (sep_app_inj NUL) in E as [-> E]; [|done..].
  apply (sep_app_inj NUL) in E as [E1 E2]; [|by apply itoa_no_byte..].
  subst. f_equal. by apply (inj pretty).
Qed.

(** The comment of [sign] calls the text injective; with a NUL inside a field it is not. *)
Theorem sign_payload_nul_collision :
  exists c1 c2, c1 <> c2 /\ sign_payload c1 = sign_payload c2.
Proof.
  exists (mkClaims (String NUL "") "x" "t" 0 "n"), (mkClaims "" (String NUL "x") "t" 0 "n").
  split; [discriminate|]. reflexivity.
Qed.

(** ** At concrete inputs *)

Definition toy_hmac (key msg : string) : string := key +:+ msg.

Lemma Mint_Validate_once_witness :
  exists tk s1,
    Minter_Mint id toy_hmac "key" 1000000 (Ok "n1") "stream" "cli" "acme" 5000000 = Ok tk /\
    Minter_Validate Ok toy_hmac id "key" 2000000 NewMemStore tk "stream" "cli" "acme" = (None, s1) /\
    Minter_Validate Ok toy_hmac id "key" 3000000 s1 tk "stream" "cli" "acme" = (Some ErrReplay, s1).
Proof.
  apply (Mint_Validate_once (Bytes := wireTicket) id Ok toy_hmac id "key" "n1" "stream" "cli" "acme"
    1000000 2000000 3000000 5000000 NewMemStore); vm_compute; (reflexivity || discriminate || set_solver).
Defined.

Definition demo_attempt (t : Z) : attempt (Bytes := wireTicket) :=
  let c := mkClaims "stream" "cli" "acme" 6 "n1" in
  mkAttempt t (mkTicket c (Minter_sign toy_hmac "key" c)) "stream" "cli" "acme".

(** Three attempts on a shared store whose first answer is lost: nobody redeems twice. *)
Lemma ticket_single_use_witness :
  let s := mkCASStore (mkShared ∅ [Answered]) "tickets/" in
  let l := [demo_attempt 1; demo_attempt 2; demo_attempt 3] in
  attempts Ok toy_hmac id "key" s l = [None; Some ErrReplay; Some ErrReplay] /\
  0%nat = 0%nat.
Proof.
  intros s l. split; [vm_compute; reflexivity|].
  apply (ticket_single_use Ok toy_hmac id "key" s l 0 0 (at_ticket (demo_attempt 1)));
    vm_compute; reflexivity.
Defined.

Lemma sign_payload_injective_witness :
  forall c2, plain_name (c_StreamID c2) -> plain_name (c_CallerPlugin c2) -> plain_name (c_Tenant c2) ->
    sign_payload (mkClaims "s" "c" "t" 7 "n") = sign_payload c2 -> mkClaims "s" "c" "t" 7 "n" = c2.
Proof.
  intros c2 H1 H2 H3 H. by apply (sign_payload_injective (mkClaims "s" "c" "t" 7 "n") c2).
Defined.
