(* ===== verification/DeployRuntime.v ===== *)
(** The deployment runtimes (src/core/deploymentruntime): the I9 isolation gate, the
    podman runtime and the local-process runtime, as implementations of the interface
    the reconciler drives. *)
From S2P Require Import Prelude Paths Reconciler.

Record IsolationProfile := mkIsolation {
  RunAsNonRoot : bool;
  DropAllCapabilities : bool;
  NoNewPrivileges : bool;
  ReadOnlyRootFs : bool;
  BlockMetadataEgress : bool;
  SeccompProfile : string;
}.

(** The environment is an association list in the order the runtime happens to range over
    the map. *)
Record LaunchSpec := mkLaunch {
  ls_Image : string;
  ls_Isolation : option IsolationProfile;
  ls_Env : list (string * string);
}.

Definition iso_flag (f : IsolationProfile -> bool) (s : LaunchSpec) : bool := from_option f false (ls_Isolation s).
Definition GetSeccompProfile (s : LaunchSpec) : string := from_option SeccompProfile "" (ls_Isolation s).

Definition checkI9Minimum (spec : LaunchSpec) : option error :=
  if decide (ls_Image spec = "") then Some (Status InvalidArgument "launch: spec.image is required" [])
  else if negb (iso_flag RunAsNonRoot spec) || negb (iso_flag DropAllCapabilities spec) ||
          negb (iso_flag NoNewPrivileges spec) then
    Some (Status FailedPrecondition
            "I9: isolation profile is below the minimum (run_as_non_root + drop_all_capabilities + no_new_privileges all required)" [])
  else None.

Record honoredProfile := mkHonored {
  h_RunAsNonRoot : bool; h_DropAllCapabilities : bool; h_NoNewPrivileges : bool;
  h_ReadOnlyRootFs : bool; h_BlockMetadataEgress : bool;
}.
Record isolationReceipt := mkReceipt {
  ir_Kind : string; IsolationHonored : honoredProfile; ir_SeccompProfile : string;
}.

Definition effectiveSeccomp (requested : string) : string :=
  if decide (requested = "") then "RuntimeDefault" else requested.

(** ** Container names *)

Definition is_alnum (a : ascii) : bool :=
  let n := nat_of_ascii a in
  ((97 <=? n) && (n <=? 122) || (65 <=? n) && (n <=? 90) || (48 <=? n) && (n <=? 57))%nat.
Definition name_byte (a : ascii) : bool :=
  is_alnum a || bool_decide (a = "_"%char) || bool_decide (a = "."%char) || bool_decide (a = "-"%char).

Definition containerName (prefix pluginID : string) (seq : Z) : string :=
  let s := str_map (fun c => if name_byte c then c else "-"%char) pluginID in
  let s := if decide (prefix = "") then s else prefix +:+ "-" +:+ s in
  let s := match s with
           | String c _ => if is_alnum c then s else "rat-" +:+ s
           | "" => "rat-"
           end in
  s +:+ "-" +:+ itoa seq.

(** ** The podman runtime *)

Definition podmanContainerPort : string := "50051".
Definition podmanNonRootUser : string := "1000:1000".

Record podmanInstance := mkPodmanInstance {
  containerID : string; pi_endpoint : string; pi_receipt : isolationReceipt;
}.

(** The host: what the podman CLI answers to each invocation (combined output and
    failure), whether an endpoint accepts a connection at each probe, and how preparing a
    data directory goes.  [cli_log] records the invocations in order. *)
Record Host := mkHost {
  cli : nat -> list string -> string * option error;
  accepts : nat -> string -> bool;
  mkdirAll : string -> option error;
  chmod777 : string -> option error;
  cli_log : list (list string);
  probes : nat;
}.

Definition podman (h : Host) (args : list string) : (string * option error) * Host :=
  (cli h (length (cli_log h)) args,
   mkHost (cli h) (accepts h) (mkdirAll h) (chmod777 h) (cli_log h ++ [args]) (probes h)).

Definition endpointAccepts (h : Host) (addr : string) : bool * Host :=
  (accepts h (probes h) addr, mkHost (cli h) (accepts h) (mkdirAll h) (chmod777 h) (cli_log h) (S (probes h))).

Record Podman := mkPodman {
  DataRoot : string;
  Network : string;
  NamePrefix : string;
  seq : Z;
  instances : gmap string podmanInstance;
  host : Host;
}.

Definition NewPodman (h : Host) : Podman := mkPodman "" "" "" 0 ∅ h.
Definition NewPodmanNetworked (h : Host) (network : string) : Podman := mkPodman "" network "" 0 ∅ h.
Definition NewPodmanInstanced (h : Host) (network instance : string) : Podman := mkPodman "" network instance 0 ∅ h.

Definition with_host (r : Podman) (h : Host) : Podman :=
  mkPodman (DataRoot r) (Network r) (NamePrefix r) (seq r) (instances r) h.
Definition with_seq (r : Podman) (n : Z) : Podman :=
  mkPodman (DataRoot r) (Network r) (NamePrefix r) n (instances r) (host r).
Definition with_instances (r : Podman) (m : gmap string podmanInstance) : Podman :=
  mkPodman (DataRoot r) (Network r) (NamePrefix r) (seq r) m (host r).

Definition i9_args : list string :=
  ["run"; "-d"; "--user"; podmanNonRootUser; "--cap-drop=ALL"; "--security-opt=no-new-privileges";
   "--read-only"; "--tmpfs"; "/tmp:rw,nosuid,nodev"; "-e"; "RAT_PLUGIN_ADDR=0.0.0.0:" +:+ podmanContainerPort].

Definition network_args (r : Podman) (name : string) : list string :=
  if decide (Network r = "") then ["--network=bridge"; "-p"; "127.0.0.1::" +:+ podmanContainerPort]
  else ["--network=" +:+ Network r; "--name"; name; "--replace";
        "--add-host=host.containers.internal:host-gateway"].

Definition data_dir (r : Podman) (pluginID : string) : string := filepath_Join [DataRoot r; pluginID].

Definition seccomp_args (s : string) : list string :=
  if decide (s = "" \/ s = "RuntimeDefault") then [] else ["--security-opt=seccomp=" +:+ s].

(** The ports of one [RAT_PUBLISH_PORTS] value. *)
Definition publish_ports (v : string) : list string :=
  filter (fun p => p <> "") (TrimSpace <$> Split "," v).

Definition env_args (kv : string * string) : list string :=
  if decide (kv.1 = "RAT_PUBLISH_PORTS")
  then mjoin ((fun p => ["-p"; "0.0.0.0::" +:+ p]) <$> publish_ports kv.2)
  else ["-e"; kv.1 +:+ "=" +:+ kv.2].

Definition publishPorts (spec : LaunchSpec) : list string :=
  mjoin ((fun kv => if decide (kv.1 = "RAT_PUBLISH_PORTS") then publish_ports kv.2 else []) <$> ls_Env spec).

Definition run_args (r : Podman) (name pluginID : string) (spec : LaunchSpec) : list string :=
  i9_args ++ network_args r name ++
  (if decide (DataRoot r = "") then [] else ["-v"; data_dir r pluginID +:+ ":/data:Z"]) ++
  seccomp_args (GetSeccompProfile spec) ++ mjoin (env_args <$> ls_Env spec) ++ [ls_Image spec].

Definition port_format (port : string) : string :=
  "{{ (index (index .NetworkSettings.Ports " +:+ dq +:+ port +:+ "/tcp" +:+ dq +:+ ") 0).HostPort }}".

Definition Podman_publishedHostPort (h : Host) (cid containerPort : string) : result string * Host :=
  let '((out, err), h) := podman h ["inspect"; "--format"; port_format containerPort; cid] in
  (match err with
   | Some e => Err (Wrap "%v: %s" [TrimSpace out] e)
   | None =>
       let port := TrimSpace out in
       if decide (port = "" \/ port = "<no value>")
       then Err (Errorf "no published host port for %s/tcp" [containerPort])
       else Ok port
   end, h).

Definition Podman_publishedEndpoint (h : Host) (cid : string) : result string * Host :=
  let '(r, h) := Podman_publishedHostPort h cid podmanContainerPort in
  (let? port := r in Ok ("127.0.0.1:" +:+ port), h).

Definition Podman_containerRunning (h : Host) (cid : string) : result bool * Host :=
  let '((out, err), h) := podman h ["inspect"; "--format"; "{{.State.Running}}"; cid] in
  (match err with
   | Some e => Err (Wrap "%v: %s" [TrimSpace out] e)
   | None => Ok (bool_decide (TrimSpace out = "true"))
   end, h).

Definition podman_receipt (spec : LaunchSpec) : isolationReceipt :=
  mkReceipt "podman" (mkHonored true true true true true) (effectiveSeccomp (GetSeccompProfile spec)).

(** The endpoint of a started container: asked of podman in host mode, with the container
    removed again when it cannot be resolved; the container's name in sibling mode. *)
Definition resolve_endpoint (r : Podman) (name cid : string) : result string * Podman :=
  if decide (Network r = "") then
    let '(ep, h) := Podman_publishedEndpoint (host r) cid in
    match ep with
    | Ok ep => (Ok ep, with_host r h)
    | Err e =>
        let '(_, h) := podman h ["rm"; "-f"; cid] in
        (Err (StatusWrap Internal "resolve endpoint for %s: %v" [cid] e), with_host r h)
    end
  else (Ok (name +:+ ":" +:+ podmanContainerPort), r).

(** Host mode also looks up the host side of each published port, for the log. *)
Definition log_ports (r : Podman) (cid : string) (ports : list string) : Podman :=
  if decide (Network r = "")
  then with_host r (fold_left (fun h p => (Podman_publishedHostPort h cid p).2) ports (host r))
  else r.

Definition prepare_dir (h : Host) (dir : string) : option error :=
  match mkdirAll h dir with
  | Some e => Some (StatusWrap Internal "create data dir %s: %v" [dir] e)
  | None => (fun e => StatusWrap Internal "chmod data dir %s: %v" [dir] e) <$> chmod777 h dir
  end.

Definition Podman_Launch (r : Podman) (pluginID : string) (spec : LaunchSpec) :
    result (string * string) * Podman :=
  match checkI9Minimum spec with
  | Some e => (Err e, r)
  | None =>
    let r := with_seq r (seq r + 1) in
    let id := "podman-" +:+ itoa (seq r) in
    let name := containerName (NamePrefix r) pluginID (seq r) in
    let dir := data_dir r pluginID in
    match (if decide (DataRoot r = "") then None else prepare_dir (host r) dir) with
    | Some e => (Err e, r)
    | None =>
      let '((out, err), h) := podman (host r) (run_args r name pluginID spec) in
      let r := with_host r h in
      match err with
      | Some e => (Err (StatusWrap Internal "podman run %q: %v: %s" [ls_Image spec; out] e), r)
      | None =>
        let cid := TrimSpace out in
        let r := log_ports r cid (publishPorts spec) in
        let '(ep, r) := resolve_endpoint r name cid in
        match ep with
        | Err e => (Err e, r)
        | Ok ep => (Ok (id, ep),
                    with_instances r (<[id := mkPodmanInstance cid ep (podman_receipt spec)]> (instances r)))
        end
      end
    end
  end.

Definition Podman_Healthcheck (r : Podman) (id : string) : result HealthStatus * Podman :=
  match instances r !! id with
  | None => (Err (Status NotFound "unknown instance %q" [id]), r)
  | Some inst =>
      let '(running, h) := Podman_containerRunning (host r) (containerID inst) in
      match running with
      | Err _ => (Ok HEALTH_UNKNOWN, with_host r h)
      | Ok false => (Ok UNHEALTHY, with_host r h)
      | Ok true =>
          let '(ok, h) := endpointAccepts h (pi_endpoint inst) in
          (Ok (if (ok : bool) then HEALTHY else HEALTH_UNKNOWN), with_host r h)
      end
  end.

Definition Podman_Terminate (r : Podman) (id : string) : result bool * Podman :=
  match instances r !! id with
  | None => (Err (Status NotFound "unknown instance %q" [id]), r)
  | Some inst =>
      let r := with_instances r (delete id (instances r)) in
      let '((out, err), h) := podman (host r) ["rm"; "-f"; "-t"; "0"; containerID inst] in
      (match err with
       | Some e => Err (StatusWrap Internal "podman rm %s: %v: %s" [containerID inst; out] e)
       | None => Ok true
       end, with_host r h)
  end.

(** Terminating under a context that has expired: the instance is forgotten, and the command,
    which is bound to the context, is not started. *)
Definition Podman_Terminate_expired (r : Podman) (id : string) : Podman :=
  match instances r !! id with
  | None => r
  | Some _ => with_instances r (delete id (instances r))
  end.

(** The interface the reconciler drives.  What is left of the context's time only matters when
    nothing is. *)
#[export] Instance Podman_runtime : DeploymentRuntime Podman LaunchSpec := {
  rt_Launch r _ n spec := Podman_Launch r n spec;
  rt_Healthcheck r _ id := Podman_Healthcheck r id;
  rt_Terminate r left id := if left <=? 0 then Podman_Terminate_expired r id else (Podman_Terminate r id).2;
}.

(** ** The local-process runtime *)

Record instance := mkInstance { inst_pid : Z; inst_endpoint : string; exited : bool }.

(** The operating system: the runtime's own uid, free loopback addresses, and starting a
    process with an environment, each answered per call. *)
Record OS := mkOS {
  geteuid : Z;
  freeLoopbackAddr : nat -> result string;
  start_process : nat -> string -> list string -> result Z;
  os_accepts : nat -> string -> bool;
  os_calls : nat;
  killed : list Z;
}.

Definition os_tick (o : OS) : OS :=
  mkOS (geteuid o) (freeLoopbackAddr o) (start_process o) (os_accepts o) (S (os_calls o)) (killed o).
Definition os_kill (o : OS) (pid : Z) : OS :=
  mkOS (geteuid o) (freeLoopbackAddr o) (start_process o) (os_accepts o) (os_calls o) (killed o ++ [pid]).

Record LocalProcess := mkLocal { lp_seq : Z; lp_instances : gmap string instance; os : OS }.
Definition NewLocalProcess (o : OS) : LocalProcess := mkLocal 0 ∅ o.

Definition childEnv (addr : string) (extra : list (string * string)) : list string :=
  ("RAT_PLUGIN_ADDR=" +:+ addr) :: ((fun kv => kv.1 +:+ "=" +:+ kv.2) <$> extra).

Definition LocalProcess_Launch (r : LocalProcess) (spec : LaunchSpec) : result (string * string) * LocalProcess :=
  match checkI9Minimum spec with
  | Some e => (Err e, r)
  | None =>
    if geteuid (os r) =? 0 then
      (Err (Status FailedPrecondition
         "I9: local-process runtime is running as root and cannot honor run_as_non_root (use a container runtime)" []), r)
    else
      let o := os_tick (os r) in
      match freeLoopbackAddr (os r) (os_calls (os r)) with
      | Err e => (Err (StatusWrap Internal "allocate endpoint: %v" [] e), mkLocal (lp_seq r) (lp_instances r) o)
      | Ok addr =>
        match start_process o (os_calls o) (ls_Image spec) (childEnv addr (ls_Env spec)) with
        | Err e => (Err (StatusWrap Internal "launch %q: %v" [ls_Image spec] e),
                    mkLocal (lp_seq r) (lp_instances r) (os_tick o))
        | Ok pid =>
            let id := "inst-" +:+ itoa (lp_seq r + 1) in
            (Ok (id, addr),
             mkLocal (lp_seq r + 1) (<[id := mkInstance pid addr false]> (lp_instances r)) (os_tick o))
        end
      end
  end.

(** The reaper goroutine records that a child has exited. *)
Definition LocalProcess_exit (r : LocalProcess) (pid : Z) : LocalProcess :=
  mkLocal (lp_seq r)
    ((fun i => if inst_pid i =? pid then mkInstance pid (inst_endpoint i) true else i) <$> lp_instances r) (os r).

Definition LocalProcess_Healthcheck (r : LocalProcess) (id : string) : result HealthStatus * LocalProcess :=
  match lp_instances r !! id with
  | None => (Err (Status NotFound "unknown instance %q" [id]), r)
  | Some i =>
      if exited i then (Ok UNHEALTHY, r)
      else
        let ok := os_accepts (os r) (os_calls (os r)) (inst_endpoint i) in
        (Ok (if ok then HEALTHY else HEALTH_UNKNOWN), mkLocal (lp_seq r) (lp_instances r) (os_tick (os r)))
  end.

Definition LocalProcess_Terminate (r : LocalProcess) (id : string) : result bool * LocalProcess :=
  match lp_instances r !! id with
  | None => (Err (Status NotFound "unknown instance %q" [id]), r)
  | Some i => (Ok true, mkLocal (lp_seq r) (delete id (lp_instances r)) (os_kill (os r) (inst_pid i)))
  end.

#[export] Instance LocalProcess_runtime : DeploymentRuntime LocalProcess LaunchSpec := {
  rt_Launch r _ _ spec := LocalProcess_Launch r spec;
  rt_Healthcheck r _ id := LocalProcess_Healthcheck r id;
  rt_Terminate r _ id := (LocalProcess_Terminate r id).2;
}.

(** ** Isolation *)

(** How a container is attached: to a private bridge, its port published on the loopback only,
    or to the network the runtime was given. *)
Definition network_flags (network : string) (args : list string) : Prop :=
  network = "" /\ args = ["--network=bridge"; "-p"; "127.0.0.1::50051"] \/
  network <> "" /\ exists name, args = ["--network=" +:+ network; "--name"; name; "--replace";
                                       "--add-host=host.containers.internal:host-gateway"].

(** What may follow: at most the data directory, one seccomp profile, variables and published
    ports, and then the image.  None of it takes back a flag of the profile. *)
Definition env_flag (args : list string) : Prop :=
  (exists kv, args = ["-e"; kv]) \/ exists port, args = ["-p"; "0.0.0.0::" +:+ port].

(** An invocation that starts a container does so under the whole profile. *)
Definition isolated (network : string) (args : list string) : Prop :=
  head args = Some "run" -> exists net mount seccomp env image,
    args = ["run"; "-d"; "--user"; "1000:1000"; "--cap-drop=ALL"; "--security-opt=no-new-privileges";
            "--read-only"; "--tmpfs"; "/tmp:rw,nosuid,nodev"; "-e"; "RAT_PLUGIN_ADDR=0.0.0.0:50051"] ++
           net ++ mount ++ seccomp ++ mjoin env ++ [image] /\
    network_flags network net /\
    (mount = [] \/ exists dir, mount = ["-v"; dir +:+ ":/data:Z"]) /\
    (seccomp = [] \/ exists s, seccomp = ["--security-opt=seccomp=" +:+ s]) /\
    Forall env_flag env /\ image <> "".

Definition podman_id (n : Z) : string := "podman-" +:+ itoa n.

Record podman_ok (r : Podman) : Prop := {
  pk_seq : 0 <= seq r;
  pk_isolated : Forall (isolated (Network r)) (cli_log (host r));
  pk_ids : forall id, is_Some (instances r !! id) -> exists n, 1 <= n <= seq r /\ id = podman_id n;
  pk_receipts : forall id i, instances r !! id = Some i ->
    IsolationHonored (pi_receipt i) = mkHonored true true true true true;
}.

Lemma isolated_other net a args : a <> "run" -> isolated net (a :: args).
Proof. intros Ha [= E]. congruence. Qed.

Lemma env_args_flags kv : exists l, env_args kv = mjoin l /\ Forall env_flag l.
Proof.
  unfold env_args. case_decide.
  - exists ((fun p => ["-p"; "0.0.0.0::" +:+ p]) <$> publish_ports kv.2). split; [done|].
    apply Forall_fmap, Forall_forall. intros p _. right. by exists p.
  - exists [["-e"; kv.1 +:+ "=" +:+ kv.2]]. split; [done|]. constructor; [|constructor]. left. by eexists.
Qed.

Lemma envs_flags l : exists fs, mjoin (env_args <$> l) = mjoin fs /\ Forall env_flag fs.
Proof.
  induction l as [|kv l (fs & E & Hf)]; [by exists []|]. destruct (env_args_flags kv) as (f1 & E1 & H1).
  exists (f1 ++ fs). split; [|by apply Forall_app]. rewrite join_app -E -E1. done.
Qed.

Lemma isolated_run_args r name id spec : ls_Image spec <> "" -> isolated (Network r) (run_args r name id spec).
Proof.
  intros Hi _. destruct (envs_flags (ls_Env spec)) as (fs & E & Hf).
  exists (network_args r name), (if decide (DataRoot r = "") then [] else ["-v"; data_dir r id +:+ ":/data:Z"]),
    (seccomp_args (GetSeccompProfile spec)), fs, (ls_Image spec).
  split; [unfold run_args; by rewrite E|]. split_and!; try done.
  - unfold network_flags, network_args. case_decide; [by left|right]. split; [done|by eexists].
  - case_decide; [by left|right; by eexists].
  - unfold seccomp_args. case_decide; [by left|right; by eexists].
Qed.

(** What the runtime ever asks of podman. *)
Definition runtime_verbs : list string := ["run"; "inspect"; "rm"].
Definition runtime_cmd (network : string) (args : list string) : Prop :=
  isolated network args /\ exists v, head args = Some v /\ v ∈ runtime_verbs.

(** Host operations only append such invocations. *)
Definition host_le (net : string) (h h' : Host) : Prop :=
  exists added, cli_log h' = cli_log h ++ added /\ Forall (runtime_cmd net) added.

#[export] Instance host_le_preorder net : PreOrder (host_le net).
Proof.
  split.
  - intros h. exists []. by rw app_nil_r.
  - intros h1 h2 h3 (a & E & Ha) (b & Hb & Hf). exists (a ++ b). rewrite Hb E app_assoc. split; [done|]. by apply Forall_app.
Qed.
Lemma host_le_refl net h : host_le net h h.
Proof. reflexivity. Qed.
#[local] Hint Resolve host_le_refl : core.

Lemma host_le_isolated net h h' : host_le net h h' -> Forall (isolated net) (cli_log h) -> Forall (isolated net) (cli_log h').
Proof.
  intros (a & -> & Ha) Hi. apply Forall_app. split; [done|]. apply (Forall_impl _ _ _ Ha). by intros x [? _].
Qed.

Lemma podman_le net h args : runtime_cmd net args -> host_le net h (podman h args).2.
Proof. intros Ha. exists [args]. split; [done|]. by constructor. Qed.

Lemma other_cmd net v args : v <> "run" -> v ∈ runtime_verbs -> runtime_cmd net (v :: args).
Proof. intros Hv Hin. split; [by apply isolated_other|]. by exists v. Qed.
Lemma inspect_cmd net args : runtime_cmd net ("inspect" :: args).
Proof. apply other_cmd; [done|]. right. left. Qed.
Lemma rm_cmd net args : runtime_cmd net ("rm" :: args).
Proof. apply other_cmd; [done|]. right. right. left. Qed.
Lemma run_cmd r name id spec : ls_Image spec <> "" -> runtime_cmd (Network r) (run_args r name id spec).
Proof. intros Hi. split; [by apply isolated_run_args|]. exists "run". split; [done|left]. Qed.
#[local] Hint Resolve inspect_cmd rm_cmd run_cmd podman_le : core.

(** The gate, spelled out. *)
Definition meets_minimum (spec : LaunchSpec) : Prop :=
  ls_Image spec <> "" /\ exists iso, ls_Isolation spec = Some iso /\
    RunAsNonRoot iso = true /\ DropAllCapabilities iso = true /\ NoNewPrivileges iso = true.

Lemma checkI9Minimum_None spec : checkI9Minimum spec = None <-> meets_minimum spec.
Proof.
  unfold checkI9Minimum, meets_minimum, iso_flag. destruct (decide (ls_Image spec = "")) as [->|Hi]; [split; [done|by intros [[] _]]|].
  destruct (ls_Isolation spec) as [[[] [] [] ? ? ?]|]; simpl; split; try done; try (intros [_ (iso & [= <-] & ? & ? & ?)]; done);
    try (by intros [_ (iso & [=] & _)]). intros _. split; [done|by eexists].
Qed.

Lemma publishedHostPort_le net h cid p : host_le net h (Podman_publishedHostPort h cid p).2.
Proof.
  unfold Podman_publishedHostPort.
  pose proof (podman_le net h ["inspect"; "--format"; port_format p; cid] (inspect_cmd _ _)) as Hle.
  by destruct (podman h _) as [[out err] h'].
Qed.

Lemma log_ports_frame net r cid ps :
  seq (log_ports r cid ps) = seq r /\ instances (log_ports r cid ps) = instances r /\
  Network (log_ports r cid ps) = Network r /\
  host_le net (host r) (host (log_ports r cid ps)).
Proof.
  unfold log_ports. case_decide; [|by split_and!]. split_and!; try done. simpl. generalize (host r).
  induction ps as [|p ps IH]; intros h; simpl; [done|].
  transitivity (Podman_publishedHostPort h cid p).2; [apply publishedHostPort_le|apply IH].
Qed.

Lemma resolve_endpoint_frame net r name cid :
  seq (resolve_endpoint r name cid).2 = seq r /\ instances (resolve_endpoint r name cid).2 = instances r /\
  Network (resolve_endpoint r name cid).2 = Network r /\
  host_le net (host r) (host (resolve_endpoint r name cid).2).
Proof.
  unfold resolve_endpoint. case_decide; [|by split_and!].
  unfold Podman_publishedEndpoint. pose proof (publishedHostPort_le net (host r) cid podmanContainerPort) as Hle.
  destruct (Podman_publishedHostPort (host r) cid podmanContainerPort) as [res h']. simpl in Hle.
  destruct res as [port|e]; simpl; split_and!; try done.
  transitivity h'; [exact Hle|]. apply podman_le, rm_cmd.
Qed.

Lemma podman_id_inj n m : podman_id n = podman_id m -> n = m.
Proof. intros H. apply (str_app_inj_r "podman-") in H. by apply (inj pretty) in H. Qed.

Lemma Podman_Launch_ok r pid spec :
  podman_ok r -> podman_ok (Podman_Launch r pid spec).2 /\
  (forall id ep, (Podman_Launch r pid spec).1 = Ok (id, ep) ->
     meets_minimum spec /\ instances r !! id = None /\
     exists inst, instances (Podman_Launch r pid spec).2 = <[id := inst]> (instances r) /\ pi_endpoint inst = ep).
Proof.
  intros [Hs Hi Hid Hrc]. unfold Podman_Launch. destruct (checkI9Minimum spec) as [e|] eqn:E9; [by split|].
  apply checkI9Minimum_None in E9.
  assert (forall r', seq r' = seq r + 1 -> instances r' = instances r -> Network r' = Network r ->
    host_le (Network r) (host r) (host r') -> podman_ok r') as Hmid.
  { intros r' H1 H2 Hn H3. constructor; [lia|rewrite Hn; by eapply host_le_isolated| |].
    - intros id. rw H2. intros (n & ? & ->)%Hid. exists n. split; [lia|done].
    - intros id i. rw H2. apply Hrc. }
  cbv zeta. destruct (if decide (DataRoot _ = "") then None else _) as [e|].
  { split; [|done]. by apply Hmid. }
  set (args := run_args _ _ _ _). set (r1 := with_seq r (seq r + 1)).
  pose proof (podman_le (Network r) (host r1) args (run_cmd r1 _ _ _ (proj1 E9))) as Hrun.
  destruct (podman (host r1) args) as [[out [e|]] h]; simpl in Hrun.
  { split; [|done]. by apply Hmid. }
  destruct (log_ports_frame (Network r) (with_host r1 h) (TrimSpace out) (publishPorts spec)) as (Hq1 & Hq2 & Hq4 & Hq3).
  set (r2 := log_ports _ _ _) in *.
  set (nm := containerName _ _ _).
  destruct (resolve_endpoint_frame (Network r) r2 nm (TrimSpace out)) as (Hr1 & Hr2 & Hr4 & Hr3).
  destruct (resolve_endpoint r2 nm (TrimSpace out)) as [[ep|e] r3]; simpl in Hr1, Hr2, Hr3, Hr4; simpl.
  - assert (podman_ok r3) as [? ? Hid3 Hrc3].
    { apply Hmid; [by rw Hr1 Hq1|by rw Hr2 Hq2|by rw Hr4 Hq4|]. by transitivity h; [exact Hrun|transitivity (host r2)]. }
    assert (seq r3 = seq r + 1) as Hseq by by rw Hr1 Hq1.
    assert (instances r3 = instances r) as Hin by by rw Hr2 Hq2.
    split.
    + constructor; simpl; [done|done| |].
      * intros id. rewrite lookup_insert_is_Some'. intros [<-|?]; [|by apply Hid3].
        exists (seq r + 1). split; [lia|done].
      * intros id i. rewrite lookup_insert_Some. intros [[<- <-]|[_ ?]]; [done|by eapply Hrc3].
    + intros id ep' [= <- <-]. split; [done|]. split.
      * apply eq_None_not_Some. intros (n & ? & E)%Hid. apply podman_id_inj in E. lia.
      * eexists. split; [by rw Hin|done].
  - split; [|done]. apply Hmid; [by rw Hr1 Hq1|by rw Hr2 Hq2|by rw Hr4 Hq4|]. by transitivity h; [exact Hrun|transitivity (host r2)].
Qed.

Inductive podman_step : Podman -> Podman -> Prop :=
  | pstep_launch r pid spec : podman_step r (Podman_Launch r pid spec).2
  | pstep_health r id : podman_step r (Podman_Healthcheck r id).2
  | pstep_terminate r id : podman_step r (Podman_Terminate r id).2
  | pstep_expired r id : podman_step r (Podman_Terminate_expired r id).

Lemma podman_step_ok r r' : podman_ok r -> podman_step r r' -> podman_ok r'.
Proof.
  intros Hok Hs. destruct Hs as [r pid spec|r id|r id|r id]; [by apply Podman_Launch_ok| | |].
  - unfold Podman_Healthcheck. destruct (instances r !! id) as [inst|]; [|done].
    unfold Podman_containerRunning, podman, endpointAccepts. destruct Hok as [? ? ? ?].
    assert (forall h, cli_log h = cli_log (host r) ++ [["inspect"; "--format"; "{{.State.Running}}"; containerID inst]] ->
      podman_ok (with_host r h)) as Hh.
    { intros h E. constructor; try done. simpl. rw E. apply Forall_app. split; [done|].
      repeat constructor. by apply isolated_other. }
    destruct (cli _ _ _) as [out [e|]]; simpl; [by apply Hh|].
    destruct (bool_decide _); simpl; by apply Hh.
  - unfold Podman_Terminate. destruct (instances r !! id) as [inst|] eqn:Ei; [|done].
    destruct Hok as [? ? Hid Hrc]. simpl. destruct (cli _ _ _) as [out err]. simpl.
    constructor; simpl; [done| | |].
    + apply Forall_app. split; [done|]. repeat constructor. by apply isolated_other.
    + intros id'. rewrite lookup_delete_is_Some. intros [_ ?]. by apply Hid.
    + intros id' i. rewrite lookup_delete_Some. intros [_ ?]. by eapply Hrc.
  - unfold Podman_Terminate_expired. destruct (instances r !! id) as [inst|] eqn:Ei; [|done].
    destruct Hok as [? ? Hid Hrc]. constructor; simpl; [done|done| |].
    + intros id'. rewrite lookup_delete_is_Some. intros [_ ?]. by apply Hid.
    + intros id' i. rewrite lookup_delete_Some. intros [_ ?]. by eapply Hrc.
Qed.

(** Every operation only appends runtime invocations. *)
Lemma podman_step_le r r' : podman_step r r' -> Network r' = Network r /\ host_le (Network r) (host r) (host r').
Proof.
  intros Hs. destruct Hs as [r pid spec|r id|r id|r id].
  - unfold Podman_Launch. destruct (checkI9Minimum spec) eqn:E9; [done|]. apply checkI9Minimum_None in E9.
    cbv zeta. set (r1 := with_seq r (seq r + 1)).
    change (host r) with (host r1). destruct (if decide (DataRoot _ = "") then None else _); [done|].
    set (args := run_args _ _ _ _). pose proof (podman_le (Network r) (host r1) args (run_cmd r1 _ _ _ (proj1 E9))) as Hrun.
    destruct (podman (host r1) args) as [[out [e|]] h]; simpl in Hrun; [done|].
    destruct (log_ports_frame (Network r) (with_host r1 h) (TrimSpace out) (publishPorts spec)) as (_ & _ & Hn & Hq).
    set (r2 := log_ports _ _ _) in *. set (nm := containerName _ _ _).
    destruct (resolve_endpoint_frame (Network r) r2 nm (TrimSpace out)) as (_ & _ & Hn' & Hr).
    destruct (resolve_endpoint r2 nm (TrimSpace out)) as [[ep|e] r3]; simpl in *; (split; [by rewrite Hn' Hn|]);
      (transitivity h; [exact Hrun|by transitivity (host r2)]).
  - unfold Podman_Healthcheck. destruct (instances r !! id) as [inst|]; [|done]. unfold Podman_containerRunning.
    pose proof (podman_le (Network r) (host r) ["inspect"; "--format"; "{{.State.Running}}"; containerID inst] (inspect_cmd _ _)) as Hle.
    destruct (podman (host r) _) as [[out [e|]] h]; simpl in *; [done|]. by destruct (bool_decide _).
  - unfold Podman_Terminate. destruct (instances r !! id) as [inst|]; [|done].
    pose proof (podman_le (Network r) (host r) ["rm"; "-f"; "-t"; "0"; containerID inst] (rm_cmd _ _)) as Hle.
    by destruct (podman (host _) _) as [[out err] h].
  - unfold Podman_Terminate_expired. by destruct (instances r !! id).
Qed.

(** C13: Every container a podman runtime ever starts, whatever its data root, network and name
    prefix, whatever is launched, probed and terminated in whatever order and however the CLI
    answers, is started detached as the non-root user, with every capability dropped, no new
    privileges, a read-only root and a scratch tmpfs, on a private bridge with its port on
    the loopback only or on the network the runtime was given, and with nothing else on the
    command line than a data mount, a seccomp profile, variables, published ports and the image.
    A launch without an image, or without a profile that asks for non-root, no capabilities
    and no new privileges, is refused without invoking podman; and instance ids never
    collide, so a launch does not overwrite a tracked instance. *)
Theorem podman_isolation (h : Host) (dataRoot network prefix : string) (r : Podman) (pid : string) (spec : LaunchSpec) :
  cli_log h = [] -> rtc podman_step (mkPodman dataRoot network prefix 0 ∅ h) r ->
  (forall args, args ∈ cli_log (host r) -> head args = Some "run" -> exists net mount seccomp env image,
    args = ["run"; "-d"; "--user"; "1000:1000"; "--cap-drop=ALL"; "--security-opt=no-new-privileges";
            "--read-only"; "--tmpfs"; "/tmp:rw,nosuid,nodev"; "-e"; "RAT_PLUGIN_ADDR=0.0.0.0:50051"] ++
           net ++ mount ++ seccomp ++ mjoin env ++ [image] /\
    network_flags network net /\
    (mount = [] \/ exists dir, mount = ["-v"; dir +:+ ":/data:Z"]) /\
    (seccomp = [] \/ exists s, seccomp = ["--security-opt=seccomp=" +:+ s]) /\
    Forall env_flag env /\ image <> "") /\
  (ls_Image spec = "" \/
   (forall iso, ls_Isolation spec = Some iso ->
      RunAsNonRoot iso = false \/ DropAllCapabilities iso = false \/ NoNewPrivileges iso = false) ->
   exists e, Podman_Launch r pid spec = (Err e, r)) /\
  (forall id ep, (Podman_Launch r pid spec).1 = Ok (id, ep) -> instances r !! id = None).
Proof.
  intros Hh Hs. set (r0 := mkPodman _ _ _ _ _ _) in *. assert (podman_ok r0) as H0.
  { constructor; simpl; [lia|by rw Hh|by intros id [? ?]|done]. }
  assert (podman_ok r /\ Network r = network) as [Hok Hn].
  { change network with (Network r0). clear Hh. induction Hs as [|r1 r2 r3 Hst _ IH]; [done|].
    destruct (podman_step_le r1 r2 Hst) as [Hn _]. rewrite -Hn. by eapply IH, podman_step_ok. }
  split; [|split].
  - intros args Ha. pose proof (pk_isolated _ Hok) as Hi. rewrite Forall_forall in Hi. rewrite -Hn. by apply Hi.
  - intros Hbad. unfold Podman_Launch. destruct (checkI9Minimum spec) as [e|] eqn:E; [by exists e|].
    apply checkI9Minimum_None in E as (Hi & iso & Hiso & H1 & H2 & H3). destruct Hbad as [?|Hbad]; [done|].
    specialize (Hbad iso Hiso). rewrite H1 H2 H3 in Hbad. naive_solver.
  - intros id ep E. by destruct (proj2 (Podman_Launch_ok r pid spec Hok) id ep E) as (_ & ? & _).
Qed.

(** A container name podman accepts: [[a-zA-Z0-9][a-zA-Z0-9_.-]*]. *)
Definition podman_name (s : string) : Prop :=
  match s with "" => False | String a s' => is_alnum a = true /\ str_forall name_byte s' = true end.

Lemma str_forall_map P f s : (forall a, P (f a) = true) -> str_forall P (str_map f s) = true.
Proof. intros H. induction s as [|a s IH]; [done|]. simpl. by rw H IH. Qed.

Lemma name_byte_numeral s : str_forall numeral_byte s = true -> str_forall name_byte s = true.
Proof.
  induction s as [|a s IH]; simpl; [done|]. intros [Ha Hs]%andb_true_iff. rw IH // andb_true_r.
  unfold numeral_byte in Ha. apply orb_true_iff in Ha as [Ha|Ha]; [by bool_to_prop; subst|].
  unfold name_byte, is_alnum. cbv zeta. by rw Ha !orb_true_r.
Qed.

(** Sibling-mode container names are always legal podman names, whatever bytes the
    plugin id holds, when the instance prefix itself is made of legal bytes. *)
Theorem containerName_legal (prefix pluginID : string) (n : Z) :
  str_forall name_byte prefix = true -> podman_name (containerName prefix pluginID n).
Proof.
  intros Hp. unfold containerName. set (s0 := str_map _ pluginID).
  assert (str_forall name_byte s0 = true) as H0.
  { apply str_forall_map. intros a. by destruct (name_byte a) eqn:E. }
  set (s1 := if decide (prefix = "") then s0 else prefix +:+ "-" +:+ s0).
  assert (str_forall name_byte s1 = true) as H1.
  { unfold s1. case_decide; [done|]. by rw !str_forall_app Hp H0. }
  assert (str_forall name_byte ("-" +:+ itoa n) = true) as Hn.
  { rw str_forall_app. apply andb_true_iff. split; [done|]. apply name_byte_numeral, itoa_numeral. }
  destruct s1 as [|c s1]; [by rw str_forall_app in Hn|].
  destruct (is_alnum c) eqn:Ec.
  - simpl. split; [done|]. change (str_forall name_byte (s1 +:+ ("-" +:+ itoa n)) = true).
    simpl in H1. bool_to_prop. by rw str_forall_app Hn andb_true_r.
  - change (is_alnum "r" = true /\ str_forall name_byte ("at-" +:+ (String c s1 +:+ ("-" +:+ itoa n))) = true).
    split; [done|]. rewrite (str_forall_app name_byte "at-"). rewrite (str_forall_app name_byte (String c s1)).
    rewrite H1 Hn. reflexivity.
Qed.

(** ** At concrete runs *)

Definition demo_host : Host :=
  mkHost (fun n args => if decide (head args = Some "run") then ("cid-1", None) else ("40001", None))
    (fun _ _ => true) (fun _ => None) (fun _ => None) [] 0.
Definition demo_spec : LaunchSpec :=
  mkLaunch "rat/duck:1" (Some (mkIsolation true true true false false "")) [("RAT_PLUGIN_NAME", "duck")].

Lemma podman_isolation_witness :
  let r := (Podman_Launch (mkPodman "/data" "ratnet" "lab" 0 ∅ demo_host) "duck" demo_spec).2 in
  (forall args, args ∈ cli_log (host r) -> head args = Some "run" -> "--cap-drop=ALL" ∈ args) /\ length (cli_log (host r)) = 1%nat /\
  pi_endpoint <$> instances r !! "podman-1" = Some "lab-duck-1:50051".
Proof.
  intros r. split; [|split; vm_compute; reflexivity].
  destruct (podman_isolation demo_host "/data" "ratnet" "lab" r "duck" demo_spec) as (Hall & _); [reflexivity|apply rtc_once; constructor|].
  intros args Ha Hr. destruct (Hall args Ha Hr) as (net & mount & sec & env & image & E & _). rewrite E.
  apply elem_of_app. left. do 4 right. left.
Defined.

Lemma containerName_legal_witness :
  containerName "lab" "duck db/1" 7 = "lab-duck-db-1-7" /\ podman_name (containerName "lab" "duck db/1" 7).
Proof. split; [vm_compute; reflexivity|]. apply containerName_legal. vm_compute. reflexivity. Defined.
