(* ===== verification/Metrics.v ===== *)
(** The metrics registry (src/core/metrics/metrics.go): counters, gauges collected at scrape
    time, and the Prometheus text exposition with its escaping. *)
From S2P Require Import Prelude Conformance.

(** Values are 64-bit floats: their addition and [%g] rendering are parameters. *)
Section Metrics.
Context {F : Type} (zero one : F) (fadd : F -> F -> F) (fmt_g : F -> string).

Record Sample := mkSample { s_Labels : gmap string string; s_Value : F }.

Record counterVec := mkCounter {
  cv_help : string;
  cv_values : gmap string F;
  cv_labels : gmap string (gmap string string);
}.

(** A gauge function reads the live plane: [G] is what it reads. *)
Context {G : Type}.
Record gaugeFunc := mkGauge { g_help : string; g_fn : G -> list Sample }.

Record MetricsRegistry := mkMetrics {
  counters : gmap string counterVec;
  gauges : gmap string gaugeFunc;
  order : list string;
}.

Definition NewRegistry : MetricsRegistry := mkMetrics ∅ ∅ [].

(** Sorted [k=v] pairs, each closed by a NUL. *)
Definition labelKey (labels : gmap string string) : string :=
  fold_right (fun k acc => k +:+ "=" +:+ default "" (labels !! k) +:+ nul +:+ acc) "" (sorted_keys labels).

(** A nil registry ignores everything. *)
Definition Registry_Add (r : option MetricsRegistry) (name help : string) (labels : gmap string string) (delta : F) :
    option MetricsRegistry :=
  r ← r;
  let cv := default (mkCounter help ∅ ∅) (counters r !! name) in
  let key := labelKey labels in
  let cv := mkCounter (cv_help cv)
              (<[key := fadd (default zero (cv_values cv !! key)) delta]> (cv_values cv))
              (match cv_labels cv !! key with Some _ => cv_labels cv | None => <[key := labels]> (cv_labels cv) end) in
  Some (mkMetrics (<[name := cv]> (counters r)) (gauges r) (order r)).

Definition Registry_Inc (r : option MetricsRegistry) (name help : string) (labels : gmap string string) :
    option MetricsRegistry := Registry_Add r name help labels one.

Definition Registry_RegisterGaugeFunc (r : option MetricsRegistry) (name help : string) (fn : G -> list Sample) :
    option MetricsRegistry :=
  r ← r;
  Some (mkMetrics (counters r) (<[name := mkGauge help fn]> (gauges r))
          (match gauges r !! name with Some _ => order r | None => order r ++ [name] end)).

(** ** Rendering *)

Definition backslash : ascii := byte_of 92.
Definition bs : string := String backslash "".

Definition escapeValue (v : string) : string :=
  let v := ReplaceByte backslash (bs +:+ bs) v in
  let v := ReplaceByte NL (bs +:+ "n") v in
  ReplaceByte (byte_of 34) (bs +:+ dq) v.

Definition renderLabels (labels : gmap string string) : string :=
  if decide (labels = ∅) then ""
  else "{" +:+ Join ((fun k => k +:+ "=" +:+ dq +:+ escapeValue (default "" (labels !! k)) +:+ dq)
                       <$> sorted_keys labels) "," +:+ "}".

Definition sample_line (name : string) (labels : gmap string string) (v : F) : string :=
  name +:+ renderLabels labels +:+ " " +:+ fmt_g v +:+ nl.

Definition header (name help kind : string) : string :=
  (if decide (help = "") then "" else "# HELP " +:+ name +:+ " " +:+ help +:+ nl) +:+
  "# TYPE " +:+ name +:+ " " +:+ kind +:+ nl.

Definition counter_block (name : string) (cv : counterVec) : string :=
  header name (cv_help cv) "counter" +:+
  String.concat "" ((fun k => sample_line name (default ∅ (cv_labels cv !! k)) (default zero (cv_values cv !! k)))
                      <$> sorted_keys (cv_values cv)).

Definition gauge_block (g : G) (name : string) (gf : gaugeFunc) : string :=
  header name (g_help gf) "gauge" +:+
  String.concat "" ((fun s => sample_line name (s_Labels s) (s_Value s)) <$> g_fn gf g).

(** The gauges' functions run after the registry's lock is released, on the plane as it is
    then. *)
Definition Registry_WritePrometheus (r : MetricsRegistry) (g : G) : string :=
  String.concat "" (omap (fun n => counter_block n <$> counters r !! n) (sorted_keys (counters r))) +:+
  String.concat "" (omap (fun n => gauge_block g n <$> gauges r !! n) (order r)).

(** ** Counting *)

Definition counter_value (r : option MetricsRegistry) (name : string) (labels : gmap string string) : F :=
  default zero (r ← r; cv ← counters r !! name; cv_values cv !! labelKey labels).

Lemma Inc_value r name help labels name' labels' :
  counter_value (Registry_Inc (Some r) name help labels) name' labels' =
  if decide (name = name' /\ labelKey labels = labelKey labels')
  then fadd (counter_value (Some r) name' labels') one else counter_value (Some r) name' labels'.
Proof.
  unfold counter_value, Registry_Inc, Registry_Add. simpl. case_decide as Hd.
  - destruct Hd as [<- Hk]. rw lookup_insert_eq /= Hk lookup_insert_eq /=.
    by destruct (counters r !! name) as [cv|].
  - destruct (decide (name = name')) as [<-|Hn].
    + rw lookup_insert_eq /= lookup_insert_ne; [|naive_solver]. by destruct (counters r !! name) as [cv|]; [|rw lookup_empty].
    + by rw lookup_insert_ne.
Qed.

(** After any sequence of increments, on any counters and label sets, a counter's value
    for a label set is the number of increments that named it with the same label key,
    added up from zero. *)
Theorem Inc_counts (incs : list (string * gmap string string)) (help name : string) (labels : gmap string string) :
  counter_value (fold_left (fun r i => Registry_Inc r i.1 help i.2) incs (Some NewRegistry)) name labels =
  Nat.iter (length (filter (fun i => i.1 = name /\ labelKey i.2 = labelKey labels) incs))
    (fun v => fadd v one) zero.
Proof.
  assert (exists r, fold_left (fun r i => Registry_Inc r i.1 help i.2) incs (Some NewRegistry) = Some r /\
    counter_value (Some r) name labels =
    Nat.iter (length (filter (fun i => i.1 = name /\ labelKey i.2 = labelKey labels) incs)) (fun v => fadd v one) zero)
    as (r & -> & ?); [|done].
  induction incs as [|[n ls] incs IH] using rev_ind; [by eexists|].
  destruct IH as (r & Hr & IH). rw fold_left_app Hr /=. eexists. split; [reflexivity|].
  change (counter_value (Registry_Inc (Some r) n help ls) name labels =
    Nat.iter (length (filter (fun i => i.1 = name /\ labelKey i.2 = labelKey labels) (incs ++ [(n, ls)]))) (fun v => fadd v one) zero).
  rw Inc_value filter_app length_app IH. case_decide as Hd.
  - rw filter_cons_True // Nat.add_1_r. done.
  - rw filter_cons_False // Nat.add_0_r. done.
Qed.
End Metrics.

(** ** Escaping *)

(** Reading an escaped value back: the inverse the exposition format prescribes. *)
Fixpoint unescape (s : string) : string :=
  match s with
  | String a s' =>
      if decide (a = backslash) then
        match s' with
        | String b s'' => String (if decide (b = "n"%char) then NL else b) (unescape s'')
        | "" => String a ""
        end
      else String a (unescape s')
  | "" => ""
  end.

(** The escape of one byte. *)
Definition escape_byte (a : ascii) : string :=
  if decide (a = backslash) then bs +:+ bs
  else if decide (a = NL) then bs +:+ "n"
  else if decide (a = byte_of 34) then bs +:+ dq else String a "".

Lemma ReplaceByte_app c b u v : ReplaceByte c b (u +:+ v) = ReplaceByte c b u +:+ ReplaceByte c b v.
Proof.
  induction u as [|a u IH]; [done|]. rw str_app_cons /=. case_decide; rw IH.
  - by rw str_app_assoc.
  - done.
Qed.

Lemma escapeValue_cons a s : escapeValue (String a s) = escape_byte a +:+ escapeValue s.
Proof.
  unfold escapeValue, escape_byte. cbn [ReplaceByte].
  destruct (decide (a = backslash)) as [->|Ha]; [by rw !ReplaceByte_app|]. cbn [ReplaceByte].
  destruct (decide (a = NL)) as [->|Hb]; [by rw !ReplaceByte_app|]. cbn [ReplaceByte].
  by destruct (decide (a = byte_of 34)).
Qed.

(** A double quote preceded by an even number of backslashes would close the value, a
    newline would end the line: [closed] scans for them. *)
Fixpoint no_break (s : string) : bool :=
  match s with
  | String a s' =>
      if decide (a = backslash) then match s' with String _ s'' => no_break s'' | "" => false end
      else negb (bool_decide (a = byte_of 34)) && negb (bool_decide (a = NL)) && no_break s'
  | "" => true
  end.

(** A label value survives the exposition format: unescaping its rendering gives it
    back, and the rendering contains no newline and no quote that could end the value
    early, so one value cannot forge another label or another sample line. *)
Theorem escapeValue_roundtrip (v : string) :
  unescape (escapeValue v) = v /\ no_break (escapeValue v) = true.
Proof.
  induction v as [|a v [IH1 IH2]]; [done|]. rw escapeValue_cons. unfold escape_byte.
  destruct (decide (a = backslash)) as [->|Ha].
  { simpl. by rw IH1 IH2. }
  destruct (decide (a = NL)) as [->|Hb].
  { simpl. by rw IH1 IH2. }
  destruct (decide (a = byte_of 34)) as [->|Hc].
  { simpl. by rw IH1 IH2. }
  rw str_app_cons /=. rw !decide_False //. rw !bool_decide_eq_false_2 //=. by rw IH1 IH2.
Qed.

(** Two label sets with the same key share one counter: a NUL in a value is enough. *)
Theorem labelKey_collision :
  exists l1 l2, l1 <> l2 /\ labelKey l1 = labelKey l2.
Proof.
  exists {["a" := "1"; "b" := "2"]}, {["a" := "1" +:+ nul +:+ "b=2"]}.
  split; [|vm_compute; reflexivity]. intros E.
  apply (f_equal (lookup "b")) in E. vm_compute in E. discriminate.
Qed.
