(* ===== verification/Supervisor.v ===== *)
(** One-shot plane assembly (src/core/supervisor/supervisor.go): launching or attaching a
    list of plugin specs behind a gateway, and tearing down whatever came up when a step
    fails. *)
From S2P Require Import Prelude Manifest Registry CallContext Gateway Reconciler.

Record PluginSpec (LaunchSpec : Type) := mkSpec {
  sp_Manifest : Manifest;
  sp_Launch : option LaunchSpec;
  sp_Endpoint : string;
}.
Arguments mkSpec {LaunchSpec}.
Arguments sp_Manifest {LaunchSpec}.
Arguments sp_Launch {LaunchSpec}.
Arguments sp_Endpoint {LaunchSpec}.

(** ** Waiting

    A wait reads the clock once for its deadline and once after every probe: [clock 0] is
    the first reading, [clock (S i)] the one that follows the [i]-th probe.  The loops carry
    fuel; [None] is a loop that has not ended within it. *)
Definition milli : Z := 1000000.

(** Fuel that outlasts the timeout when every round takes at least [step]. *)
Definition wait_fuel (timeout step : Z) : nat := S (S (Z.to_nat (timeout / step))).

Section Supervisor.
Context {R LaunchSpec Conn : Type} `{DeploymentRuntime R LaunchSpec}.
(** Dialling a client connection and probing an endpoint are the transport's. *)
Context (grpc_NewClient : string -> result Conn).
Context (dial_endpoint : string -> nat -> option error).

Fixpoint waitEndpoint_loop (fuel i : nat) (clock : nat -> Z) (cancelled : nat -> option error)
    (addr : string) (deadline : Z) : option (option error) :=
  match fuel with
  | O => None
  | S fuel =>
      match dial_endpoint addr i with
      | None => Some None
      | Some err =>
          if deadline <? clock (S i) then Some (Some err)
          else match cancelled i with
               | Some e => Some (Some e)
               | None => waitEndpoint_loop fuel (S i) clock cancelled addr deadline
               end
      end
  end.
Definition waitEndpoint (clock : nat -> Z) (cancelled : nat -> option error) (addr : string)
    (timeout : Z) : option (option error) :=
  waitEndpoint_loop (wait_fuel timeout (100 * milli)) 0 clock cancelled addr (clock 0%nat + timeout).

(** Health is asked of the runtime, whose own state moves with each question. *)
Fixpoint waitHealthy_loop (fuel i : nat) (clock : nat -> Z) (rt : R) (id : string) (deadline : Z) :
    option (option error * R) :=
  match fuel with
  | O => None
  | S fuel =>
      let '(hc, rt) := rt_Healthcheck rt 0 id in
      match hc with
      | Err e => Some (Some e, rt)
      | Ok st =>
          if decide (st = HEALTHY) then Some (None, rt)
          else if deadline <? clock (S i) then Some (Some (Errorf "status=%s detail=%q" []), rt)
          else waitHealthy_loop fuel (S i) clock rt id deadline
      end
  end.
Definition waitHealthy (clock : nat -> Z) (rt : R) (id : string) (timeout : Z) : option (option error * R) :=
  waitHealthy_loop (wait_fuel timeout (50 * milli)) 0 clock rt id (clock 0%nat + timeout).

(** A clock on which every round of a wait takes at least [step]: the loops sleep that long. *)
Definition ticks (step : Z) (clock : nat -> Z) : Prop := forall i, clock 0%nat + step * Z.of_nat i <= clock (S i).

Lemma wait_fuel_enough timeout step :
  0 < step -> 0 <= timeout -> timeout < step * Z.of_nat (0 + wait_fuel timeout step - 1).
Proof.
  intros Hstep Ht. unfold wait_fuel. pose proof (Z.div_pos timeout step Ht Hstep).
  replace (Z.of_nat (0 + S (S (Z.to_nat (timeout / step))) - 1)) with (timeout / step + 1) by lia.
  pose proof (Z.mul_succ_div_gt timeout step Hstep). lia.
Qed.

Lemma waitHealthy_loop_ends step timeout clock id fuel i rt :
  ticks step clock -> timeout < step * Z.of_nat (i + fuel - 1) -> fuel <> 0%nat ->
  is_Some (waitHealthy_loop fuel i clock rt id (clock 0%nat + timeout)).
Proof.
  intros Hc. revert i rt. induction fuel as [|fuel IH]; intros i rt Hlt Hne; [done|]. simpl.
  destruct (rt_Healthcheck rt 0 id) as [[st|e] rt']; [|by eexists].
  destruct (decide _); [by eexists|]. destruct (Z.ltb_spec (clock 0%nat + timeout) (clock (S i))); [by eexists|].
  specialize (Hc i). apply IH.
  - by replace (S i + fuel - 1)%nat with (i + S fuel - 1)%nat by lia.
  - intros ->. replace (i + 1 - 1)%nat with i in Hlt by lia. lia.
Qed.

Lemma waitEndpoint_loop_ends step timeout clock cancelled addr fuel i :
  ticks step clock -> timeout < step * Z.of_nat (i + fuel - 1) -> fuel <> 0%nat ->
  is_Some (waitEndpoint_loop fuel i clock cancelled addr (clock 0%nat + timeout)).
Proof.
  intros Hc. revert i. induction fuel as [|fuel IH]; intros i Hlt Hne; [done|]. simpl.
  destruct (dial_endpoint addr i); [|by eexists].
  destruct (Z.ltb_spec (clock 0%nat + timeout) (clock (S i))); [by eexists|].
  destruct (cancelled i); [by eexists|]. specialize (Hc i). apply IH.
  - by replace (S i + fuel - 1)%nat with (i + S fuel - 1)%nat by lia.
  - intros ->. replace (i + 1 - 1)%nat with i in Hlt by lia. lia.
Qed.

Lemma waitHealthy_ends clock rt id timeout :
  0 <= timeout -> ticks (50 * milli) clock -> is_Some (waitHealthy clock rt id timeout).
Proof.
  intros Ht Hc. apply (waitHealthy_loop_ends _ _ _ _ _ _ _ Hc); [|done]. by apply wait_fuel_enough.
Qed.
Lemma waitEndpoint_ends clock cancelled addr timeout :
  0 <= timeout -> ticks (100 * milli) clock -> is_Some (waitEndpoint clock cancelled addr timeout).
Proof.
  intros Ht Hc. apply (waitEndpoint_loop_ends _ _ _ _ _ _ _ Hc); [|done]. by apply wait_fuel_enough.
Qed.

(** What the assembly acquires and releases, in order; [as_events] is ghost. *)
Inductive resource := RInstance (id : string) | RConn (c : Conn).
Inductive revent := Acquired (x : resource) | Released (x : resource).

Record Plane := mkPlane {
  p_Gateway : option (Gateway (Conn := Conn));
  p_Registry : option Registry;
  p_instances : list string;
  p_conns : list Conn;
}.

Record Assembly := mkAssembly {
  as_rt : R;
  as_plane : Plane;
  as_providers : gmap string (option Conn);
  as_events : list revent;
}.

Definition with_rt (a : Assembly) (rt : R) : Assembly :=
  mkAssembly rt (as_plane a) (as_providers a) (as_events a).
Definition acquire_instance (a : Assembly) (id : string) : Assembly :=
  let p := as_plane a in
  mkAssembly (as_rt a) (mkPlane (p_Gateway p) (p_Registry p) (p_instances p ++ [id]) (p_conns p))
    (as_providers a) (as_events a ++ [Acquired (RInstance id)]).
Definition acquire_conn (a : Assembly) (name : string) (c : Conn) : Assembly :=
  let p := as_plane a in
  mkAssembly (as_rt a) (mkPlane (p_Gateway p) (p_Registry p) (p_instances p) (p_conns p ++ [c]))
    (<[name := Some c]> (as_providers a)) (as_events a ++ [Acquired (RConn c)]).

Definition Plane_Shutdown (a : Assembly) : Assembly :=
  let p := as_plane a in
  mkAssembly (fold_left (fun rt id => rt_Terminate rt 0 id) (p_instances p) (as_rt a))
    (mkPlane (p_Gateway p) (p_Registry p) [] []) (as_providers a)
    (as_events a ++ ((fun c => Released (RConn c)) <$> p_conns p)
                 ++ ((fun id => Released (RInstance id)) <$> p_instances p)).

Definition fail_with (a : Assembly) (e : error) : result Plane * Assembly := (Err e, Plane_Shutdown a).

Definition build_plane (a : Assembly) (manifests : list Manifest) (descriptors : list FileDesc) :
    result Plane * Assembly :=
  match New manifests with
  | Err e => fail_with a (Wrap "registry: %w" [] e)
  | Ok r =>
      let p := mkPlane (Some (gateway_New r (as_providers a) descriptors)) (Some r)
                 (p_instances (as_plane a)) (p_conns (as_plane a)) in
      (Ok p, mkAssembly (as_rt a) p (as_providers a) (as_events a))
  end.

(** One spec of [BringUp]: launch, wait until healthy, dial. *)
Definition bring_up_one (clock : nat -> Z) (healthTimeout : Z) (a : Assembly) (name : string)
    (spec : LaunchSpec) : option (option error * Assembly) :=
  let '(lr, rt) := rt_Launch (as_rt a) 0 name spec in
  let a := with_rt a rt in
  match lr with
  | Err e => Some (Some (Wrap "launch %q: %w" [name] e), a)
  | Ok (id, ep) =>
      let a := acquire_instance a id in
      '(w, rt) ← waitHealthy clock (as_rt a) id healthTimeout;
      let a := with_rt a rt in
      Some match w with
           | Some e => (Some (Wrap "plugin %q never became healthy: %w" [name] e), a)
           | None =>
               match grpc_NewClient ep with
               | Err e => (Some (Wrap "dial %q at %s: %w" [name; ep] e), a)
               | Ok c => (None, acquire_conn a name c)
               end
           end
  end.

(** One spec of [Attach]: wait until the endpoint accepts, dial.  Nothing is launched; the
    runtime of the assembly is only carried along. *)
Definition attach_one (clock : nat -> Z) (cancelled : nat -> option error) (healthTimeout : Z)
    (a : Assembly) (name ep : string) : option (option error * Assembly) :=
  w ← waitEndpoint clock cancelled ep healthTimeout;
  Some match w with
       | Some e => (Some (Wrap "plugin %q endpoint %s never became reachable: %w" [name; ep] e), a)
       | None =>
           match grpc_NewClient ep with
           | Err e => (Some (Wrap "dial %q at %s: %w" [name; ep] e), a)
           | Ok c => (None, acquire_conn a name c)
           end
       end.

(** The loop of both: one step per spec, up to the first error.  [i] counts the specs; the
    wait of the [i]-th one reads the [i]-th clock. *)
Fixpoint assemble (step : nat -> Assembly -> PluginSpec LaunchSpec -> option (option error * Assembly))
    (i : nat) (a : Assembly) (specs : list (PluginSpec LaunchSpec)) : option (option error * Assembly) :=
  match specs with
  | [] => Some (None, a)
  | s :: specs' =>
      '(e, a) ← step i a s;
      match e with
      | Some e => Some (Some e, a)
      | None => assemble step (S i) a specs'
      end
  end.

Definition empty_assembly (rt : R) : Assembly := mkAssembly rt (mkPlane None None [] []) ∅ [].

Definition finish (specs : list (PluginSpec LaunchSpec)) (descriptors : list FileDesc)
    (r : option error * Assembly) : result Plane * Assembly :=
  match r with
  | (Some e, a) => fail_with a e
  | (None, a) => build_plane a (sp_Manifest <$> specs) descriptors
  end.

Definition BringUp (clocks : nat -> nat -> Z) (healthTimeout : Z) (rt : R)
    (specs : list (PluginSpec LaunchSpec)) (descriptors : list FileDesc) : option (result Plane * Assembly) :=
  r ← assemble (fun i a s =>
        match sp_Launch s with
        | None => Some (None, a)
        | Some l => bring_up_one (clocks i) healthTimeout a (name_of (sp_Manifest s)) l
        end) 0 (empty_assembly rt) specs;
  Some (finish specs descriptors r).

Definition Attach (clocks : nat -> nat -> Z) (cancelled : nat -> nat -> option error) (healthTimeout : Z)
    (rt : R) (specs : list (PluginSpec LaunchSpec)) (descriptors : list FileDesc) :
    option (result Plane * Assembly) :=
  r ← assemble (fun i a s =>
        if decide (sp_Endpoint s = "") then Some (None, a)
        else attach_one (clocks i) (cancelled i) healthTimeout a (name_of (sp_Manifest s)) (sp_Endpoint s))
        0 (empty_assembly rt) specs;
  Some (finish specs descriptors r).

(** ** Nothing leaks *)

Definition held (a : Assembly) : list resource :=
  (RConn <$> p_conns (as_plane a)) ++ (RInstance <$> p_instances (as_plane a)).

Definition acquired (es : list revent) : list resource :=
  omap (fun e => match e with Acquired x => Some x | _ => None end) es.
Definition released (es : list revent) : list resource :=
  omap (fun e => match e with Released x => Some x | _ => None end) es.

(** While a plane is assembled nothing is released, and the plane's lists are exactly what
    has been acquired. *)
Definition tracks (a : Assembly) : Prop :=
  released (as_events a) = [] /\ acquired (as_events a) ≡ₚ held a.

Lemma tracks_empty rt : tracks (empty_assembly rt).
Proof. unfold tracks, held. done. Qed.

Lemma tracks_rt a rt : tracks a -> tracks (with_rt a rt).
Proof. unfold tracks, held. done. Qed.

Lemma tracks_instance a id : tracks a -> tracks (acquire_instance a id).
Proof.
  unfold tracks, held, acquired, released, acquire_instance. simpl. rw !omap_app !fmap_app /= app_nil_r.
  intros [? ->]. split; [done|]. solve_Permutation.
Qed.

Lemma tracks_conn a name c : tracks a -> tracks (acquire_conn a name c).
Proof.
  unfold tracks, held, acquired, released, acquire_conn. simpl. rw !omap_app !fmap_app /= app_nil_r.
  intros [? ->]. split; [done|]. solve_Permutation.
Qed.

Lemma acquired_Released {A} (f : A -> resource) l : acquired ((fun x => Released (f x)) <$> l) = [].
Proof. by induction l. Qed.
Lemma released_Released {A} (f : A -> resource) l : released ((fun x => Released (f x)) <$> l) = f <$> l.
Proof. induction l as [|x l IH]; [done|]. unfold released in *. simpl. f_equal. exact IH. Qed.

Lemma acquired_app l k : acquired (l ++ k) = acquired l ++ acquired k.
Proof. apply omap_app. Qed.
Lemma released_app l k : released (l ++ k) = released l ++ released k.
Proof. apply omap_app. Qed.

Lemma Shutdown_releases a :
  tracks a -> acquired (as_events (Plane_Shutdown a)) ≡ₚ released (as_events (Plane_Shutdown a)).
Proof.
  intros [Hr Ha]. unfold Plane_Shutdown. cbn [as_events].
  rw !acquired_app !released_app !acquired_Released !released_Released Hr Ha !app_nil_r. done.
Qed.

Lemma bring_up_one_tracks clock ht a name l e a' :
  tracks a -> bring_up_one clock ht a name l = Some (e, a') -> tracks a'.
Proof.
  unfold bring_up_one. intros Ha. destruct (rt_Launch _ _ _ _) as [[[id ep]|x] rt]; simpl.
  - destruct (waitHealthy _ _ _ _) as [[[x|] rt']|]; simpl; [| |done].
    + intros [= <- <-]. by apply tracks_rt, tracks_instance, tracks_rt.
    + destruct (grpc_NewClient ep); intros [= <- <-];
        [by apply tracks_conn, tracks_rt, tracks_instance, tracks_rt|by apply tracks_rt, tracks_instance, tracks_rt].
  - intros [= <- <-]. by apply tracks_rt.
Qed.

Lemma attach_one_tracks clock cancelled ht a name ep e a' :
  tracks a -> attach_one clock cancelled ht a name ep = Some (e, a') -> tracks a'.
Proof.
  unfold attach_one. intros Ha. destruct (waitEndpoint _ _ _ _) as [[x|]|]; simpl; [by intros [= <- <-]| |done].
  destruct (grpc_NewClient ep); intros [= <- <-]; [by apply tracks_conn|done].
Qed.

Lemma assemble_inv (P : Assembly -> Prop) step i a specs e a' :
  (forall i a s e a', P a -> step i a s = Some (e, a') -> P a') ->
  P a -> assemble step i a specs = Some (e, a') -> P a'.
Proof.
  intros Hs. revert i a. induction specs as [|s specs IH]; intros i a Ha; simpl; [by intros [= <- <-]|].
  destruct (step i a s) as [[[x|] b]|] eqn:E; simpl; [| |done].
  - intros [= <- <-]. by eapply Hs.
  - apply IH. by eapply Hs.
Qed.

Lemma assemble_ends step i a specs :
  (forall i a s, is_Some (step i a s)) -> is_Some (assemble step i a specs).
Proof.
  intros Hs. revert i a. induction specs as [|s specs IH]; intros i a; simpl; [by eexists|].
  destruct (Hs i a s) as [[[x|] b] ->]; simpl; [by eexists|apply IH].
Qed.

(** What the two assembly functions promise of their outcome. *)
Definition no_leak (out : result Plane * Assembly) : Prop :=
  match fst out with
  | Err _ => acquired (as_events (snd out)) ≡ₚ released (as_events (snd out)) /\
             p_instances (as_plane (snd out)) = [] /\ p_conns (as_plane (snd out)) = []
  | Ok p => as_plane (snd out) = p /\ released (as_events (snd out)) = [] /\
      acquired (as_events (snd out)) ≡ₚ (RConn <$> p_conns p) ++ (RInstance <$> p_instances p)
  end.

Lemma finish_no_leak specs descriptors r : tracks (snd r) -> no_leak (finish specs descriptors r).
Proof.
  destruct r as [[e|] a]; intros Ht; unfold finish, build_plane, no_leak.
  - split_and!; [by apply Shutdown_releases|done|done].
  - destruct (New _); [destruct Ht; split_and!; done|split_and!; [by apply Shutdown_releases|done|done]].
Qed.

(** Assembling a plane by launching always ends and never leaks: on clocks that advance by
    the sleep of each round, [BringUp] returns, whatever the runtime answers; when it
    fails, every instance it launched has been terminated and every connection it opened
    has been closed; when it succeeds, the plane lists exactly what it acquired. *)
Theorem BringUp_no_leak clocks ht rt specs descriptors :
  0 <= ht -> (forall i, ticks (50 * milli) (clocks i)) ->
  exists out, BringUp clocks ht rt specs descriptors = Some out /\ no_leak out.
Proof.
  intros Hht Hc. unfold BringUp.
  match goal with |- context [assemble ?step _ _ _] =>
    destruct (assemble_ends step 0 (empty_assembly rt) specs) as [r Hr] end.
  { intros i a s. destruct (sp_Launch s) as [l|]; [|by eexists]. unfold bring_up_one.
    destruct (rt_Launch _ _ _ _) as [[[id ep]|x] rt1]; [|by eexists].
    destruct (waitHealthy_ends (clocks i) (as_rt (acquire_instance (with_rt a rt1) id)) id ht Hht (Hc i))
      as [[[x|] rt2] ->]; simpl; [by eexists|destruct (grpc_NewClient ep); by eexists]. }
  rw Hr. simpl. eexists; split; [done|]. apply finish_no_leak. destruct r as [e a].
  eapply (assemble_inv tracks); [|apply (tracks_empty rt)|exact Hr].
  intros i b s e' b' Hb. simpl. destruct (sp_Launch s); [by apply bring_up_one_tracks|by intros [= <- <-]].
Qed.

(** What [Attach] keeps: it tracks its connections, holds no instance and never touches the
    runtime. *)
Definition attached (rt : R) (a : Assembly) : Prop :=
  tracks a /\ p_instances (as_plane a) = [] /\ as_rt a = rt.

Lemma attach_one_attached clock cancelled ht rt a name ep e a' :
  attached rt a -> attach_one clock cancelled ht a name ep = Some (e, a') -> attached rt a'.
Proof.
  intros (Ha & Hi & Hr) E. split; [by eapply attach_one_tracks|]. revert E. unfold attach_one.
  destruct (waitEndpoint _ _ _ _) as [[x|]|]; simpl; [by intros [= <- <-]| |done].
  by destruct (grpc_NewClient ep); intros [= <- <-].
Qed.

Lemma finish_rt rt specs descriptors r : attached rt (snd r) -> as_rt (snd (finish specs descriptors r)) = rt.
Proof.
  destruct r as [e a]. intros (_ & Hi & Hr). unfold finish, build_plane, fail_with, Plane_Shutdown.
  simpl in *. rw Hi. destruct e; [done|]. by destruct (New _).
Qed.

(** Attaching to running plugins always ends and never leaks a connection, and it never
    launches, probes or terminates anything: the runtime comes out as it went in. *)
Theorem Attach_no_leak clocks cancelled ht rt specs descriptors :
  0 <= ht -> (forall i, ticks (100 * milli) (clocks i)) ->
  exists out, Attach clocks cancelled ht rt specs descriptors = Some out /\ no_leak out /\
    as_rt (snd out) = rt.
Proof.
  intros Hht Hc. unfold Attach.
  match goal with |- context [assemble ?step _ _ _] =>
    destruct (assemble_ends step 0 (empty_assembly rt) specs) as [r Hr] end.
  { intros i a s. destruct (decide _); [by eexists|]. unfold attach_one.
    destruct (waitEndpoint_ends (clocks i) (cancelled i) (sp_Endpoint s) ht Hht (Hc i)) as [[x|] ->];
      simpl; [by eexists|destruct (grpc_NewClient (sp_Endpoint s)); by eexists]. }
  assert (attached rt (snd r)) as Hat.
  { destruct r as [e a]. eapply (assemble_inv (attached rt)); [|by split; [apply tracks_empty|]|exact Hr].
    intros i b s e' b' Hb. simpl. destruct (decide _); [by intros [= <- <-]|by apply attach_one_attached]. }
  rw Hr. simpl. eexists; split; [done|]. split; [apply finish_no_leak, Hat|by apply finish_rt].
Qed.

(** The gateway of an attached plane requires no token. *)
Lemma Attach_gateway clocks cancelled ht rt specs descriptors p a :
  Attach clocks cancelled ht rt specs descriptors = Some (Ok p, a) -> forall g, p_Gateway p = Some g -> requireAuth g = false.
Proof.
  unfold Attach. destruct (assemble _ _ _ _) as [[[e|] b]|]; [done| |done]. cbn [mbind option_bind finish]. unfold build_plane.
  destruct (New _) as [r|]; [|done]. intros [= <- _] g [= <-]. done.
Qed.

(** A wait that nobody cancels fails only on a probe that was refused, after the deadline. *)
Lemma waitEndpoint_refused clock addr timeout e :
  waitEndpoint clock (fun _ => None) addr timeout = Some (Some e) ->
  exists i, dial_endpoint addr i = Some e /\ clock 0%nat + timeout < clock (S i).
Proof.
  unfold waitEndpoint. generalize (wait_fuel timeout (100 * milli)) as fuel. generalize 0%nat at 1 as i.
  intros i fuel. revert i. induction fuel as [|fuel IH]; intros i; [done|]. cbn [waitEndpoint_loop].
  destruct (dial_endpoint addr i) as [err|] eqn:Ed; [|done].
  destruct (Z.ltb_spec (clock 0%nat + timeout) (clock (S i))); [intros [= <-]; by exists i|]. apply IH.
Qed.

(** Why a plane cannot be attached to: the endpoint of a spec refused its last probe, after the
    deadline, or could not be dialled. *)
Definition unattachable (clocks : nat -> nat -> Z) (ht : Z) (specs : list (PluginSpec LaunchSpec)) (e : error) : Prop :=
  exists s, s ∈ specs /\ sp_Endpoint s <> "" /\
    ((exists k i err, dial_endpoint (sp_Endpoint s) i = Some err /\ clocks k 0%nat + ht < clocks k (S i) /\
        e = Wrap "plugin %q endpoint %s never became reachable: %w" [name_of (sp_Manifest s); sp_Endpoint s] err) \/
     (exists err, grpc_NewClient (sp_Endpoint s) = Err err /\
        e = Wrap "dial %q at %s: %w" [name_of (sp_Manifest s); sp_Endpoint s] err)).

Lemma attach_loop clocks ht specs : forall i a,
  0 <= ht -> (forall i, ticks (100 * milli) (clocks i)) -> NoDup ((fun s => name_of (sp_Manifest s)) <$> specs) ->
  exists e a', assemble (fun i a s =>
        if decide (sp_Endpoint s = "") then Some (None, a)
        else attach_one (clocks i) (fun _ => None) ht a (name_of (sp_Manifest s)) (sp_Endpoint s)) i a specs = Some (e, a') /\
  match e with
  | Some e => unattachable clocks ht specs e
  | None => (forall n, n ∉ ((fun s => name_of (sp_Manifest s)) <$> specs) -> as_providers a' !! n = as_providers a !! n) /\
      forall s, s ∈ specs -> sp_Endpoint s <> "" -> exists c, grpc_NewClient (sp_Endpoint s) = Ok c /\
        as_providers a' !! name_of (sp_Manifest s) = Some (Some c)
  end.
Proof.
  induction specs as [|s specs IH]; intros i a Hht Hc Hnd; cbn [assemble].
  { eexists _, _. split; [done|]. split; [done|]. intros s Hs. by apply not_elem_of_nil in Hs. }
  rewrite fmap_cons in Hnd. apply NoDup_cons in Hnd as [Hs Hnd].
  assert (forall e, unattachable clocks ht specs e -> unattachable clocks ht (s :: specs) e) as Hlater.
  { intros e (x & Hx & H1). exists x. split; [by right|done]. }
  destruct (decide (sp_Endpoint s = "")) as [He|He]; cbn [mbind option_bind].
  - destruct (IH (S i) a Hht Hc Hnd) as (e & a' & -> & H1). eexists _, _. split; [done|]. destruct e; [by apply Hlater|].
    destruct H1 as [H1 H2]. split; [intros n [_ Hn]%not_elem_of_cons; by apply H1|].
    intros x [->|Hx]%elem_of_cons Hne; [done|by apply H2].
  - destruct (waitEndpoint_ends (clocks i) (fun _ => None) (sp_Endpoint s) ht Hht (Hc i)) as [[err|] Ew].
    { assert (attach_one (clocks i) (fun _ => None) ht a (name_of (sp_Manifest s)) (sp_Endpoint s) =
        Some (Some (Wrap "plugin %q endpoint %s never became reachable: %w" [name_of (sp_Manifest s); sp_Endpoint s] err), a)) as ->
        by (unfold attach_one; by rewrite Ew). cbn [mbind option_bind]. eexists _, _. split; [done|]. apply waitEndpoint_refused in Ew as (j & Hd & Hl). exists s. split_and!; [by left|done|].
      left. by exists i, j, err. }
    assert (attach_one (clocks i) (fun _ => None) ht a (name_of (sp_Manifest s)) (sp_Endpoint s) =
      Some match grpc_NewClient (sp_Endpoint s) with
           | Err e => (Some (Wrap "dial %q at %s: %w" [name_of (sp_Manifest s); sp_Endpoint s] e), a)
           | Ok c => (None, acquire_conn a (name_of (sp_Manifest s)) c)
           end) as -> by (unfold attach_one; by rewrite Ew).
    destruct (grpc_NewClient (sp_Endpoint s)) as [c|err] eqn:Ed.
    2:{ eexists _, _. split; [done|]. exists s. split_and!; [by left|done|]. right. by exists err. }
    cbn [mbind option_bind]. destruct (IH (S i) (acquire_conn a (name_of (sp_Manifest s)) c) Hht Hc Hnd) as (e & a' & -> & H1).
    eexists _, _. split; [done|]. destruct e; [by apply Hlater|]. destruct H1 as [H1 H2]. cbn [acquire_conn as_providers] in H1. split.
    + intros n [Hn1 Hn2]%not_elem_of_cons. rewrite (H1 n Hn2). by rewrite lookup_insert_ne.
    + intros x [->|Hx]%elem_of_cons Hne; [|by apply H2]. exists c. split; [done|]. rewrite (H1 _ Hs). by rewrite lookup_insert_eq.
Qed.

(** Attaching to a plane with distinct names ends: with the gateway over the registry of its
    manifests and a connection to every endpoint, or because an endpoint cannot be reached. *)
Lemma Attach_outcome clocks ht rt specs descriptors r :
  0 <= ht -> (forall i, ticks (100 * milli) (clocks i)) -> NoDup ((fun s => name_of (sp_Manifest s)) <$> specs) ->
  New (sp_Manifest <$> specs) = Ok r ->
  exists p a, Attach clocks (fun _ _ => None) ht rt specs descriptors = Some (p, a) /\
  match p with
  | Err e => unattachable clocks ht specs e
  | Ok p => exists g, p_Gateway p = Some g /\ p_Registry p = Some r /\ reg g = r /\ requireAuth g = false /\
      forall s, s ∈ specs -> sp_Endpoint s <> "" -> exists c, grpc_NewClient (sp_Endpoint s) = Ok c /\
        g_providers g !! name_of (sp_Manifest s) = Some (Some c)
  end.
Proof.
  intros Hht Hc Hnd Hr. unfold Attach. destruct (attach_loop clocks ht specs 0 (empty_assembly rt) Hht Hc Hnd) as (e & a & -> & H1).
  cbn [mbind option_bind finish]. destruct e as [e|]; [by eexists _, _|]. unfold build_plane. rewrite Hr.
  eexists _, _. split; [done|]. cbn [p_Gateway p_Registry]. eexists. split_and!; [done..|]. apply H1.
Qed.
End Supervisor.

(** ** Witnesses *)

(** A runtime whose second instance never becomes healthy; it counts its calls. *)
#[local] Instance wobbly_runtime : DeploymentRuntime nat unit := {
  rt_Launch n _ name _ := (Ok (name, "127.0.0.1:1"), S n);
  rt_Healthcheck n _ id := (Ok (if decide (id = "plugin-b") then HEALTH_UNKNOWN else HEALTHY), n);
  rt_Terminate n _ _ := n;
}.
Definition demo_specs : list (PluginSpec unit) :=
  [mkSpec (toy_manifest "plugin-a") (Some tt) "127.0.0.1:1"; mkSpec (toy_manifest "plugin-b") (Some tt) "127.0.0.1:2"].
Definition demo_clocks (step : Z) (_ i : nat) : Z := step * Z.of_nat i.

Lemma demo_clocks_tick step i : 0 <= step -> ticks step (demo_clocks step i).
Proof. unfold ticks, demo_clocks. intros H j. lia. Qed.

Lemma BringUp_no_leak_witness :
  exists out, BringUp (fun ep => Ok ep) (demo_clocks (50 * milli)) (200 * milli) 0%nat demo_specs [] = Some out /\
    no_leak out.
Proof.
  apply (BringUp_no_leak (fun ep => Ok ep)); [unfold milli; lia|].
  intros i. apply demo_clocks_tick. unfold milli; lia.
Defined.

Lemma Attach_no_leak_witness :
  exists out, Attach (fun ep => Ok ep) (fun _ i => if (i =? 2)%nat then None else Some (Errorf "refused" []))
    (demo_clocks (100 * milli)) (fun _ _ => None) (500 * milli) 0%nat demo_specs [] = Some out /\
    no_leak out /\ as_rt (snd out) = 0%nat.
Proof.
  apply (Attach_no_leak (fun ep => Ok ep)); [unfold milli; lia|].
  intros i. apply demo_clocks_tick. unfold milli; lia.
Defined.
