(* ===== verification/Plane.v ===== *)
(** Loading a plane (src/core/cmd/rat/plane.go): environment references, instance ids,
    isolation profiles, and the validation that turns a parsed plane file into the specs
    the supervisor brings up. *)
From S2P Require Import Prelude Paths Manifest Registry CallContext Gateway Reconciler DeployRuntime Supervisor.

Definition defaultAddr : string := "0.0.0.0:7777".
Definition defaultRuntime : string := "local".
Definition defaultHealthTimeout : Z := 10 * 1000000000.

Record rawLaunch := mkRawLaunch {
  rl_Image : string;
  rl_Isolation : string;
  rl_Env : gmap string string;
}.
Record rawPlugin := mkRawPlugin {
  rpl_Name : string;
  rpl_Manifest : string;
  rpl_Launch : option rawLaunch;
  rpl_Endpoint : string;
}.
Record rawPlane := mkRawPlane {
  rp_Name : string;
  rp_Addr : string;
  rp_Runtime : string;
  rp_HealthTimeout : string;
  rp_Plugins : list rawPlugin;
}.

Record LoadedPlane := mkLoadedPlane {
  pl_Instance : string;
  pl_Addr : string;
  pl_Runtime : string;
  pl_HealthTimeout : Z;
  pl_Specs : list (PluginSpec LaunchSpec);
}.

Definition orDefault (v def : string) : string := if decide (v = "") then def else v.

(** ** Instance ids *)

Definition instance_byte (c : ascii) : ascii :=
  if is_lower c || is_digit c || bool_decide (c = "-"%char) || bool_decide (c = "_"%char) then c
  else if is_upper c then lower_byte c
  else "-"%char.

(** [strings.Trim] with a one-byte cutset. *)
Fixpoint TrimLeftByte (c : ascii) (s : string) : string :=
  match s with
  | String a s' => if decide (a = c) then TrimLeftByte c s' else s
  | "" => ""
  end.
Definition TrimByte (c : ascii) (s : string) : string :=
  str_rev (TrimLeftByte c (str_rev (TrimLeftByte c s))).

Definition instanceID (name : string) : string :=
  let s := TrimByte "-" (str_map instance_byte name) in
  if decide (s = "") then "rat" else s.

Definition isolationProfile (name : string) : result IsolationProfile :=
  if decide (name = "" \/ name = "i9") then Ok (mkIsolation true true true true true "RuntimeDefault")
  else Err (Errorf ("unknown isolation profile %q (only " +:+ dq +:+ "i9" +:+ dq +:+ " is supported in v1)") [name]).

Section Plane.
(** [os.LookupEnv]; the YAML decoder, the file system, [time.ParseDuration] and the
    working directory. *)
Context (LookupEnv : string -> option string).
Context (yaml_Manifest : string -> result Manifest) (yaml_Plane : string -> result rawPlane).
Context (os_ReadFile : string -> result string).
Context (ParseDuration : string -> result Z).
Context (cwd : string).

(** ** Environment references *)

(** The scanning loop; [skip] is how many bytes the index has already been moved past. *)
Fixpoint expand_from (whole : string) (skip : nat) (s : string) : result string :=
  match s with
  | "" => Ok ""
  | String a s' =>
      match skip with
      | S k => expand_from whole k s'
      | O =>
          if bool_decide (a = "$"%char) && HasPrefix s' "${" then
            let? r := expand_from whole 2 s' in Ok ("${" +:+ r)
          else if HasPrefix s "${" then
            let tail := str_drop 2 s in
            let end_ := IndexByte tail "}" in
            if end_ <? 0 then Err (Errorf "unterminated ${ in %q" [whole])
            else
              let name := String.substring 0 (Z.to_nat end_) tail in
              match LookupEnv name with
              | None => Err (Errorf "undefined env var ${%s} (ADR-050: export it, or `set -a; . ./.env; set +a` next to the plane first)" [name])
              | Some v => let? r := expand_from whole (2 + Z.to_nat end_) s' in Ok (v +:+ r)
              end
          else let? r := expand_from whole 0 s' in Ok (String a r)
      end
  end.

Definition expandEnvRefs (s : string) : result string :=
  if Contains s "${" then expand_from s 0 s else Ok s.

Definition resolve (dir path : string) : string :=
  if IsAbs path then path else filepath_Join [dir; path].

Definition absPath (path : string) : string :=
  if IsAbs path then Clean path else filepath_Join [cwd; path].

(** ** Validation *)

(** Each value of the environment is expanded, in the order the map is ranged over. *)
Definition expand_env (env : gmap string string) : result (list (string * string)) :=
  result_map (fun kv => match expandEnvRefs kv.2 with
                        | Err e => Err (Wrap "launch.env[%s]: %w" [kv.1] e)
                        | Ok v => Ok (kv.1, v)
                        end) (map_to_list env).

Definition launch_spec (runtime dir : string) (l : rawLaunch) : result LaunchSpec :=
  if decide (rl_Image l = "") then Err (Errorf "launch.image is required" [])
  else
    let? iso := isolationProfile (rl_Isolation l) in
    let? image := match expandEnvRefs (rl_Image l) with
                  | Err e => Err (Wrap "launch.image: %w" [] e)
                  | Ok i => Ok i
                  end in
    let image := if decide (runtime = "local") then resolve dir image else image in
    let? env := expand_env (rl_Env l) in
    Ok (mkLaunch image (Some iso) env).

Definition Plane_specFor (runtime dir : string) (rpl : rawPlugin) : result (PluginSpec LaunchSpec) :=
  if decide (rpl_Name rpl = "") then Err (Errorf "missing name" [])
  else if decide (rpl_Manifest rpl = "") then Err (Errorf "missing manifest" [])
  else if bool_decide (is_Some (rpl_Launch rpl)) && negb (bool_decide (rpl_Endpoint rpl = "")) then
    Err (Errorf "has both launch: and endpoint: — at most one" [])
  else
    let? m := Load yaml_Manifest os_ReadFile (resolve dir (rpl_Manifest rpl)) in
    if decide (name_of m = rpl_Name rpl) then
      if decide (rpl_Endpoint rpl = "") then
        match rpl_Launch rpl with
        | Some l => let? spec := launch_spec runtime dir l in Ok (mkSpec m (Some spec) "")
        | None => Ok (mkSpec m None "")
        end
      else match expandEnvRefs (rpl_Endpoint rpl) with
           | Err e => Err (Wrap "endpoint: %w" [] e)
           | Ok ep => Ok (mkSpec m None ep)
           end
    else Err (Errorf "name %q != manifest metadata.name %q" [rpl_Name rpl; name_of m]).

Fixpoint specs_from (runtime dir path : string) (i : Z) (l : list rawPlugin) : result (list (PluginSpec LaunchSpec)) :=
  match l with
  | [] => Ok []
  | rpl :: l =>
      match Plane_specFor runtime dir rpl with
      | Err e => Err (Wrap "plane %s: plugins[%d] (%q): %w" [path; itoa i; rpl_Name rpl] e)
      | Ok s => let? ss := specs_from runtime dir path (i + 1) l in Ok (s :: ss)
      end
  end.

Definition planeFromRaw (rp : rawPlane) (path : string) : result LoadedPlane :=
  match expandEnvRefs (orDefault (rp_Addr rp) defaultAddr) with
  | Err e => Err (Wrap "plane %s: addr: %w" [path] e)
  | Ok addr =>
      let inst := instanceID (orDefault (rp_Name rp) (Base (Dir (absPath path)))) in
      let runtime := orDefault (rp_Runtime rp) defaultRuntime in
      match (if decide (rp_HealthTimeout rp = "") then Ok defaultHealthTimeout
             else ParseDuration (rp_HealthTimeout rp)) with
      | Err e => Err (Wrap "plane %s: health_timeout %q: %w" [path; rp_HealthTimeout rp] e)
      | Ok ht =>
          if decide (runtime <> "local" /\ runtime <> "podman")
          then Err (Errorf ("plane %s: runtime %q must be " +:+ dq +:+ "local" +:+ dq +:+ " or " +:+ dq +:+ "podman" +:+ dq) [path; runtime])
          else if decide (rp_Plugins rp = []) then Err (Errorf "plane %s: no plugins declared" [path])
          else
            let? specs := specs_from runtime (Dir path) path 0 (rp_Plugins rp) in
            Ok (mkLoadedPlane inst addr runtime ht specs)
      end
  end.

Definition LoadPlane (path : string) : result LoadedPlane :=
  match os_ReadFile path with
  | Err e => Err (Wrap "read plane %s: %w" [path] e)
  | Ok data => match yaml_Plane data with
               | Err e => Err (Wrap "parse plane %s: %w" [path] e)
               | Ok rp => planeFromRaw rp path
               end
  end.

(** ** Escaping *)

(** The inverse of the escape: a dollar doubled in front of every brace it precedes. *)
Fixpoint escapeRefs (s : string) : string :=
  match s with
  | "" => ""
  | String a s' =>
      if bool_decide (a = "$"%char) && HasPrefix s' "{" then "$$" +:+ escapeRefs s' else String a (escapeRefs s')
  end.

Lemma HasPrefix_nil s : HasPrefix s "" = true.
Proof. by destruct s. Qed.

Lemma escapeRefs_brace s : HasPrefix (escapeRefs s) "{" = HasPrefix s "{".
Proof.
  destruct s as [|a s]; [done|]. cbn [escapeRefs].
  destruct (bool_decide (a = "$"%char)) eqn:Ea; cbn [andb].
  - bool_to_prop. subst a. by destruct (HasPrefix s "{").
  - by rewrite !HasPrefix_cons !HasPrefix_nil.
Qed.

Lemma escapeRefs_no_ref s : HasPrefix (escapeRefs s) "${" = false.
Proof.
  destruct s as [|a s]; [done|]. cbn [escapeRefs].
  destruct (bool_decide (a = "$"%char) && HasPrefix s "{") eqn:E; [done|].
  rewrite HasPrefix_cons. rewrite escapeRefs_brace. exact E.
Qed.

Lemma escapeRefs_plain s : Contains (escapeRefs s) "${" = false -> escapeRefs s = s.
Proof.
  induction s as [|a s IH]; [done|]. cbn [escapeRefs].
  destruct (bool_decide (a = "$"%char) && HasPrefix s "{") eqn:E.
  - intros H. exfalso. apply andb_true_iff in E as [_ Hb]. rewrite -escapeRefs_brace in Hb.
    apply HasPrefix_true in Hb as [r Hr]. rewrite Hr in H. simpl in H.
    change (HasPrefix (String "$" (String "{" r)) "${") with (HasPrefix ("${" +:+ r) "${") in H.
    rewrite HasPrefix_app in H. discriminate H.
  - simpl. rewrite orb_false_iff. intros [_ H]. by rewrite IH.
Qed.

Lemma expand_escaped whole t :
  expand_from whole 0 ("$$" +:+ String "{" t) = (let? r := expand_from whole 0 t in Ok ("${" +:+ r)).
Proof.
  change (expand_from whole 0 ("$$" +:+ String "{" t))
    with (if bool_decide ("$"%char = "$"%char) && HasPrefix ("${" +:+ t) "${" then
            let? r := expand_from whole 2 ("${" +:+ t) in Ok ("${" +:+ r)
          else if HasPrefix ("$$" +:+ String "{" t) "${" then Err (Errorf "" [])
          else let? r := expand_from whole 0 ("${" +:+ t) in Ok (String "$" r)).
  by rewrite HasPrefix_app.
Qed.

Lemma expand_escape whole s : expand_from whole 0 (escapeRefs s) = Ok s.
Proof.
  remember (String.length s) as n eqn:Hn. revert s Hn. induction n as [n IH] using lt_wf_ind.
  intros [|a s] ->; [done|]. cbn [escapeRefs].
  destruct (bool_decide (a = "$"%char) && HasPrefix s "{") eqn:E.
  - apply andb_true_iff in E as [Ea Hb]. bool_to_prop. subst a.
    apply HasPrefix_true in Hb as [r ->].
    change (escapeRefs ("{" +:+ r)) with (String "{" (escapeRefs r)).
    rewrite expand_escaped (IH (String.length r)); [done| |done]. simpl String.length. rewrite ?str_length_app. simpl. lia.
  - assert (expand_from whole 0 (String a (escapeRefs s)) =
            (let? r := expand_from whole 0 (escapeRefs s) in Ok (String a r))) as ->.
    { cbn [expand_from]. rewrite escapeRefs_no_ref andb_false_r HasPrefix_cons escapeRefs_brace.
      by rewrite E. }
    rewrite (IH (String.length s)); [done| |done]. simpl. lia.
Qed.

(** Every text can be written in a plane file: escaping a string and expanding it gives
    the string back, whatever the environment holds. *)
Theorem expandEnvRefs_escape (s : string) : expandEnvRefs (escapeRefs s) = Ok s.
Proof.
  unfold expandEnvRefs. destruct (Contains _ _) eqn:E; [apply expand_escape|].
  by rewrite escapeRefs_plain.
Qed.

(** ** What a loaded plane guarantees *)

Definition full_profile (l : LaunchSpec) : Prop :=
  ls_Isolation l = Some (mkIsolation true true true true true "RuntimeDefault").

(** What an entry of the plane file becomes: the manifest loaded from the very path it names,
    relative to the directory of the plane file; and its launch, its endpoint, or neither, with
    the references in them expanded. *)
Definition spec_ok (runtime dir : string) (rpl : rawPlugin) (s : PluginSpec LaunchSpec) : Prop :=
  rpl_Name rpl <> "" /\ rpl_Manifest rpl <> "" /\
  Load yaml_Manifest os_ReadFile
    (if IsAbs (rpl_Manifest rpl) then rpl_Manifest rpl else filepath_Join [dir; rpl_Manifest rpl]) = Ok (sp_Manifest s) /\
  md_Name (Meta (sp_Manifest s)) = rpl_Name rpl /\ manifest_valid (sp_Manifest s) /\
  match rpl_Launch rpl with
  | Some l => rpl_Endpoint rpl = "" /\ sp_Endpoint s = "" /\ rl_Image l <> "" /\
      exists image env, expandEnvRefs (rl_Image l) = Ok image /\
        Forall2 (fun kv kv' => kv'.1 = kv.1 /\ expandEnvRefs kv.2 = Ok kv'.2) (map_to_list (rl_Env l)) env /\
        sp_Launch s = Some (mkLaunch (if bool_decide (runtime = "local") && negb (IsAbs image) then filepath_Join [dir; image] else image)
                              (Some (mkIsolation true true true true true "RuntimeDefault")) env)
  | None => sp_Launch s = None /\
      (if decide (rpl_Endpoint rpl = "") then sp_Endpoint s = "" else expandEnvRefs (rpl_Endpoint rpl) = Ok (sp_Endpoint s))
  end.

Lemma full_profile_gate l : full_profile l -> ls_Image l <> "" -> checkI9Minimum l = None.
Proof. unfold full_profile, checkI9Minimum, iso_flag. intros -> Hi. by rw decide_False. Qed.

Lemma expand_env_each env l :
  expand_env env = Ok l -> Forall2 (fun kv kv' => kv'.1 = kv.1 /\ expandEnvRefs kv.2 = Ok kv'.2) (map_to_list env) l.
Proof.
  unfold expand_env. generalize (map_to_list env) as kvs. clear env. intros kvs. revert l.
  induction kvs as [|kv kvs IH]; intros l; simpl; [by intros [= <-]|].
  destruct (expandEnvRefs kv.2) as [v|] eqn:E; [|done]. simpl. destruct (result_map _ _) as [l'|]; [|done]. intros [= <-].
  constructor; [done|by apply IH].
Qed.

Lemma launch_spec_made runtime dir l spec : launch_spec runtime dir l = Ok spec ->
  rl_Image l <> "" /\ exists image env, expandEnvRefs (rl_Image l) = Ok image /\
    Forall2 (fun kv kv' => kv'.1 = kv.1 /\ expandEnvRefs kv.2 = Ok kv'.2) (map_to_list (rl_Env l)) env /\
    spec = mkLaunch (if bool_decide (runtime = "local") && negb (IsAbs image) then filepath_Join [dir; image] else image)
             (Some (mkIsolation true true true true true "RuntimeDefault")) env.
Proof.
  unfold launch_spec. case_decide as Hi; [done|]. unfold isolationProfile. case_decide; [|done]. simpl.
  destruct (expandEnvRefs (rl_Image l)) as [image|]; [|done]. simpl. destruct (expand_env _) as [env|] eqn:Ee; [|done]. intros [= <-].
  split; [done|]. exists image, env. split; [done|]. split; [by apply expand_env_each|]. f_equal. unfold resolve.
  destruct (decide (runtime = "local")) as [->|Hr]; [|by rewrite bool_decide_eq_false_2].
  rewrite bool_decide_eq_true_2 //. by destruct (IsAbs image).
Qed.

Lemma Load_valid path m : Load yaml_Manifest os_ReadFile path = Ok m -> manifest_valid m.
Proof.
  unfold Load, Parse. destruct (os_ReadFile path) as [d|]; [|done].
  destruct (yaml_Manifest d) as [m'|]; [|done]. destruct (Manifest_Validate m') eqn:E; [done|].
  intros [= <-]. by apply manifest_valid_set_Path, Manifest_Validate_None.
Qed.

Lemma Plane_specFor_ok runtime dir rpl s : Plane_specFor runtime dir rpl = Ok s -> spec_ok runtime dir rpl s.
Proof.
  unfold Plane_specFor, spec_ok. case_decide as Hn; [done|]. case_decide as Hm; [done|].
  destruct (bool_decide _ && _) eqn:Eb; [done|]. fold (resolve dir (rpl_Manifest rpl)).
  destruct (Load _ _ _) as [m|] eqn:El; [|done]. simpl. destruct (decide (name_of m = _)) as [Hname|]; [|done].
  pose proof (Load_valid _ _ El) as Hv. destruct (decide (rpl_Endpoint rpl = "")) as [He|He].
  - destruct (rpl_Launch rpl) as [l|] eqn:Er; [|by intros [= <-]].
    destruct (launch_spec _ _ _) as [sp|] eqn:Es; [|done]. simpl. intros [= <-].
    apply launch_spec_made in Es as (Hi & image & env & Ei & Ee & ->). split_and!; [done..|]. by exists image, env.
  - destruct (expandEnvRefs _) as [ep|] eqn:Ee; [|done]. intros [= <-]. split_and!; [done..|].
    destruct (rpl_Launch rpl); [|done]. exfalso. rewrite bool_decide_true in Eb; [|by eexists].
    rewrite bool_decide_false in Eb; done.
Qed.

Lemma specs_from_ok runtime dir path i l ss :
  specs_from runtime dir path i l = Ok ss -> Forall2 (spec_ok runtime dir) l ss.
Proof.
  revert i ss. induction l as [|rpl l IH]; intros i ss; simpl; [by intros [= <-]|].
  destruct (Plane_specFor _ _ _) as [s|] eqn:Es; [|done].
  destruct (specs_from _ _ _ _ _) as [ss'|] eqn:Er; [|done]. intros [= <-].
  constructor; [by eapply Plane_specFor_ok|by eapply IH].
Qed.

Lemma planeFromRaw_made (rp : rawPlane) (path : string) (pl : LoadedPlane) :
  planeFromRaw rp path = Ok pl ->
  pl_Runtime pl = (if decide (rp_Runtime rp = "") then "local" else rp_Runtime rp) /\
  (pl_Runtime pl = "local" \/ pl_Runtime pl = "podman") /\
  expandEnvRefs (if decide (rp_Addr rp = "") then "0.0.0.0:7777" else rp_Addr rp) = Ok (pl_Addr pl) /\
  (if decide (rp_HealthTimeout rp = "") then pl_HealthTimeout pl = 10000000000
   else ParseDuration (rp_HealthTimeout rp) = Ok (pl_HealthTimeout pl)) /\
  pl_Specs pl <> [] /\ Forall2 (spec_ok (pl_Runtime pl) (Dir path)) (rp_Plugins rp) (pl_Specs pl).
Proof.
  unfold planeFromRaw. fold (orDefault (rp_Addr rp) "0.0.0.0:7777"). destruct (expandEnvRefs _) as [addr|] eqn:Ea; [|done].
  destruct (if decide (rp_HealthTimeout rp = "") then _ else _) as [ht|] eqn:Eh; [|done].
  destruct (decide (_ <> "local" /\ _)) as [|Hr]; [done|]. destruct (decide (rp_Plugins rp = [])) as [|Hp]; [done|].
  destruct (specs_from _ _ _ _ _) as [ss|] eqn:Es; [|done]. intros [= <-]. simpl.
  apply specs_from_ok in Es. split_and!; [done| |done| |by intros ->; inversion Es|done].
  - destruct (decide (orDefault (rp_Runtime rp) defaultRuntime = "local")); [by left|].
    destruct (decide (orDefault (rp_Runtime rp) defaultRuntime = "podman")); [by right|]. tauto.
  - destruct (decide (rp_HealthTimeout rp = "")); [by injection Eh as <-|done].
Qed.

(** C40: A plane that loads is what its file says.  Its runtime is the one named, or local, and is
    supported; its address is the one given or the default, expanded, and its health timeout
    the one given or ten seconds; it has one spec for each entry, in order, and at least one.
    Each entry got the manifest that is loaded, valid, from the path the entry names, relative
    to the plane file unless absolute, and has the name it declares.  An entry that launches
    is not also attached: its image, expanded and, for the local runtime, resolved against
    the plane's directory, and its environment with every value expanded, are launched with
    the full isolation profile, which the runtimes' trust gate can only refuse for an image
    that expanded to nothing; an entry that attaches has its endpoint expanded; any other is
    only registered. *)
Theorem planeFromRaw_sound (rp : rawPlane) (path : string) (pl : LoadedPlane) :
  planeFromRaw rp path = Ok pl ->
  pl_Runtime pl = (if decide (rp_Runtime rp = "") then "local" else rp_Runtime rp) /\
  (pl_Runtime pl = "local" \/ pl_Runtime pl = "podman") /\
  expandEnvRefs (if decide (rp_Addr rp = "") then "0.0.0.0:7777" else rp_Addr rp) = Ok (pl_Addr pl) /\
  (if decide (rp_HealthTimeout rp = "") then pl_HealthTimeout pl = 10000000000
   else ParseDuration (rp_HealthTimeout rp) = Ok (pl_HealthTimeout pl)) /\
  pl_Specs pl <> [] /\ Forall2 (spec_ok (pl_Runtime pl) (Dir path)) (rp_Plugins rp) (pl_Specs pl) /\
  forall s l, s ∈ pl_Specs pl -> sp_Launch s = Some l -> ls_Image l <> "" -> checkI9Minimum l = None.
Proof.
  intros H. destruct (planeFromRaw_made rp path pl H) as (H1 & H2 & H3 & H4 & H5 & H6). split_and!; try done.
  intros s l Hs Hl Hi. apply list_elem_of_lookup in Hs as [i Hs].
  destruct (Forall2_lookup_r _ _ _ _ _ H6 Hs) as (rpl & _ & _ & _ & _ & _ & _ & Hk).
  apply full_profile_gate; [|done]. destruct (rpl_Launch rpl) as [rl|]; [|destruct Hk as [E _]; congruence].
  destruct Hk as (_ & _ & _ & image & env & _ & _ & E). rewrite E in Hl. by injection Hl as <-.
Qed.
End Plane.

(** ** Container names *)

Lemma str_forall_TrimLeftByte P c s : str_forall P s = true -> str_forall P (TrimLeftByte c s) = true.
Proof.
  induction s as [|a s IH]; [done|]. simpl. intros [Ha Hs]%andb_true_iff. case_decide; [by apply IH|].
  simpl. by rw Ha Hs.
Qed.

Lemma instance_byte_legal a : name_byte (instance_byte a) = true.
Proof. destruct a as [[] [] [] [] [] [] [] []]; vm_compute; reflexivity. Qed.

Lemma instanceID_bytes name : str_forall name_byte (instanceID name) = true.
Proof.
  unfold instanceID. case_decide; [done|]. unfold TrimByte. rewrite str_forall_rev.
  apply str_forall_TrimLeftByte. rewrite str_forall_rev. apply str_forall_TrimLeftByte.
  apply str_forall_map, instance_byte_legal.
Qed.

(** The container names of a plane are always legal podman names: whatever the plane is
    called, whatever the plugin is called, and whatever the sequence number. *)
Theorem plane_container_names_legal (name pluginID : string) (n : Z) :
  podman_name (containerName (instanceID name) pluginID n).
Proof. apply containerName_legal, instanceID_bytes. Qed.

(** ** At a concrete plane *)

Definition demo_raw_plane : rawPlane :=
  mkRawPlane "Lab" "" "podman" ""
    [mkRawPlugin "duck" "manifests/duck.yaml" (Some (mkRawLaunch "rat/duck:1" "" {["DSN" := "${DSN}"]})) "";
     mkRawPlugin "cli" "manifests/cli.yaml" None ""].
Definition demo_getenv (k : string) : option string := if decide (k = "DSN") then Some "pg://db" else None.
Definition demo_files (p : string) : result string :=
  if decide (p = "/lab/manifests/duck.yaml") then Ok "duck" else Ok "cli".

Lemma planeFromRaw_sound_witness :
  exists pl,
    planeFromRaw demo_getenv (fun d => Ok (toy_manifest d)) demo_files (fun _ => Ok 0) "/" demo_raw_plane "/lab/plane.yaml" = Ok pl /\
    pl_Instance pl = "lab" /\ (ls_Env <$> (head (pl_Specs pl) ≫= sp_Launch)) = Some [("DSN", "pg://db")] /\
    (pl_Runtime pl = "local" \/ pl_Runtime pl = "podman") /\ pl_Specs pl <> [] /\
    Forall2 (spec_ok demo_getenv (fun d => Ok (toy_manifest d)) demo_files (pl_Runtime pl) "/lab") (rp_Plugins demo_raw_plane) (pl_Specs pl).
Proof.
  eexists. split; [vm_compute; reflexivity|]. split; [reflexivity|]. split; [reflexivity|].
  edestruct (planeFromRaw_sound demo_getenv (fun d => Ok (toy_manifest d)) (fun _ => Ok demo_raw_plane)
           demo_files (fun _ => Ok 0) "/" demo_raw_plane "/lab/plane.yaml") as (_ & H1 & _ & _ & H2 & H3 & _).
  - vm_compute. reflexivity.
  - split; [exact H1|]. split; [exact H2|exact H3].
Defined.
