(* ===== verification/Rewire.v ===== *)
(** The seam between the reconciler and the gateway (src/core/cmd/rat/rewire.go): each
    bind and unbind notification re-dials, swaps the provider connection, and closes the
    connection it replaces. *)
From S2P Require Import Prelude Registry CallContext Gateway Reconciler.

Section Rewire.
Context {Conn : Type}.
(** The outcome of the [n]-th dial; the transport is third-party. *)
Context (grpc_NewClient : nat -> string -> result Conn).

(** [rw_opened] and [rw_closed] are ghost. *)
Record gatewayRewire := mkRewire {
  rw_conns : gmap string Conn;
  rw_dials : nat;
  rw_opened : list Conn;
  rw_closed : list Conn;
}.
Definition newGatewayRewire : gatewayRewire := mkRewire ∅ 0 [] [].

Notation wired := (Gateway (Conn := Conn) * gatewayRewire)%type.

Definition gatewayRewire_Bind (w : wired) (name endpoint : string) : wired :=
  let '(g, rw) := w in
  match grpc_NewClient (rw_dials rw) endpoint with
  | Err _ => (g, mkRewire (rw_conns rw) (S (rw_dials rw)) (rw_opened rw) (rw_closed rw))
  | Ok conn =>
      let '(prev, g) := Gateway_SetProvider g name (Some conn) in
      (g, mkRewire (<[name := conn]> (rw_conns rw)) (S (rw_dials rw)) (rw_opened rw ++ [conn])
            (rw_closed rw ++ option_list prev))
  end.

Definition gatewayRewire_Unbind (w : wired) (name : string) : wired :=
  let '(g, rw) := w in
  let '(prev, g) := Gateway_RemoveProvider g name in
  (g, mkRewire (delete name (rw_conns rw)) (rw_dials rw) (rw_opened rw) (rw_closed rw ++ option_list prev)).

Definition gatewayRewire_Close (rw : gatewayRewire) : gatewayRewire :=
  mkRewire ∅ (rw_dials rw) (rw_opened rw) (rw_closed rw ++ (map_to_list (rw_conns rw)).*2).

(** The notifications of the reconciler, delivered in order. *)
Definition wire_event (w : wired) (e : event) : wired :=
  match e with
  | EBind n ep => gatewayRewire_Bind w n ep
  | EUnbind n => gatewayRewire_Unbind w n
  | _ => w
  end.
Definition wire (w : wired) (es : list event) : wired := fold_left wire_event es w.

(** Without a binding nothing is opened, and nothing that was closed is taken back. *)
Lemma wire_unbinds es (w : wired) :
  (forall n ep, EBind n ep ∉ es) ->
  rw_opened (snd (wire w es)) = rw_opened (snd w) /\
  (exists l, rw_closed (snd (wire w es)) = rw_closed (snd w) ++ l) /\
  (forall n x, rw_conns (snd (wire w es)) !! n = Some x -> rw_conns (snd w) !! n = Some x).
Proof.
  revert w. induction es as [|e es IH]; intros w Hb; cbn [wire fold_left]; [split_and!; [done|exists []; by rewrite app_nil_r|done]|].
  destruct (IH (wire_event w e)) as (E1 & (l & E2) & E3). { intros n ep Hin. by apply (Hb n ep); right. }
  fold (wire (wire_event w e) es). destruct w as [g rw], e as [n|id|n ep|n]; cbn [wire_event] in *.
  - split_and!; [done|by exists l|done].
  - split_and!; [done|by exists l|done].
  - destruct (Hb n ep). by left.
  - cbn [gatewayRewire_Unbind] in *. destruct (Gateway_RemoveProvider g n) as [prev g']. cbn [snd rw_opened rw_closed rw_conns] in *.
    split_and!; [done|eexists; rewrite E2 -app_assoc; done|]. intros m x Hx. apply E3, lookup_delete_Some in Hx. by destruct Hx.
Qed.

(** ** What the gateway routes to *)

Definition live (rw : gatewayRewire) : list Conn := (map_to_list (rw_conns rw)).*2.

Record wired_ok (w : wired) : Prop := {
  wired_same : forall n, Gateway_provider (fst w) n = rw_conns (snd w) !! n;
  wired_balance : rw_opened (snd w) ≡ₚ rw_closed (snd w) ++ live (snd w);
}.

Lemma live_insert (m : gmap string Conn) n c :
  (map_to_list (<[n := c]> m)).*2 ≡ₚ c :: (map_to_list (delete n m)).*2.
Proof.
  rewrite -(insert_delete_eq m n c). by rw map_to_list_insert; [|by rw lookup_delete_eq].
Qed.
Lemma live_delete (m : gmap string Conn) n :
  (map_to_list m).*2 ≡ₚ option_list (m !! n) ++ (map_to_list (delete n m)).*2.
Proof.
  destruct (m !! n) as [c|] eqn:E; simpl.
  - rewrite -{1}(insert_id m n c E). by rw live_insert.
  - by rw delete_id.
Qed.

Lemma provider_set g n (c : option Conn) m :
  Gateway_provider (snd (Gateway_SetProvider g n c)) m = if decide (m = n) then c else Gateway_provider g m.
Proof.
  unfold Gateway_provider, Gateway_SetProvider. simpl. case_decide as E.
  - subst. by rw lookup_insert_eq.
  - by rw lookup_insert_ne.
Qed.
Lemma provider_remove (g : Gateway (Conn := Conn)) n m :
  Gateway_provider (snd (Gateway_RemoveProvider g n)) m = if decide (m = n) then None else Gateway_provider g m.
Proof.
  unfold Gateway_provider, Gateway_RemoveProvider. simpl. case_decide as E.
  - subst. by rw lookup_delete_eq.
  - by rw lookup_delete_ne.
Qed.

Lemma wire_event_ok w e : wired_ok w -> wired_ok (wire_event w e).
Proof.
  intros [Hs Hb]. destruct w as [g rw], e as [n|id|n ep|n]; try done; simpl in *.
  - destruct (grpc_NewClient _ ep) as [c|]; [|done]. constructor; cbn [fst snd rw_conns rw_opened rw_closed].
    + intros m. rewrite (provider_set g n (Some c) m) Hs. case_decide as E; [subst; by rw lookup_insert_eq|by rw lookup_insert_ne].
    + unfold live in *. cbn [rw_conns]. rw Hb Hs live_insert {1}(live_delete (rw_conns rw) n). solve_Permutation.
  - constructor; cbn [fst snd rw_conns rw_opened rw_closed].
    + intros m. rewrite (provider_remove g n m) Hs. case_decide as E; [subst; by rw lookup_delete_eq|by rw lookup_delete_ne].
    + unfold live in *. cbn [rw_conns]. rw Hb Hs {1}(live_delete (rw_conns rw) n). solve_Permutation.
Qed.

Lemma wire_ok es w : wired_ok w -> wired_ok (wire w es).
Proof. revert w. induction es as [|e es IH]; intros w H; [done|]. by apply IH, wire_event_ok. Qed.

(** Everything routed by the gateway is bound in the notifications so far. *)
Definition covered_by (w : wired) (rs : gmap string string) : Prop :=
  forall n, is_Some (Gateway_provider (fst w) n) -> is_Some (rs !! n).

Lemma wire_event_covered w rs e : covered_by w rs -> covered_by (wire_event w e) (route_event rs e).
Proof.
  intros Hc. destruct w as [g rw], e as [n|id|n ep|n]; try done; intros m; simpl.
  - destruct (grpc_NewClient _ ep) as [c|]; cbn [fst].
    + rewrite (provider_set g n (Some c) m). case_decide; [subst; by rw lookup_insert_eq|].
      rw lookup_insert_ne //. apply (Hc m).
    + intros H%Hc. destruct (decide (m = n)); [subst; by rw lookup_insert_eq|by rw lookup_insert_ne].
  - rewrite (provider_remove g n m). case_decide; [by intros [? ?]|]. rw lookup_delete_ne //. apply (Hc m).
Qed.

Lemma wire_covered es w rs : covered_by w rs -> covered_by (wire w es) (fold_left route_event es rs).
Proof. revert w rs. induction es as [|e es IH]; intros w rs H; [done|]. by apply IH, wire_event_covered. Qed.

(** A connection is to the endpoint that was dialled. *)
Context (target : Conn -> string).
Definition dials : Prop := forall i ep, exists c, grpc_NewClient i ep = Ok c /\ target c = ep.

Definition connected_as (w : wired) (rs : gmap string string) : Prop :=
  forall n, target <$> Gateway_provider (fst w) n = rs !! n.

Lemma wire_event_connected w rs e : dials -> connected_as w rs -> connected_as (wire_event w e) (route_event rs e).
Proof.
  intros Hd Hc. destruct w as [g rw], e as [n|id|n ep|n]; try done; intros m; simpl.
  - destruct (Hd (rw_dials rw) ep) as (c & -> & Ht). cbn [fst].
    rewrite (provider_set g n (Some c) m). case_decide; [subst; by rw lookup_insert_eq|].
    by rw lookup_insert_ne.
  - rewrite (provider_remove g n m). case_decide; [subst; by rw lookup_delete_eq|].
    by rw lookup_delete_ne.
Qed.

Lemma wire_connected es w rs : dials -> connected_as w rs -> connected_as (wire w es) (fold_left route_event es rs).
Proof.
  intros Hd. revert w rs. induction es as [|e es IH]; intros w rs H; [done|]. by apply IH, wire_event_connected.
Qed.

(** C29: The gateway follows the reconciler.  From a gateway with no providers, after any
    notifications: only plugins the reconciler has bound are routed; when dials succeed,
    every bound plugin is routed to a connection to its current endpoint; every
    connection opened is either live or closed, exactly once, and closing down closes
    all that were left. *)
Theorem rewire_follows (g0 : Gateway) (es : list event) :
  g_providers g0 = ∅ ->
  covered_by (wire (g0, newGatewayRewire) es) (routes_of es) /\
  (dials -> connected_as (wire (g0, newGatewayRewire) es) (routes_of es)) /\
  rw_opened (snd (wire (g0, newGatewayRewire) es)) ≡ₚ
    rw_closed (snd (wire (g0, newGatewayRewire) es)) ++ live (snd (wire (g0, newGatewayRewire) es)) /\
  rw_closed (gatewayRewire_Close (snd (wire (g0, newGatewayRewire) es))) ≡ₚ
    rw_opened (snd (wire (g0, newGatewayRewire) es)).
Proof.
  intros H0. assert (forall n, Gateway_provider g0 n = None) as Hn by by intros n; unfold Gateway_provider; rw H0.
  assert (wired_ok (wire (g0, newGatewayRewire) es)) as [Hs Hb].
  { apply wire_ok. constructor; [intros n; simpl; by rw Hn|done]. }
  split_and!.
  - apply wire_covered. intros n. simpl. rw Hn. by intros [? ?].
  - intros Hd. apply wire_connected; [done|]. intros n. simpl. by rw Hn.
  - done.
  - by rw Hb.
Qed.
End Rewire.

(** ** At a concrete run *)

Definition demo_dial (i : nat) (ep : string) : result string := Ok ep.
Definition demo_gateway : Gateway (Conn := string) := gateway_New empty_registry ∅ [].
Definition demo_events : list event := [EBind "duck" "10.0.0.1:1"; EUnbind "duck"; EBind "duck" "10.0.0.2:1"].

Lemma rewire_follows_witness :
  Gateway_provider (fst (wire demo_dial (demo_gateway, newGatewayRewire) demo_events)) "duck" = Some "10.0.0.2:1" /\
  connected_as id (wire demo_dial (demo_gateway, newGatewayRewire) demo_events) (routes_of demo_events).
Proof.
  split; [vm_compute; reflexivity|].
  apply (rewire_follows demo_dial id demo_gateway demo_events); [reflexivity|].
  intros i ep. exists ep. split; reflexivity.
Defined.
