(* ===== verification/Inflight.v ===== *)
(** Calls in flight while providers come and go: the gateway chooses a call's connection once
    (openCall of src/core/gateway/gateway.go), the call then runs on it, and the rewire
    (src/core/cmd/rat/rewire.go) may meanwhile swap the provider's connection and close the
    one it replaced. *)
From S2P Require Import Prelude Registry CallContext Gateway Reconciler Rewire.

Section Inflight.
Context {Conn : Type} `{EqDecision Conn}.
Context (unmarshal : string -> option RequestContext) (marshal : RequestContext -> result string).
Context (grpc_NewClient : nat -> string -> result Conn).
(** The answer of a provider that is left to give one. *)
Context (conn_Invoke : Conn -> Ctx -> string -> string -> result string).
(** What grpc answers to a call whose connection was closed under it. *)
Context (conn_closed : error).

(** ** The rewire in two moves

    The swap is under the gateway's lock; closing what it replaced comes after. *)
Definition swapped : Type := Gateway (Conn := Conn) * gatewayRewire (Conn := Conn) * option Conn.

Definition rewire_swap (g : Gateway) (rw : gatewayRewire) (e : event) : swapped :=
  match e with
  | EBind name endpoint =>
      match grpc_NewClient (rw_dials rw) endpoint with
      | Err _ => (g, mkRewire (rw_conns rw) (S (rw_dials rw)) (rw_opened rw) (rw_closed rw), None)
      | Ok conn =>
          let '(prev, g) := Gateway_SetProvider g name (Some conn) in
          (g, mkRewire (<[name := conn]> (rw_conns rw)) (S (rw_dials rw)) (rw_opened rw ++ [conn]) (rw_closed rw), prev)
      end
  | EUnbind name =>
      let '(prev, g) := Gateway_RemoveProvider g name in
      (g, mkRewire (delete name (rw_conns rw)) (rw_dials rw) (rw_opened rw) (rw_closed rw), prev)
  | _ => (g, rw, None)
  end.

Definition rewire_close (rw : gatewayRewire) (prev : option Conn) : gatewayRewire :=
  mkRewire (rw_conns rw) (rw_dials rw) (rw_opened rw) (rw_closed rw ++ option_list prev).

(** Nothing between the moves, they are the notification. *)
Lemma swap_then_close g rw e :
  let '(g', rw', prev) := rewire_swap g rw e in wire_event grpc_NewClient (g, rw) e = (g', rewire_close rw' prev).
Proof.
  assert (forall r : gatewayRewire (Conn := Conn), rewire_close r None = r) as H0 by (intros []; unfold rewire_close; simpl; by rw app_nil_r).
  destruct e as [n|id|n ep|n]; simpl; [by rw H0|by rw H0| |done].
  destruct (grpc_NewClient _ ep); [done|]. by rw H0.
Qed.

(** ** Traffic *)

(** The plugin a notification is about. *)
Definition concerns (p : string) (e : event) : Prop :=
  match e with EBind n _ | EUnbind n => n = p | _ => False end.

Lemma concerns_unique p q e : concerns p e -> concerns q e -> p = q.
Proof. destruct e; simpl; try done; by intros -> ->. Qed.

(** A call on its connection; [fl_seen] counts the notifications before it was opened. *)
Record flight := mkFlight { fl_call : openedCall (Conn := Conn); fl_payload : string; fl_seen : nat }.

Definition provider_answer (fl : flight) : result string :=
  conn_Invoke (oc_conn (fl_call fl)) (oc_ctx (fl_call fl)) (oc_method (fl_call fl)) (fl_payload fl).

(** The daemon: gateway and rewire, the connection that a notification in progress has still to
    close, the audit log, the calls in flight, the calls that ended, after how many
    notifications and with what outcome, and the notifications so far. *)
Record traffic := mkTraffic {
  t_gw : Gateway (Conn := Conn);
  t_rw : gatewayRewire (Conn := Conn);
  t_closing : option (option Conn);
  t_world : World (Conn := Conn);
  t_flights : gmap nat flight;
  t_ended : list (flight * nat * result string);
  t_events : list event;
}.

Inductive traffic_step : traffic -> traffic -> Prop :=
  | traffic_open w id c capURI payload oc wd' :
      t_flights w !! id = None ->
      Gateway_openCall unmarshal marshal (t_gw w) c capURI (t_world w) = Some (Ok oc, wd') ->
      traffic_step w (mkTraffic (t_gw w) (t_rw w) (t_closing w) wd'
        (<[id := mkFlight oc payload (length (t_events w))]> (t_flights w)) (t_ended w) (t_events w))
  | traffic_refuse w c capURI e wd' :
      Gateway_openCall unmarshal marshal (t_gw w) c capURI (t_world w) = Some (Err e, wd') ->
      traffic_step w (mkTraffic (t_gw w) (t_rw w) (t_closing w) wd' (t_flights w) (t_ended w) (t_events w))
  | traffic_answer w id fl :
      t_flights w !! id = Some fl -> oc_conn (fl_call fl) ∉ rw_closed (t_rw w) ->
      traffic_step w (mkTraffic (t_gw w) (t_rw w) (t_closing w) (t_world w) (delete id (t_flights w))
        (t_ended w ++ [(fl, length (t_events w), provider_answer fl)])
        (t_events w))
  | traffic_cut w id fl :
      t_flights w !! id = Some fl -> oc_conn (fl_call fl) ∈ rw_closed (t_rw w) ->
      traffic_step w (mkTraffic (t_gw w) (t_rw w) (t_closing w) (t_world w) (delete id (t_flights w))
        (t_ended w ++ [(fl, length (t_events w), Err conn_closed)]) (t_events w))
  | traffic_swap w e g' rw' prev :
      t_closing w = None -> rewire_swap (t_gw w) (t_rw w) e = (g', rw', prev) ->
      traffic_step w (mkTraffic g' rw' (Some prev) (t_world w) (t_flights w) (t_ended w) (t_events w ++ [e]))
  | traffic_close w prev :
      t_closing w = Some prev ->
      traffic_step w (mkTraffic (t_gw w) (rewire_close (t_rw w) prev) None (t_world w) (t_flights w) (t_ended w) (t_events w))
  | traffic_control w g' :
      g_providers g' = g_providers (t_gw w) ->
      traffic_step w (mkTraffic g' (t_rw w) (t_closing w) (t_world w) (t_flights w) (t_ended w) (t_events w)).

Definition traffic_init (w : traffic) : Prop :=
  g_providers (t_gw w) = ∅ /\ t_rw w = newGatewayRewire /\ t_closing w = None /\ t_flights w = ∅ /\ t_ended w = [] /\ t_events w = [].

(** ** Which connections are closed *)

(** Every dial makes a connection of its own. *)
Definition fresh_dials : Prop :=
  forall i j ep ep' c, grpc_NewClient i ep = Ok c -> grpc_NewClient j ep' = Ok c -> i = j.

Definition fl_provider (fl : flight) : string := oc_provider (fl_call fl).
Definition fl_conn (fl : flight) : Conn := oc_conn (fl_call fl).

(** The notifications while a call was in flight, up to the [n]-th. *)
Definition during (fl : flight) (n : nat) (es : list event) : list event := take (n - fl_seen fl) (drop (fl_seen fl) es).

(** A call whose connection is not its provider's any more has seen the provider rewired. *)
Definition followed (w : traffic) (fl : flight) : Prop :=
  Gateway_provider (t_gw w) (fl_provider fl) = Some (fl_conn fl) \/
  Exists (concerns (fl_provider fl)) (drop (fl_seen fl) (t_events w)).

Context (target : Conn -> string).

(** A call runs on a connection to the endpoint that its provider had when it was opened. *)
Definition well_aimed (es : list event) (fl : flight) : Prop :=
  (fl_seen fl <= length es)%nat /\
  (dials grpc_NewClient target -> routes_of (take (fl_seen fl) es) !! fl_provider fl = Some (target (fl_conn fl))).

(** The outcome of a call is the provider's, unless the provider was rewired meanwhile. *)
Definition accounted (es : list event) (en : flight * nat * result string) : Prop :=
  let '(fl, n, out) := en in
  well_aimed es fl /\ (n <= length es)%nat /\
  (out = provider_answer fl \/ out = Err conn_closed /\ Exists (concerns (fl_provider fl)) (during fl n es)).

Definition retired (w : traffic) : list Conn := rw_closed (t_rw w) ++ option_list (mjoin (t_closing w)).

Record traffic_ok (w : traffic) : Prop := {
  tk_dialled : forall c, c ∈ retired w \/ (exists p, Gateway_provider (t_gw w) p = Some c) ->
    exists i ep, (i < rw_dials (t_rw w))%nat /\ grpc_NewClient i ep = Ok c;
  tk_routed_open : forall p c, Gateway_provider (t_gw w) p = Some c -> c ∉ retired w;
  tk_routed_once : forall p q c, Gateway_provider (t_gw w) p = Some c -> Gateway_provider (t_gw w) q = Some c -> p = q;
  tk_connected : dials grpc_NewClient target -> connected_as target (t_gw w, t_rw w) (routes_of (t_events w));
  tk_followed : map_Forall (fun _ => followed w) (t_flights w);
  tk_aimed : map_Forall (fun _ => well_aimed (t_events w)) (t_flights w);
  tk_ended : Forall (accounted (t_events w)) (t_ended w);
}.

(** *** A swap *)

Lemma swap_cases g rw e g' rw' prev :
  rewire_swap g rw e = (g', rw', prev) ->
  rw_closed rw' = rw_closed rw /\ (rw_dials rw <= rw_dials rw')%nat /\
  ((forall m, Gateway_provider g' m = Gateway_provider g m) /\ prev = None \/
   exists n new, concerns n e /\ prev = Gateway_provider g n /\
     (forall m, Gateway_provider g' m = if decide (m = n) then new else Gateway_provider g m) /\
     forall c, new = Some c -> (rw_dials rw < rw_dials rw')%nat /\ exists ep, grpc_NewClient (rw_dials rw) ep = Ok c).
Proof.
  destruct e as [n|id|n ep|n]; simpl; intros Hs.
  1, 2: injection Hs as <- <- <-; split; [done|split; [lia|by left]].
  - destruct (grpc_NewClient (rw_dials rw) ep) as [c|er] eqn:Hd; injection Hs as <- <- <-; simpl; (split; [done|split; [lia|]]); [|by left].
    right. exists n, (Some c). split; [done|split; [done|split; [apply (provider_set g n (Some c))|]]].
    intros c' [= <-]. split; [lia|by exists ep].
  - injection Hs as <- <- <-. simpl. split; [done|split; [lia|]]. right. exists n, None.
    split; [done|split; [done|split; [apply (provider_remove g n)|done]]].
Qed.

Lemma followed_later w w' fl :
  (fl_seen fl <= length (t_events w))%nat -> t_events w `prefix_of` t_events w' ->
  (Gateway_provider (t_gw w') (fl_provider fl) = Gateway_provider (t_gw w) (fl_provider fl) \/
   Exists (concerns (fl_provider fl)) (drop (length (t_events w)) (t_events w'))) ->
  followed w fl -> followed w' fl.
Proof.
  intros Hle [es He] Hg [Hp|Hp].
  - destruct Hg as [Hg|Hg]; [left; by rewrite Hg|right]. rewrite He drop_app_length in Hg.
    rewrite He drop_app_le; [|done]. apply Exists_app. by right.
  - right. rewrite He drop_app_le; [|done]. apply Exists_app. by left.
Qed.

Lemma well_aimed_later es es' fl : es `prefix_of` es' -> well_aimed es fl -> well_aimed es' fl.
Proof.
  intros [k ->] [Hle Ht]. split; [rewrite length_app; lia|]. intros Hd. by rewrite take_app_le; [apply Ht|].
Qed.

Lemma accounted_later es es' en : es `prefix_of` es' -> accounted es en -> accounted es' en.
Proof.
  intros Hp. destruct en as [[fl n] out]. intros (Ha & Hn & Ho). split; [by eapply well_aimed_later|].
  destruct Hp as [k ->]. split; [rewrite length_app; lia|]. destruct Ho as [?|[? Ho]]; [by left|right].
  split; [done|]. unfold during in *. destruct Ha as [Hle _]. rewrite drop_app_le // take_app_le // length_drop. lia.
Qed.

Lemma traffic_ok_init w : traffic_init w -> traffic_ok w.
Proof.
  intros (Hg & Hr & Hc & Hf & Hen & Hev). assert (forall p, Gateway_provider (t_gw w) p = None) as Hp.
  { intros p. unfold Gateway_provider. by rewrite Hg. }
  constructor.
  - intros c [Hi|[p Hi]]; [|by rewrite Hp in Hi]. unfold retired in Hi. rewrite Hr Hc in Hi. by apply elem_of_nil in Hi.
  - intros p c Hi. by rewrite Hp in Hi.
  - intros p q c Hi. by rewrite Hp in Hi.
  - intros _ n. simpl. by rewrite Hp Hev.
  - rewrite Hf. apply map_Forall_empty.
  - rewrite Hf. apply map_Forall_empty.
  - by rewrite Hen.
Qed.

Context (Hfresh : fresh_dials).

Lemma swap_ok w e g' rw' prev :
  traffic_ok w -> t_closing w = None -> rewire_swap (t_gw w) (t_rw w) e = (g', rw', prev) ->
  traffic_ok (mkTraffic g' rw' (Some prev) (t_world w) (t_flights w) (t_ended w) (t_events w ++ [e])).
Proof.
  intros [Hdl Hop Hon Hcn Hfo Hai Hen] Hc Hs. pose proof (swap_cases _ _ _ _ _ _ Hs) as (Hcl & Hds & Hg).
  assert (forall c, c ∈ rw_closed (t_rw w) -> c ∈ retired w) as Hold by (intros c Hi; apply elem_of_app; by left).
  assert (t_events w `prefix_of` t_events w ++ [e]) as Hpre by by apply prefix_app_r.
  assert (forall c, c ∈ rw_closed rw' ++ option_list prev -> c ∈ retired w \/ exists p, Gateway_provider (t_gw w) p = Some c) as Hret.
  { intros c [Hi|Hi]%elem_of_app; [left; apply Hold; by rewrite -Hcl|]. destruct prev as [c'|]; [|by apply elem_of_nil in Hi].
    apply list_elem_of_singleton in Hi as ->. right. destruct Hg as [[_ [=]]|(n & new & _ & Hpv & _)]. by exists n. }
  assert (forall m c, Gateway_provider g' m = Some c ->
    Gateway_provider (t_gw w) m = Some c /\ prev <> Some c \/
    (rw_dials (t_rw w) < rw_dials rw')%nat /\ (exists ep, grpc_NewClient (rw_dials (t_rw w)) ep = Ok c) /\ concerns m e) as Hnew.
  { intros m c Hm. destruct Hg as [[Hsame ->]|(n & new & Hce & -> & Hset & Hfr)].
    - left. by rewrite -Hsame.
    - rewrite Hset in Hm. case_decide as E; [subst m; right; destruct (Hfr c Hm); by split_and!|].
      left. split; [done|]. intros Hn. apply E. by eapply Hon. }
  constructor; cbn [t_gw t_rw t_closing t_flights t_ended t_events].
  - intros c [Hi%Hret|[p Hi]].
    + destruct (Hdl c Hi) as (i & ep & ? & ?). exists i, ep. split; [lia|done].
    + destruct (Hnew p c Hi) as [[Ho _]|(Hlt & [ep Hep] & _)]; [|by exists (rw_dials (t_rw w)), ep].
      destruct (Hdl c (or_intror (ex_intro _ p Ho))) as (i & ep & ? & ?). exists i, ep. split; [lia|done].
  - intros p c Hi Hr. change (c ∈ rw_closed rw' ++ option_list prev) in Hr.
    destruct (Hnew p c Hi) as [[Ho Hne]|(_ & [ep Hep] & _)].
    + apply elem_of_app in Hr as [Hr|Hr]; [apply (Hop p c Ho), Hold; by rewrite -Hcl|].
      destruct prev as [c'|]; [|by apply elem_of_nil in Hr]. apply list_elem_of_singleton in Hr as ->. done.
    + destruct (Hdl c (Hret c Hr)) as (i & ep' & Hlt & Hd'). pose proof (Hfresh _ _ _ _ _ Hep Hd'). lia.
  - intros p q c Hp Hq. destruct (Hnew p c Hp) as [[Hp' _]|(_ & [ep Hep] & Hcp)], (Hnew q c Hq) as [[Hq' _]|(_ & [ep' Hep'] & Hcq)].
    + by eapply Hon.
    + destruct (Hdl c (or_intror (ex_intro _ p Hp'))) as (i & ei & Hlt & Hd'). pose proof (Hfresh _ _ _ _ _ Hep' Hd'). lia.
    + destruct (Hdl c (or_intror (ex_intro _ q Hq'))) as (i & ei & Hlt & Hd'). pose proof (Hfresh _ _ _ _ _ Hep Hd'). lia.
    + by eapply concerns_unique.
  - intros Hd. pose proof (swap_then_close (t_gw w) (t_rw w) e) as Hw. rewrite Hs in Hw.
    unfold routes_of. rewrite fold_left_app. pose proof (wire_event_connected grpc_NewClient target _ _ e Hd (Hcn Hd)) as Hwe.
    rewrite Hw in Hwe. exact Hwe.
  - intros id fl Hi. pose proof (Hai id fl Hi) as [Hle _]. apply (followed_later w); [exact Hle|exact Hpre| |by eapply Hfo].
    cbn [t_gw t_events]. rewrite drop_app_length. destruct Hg as [[Hsame _]|(n & new & Hce & _ & Hset & _)]; [by left|].
    rewrite Hset. case_decide as E; [right; constructor; by rewrite E|by left].
  - intros id fl Hi. by eapply well_aimed_later, Hai.
  - eapply Forall_impl; [exact Hen|]. intros en. by apply accounted_later.
Qed.

(** *** The other steps *)

(** Steps that leave the routing, the closed connections and the notifications alone. *)
Lemma quiet_ok w g' cl wd fls ended rw' :
  traffic_ok w -> (forall p, Gateway_provider g' p = Gateway_provider (t_gw w) p) ->
  rw_dials rw' = rw_dials (t_rw w) -> rw_closed rw' ++ option_list (mjoin cl) = retired w ->
  (let w' := mkTraffic g' rw' cl wd fls ended (t_events w) in
   map_Forall (fun _ => followed w') fls /\ map_Forall (fun _ => well_aimed (t_events w)) fls /\ Forall (accounted (t_events w)) ended) ->
  traffic_ok (mkTraffic g' rw' cl wd fls ended (t_events w)).
Proof.
  intros [Hdl Hop Hon Hcn Hfo Hai Hen] Hg Hd Hr (H1 & H2 & H3). constructor; unfold retired; cbn [t_gw t_rw t_closing t_flights t_ended t_events]; try done.
  - intros c. rewrite Hr Hd. setoid_rewrite Hg. apply Hdl.
  - intros p c. rewrite Hr Hg. apply Hop.
  - intros p q c. rewrite !Hg. apply Hon.
  - intros Hdi n. simpl. rewrite Hg. apply (Hcn Hdi).
Qed.

Lemma followed_same w w' fl :
  (forall p, Gateway_provider (t_gw w') p = Gateway_provider (t_gw w) p) -> t_events w' = t_events w -> followed w fl -> followed w' fl.
Proof. intros Hg He. unfold followed. by rewrite Hg He. Qed.

Lemma ended_ok w fl out :
  traffic_ok w -> well_aimed (t_events w) fl ->
  (out = provider_answer fl \/ out = Err conn_closed /\ Exists (concerns (fl_provider fl)) (drop (fl_seen fl) (t_events w))) ->
  Forall (accounted (t_events w)) (t_ended w ++ [(fl, length (t_events w), out)]).
Proof.
  intros Hok Ha Ho. apply Forall_app. split; [apply Hok|]. constructor; [|done]. split; [done|split; [lia|]].
  destruct Ho as [?|[? Ho]]; [by left|right]. split; [done|]. unfold during. rewrite take_ge //. rewrite length_drop. lia.
Qed.

Lemma traffic_step_ok w w' : traffic_step w w' -> traffic_ok w -> traffic_ok w'.
Proof.
  intros Hs Hok. pose proof Hok as [Hdl Hop Hon Hcn Hfo Hai Hen].
  destruct Hs as [w id c cap pl oc wd' Hi Ho|w c cap er wd' Ho|w id fl Hi Hnc|w id fl Hi Hc|w e g' rw' prev Hcl Hs|w prev Hcl|w g' Hg].
  - apply quiet_ok; [done..|]. assert (Gateway_provider (t_gw w) (oc_provider oc) = Some (oc_conn oc)) as Hp.
    { apply openCall_cases in Ho as (_ & [(_ & _ & [=])|(_ & d & _ & _ & Hop')]). destruct Hop' as (_ & _ & Hp & _ & -> & _). exact Hp. }
    split_and!; [apply map_Forall_insert_2; [by left|]|apply map_Forall_insert_2; [|done]|done].
    + intros j fl' Hj. apply (followed_same w); [done|done|by eapply Hfo].
    + split; [simpl; lia|]. intros Hd. cbn [fl_seen]. rewrite firstn_all. rewrite -(Hcn Hd). unfold fl_provider, fl_conn. simpl. by rewrite Hp.
  - apply quiet_ok; [done..|]. split_and!; [|done..]. intros j fl' Hj. apply (followed_same w); [done|done|by eapply Hfo].
  - apply quiet_ok; [done..|]. split_and!; [|by apply map_Forall_delete|apply ended_ok; [done|by eapply Hai|by left]].
    apply map_Forall_delete. intros j fl' Hj. apply (followed_same w); [done|done|by eapply Hfo].
  - apply quiet_ok; [done..|]. split_and!; [|by apply map_Forall_delete|apply ended_ok; [done|by eapply Hai|right; split; [done|]]].
    + apply map_Forall_delete. intros j fl' Hj. apply (followed_same w); [done|done|by eapply Hfo].
    + destruct (Hfo id fl Hi) as [Hp|?]; [|done]. exfalso. apply (Hop _ _ Hp). apply elem_of_app. by left.
  - by eapply swap_ok.
  - apply quiet_ok; [done|done|done| |].
    + unfold retired, rewire_close. rewrite Hcl. simpl. by rewrite app_nil_r.
    + split_and!; [|done..]. intros j fl' Hj. apply (followed_same w); [done|done|by eapply Hfo].
  - assert (forall p, Gateway_provider g' p = Gateway_provider (t_gw w) p) as Hp by (intros p; unfold Gateway_provider; by rewrite Hg).
    apply quiet_ok; [done|done|done|done|]. split_and!; [|done..]. intros j fl' Hj. apply (followed_same w); [done|done|by eapply Hfo].
Qed.

(** C30: A provider's comings and goings cost only its own calls.  Calls are opened, answered and
    cut while notifications swap and close connections, move by move.  When every dial makes
    a connection of its own, a new call is never opened on a connection that is closed or
    about to be; every call that ended got its provider's answer, from the endpoint that the
    provider was bound to when the call was opened, or was cut, and then that very provider
    was bound anew or unbound while the call was in flight. *)
Theorem only_rewired_calls_cut (w0 w : traffic) :
  traffic_init w0 -> rtc traffic_step w0 w ->
  (forall c capURI oc wd', Gateway_openCall unmarshal marshal (t_gw w) c capURI (t_world w) = Some (Ok oc, wd') ->
    oc_conn oc ∉ rw_closed (t_rw w) /\ t_closing w <> Some (Some (oc_conn oc))) /\
  Forall (accounted (t_events w)) (t_ended w).
Proof.
  intros Hinit%traffic_ok_init Hrun. assert (traffic_ok w) as [_ Hop _ _ _ _ Hen].
  { induction Hrun as [|w1 w2 w3 Hs _ IH]; [done|]. by eapply IH, traffic_step_ok. }
  split; [|done]. intros c cap oc wd' Ho.
  assert (exists p, Gateway_provider (t_gw w) p = Some (oc_conn oc)) as [p Hp].
  { apply openCall_cases in Ho as (_ & [(_ & _ & [=])|(_ & d & _ & _ & Hop')]). destruct Hop' as (_ & _ & Hp & _). by eexists. }
  pose proof (Hop p _ Hp) as Hnr. unfold retired in Hnr. split; [intros Hc; apply Hnr, elem_of_app; by left|].
  intros Hc. rewrite Hc in Hnr. apply Hnr, elem_of_app. right. by left.
Qed.

(** ** An executable schedule *)

Inductive action :=
  | AOpen (id : nat) (c : Ctx) (capURI payload : string)
  | AEnd (id : nat)
  | ASwap (e : event)
  | AClose.

Definition act (w : traffic) (a : action) : option traffic :=
  match a with
  | AOpen id c capURI payload =>
      match t_flights w !! id, Gateway_openCall unmarshal marshal (t_gw w) c capURI (t_world w) with
      | None, Some (Ok oc, wd) => Some (mkTraffic (t_gw w) (t_rw w) (t_closing w) wd
          (<[id := mkFlight oc payload (length (t_events w))]> (t_flights w)) (t_ended w) (t_events w))
      | None, Some (Err _, wd) => Some (mkTraffic (t_gw w) (t_rw w) (t_closing w) wd (t_flights w) (t_ended w) (t_events w))
      | _, _ => None
      end
  | AEnd id =>
      fl ← t_flights w !! id;
      Some (mkTraffic (t_gw w) (t_rw w) (t_closing w) (t_world w) (delete id (t_flights w))
        (t_ended w ++ [(fl, length (t_events w),
           if decide (fl_conn fl ∈ rw_closed (t_rw w)) then Err conn_closed else provider_answer fl)]) (t_events w))
  | ASwap e =>
      match t_closing w, rewire_swap (t_gw w) (t_rw w) e with
      | None, (g, rw, prev) => Some (mkTraffic g rw (Some prev) (t_world w) (t_flights w) (t_ended w) (t_events w ++ [e]))
      | Some _, _ => None
      end
  | AClose =>
      prev ← t_closing w;
      Some (mkTraffic (t_gw w) (rewire_close (t_rw w) prev) None (t_world w) (t_flights w) (t_ended w) (t_events w))
  end.

Fixpoint schedule (w : traffic) (acts : list action) : option traffic :=
  match acts with [] => Some w | a :: acts => w ← act w a; schedule w acts end.

Lemma act_step w a w' : act w a = Some w' -> traffic_step w w'.
Proof.
  destruct a as [id c cap pl|id|e|]; simpl.
  - destruct (t_flights w !! id) eqn:Hi; [done|]. destruct (Gateway_openCall _ _ _ _ _ _) as [[[oc|er] wd]|] eqn:Ho; [| |done]; intros [= <-].
    + by eapply traffic_open.
    + by eapply traffic_refuse.
  - destruct (t_flights w !! id) as [fl|] eqn:Hi; [|done]. simpl. intros [= <-]. case_decide as Hc; [by apply traffic_cut|by apply traffic_answer].
  - destruct (t_closing w) eqn:Hc; [done|]. destruct (rewire_swap _ _ e) as [[g rw] prev] eqn:Hs. intros [= <-]. by apply traffic_swap.
  - destruct (t_closing w) as [prev|] eqn:Hc; [|done]. simpl. intros [= <-]. by apply traffic_close.
Qed.

Lemma schedule_steps acts w w' : schedule w acts = Some w' -> rtc traffic_step w w'.
Proof.
  revert w. induction acts as [|a acts IH]; intros w; simpl; [intros [= <-]; apply rtc_refl|].
  destruct (act w a) as [w1|] eqn:Ha; [|done]. simpl. intros Hs. eapply rtc_l; [by eapply act_step|by apply IH].
Qed.
End Inflight.

(** ** A rebinding under way

    The engine comes up anew elsewhere while a call to it is in flight. *)
Definition numbered_dial (i : nat) (ep : string) : result (nat * string) := Ok (i, ep).
Definition endpoint_answer (conn : nat * string) (c : Ctx) (method payload : string) : result string := Ok (conn.2 +:+ " " +:+ payload).
Definition engine_plane : traffic (Conn := nat * string) :=
  mkTraffic (gateway_New demo_registry ∅ demo_routes) newGatewayRewire None (mkWorld [] [] []) ∅ [] [].
Definition call_now (id : nat) (payload : string) : action :=
  AOpen id (withAuthenticatedCaller (demo_ctx "") "cli") execute_cap payload.
Definition rebinding : list action :=
  [ASwap (EBind "spark" "10.0.0.1:1"); AClose; call_now 0 "q0"; AEnd 0;
   call_now 1 "q1"; ASwap (EBind "spark" "10.0.0.2:1"); call_now 2 "q2"; AClose; AEnd 1; AEnd 2].
Definition demo_schedule (conn_closed : error) := schedule demo_unmarshal demo_marshal numbered_dial endpoint_answer conn_closed.

(** The calls that ended, with the payload and the outcome. *)
Definition outcomes (w : option (traffic (Conn := nat * string))) : option (list (string * result string)) :=
  (fun w => (fun en => (fl_payload en.1.1, en.2)) <$> t_ended w) <$> w.

Lemma rebinding_outcomes conn_closed : outcomes (demo_schedule conn_closed engine_plane rebinding) =
  Some [("q0", Ok "10.0.0.1:1 q0"); ("q1", Err conn_closed); ("q2", Ok "10.0.0.2:1 q2")].
Proof. evaluated. Qed.

Lemma rebinding_runs conn_closed : exists w, demo_schedule conn_closed engine_plane rebinding = Some w /\
  outcomes (Some w) = Some [("q0", Ok "10.0.0.1:1 q0"); ("q1", Err conn_closed); ("q2", Ok "10.0.0.2:1 q2")].
Proof.
  pose proof (rebinding_outcomes conn_closed) as Ho. destruct (demo_schedule conn_closed engine_plane rebinding) as [w|]; [by exists w|discriminate Ho].
Qed.

(** Calls in flight do not drain: the call that the first engine was serving fails when the
    rewire closes the connection it replaced. *)
Theorem rebinding_cuts_inflight (conn_closed : error) :
  exists w, rtc (traffic_step demo_unmarshal demo_marshal numbered_dial endpoint_answer conn_closed) engine_plane w /\
    outcomes (Some w) = Some [("q0", Ok "10.0.0.1:1 q0"); ("q1", Err conn_closed); ("q2", Ok "10.0.0.2:1 q2")].
Proof. destruct (rebinding_runs conn_closed) as (w & Hs & Ho). exists w. split; [by eapply schedule_steps|exact Ho]. Qed.

Lemma engine_plane_init : traffic_init engine_plane.
Proof. by repeat split. Qed.

Lemma numbered_dials_fresh : fresh_dials numbered_dial.
Proof. by intros i j ep ep' c [= <-] [= ->]. Qed.

Definition closing_now : error := Status Canceled "grpc: the client connection is closing" [].

Lemma only_rewired_calls_cut_witness :
  exists w, demo_schedule closing_now engine_plane rebinding = Some w /\
    Forall (accounted numbered_dial endpoint_answer closing_now snd (t_events w)) (t_ended w).
Proof.
  destruct (rebinding_runs closing_now) as (w & Hs & _). exists w. split; [exact Hs|].
  exact (proj2 (only_rewired_calls_cut demo_unmarshal demo_marshal numbered_dial endpoint_answer closing_now snd numbered_dials_fresh engine_plane w
    engine_plane_init (schedule_steps _ _ _ _ _ _ _ _ Hs))).
Defined.
