(* ===== verification/Control.v ===== *)
(** The daemon's control service (src/core/cmd/rat/control.go): registering and removing
    plugins on the running plane, by driving the registry, the reconciler and the
    gateway's token table together. *)
From S2P Require Import Prelude Manifest Registry CallContext Gateway Reconciler DeployRuntime Supervisor Plane Rewire.

Record LaunchReq := mkLaunchReq { lr_Image : string; lr_Isolation : string; lr_Env : list (string * string) }.
Record RegisterReq := mkRegisterReq { rq_Name : string; rq_Yaml : string; rq_Launch : option LaunchReq }.
Record RegisterReply := mkRegisterReply { rs_Name : string; rs_State : string; rs_Endpoint : string }.
Record PluginStatus := mkPluginStatus {
  st_Name : string; st_Kind : string; st_Provides : list string; st_State : string; st_Endpoint : string;
}.

(** A default: an explicit entry wins. *)
Definition env_default (env : list (string * string)) (k v : string) : list (string * string) :=
  if existsb (fun kv => bool_decide (kv.1 = k)) env then env else env ++ [(k, v)].

Definition injectLaunchEnv (spec : LaunchSpec) (name gwAddr token : string) (publishPorts : list string) : LaunchSpec :=
  let env := env_default (ls_Env spec) "RAT_GATEWAY" gwAddr in
  let env := env_default env "RAT_PLUGIN_NAME" name in
  let env := if decide (token = "") then env else env_default env "RAT_PLUGIN_TOKEN" token in
  let env := if decide (publishPorts = []) then env
             else env_default env "RAT_PUBLISH_PORTS" (Join publishPorts ",") in
  mkLaunch (ls_Image spec) (ls_Isolation spec) env.

(** What a launched plugin is told: the gateway's address, its own name, its token and the
    ports it publishes, each unless its own environment already says so. *)
Definition told_env (env : list (string * string)) (name gwAddr token : string) (ports : list string) : list (string * string) :=
  env ++ filter (fun kv => kv.1 ∉ env.*1)
    ([("RAT_GATEWAY", gwAddr); ("RAT_PLUGIN_NAME", name)] ++
     (if decide (token = "") then [] else [("RAT_PLUGIN_TOKEN", token)]) ++
     (if decide (ports = []) then [] else [("RAT_PUBLISH_PORTS", Join ports ",")])).

Lemma env_default_told env k v new :
  k ∉ new.*1 -> env_default (env ++ filter (fun kv => kv.1 ∉ env.*1) new) k v =
  env ++ filter (fun kv => kv.1 ∉ env.*1) (new ++ [(k, v)]).
Proof.
  intros Hn. unfold env_default. rewrite filter_app. assert (existsb (fun kv => bool_decide (kv.1 = k)) (env ++ filter (fun kv => kv.1 ∉ env.*1) new) =
    bool_decide (k ∈ env.*1)) as ->.
  { apply Bool.eq_iff_eq_true. rewrite existsb_exists bool_decide_eq_true list_elem_of_fmap. split.
    - intros (kv & Hin%list_elem_of_In & Ek%bool_decide_eq_true). symmetry in Ek. apply elem_of_app in Hin as [Hin|Hin]; [by exists kv|].
      apply list_elem_of_filter in Hin as [_ Hin]. destruct Hn. apply list_elem_of_fmap. by exists kv.
    - intros (kv & -> & Hin). exists kv. split; [apply list_elem_of_In, elem_of_app; by left|by apply bool_decide_eq_true]. }
  rewrite filter_cons filter_nil. cbn [fst]. destruct (bool_decide (k ∈ env.*1)) eqn:Eb.
  - apply bool_decide_eq_true in Eb. destruct (decide (k ∉ env.*1)) as [Hk|_]; [done|]. by rewrite app_nil_r.
  - apply bool_decide_eq_false in Eb. destruct (decide (k ∉ env.*1)) as [_|Hk]; [by rewrite app_assoc|]. by destruct Hk.
Qed.

Lemma injectLaunchEnv_told spec name gwAddr token ports :
  injectLaunchEnv spec name gwAddr token ports =
  mkLaunch (ls_Image spec) (ls_Isolation spec) (told_env (ls_Env spec) name gwAddr token ports).
Proof.
  unfold injectLaunchEnv, told_env. f_equal. set (env := ls_Env spec).
  assert (env_default env "RAT_GATEWAY" gwAddr = env ++ filter (fun kv => kv.1 ∉ env.*1) [("RAT_GATEWAY", gwAddr)]) as ->.
  { rewrite -(env_default_told env "RAT_GATEWAY" gwAddr []); [|by apply not_elem_of_nil]. by rewrite filter_nil app_nil_r. }
  rewrite env_default_told; [|by rewrite list_elem_of_singleton]. cbn [app].
  repeat case_decide; cbn [app]; rewrite ?env_default_told //; cbn [fmap list_fmap fst]; rewrite ?not_elem_of_cons; try done;
    split_and!; try done; apply not_elem_of_nil.
Qed.

Section Control.
Context {R Conn : Type} `{DeploymentRuntime R LaunchSpec}.
Context (cfg : Config).
Context (grpc_NewClient : nat -> string -> result Conn).
Context (yaml_Manifest : string -> result Manifest).
Context (gwAddr : string) (readyTO : Z).

(** The registry is shared: the service and the gateway hold the same one, so it is kept in
    the gateway.  [c_wired] tells whether the service was given the gateway. *)
Record Control := mkControl {
  c_gw : Gateway (Conn := Conn);
  c_wired : bool;
  c_rec : Reconciler R LaunchSpec;
  c_rw : gatewayRewire (Conn := Conn);
}.
Definition c_reg (c : Control) : Registry := reg (c_gw c).
Definition with_gw (c : Control) (g : Gateway) : Control := mkControl g (c_wired c) (c_rec c) (c_rw c).
Definition with_reg (c : Control) (r : Registry) : Control :=
  let g := c_gw c in
  with_gw c (mkGateway r (g_providers g) (routes g) (StreamIdleTimeout g) (pluginTokens g) (requireAuth g)).

(** A change to the reconciler, whose notifications reach the gateway as they are made. *)
Definition drive (c : Control) (r : Reconciler R LaunchSpec) : Control :=
  let new := drop (length (events (c_rec c))) (events r) in
  let '(g, rw) := wire grpc_NewClient (c_gw c, c_rw c) new in
  mkControl g (c_wired c) r rw.

Definition c_RemoveDesired (c : Control) (name : string) : Control :=
  drive c (Reconciler_RemoveDesired cfg (c_rec c) name).
Definition c_Reconcile (c : Control) (now : Z) : Control := drive c (Reconciler_Reconcile cfg (c_rec c) now).
Definition c_Deregister (c : Control) (name : string) : Control := with_reg c (Registry_Deregister (c_reg c) name).

Definition controlService_dropToken (c : Control) (name : string) : Control :=
  if c_wired c then with_gw c (Gateway_RemovePluginToken (c_gw c) name) else c.
Definition setToken (c : Control) (tok name : string) : Control :=
  if c_wired c then with_gw c (Gateway_SetPluginToken (c_gw c) tok name) else c.

(** [RemoveDesired], [dropToken], [Deregister]: the rollback, and the removal. *)
Definition remove_plugin (c : Control) (name : string) : Control :=
  c_Deregister (controlService_dropToken (c_RemoveDesired c name) name) name.

(** The bounded wait for health.  Before the [i]-th look the reconciler's own loop makes the
    passes [passes i]; [clock] and [cancelled] are as in the supervisor's waits. *)
Fixpoint await_healthy (fuel i : nat) (clock : nat -> Z) (passes : nat -> list Z)
    (cancelled : nat -> option error) (name : string) (deadline : Z) (c : Control) :
    option (result RegisterReply * Control) :=
  match fuel with
  | O => None
  | S fuel =>
      let c := fold_left c_Reconcile (passes i) c in
      let st := (Reconciler_Status (c_rec c) name).1.1 in
      if decide (st = Healthy) then
        Some (Ok (mkRegisterReply name (State_String st) (Reconciler_Endpoint (c_rec c) name)), c)
      else if bool_decide (st = Degraded) || (deadline <? clock (S i)) then
        Some (Err (Status DeadlineExceeded "plugin %q did not become healthy (state=%s) — rolled back" [name; State_String st]),
              remove_plugin c name)
      else match cancelled i with
           | Some e => Some (Err e, remove_plugin c name)
           | None => await_healthy fuel (S i) clock passes cancelled name deadline c
           end
  end.

Definition launch_plugin (clock : nat -> Z) (passes : nat -> list Z) (cancelled : nat -> option error)
    (tok name : string) (m : Manifest) (ls : LaunchReq) (c : Control) : option (result RegisterReply * Control) :=
  match isolationProfile (lr_Isolation ls) with
  | Err e => Some (Err (StatusWrap InvalidArgument "isolation: %v" [] e), c_Deregister c name)
  | Ok profile =>
      let spec := injectLaunchEnv (mkLaunch (lr_Image ls) (Some profile) (lr_Env ls)) name gwAddr tok
                    (Manifest_PublishPorts m) in
      let c := setToken c tok name in
      match Reconciler_AddDesired (c_rec c) (mkDesired name spec) with
      | Err e => Some (Err (StatusWrap FailedPrecondition "add desired: %v" [] e),
                       c_Deregister (controlService_dropToken c name) name)
      | Ok r =>
          let timeout := readyTO + 5 * (1000 * milli) in
          await_healthy (wait_fuel timeout (50 * milli)) 0 clock passes cancelled name
            (clock 0%nat + timeout) (drive c r)
      end
  end.

(** [tok] is the token minted for the launch. *)
Definition controlService_RegisterPlugin (clock : nat -> Z) (passes : nat -> list Z)
    (cancelled : nat -> option error) (tok : string) (req : RegisterReq) (c : Control) :
    option (result RegisterReply * Control) :=
  let name := rq_Name req in
  if decide (name = "") then Some (Err (Status InvalidArgument "name required" []), c)
  else
    match Parse yaml_Manifest (rq_Yaml req) with
    | Err e => Some (Err (StatusWrap InvalidArgument "manifest: %v" [] e), c)
    | Ok m =>
      if decide (name_of m = name) then
        let c := match Registry_Plugin (c_reg c) name with
                 | Some _ => c_Deregister (c_RemoveDesired c name) name
                 | None => c
                 end in
        match Registry_Register (c_reg c) m with
        | Err e => Some (Err (StatusWrap FailedPrecondition "register: %v" [] e), c)
        | Ok r =>
            let c := with_reg c r in
            match rq_Launch req with
            | Some ls =>
                if decide (lr_Image ls = "") then Some (Ok (mkRegisterReply name "registered" ""), c)
                else launch_plugin clock passes cancelled tok name m ls c
            | None => Some (Ok (mkRegisterReply name "registered" ""), c)
            end
        end
      else Some (Err (Status InvalidArgument "manifest name %q != request name %q" [name_of m; name]), c)
    end.

(** The reply carries whether the plugin was present. *)
Definition controlService_DeregisterPlugin (c : Control) (name : string) : bool * Control :=
  (bool_decide (is_Some (Registry_Plugin (c_reg c) name)), remove_plugin c name).

Definition controlService_ListPlugins (c : Control) : list PluginStatus :=
  (fun m =>
     let name := name_of m in
     if bool_decide (name ∈ Reconciler_DesiredNames (c_rec c))
     then mkPluginStatus name (Kind m) (Manifest_ProvidesCaps m)
            (State_String (Reconciler_Status (c_rec c) name).1.1) (Reconciler_Endpoint (c_rec c) name)
     else mkPluginStatus name (Kind m) (Manifest_ProvidesCaps m) "registered" "") <$> Registry_All (c_reg c).

(** ** The invariant of the running plane *)

Record ctl_ok (c : Control) : Prop := {
  ctl_reg : registry_wf (c_reg c);
  ctl_rec : reconciler_ok cfg (c_rec c);
  ctl_wired : covered_by (c_gw c, c_rw c) (routes_of (events (c_rec c)));
}.

(** What no change to the reconciler touches. *)
Definition same_admin (c c' : Control) : Prop :=
  c_reg c' = c_reg c /\ pluginTokens (c_gw c') = pluginTokens (c_gw c) /\ c_wired c' = c_wired c.

Lemma same_admin_trans c1 c2 c3 : same_admin c1 c2 -> same_admin c2 c3 -> same_admin c1 c3.
Proof. intros (? & ? & ?) (? & ? & ?). by split_and!; etrans. Qed.

Lemma wire_admin es (w : Gateway (Conn := Conn) * gatewayRewire) :
  reg (wire grpc_NewClient w es).1 = reg w.1 /\
  pluginTokens (wire grpc_NewClient w es).1 = pluginTokens w.1.
Proof.
  revert w. induction es as [|e es IH]; intros w; [done|]. simpl. destruct (IH (wire_event grpc_NewClient w e)) as [-> ->].
  destruct w as [g rw], e as [n|id|n ep|n]; simpl; try done. by destruct (grpc_NewClient _ _).
Qed.

Lemma drive_admin c r : same_admin c (drive c r).
Proof.
  unfold same_admin, drive, c_reg. destruct (wire_admin (drop (length (events (c_rec c))) (events r)) (c_gw c, c_rw c)) as [H1 H2].
  destruct (wire _ _ _) as [g rw]. by split_and!.
Qed.
Lemma drive_rec c r : c_rec (drive c r) = r.
Proof. unfold drive. by destruct (wire _ _ _). Qed.

Lemma drive_ok c r es :
  ctl_ok c -> events r = events (c_rec c) ++ es -> reconciler_ok cfg r -> ctl_ok (drive c r).
Proof.
  intros [Hr _ Hw] He Hok. destruct (drive_admin c r) as (Ha & _).
  constructor; [by rw Ha|by rw drive_rec|]. rw drive_rec. unfold drive. rw He drop_app_length.
  pose proof (wire_covered grpc_NewClient es _ _ Hw) as Hc. rw routes_of_app. by destruct (wire _ _ _).
Qed.

Lemma c_RemoveDesired_ok c n : ctl_ok c -> ctl_ok (c_RemoveDesired c n).
Proof.
  intros Hc. destruct (RemoveDesired_frame cfg (c_rec c) n) as (_ & _ & es & He).
  eapply drive_ok; [done|done|]. by apply RemoveDesired_ok, Hc.
Qed.

Lemma c_Reconcile_ok c now : 0 < CrashLoopCap cfg -> ctl_ok c ->
  ctl_ok (c_Reconcile c now) /\ same_admin c (c_Reconcile c now) /\ desired (c_rec (c_Reconcile c now)) = desired (c_rec c).
Proof.
  intros Hcap Hc. destruct (pass_frame cfg (desired (c_rec c)) (c_rec c) now Hcap (ctl_rec _ Hc)) as (Hd & es & He).
  split_and!; [|apply drive_admin|unfold c_Reconcile; by rw drive_rec].
  eapply drive_ok; [done|done|]. by apply Reconcile_pass_ok, Hc.
Qed.

Lemma passes_ok ts c : 0 < CrashLoopCap cfg -> ctl_ok c ->
  ctl_ok (fold_left c_Reconcile ts c) /\ same_admin c (fold_left c_Reconcile ts c) /\
  desired (c_rec (fold_left c_Reconcile ts c)) = desired (c_rec c).
Proof.
  intros Hcap. revert c. induction ts as [|t ts IH]; intros c Hc; [done|]. simpl.
  destruct (c_Reconcile_ok c t Hcap Hc) as (H1 & H2 & H3). destruct (IH _ H1) as (H4 & H5 & H6).
  split_and!; [done|by eapply same_admin_trans|by rw H6].
Qed.

Lemma with_gw_ok c g :
  ctl_ok c -> reg g = c_reg c -> g_providers g = g_providers (c_gw c) -> ctl_ok (with_gw c g).
Proof.
  intros [Hr Hk Hw] E1 E2. constructor; [by rw /c_reg /= E1|done|].
  intros n. simpl. unfold Gateway_provider. rw E2. apply Hw.
Qed.
Lemma with_reg_ok c r : ctl_ok c -> registry_wf r -> ctl_ok (with_reg c r).
Proof. by intros [Hr Hk Hw] ?. Qed.

(** ** Removal *)

(** No trace of a plugin is left. *)
Record absent (c : Control) (n : string) : Prop := {
  ab_reg : Registry_Plugin (c_reg c) n = None;
  ab_desired : n ∉ Reconciler_DesiredNames (c_rec c);
  ab_plugins : plugins (c_rec c) !! n = None;
  ab_provider : Gateway_provider (c_gw c) n = None;
  ab_tokens : c_wired c = true -> forall t, pluginTokens (c_gw c) !! t <> Some n;
}.

Lemma not_desired n (l : list (Desired LaunchSpec)) : n ∉ d_Name <$> filter (fun x => d_Name x <> n) l.
Proof. rewrite list_elem_of_fmap. intros (d & -> & [? ?]%list_elem_of_filter). done. Qed.

Lemma unrouted c n : ctl_ok c -> plugins (c_rec c) !! n = None -> Gateway_provider (c_gw c) n = None.
Proof.
  intros Hc Hp. destruct (Gateway_provider (c_gw c) n) as [x|] eqn:E; [|done].
  destruct (ctl_wired _ Hc n) as [ep Hr]; [by eexists|]. rw (ok_routes cfg _ (ctl_rec _ Hc)) Hp in Hr. done.
Qed.

Lemma dropToken_ok c n : ctl_ok c -> ctl_ok (controlService_dropToken c n).
Proof. intros Hc. unfold controlService_dropToken. destruct (c_wired c); [by apply with_gw_ok|done]. Qed.

(** What removing a plugin does, component by component. *)
Lemma remove_plugin_fields c n :
  c_reg (remove_plugin c n) = Registry_Deregister (c_reg c) n /\
  pluginTokens (c_gw (remove_plugin c n)) =
    (if c_wired c then filter (fun '(_, x) => x <> n) (pluginTokens (c_gw c)) else pluginTokens (c_gw c)) /\
  desired (c_rec (remove_plugin c n)) = filter (fun x => d_Name x <> n) (desired (c_rec c)) /\
  plugins (c_rec (remove_plugin c n)) = delete n (plugins (c_rec c)) /\
  c_wired (remove_plugin c n) = c_wired c.
Proof.
  unfold remove_plugin. destruct (drive_admin c (Reconciler_RemoveDesired cfg (c_rec c) n)) as (H1 & H2 & H3).
  pose proof (drive_rec c (Reconciler_RemoveDesired cfg (c_rec c) n)) as H4.
  destruct (RemoveDesired_frame cfg (c_rec c) n) as (H5 & H6 & _).
  fold (c_RemoveDesired c n) in *. unfold controlService_dropToken. rw H3.
  destruct (c_wired c); unfold c_Deregister, with_reg, with_gw, c_reg in *; simpl in *; rw ?H1 ?H2 ?H4; by split_and!.
Qed.

Lemma remove_plugin_ok c n : ctl_ok c -> ctl_ok (remove_plugin c n).
Proof.
  intros Hc. unfold remove_plugin.
  assert (ctl_ok (controlService_dropToken (c_RemoveDesired c n) n)) as H1 by by apply dropToken_ok, c_RemoveDesired_ok.
  apply with_reg_ok; [done|]. apply Registry_Deregister_wf, H1.
Qed.

Lemma Deregister_absent r n : Registry_Plugin (Registry_Deregister r n) n = None.
Proof.
  unfold Registry_Deregister, Registry_Plugin. destruct (byName r !! n) eqn:E; simpl; [by rw lookup_delete_eq|done].
Qed.

Lemma remove_plugin_absent c n : ctl_ok c -> absent (remove_plugin c n) n.
Proof.
  intros Hc. destruct (remove_plugin_fields c n) as (H1 & H2 & H3 & H4 & H5).
  assert (plugins (c_rec (remove_plugin c n)) !! n = None) as Hp by by rw H4 lookup_delete_eq.
  constructor; [by rw H1 Deregister_absent|unfold Reconciler_DesiredNames; rw H3; apply not_desired|done| |].
  - apply unrouted; [by apply remove_plugin_ok|done].
  - rw H5 H2. intros ->. intros t. rewrite map_lookup_filter_Some. tauto.
Qed.

(** ** Registration *)

Section Registration.
Context (Hcap : 0 < CrashLoopCap cfg).
Context (c0 : Control) (name tok : string) (m : Manifest).
Context (Hc0 : ctl_ok c0) (Habs : absent c0 name) (Hfresh : pluginTokens (c_gw c0) !! tok = None).
Context (Hname : name_of m = name).

(** The plane while the plugin is coming up: exactly one registration, one desired entry
    and one token more than before. *)
Record coming_up (c : Control) : Prop := {
  cu_ok : ctl_ok c;
  cu_wired : c_wired c = c_wired c0;
  cu_reg : Registry_Register (c_reg c0) m = Ok (c_reg c);
  cu_tokens : pluginTokens (c_gw c) =
    if c_wired c0 then <[tok := name]> (pluginTokens (c_gw c0)) else pluginTokens (c_gw c0);
  cu_desired : exists d, d_Name d = name /\ desired (c_rec c) = desired (c_rec c0) ++ [d];
}.

(** The plane is back to what it was, and nothing of the plugin is left. *)
Record restored (c : Control) : Prop := {
  rb_ok : ctl_ok c;
  rb_reg : c_reg c = c_reg c0;
  rb_tokens : pluginTokens (c_gw c) = pluginTokens (c_gw c0);
  rb_desired : desired (c_rec c) = desired (c_rec c0);
  rb_absent : absent c name;
}.

Lemma restored_refl : restored c0.
Proof. by constructor. Qed.

Lemma others_desired : filter (fun x => d_Name x <> name) (desired (c_rec c0)) = desired (c_rec c0).
Proof.
  apply filter_all, Forall_forall. intros d Hd Hn. apply (ab_desired _ _ Habs).
  unfold Reconciler_DesiredNames. rewrite list_elem_of_fmap. eauto.
Qed.

Lemma tokens_without : c_wired c0 = true ->
  filter (fun '(_, x) => x <> name) (<[tok := name]> (pluginTokens (c_gw c0))) = pluginTokens (c_gw c0).
Proof.
  intros Hw. rewrite map_filter_insert_not'; [|by intros []|intros y Hy; congruence].
  apply map_filter_id. intros t x Ht ->. by apply (ab_tokens _ _ Habs Hw t).
Qed.

Lemma remove_restores c : coming_up c -> restored (remove_plugin c name).
Proof.
  intros [Hok Hw Hreg Ht (d & Hd & Hds)]. destruct (remove_plugin_fields c name) as (H1 & H2 & H3 & _ & _).
  constructor; [by apply remove_plugin_ok| | | |by apply remove_plugin_absent].
  - rw H1 -Hname. by apply Deregister_Register; [apply Hc0|].
  - rw H2 Hw Ht. destruct (c_wired c0) eqn:E; [by apply tokens_without|done].
  - rw H3 Hds filter_app others_desired filter_cons_False; [by apply app_nil_r|naive_solver].
Qed.

Lemma passes_coming_up ts c : coming_up c -> coming_up (fold_left c_Reconcile ts c).
Proof.
  intros [Hok Hw Hreg Ht Hds]. destruct (passes_ok ts c Hcap Hok) as (H1 & (H2 & H3 & H4) & H5).
  constructor; [done|by rw H4|by rw H2|by rw H3|by rw H5].
Qed.

(** A running plugin, as the reply describes it. *)
Definition up (reply : RegisterReply) (c : Control) : Prop :=
  coming_up c /\ (Reconciler_Status (c_rec c) name).1.1 = Healthy /\
  reply = mkRegisterReply name "Healthy" (Reconciler_Endpoint (c_rec c) name).

Definition outcome_ok (out : result RegisterReply * Control) : Prop :=
  match fst out with Ok reply => up reply (snd out) | Err _ => restored (snd out) end.

Lemma await_spec fuel i clock passes cancelled deadline c out :
  coming_up c -> await_healthy fuel i clock passes cancelled name deadline c = Some out -> outcome_ok out.
Proof.
  revert i c. induction fuel as [|fuel IH]; intros i c Hc; [done|]. simpl.
  apply (passes_coming_up (passes i)) in Hc. set (c1 := fold_left _ _ _) in *.
  destruct (decide (_ = Healthy)) as [E|E].
  { rw E. by intros [= <-]. }
  destruct (_ || _); [intros [= <-]; by apply remove_restores|].
  destruct (cancelled i); [intros [= <-]; by apply remove_restores|]. by apply IH.
Qed.

Lemma await_ends fuel i clock passes cancelled timeout c :
  ticks (50 * milli) clock -> timeout < 50 * milli * Z.of_nat (i + fuel - 1) -> fuel <> 0%nat ->
  is_Some (await_healthy fuel i clock passes cancelled name (clock 0%nat + timeout) c).
Proof.
  intros Hc. revert i c. induction fuel as [|fuel IH]; intros i c Hlt Hne; [done|]. simpl.
  destruct (decide _); [by eexists|]. destruct (bool_decide _); [by eexists|].
  destruct (Z.ltb_spec (clock 0%nat + timeout) (clock (S i))); [by eexists|].
  destruct (cancelled i); [by eexists|]. specialize (Hc i). apply IH.
  - by replace (S i + fuel - 1)%nat with (i + S fuel - 1)%nat by lia.
  - intros ->. replace (i + 1 - 1)%nat with i in Hlt by lia. lia.
Qed.

Lemma launch_plugin_spec clock passes cancelled ls c1 :
  0 <= readyTO -> ticks (50 * milli) clock ->
  Registry_Register (c_reg c0) m = Ok c1 ->
  exists out, launch_plugin clock passes cancelled tok name m ls (with_reg c0 c1) = Some out /\ outcome_ok out.
Proof.
  intros Ht Hclock Hreg. unfold launch_plugin.
  assert (registry_wf c1) as Hwf by by eapply Registry_insert_wf; [apply Hc0|].
  destruct (isolationProfile _) as [profile|e].
  2:{ eexists; split; [done|]. unfold outcome_ok, c_Deregister, with_reg, with_gw, c_reg; simpl.
      assert (Registry_Deregister c1 name = reg (c_gw c0)) as -> by (rw -Hname; by apply Deregister_Register; [apply Hc0|]).
      assert (mkControl (mkGateway (reg (c_gw c0)) (g_providers (c_gw c0)) (routes (c_gw c0)) (StreamIdleTimeout (c_gw c0))
                (pluginTokens (c_gw c0)) (requireAuth (c_gw c0))) (c_wired c0) (c_rec c0) (c_rw c0) = c0) as ->.
      { clear. by destruct c0 as [[] ? ? ?]. }
      apply restored_refl. }
  set (cT := setToken _ _ _). set (spec := injectLaunchEnv _ _ _ _ _).
  assert (ctl_ok cT /\ c_rec cT = c_rec c0 /\ c_wired cT = c_wired c0 /\ c_reg cT = c1 /\
          pluginTokens (c_gw cT) = if c_wired c0 then <[tok := name]> (pluginTokens (c_gw c0)) else pluginTokens (c_gw c0)) as HT.
  { unfold cT, setToken. simpl. destruct (c_wired c0) eqn:Ew; split_and!; try done; by destruct Hc0. }
  destruct HT as (HT & Hrec & Hw & Hr1 & Htk).
  unfold Reconciler_AddDesired. rw Hrec. destruct (existsb _ _) eqn:Ex.
  { exfalso. apply existsb_exists in Ex as (x & Hx & E). bool_to_prop. apply (ab_desired _ _ Habs).
    unfold Reconciler_DesiredNames. rewrite list_elem_of_fmap. exists x. split; [done|]. by apply list_elem_of_In. }
  set (r1 := set_desired _ _). set (timeout := readyTO + _).
  assert (coming_up (drive cT r1)) as Hcu.
  { destruct (drive_admin cT r1) as (E1 & E2 & E3). constructor.
    - eapply (drive_ok cT r1 []); [done|by rw Hrec app_nil_r|]. by destruct (ctl_rec _ Hc0).
    - by rw E3.
    - by rw E1 Hr1.
    - by rw E2.
    - rw drive_rec. by exists (mkDesired name spec). }
  assert (0 <= timeout) by (unfold timeout, milli; lia).
  destruct (await_ends (wait_fuel timeout (50 * milli)) 0 clock passes cancelled timeout (drive cT r1)) as [out Hout];
    [done|by apply wait_fuel_enough|done|].
  exists out. split; [done|]. by eapply await_spec.
Qed.
End Registration.


(** Removing a plugin from the running plane leaves nothing of it, whatever state it is
    in: it is in neither the registry nor the desired set, has no status, no route, and
    no token that authenticates it; every other plugin keeps its manifest, its desired
    entry, its status and its tokens; and removing it again reports that it was not
    there and changes none of these. *)
Theorem DeregisterPlugin_removes (c : Control) (n : string) :
  ctl_ok c ->
  let c' := (controlService_DeregisterPlugin c n).2 in
  ctl_ok c' /\ absent c' n /\
  (forall p, p <> n -> Registry_Plugin (c_reg c') p = Registry_Plugin (c_reg c) p /\
     plugins (c_rec c') !! p = plugins (c_rec c) !! p /\
     (forall t, pluginTokens (c_gw c') !! t = Some p <-> pluginTokens (c_gw c) !! t = Some p) /\
     forall d, d_Name d = p -> (d ∈ desired (c_rec c') <-> d ∈ desired (c_rec c))) /\
  let '(was_present, c'') := controlService_DeregisterPlugin c' n in
  was_present = false /\ c_reg c'' = c_reg c' /\ desired (c_rec c'') = desired (c_rec c') /\
  plugins (c_rec c'') = plugins (c_rec c') /\ pluginTokens (c_gw c'') = pluginTokens (c_gw c').
Proof.
  intros Hc. simpl. pose proof (remove_plugin_absent c n Hc) as Ha.
  destruct (remove_plugin_fields c n) as (H1 & H2 & H3 & H4 & H5).
  destruct (remove_plugin_fields (remove_plugin c n) n) as (K1 & K2 & K3 & K4 & _).
  split_and!; [by apply remove_plugin_ok|done| | | | | |].
  - intros p Hp. split_and!.
    + rw H1. unfold Registry_Deregister, Registry_Plugin. destruct (byName (c_reg c) !! n); simpl; [by rw lookup_delete_ne|done].
    + by rw H4 lookup_delete_ne.
    + intros t. rw H2. destruct (c_wired c); [|done]. rewrite map_lookup_filter_Some. naive_solver.
    + intros d Hd. rw H3. rewrite list_elem_of_filter. naive_solver.
  - by rw (ab_reg _ _ Ha).
  - rw K1. unfold Registry_Deregister. pose proof (ab_reg _ _ Ha) as E. unfold Registry_Plugin in E. by rw E.
  - rw K3. apply filter_all, Forall_forall. intros d Hd Hn. apply (ab_desired _ _ Ha).
    unfold Reconciler_DesiredNames. rewrite list_elem_of_fmap. eauto.
  - rw K4. apply delete_id, (ab_plugins _ _ Ha).
  - rw K2. destruct (c_wired (remove_plugin c n)) eqn:E; [|done]. apply map_filter_id.
    intros t x Ht ->. by apply (ab_tokens _ _ Ha E t).
Qed.

(** Refreshing a plugin with a request whose isolation profile is unknown removes the
    running plugin, and keeps its bearer token: the request is refused, the plugin is in
    neither the registry nor the desired set, and the token of the removed instance
    still authenticates as it. *)
Theorem refresh_failure_keeps_token clock passes cancelled tok req ls m e t (c : Control) :
  rq_Name req <> "" -> Parse yaml_Manifest (rq_Yaml req) = Ok m -> name_of m = rq_Name req ->
  is_Some (Registry_Plugin (c_reg c) (rq_Name req)) ->
  rq_Launch req = Some ls -> lr_Image ls <> "" -> isolationProfile (lr_Isolation ls) = Err e ->
  pluginTokens (c_gw c) !! t = Some (rq_Name req) ->
  exists c', controlService_RegisterPlugin clock passes cancelled tok req c =
      Some (Err (StatusWrap InvalidArgument "isolation: %v" [] e), c') /\
    Registry_Plugin (c_reg c') (rq_Name req) = None /\ rq_Name req ∉ Reconciler_DesiredNames (c_rec c') /\
    pluginTokens (c_gw c') !! t = Some (rq_Name req).
Proof.
  intros Hn Hp Hm [old Hold] Hls Hi Hiso Ht. unfold controlService_RegisterPlugin.
  rw decide_False // Hp decide_True // Hold.
  set (n := rq_Name req) in *. set (c1 := c_Deregister _ n).
  destruct (drive_admin c (Reconciler_RemoveDesired cfg (c_rec c) n)) as (E1 & E2 & _).
  pose proof (drive_rec c (Reconciler_RemoveDesired cfg (c_rec c) n)) as E3. fold (c_RemoveDesired c n) in *.
  assert (Registry_Plugin (c_reg c1) n = None) as Hn1 by apply Deregister_absent.
  unfold Registry_Register, Registry_insert. rw Hm. unfold Registry_Plugin in Hn1. rw Hn1 Hls decide_False //.
  unfold launch_plugin. rw Hiso. eexists; split; [done|]. split_and!.
  - apply Deregister_absent.
  - simpl. rw E3. unfold Reconciler_DesiredNames. destruct (RemoveDesired_frame cfg (c_rec c) n) as (-> & _). apply not_desired.
  - simpl. by rw E2.
Qed.
End Control.

(** ** At concrete planes *)

(** Instances are named after their plugin and always healthy, but for plugins called
    [dud], which never are. *)
#[local] Instance lab_runtime : DeploymentRuntime (list string) LaunchSpec := {
  rt_Launch rt _ name _ := (Ok (name, name +:+ ":50051"), rt ++ [name]);
  rt_Healthcheck rt _ id := (Ok (if decide (id = "dud") then UNHEALTHY else HEALTHY), rt);
  rt_Terminate rt _ id := filter (fun x => x <> id) rt;
}.

Definition lab_manifest (d : string) : result Manifest := Ok (toy_manifest d).
Definition lab_empty : Control (R := list string) (Conn := string) :=
  mkControl (gateway_New empty_registry ∅ []) true (reconciler_New [] []) newGatewayRewire.
Definition lab_clock (i : nat) : Z := 50 * milli * Z.of_nat i.
Definition lab_passes (i : nat) : list Z := [Z.of_nat i * (1000 * milli)].
Definition lab_register (name iso : string) (c : Control) :=
  controlService_RegisterPlugin demo_cfg demo_dial lab_manifest "gw:7777" 0 lab_clock lab_passes (fun _ => None)
    ("tok-" +:+ name) (mkRegisterReq name name (Some (mkLaunchReq "rat/x:1" iso []))) c.

Lemma lab_ok : ctl_ok demo_cfg lab_empty.
Proof.
  constructor; [apply empty_registry_wf|by constructor|]. intros n. unfold Gateway_provider. simpl.
  rw lookup_empty. by intros [? ?].
Qed.

Lemma lab_absent n : absent lab_empty n.
Proof. constructor; try done. intros H. by apply not_elem_of_nil in H. Qed.


Definition lab_registered : Control := with_reg lab_empty (reg_of [toy_manifest "duck"]).
Definition lab_running : Control :=
  from_option snd lab_empty
    (launch_plugin demo_cfg demo_dial "gw:7777" 0 lab_clock lab_passes (fun _ => None) "tok-duck" "duck"
       (toy_manifest "duck") (mkLaunchReq "rat/x:1" "i9" []) lab_registered).

Lemma lab_running_ok : ctl_ok demo_cfg lab_running.
Proof.
  destruct (launch_plugin_spec demo_cfg demo_dial lab_manifest "gw:7777" 0 eq_refl lab_empty "duck" "tok-duck" (toy_manifest "duck")
              lab_ok (lab_absent "duck") eq_refl eq_refl lab_clock lab_passes (fun _ => None)
              (mkLaunchReq "rat/x:1" "i9" []) (reg_of [toy_manifest "duck"])) as ([res c'] & E & Hout);
    [lia|intros i; unfold lab_clock, milli; lia|reflexivity|].
  unfold lab_running. unfold lab_registered. rewrite E. simpl. destruct res; apply Hout.
Qed.

Lemma DeregisterPlugin_removes_witness :
  Gateway_provider (c_gw lab_running) "duck" = Some "duck:50051" /\
  let c' := (controlService_DeregisterPlugin demo_cfg demo_dial lab_running "duck").2 in
  ctl_ok demo_cfg c' /\ absent c' "duck".
Proof.
  split; [vm_compute; reflexivity|]. intros c'.
  destruct (DeregisterPlugin_removes demo_cfg demo_dial lab_manifest "gw:7777" lab_running "duck" lab_running_ok) as (H1 & H2 & _).
  split; [exact H1|exact H2].
Defined.

Lemma refresh_failure_keeps_token_witness :
  exists c',
    controlService_RegisterPlugin demo_cfg demo_dial lab_manifest "gw:7777" 0 lab_clock lab_passes (fun _ => None)
      "tok-2" (mkRegisterReq "duck" "duck" (Some (mkLaunchReq "rat/x:1" "i8" []))) lab_running =
      Some (Err (StatusWrap InvalidArgument "isolation: %v" []
        (Errorf ("unknown isolation profile %q (only " +:+ dq +:+ "i9" +:+ dq +:+ " is supported in v1)") ["i8"])), c') /\
    Registry_Plugin (c_reg c') "duck" = None /\ "duck" ∉ Reconciler_DesiredNames (c_rec c') /\
    pluginTokens (c_gw c') !! "tok-duck" = Some "duck".
Proof.
  apply (refresh_failure_keeps_token demo_cfg demo_dial lab_manifest "gw:7777" 0 lab_clock lab_passes (fun _ => None)
    "tok-2" (mkRegisterReq "duck" "duck" (Some (mkLaunchReq "rat/x:1" "i8" [])))
    (mkLaunchReq "rat/x:1" "i8" []) (toy_manifest "duck")
    (Errorf ("unknown isolation profile %q (only " +:+ dq +:+ "i9" +:+ dq +:+ " is supported in v1)") ["i8"])
    "tok-duck" lab_running); try (vm_compute; reflexivity); try discriminate.
  vm_compute. eexists. reflexivity.
Defined.
