(* ===== verification/Admin.v ===== *)
(** The control service while it is in use (src/core/cmd/rat/control.go over reconciler.go): its
    handlers as sequences of the atomic steps they are made of, requests in flight at the same
    time, and the reconcile loop, which copies the desired set before it makes its pass. *)
From S2P Require Import Prelude Manifest Registry CallContext Gateway Reconciler DeployRuntime Supervisor Plane Rewire Control.

(** What a user of the service is answered. *)
Inductive observation :=
  | Registered (req : RegisterReq) (r : result RegisterReply)
  | Removed (name : string) (present : bool)
  | Listed (l : list PluginStatus).

(** A request in flight: its answer, or the next step it makes and what follows, which may
    depend on the state the step finds.  A [Locked] step takes the reconcile mutex; [Stuck]
    marks a loop that runs out of its fuel. *)
Inductive prog (S A : Type) :=
  | Ret (a : A)
  | Do (f : S -> S) (k : S -> prog S A)
  | Locked (f : S -> S) (k : S -> prog S A)
  | Stuck.
Arguments Ret {S A}. Arguments Do {S A}. Arguments Locked {S A}. Arguments Stuck {S A}.

(** The reconcile loop between passes, with its copy of the desired set, or in a pass. *)
Inductive loop_state (LaunchSpec : Type) :=
  | Idle
  | Copied (copy : list (Desired LaunchSpec))
  | Passing (rest : list (Desired LaunchSpec)) (now : Z).
Arguments Idle {LaunchSpec}. Arguments Copied {LaunchSpec}. Arguments Passing {LaunchSpec}.
Definition loop_names {LaunchSpec} (l : loop_state LaunchSpec) : list string :=
  match l with Idle => [] | Copied copy => d_Name <$> copy | Passing rest _ => d_Name <$> rest end.
Definition in_pass {LaunchSpec} (l : loop_state LaunchSpec) : bool :=
  match l with Passing _ _ => true | _ => false end.

Section Admin.
Context {R Conn : Type} `{DeploymentRuntime R LaunchSpec}.
Context (cfg : Config).
Context (grpc_NewClient : nat -> string -> result Conn).
Context (yaml_Manifest : string -> result Manifest).
Context (newPluginToken : nat -> string).
Context (gwAddr : string) (readyTO : Z).
Implicit Types (c : Control (R := R) (Conn := Conn)).

(** The service's state, and how many tokens have been minted. *)
Record adm := mkAdm { a_ctl : Control (R := R) (Conn := Conn); a_minted : nat }.
Definition on (f : Control (R := R) (Conn := Conn) -> Control (R := R) (Conn := Conn)) (s : adm) : adm :=
  mkAdm (f (a_ctl s)) (a_minted s).
Notation P := (prog adm observation).

(** ** The atomic steps *)

(** [RemoveDesired]: the desired set under its own lock, the status under the reconcile mutex,
    then, outside both, the notification and the call of the runtime, which has what is left
    of the caller's time and at most the timeout of a call. *)
Definition drop_desired (n : string) c :=
  drive grpc_NewClient c (set_desired (c_rec c) (filter (fun x => d_Name x <> n) (desired (c_rec c)))).
Definition forget (n : string) c :=
  let r := c_rec c in
  match plugins r !! n with
  | None => c
  | Some _ =>
      drive grpc_NewClient c
        (Reconciler_publishLocked (mkReconciler (desired r) (delete n (plugins r)) (snap r) (runtime r) (events r)) n)
  end.
Definition unbind (n : string) c := drive grpc_NewClient c (Reconciler_unbind (c_rec c) n).
Definition terminate (budget : Z) (id : string) c :=
  if decide (id = "") then c
  else drive grpc_NewClient c
         (set_runtime (c_rec c) (rt_Terminate (runtime (c_rec c)) (Z.min budget (rpc_timeout cfg)) id) [ETerminate id]).

Definition register_manifest (m : Manifest) c :=
  match Registry_Register (c_reg c) m with Ok r => with_reg c r | Err _ => c end.
Definition add_desired (d : Desired LaunchSpec) c :=
  match Reconciler_AddDesired (c_rec c) d with Ok r => drive grpc_NewClient c r | Err _ => c end.
Definition mint_token (n : string) (s : adm) : adm :=
  mkAdm (setToken (a_ctl s) (newPluginToken (a_minted s)) n) (S (a_minted s)).

(** ** The handlers *)

Definition RemoveDesired (budget : Z) (n : string) (next : P) : P :=
  Do (on (drop_desired n)) (fun _ =>
  Locked (on (forget n)) (fun s =>
  match plugins (c_rec (a_ctl s)) !! n with
  | None => next
  | Some ps => Do (on (unbind n)) (fun _ => Do (on (terminate budget (Reconciler.instanceID ps))) (fun _ => next))
  end)).

(** [RemoveDesired], [dropToken], [Deregister]: every rollback after the launch was asked for,
    and the removal. *)
Definition take_out (budget : Z) (n : string) (o : observation) : P :=
  RemoveDesired budget n
    (Do (on (fun c => controlService_dropToken c n)) (fun _ =>
     Do (on (fun c => c_Deregister c n)) (fun _ => Ret o))).

(** The bounded wait for health.  [budget 1] is what is left of the caller's time at a rollback;
    nothing is, when the caller has gone. *)
Fixpoint await_healthy (fuel i : nat) (clock : nat -> Z) (cancelled : nat -> option error) (budget : nat -> Z)
    (req : RegisterReq) (deadline : Z) : P :=
  match fuel with
  | O => Stuck
  | S fuel =>
      let name := rq_Name req in
      Do id (fun s =>
      let st := (Reconciler_Status (c_rec (a_ctl s)) name).1.1 in
      if decide (st = Healthy) then
        Do id (fun s => Ret (Registered req (Ok (mkRegisterReply name (State_String st) (Reconciler_Endpoint (c_rec (a_ctl s)) name)))))
      else if bool_decide (st = Degraded) || (deadline <? clock (S i)) then
        take_out (budget 1%nat) name
          (Registered req (Err (Status DeadlineExceeded "plugin %q did not become healthy (state=%s) — rolled back" [name; State_String st])))
      else match cancelled i with
           | Some e => take_out 0 name (Registered req (Err e))
           | None => await_healthy fuel (S i) clock cancelled budget req deadline
           end)
  end.

Definition launch_plugin (clock : nat -> Z) (cancelled : nat -> option error) (budget : nat -> Z) (req : RegisterReq)
    (m : Manifest) (ls : LaunchReq) : P :=
  let name := rq_Name req in
  match isolationProfile (lr_Isolation ls) with
  | Err e => Do (on (fun c => c_Deregister c name)) (fun _ => Ret (Registered req (Err (StatusWrap InvalidArgument "isolation: %v" [] e))))
  | Ok profile =>
      Do (mint_token name) (fun s =>
      let spec := injectLaunchEnv (mkLaunch (lr_Image ls) (Some profile) (lr_Env ls)) name gwAddr (newPluginToken (a_minted s))
                    (Manifest_PublishPorts m) in
      Do (on (add_desired (mkDesired name spec))) (fun s =>
      match Reconciler_AddDesired (c_rec (a_ctl s)) (mkDesired name spec) with
      | Err e =>
          Do (on (fun c => controlService_dropToken c name)) (fun _ =>
          Do (on (fun c => c_Deregister c name)) (fun _ =>
          Ret (Registered req (Err (StatusWrap FailedPrecondition "add desired: %v" [] e)))))
      | Ok _ =>
          let timeout := readyTO + 5 * (1000 * milli) in
          await_healthy (wait_fuel timeout (50 * milli)) 0 clock cancelled budget req (clock 0%nat + timeout)
      end))
  end.

Definition register_plugin (clock : nat -> Z) (cancelled : nat -> option error) (budget : nat -> Z) (req : RegisterReq)
    (m : Manifest) : P :=
  Do (on (register_manifest m)) (fun s =>
  match Registry_Register (c_reg (a_ctl s)) m with
  | Err e => Ret (Registered req (Err (StatusWrap FailedPrecondition "register: %v" [] e)))
  | Ok _ =>
      match rq_Launch req with
      | Some ls =>
          if decide (lr_Image ls = "") then Ret (Registered req (Ok (mkRegisterReply (rq_Name req) "registered" "")))
          else launch_plugin clock cancelled budget req m ls
      | None => Ret (Registered req (Ok (mkRegisterReply (rq_Name req) "registered" "")))
      end
  end).

Definition controlService_RegisterPlugin (clock : nat -> Z) (cancelled : nat -> option error) (budget : nat -> Z)
    (req : RegisterReq) : P :=
  let name := rq_Name req in
  if decide (name = "") then Ret (Registered req (Err (Status InvalidArgument "name required" [])))
  else
    match Parse yaml_Manifest (rq_Yaml req) with
    | Err e => Ret (Registered req (Err (StatusWrap InvalidArgument "manifest: %v" [] e)))
    | Ok m =>
      if decide (name_of m = name) then
        Do id (fun s =>
        match Registry_Plugin (c_reg (a_ctl s)) name with
        | Some _ =>
            RemoveDesired (budget 0%nat) name
              (Do (on (fun c => c_Deregister c name)) (fun _ => register_plugin clock cancelled budget req m))
        | None => register_plugin clock cancelled budget req m
        end)
      else Ret (Registered req (Err (Status InvalidArgument "manifest name %q != request name %q" [name_of m; name])))
    end.

(** The answer carries whether the plugin was present. *)
Definition controlService_DeregisterPlugin (budget : Z) (n : string) : P :=
  Do id (fun s => take_out budget n (Removed n (bool_decide (is_Some (Registry_Plugin (c_reg (a_ctl s)) n))))).

Fixpoint list_rows (names : list string) (ms : list Manifest) (rows : list PluginStatus) : P :=
  match ms with
  | [] => Ret (Listed rows)
  | m :: ms =>
      let name := name_of m in
      if bool_decide (name ∈ names) then
        Do id (fun s =>
        let st := (Reconciler_Status (c_rec (a_ctl s)) name).1.1 in
        Do id (fun s =>
        list_rows names ms
          (rows ++ [mkPluginStatus name (Kind m) (Manifest_ProvidesCaps m) (State_String st) (Reconciler_Endpoint (c_rec (a_ctl s)) name)])))
      else list_rows names ms (rows ++ [mkPluginStatus name (Kind m) (Manifest_ProvidesCaps m) "registered" ""])
  end.
Definition controlService_ListPlugins : P :=
  Do id (fun s => Do id (fun s' => list_rows (Reconciler_DesiredNames (c_rec (a_ctl s))) (Registry_All (c_reg (a_ctl s'))) [])).

(** ** The plane in use

    Requests in flight are kept by the plugin they are about, so that two requests about one
    plugin do not overlap; listings are numbered. *)
Record live := mkLive {
  lv_adm : adm;
  lv_loop : loop_state LaunchSpec;
  lv_reqs : gmap string P;
  lv_lists : gmap nat P;
}.
Definition lv_ctl (w : live) : Control (R := R) (Conn := Conn) := a_ctl (lv_adm w).

Inductive move :=
  (* the loop copies the desired set, takes the mutex, looks at the next plugin, is done *)
  | Copy | Begin (now : Z) | One | End
  | AskRegister (clock : nat -> Z) (cancelled : nat -> option error) (budget : nat -> Z) (req : RegisterReq)
  | AskRemove (budget : Z) (n : string)
  | AskList (id : nat)
  (* the request about [n], the [id]-th listing makes its next step, is answered *)
  | Work (n : string) | WorkList (id : nat) | Answer (n : string) | AnswerList (id : nat).

Definition step_of (p : P) (l : loop_state LaunchSpec) (s : adm) : option (adm * P) :=
  match p with
  | Do f k => Some (f s, k s)
  | Locked f k => if in_pass l then None else Some (f s, k s)
  | Ret _ | Stuck => None
  end.

(** One move, [None] when it cannot be made. *)
Definition do_move (w : live) (m : move) : option live :=
  let '(mkLive s l reqs lists) := w in
  match m with
  | Copy => match l with Idle => Some (mkLive s (Copied (desired (c_rec (a_ctl s)))) reqs lists) | _ => None end
  | Begin now => match l with Copied copy => Some (mkLive s (Passing copy now) reqs lists) | _ => None end
  | One =>
      match l with
      | Passing (d :: rest) now =>
          let c := a_ctl s in
          Some (mkLive (mkAdm (drive grpc_NewClient c (Reconciler_reconcileOne cfg (c_rec c) d now)) (a_minted s))
                  (Passing rest now) reqs lists)
      | _ => None
      end
  | End => match l with Passing [] _ => Some (mkLive s Idle reqs lists) | _ => None end
  | AskRegister clock cancelled budget req =>
      if reqs !! rq_Name req then None
      else Some (mkLive s l (<[rq_Name req := controlService_RegisterPlugin clock cancelled budget req]> reqs) lists)
  | AskRemove budget n =>
      if reqs !! n then None else Some (mkLive s l (<[n := controlService_DeregisterPlugin budget n]> reqs) lists)
  | AskList id => if lists !! id then None else Some (mkLive s l reqs (<[id := controlService_ListPlugins]> lists))
  | Work n =>
      p ← reqs !! n; '(s', p') ← step_of p l s; Some (mkLive s' l (<[n := p']> reqs) lists)
  | WorkList id =>
      p ← lists !! id; '(s', p') ← step_of p l s; Some (mkLive s' l reqs (<[id := p']> lists))
  | Answer n => match reqs !! n with Some (Ret _) => Some (mkLive s l (delete n reqs) lists) | _ => None end
  | AnswerList id => match lists !! id with Some (Ret _) => Some (mkLive s l reqs (delete id lists)) | _ => None end
  end.

Definition run (w : live) (ms : list move) : option live := foldl (fun w m => w ← w; do_move w m) (Some w) ms.

(** The plane as it is when nothing is going on. *)
Definition quiet c (minted : nat) : live := mkLive (mkAdm c minted) Idle ∅ ∅.

(** ** What a step may touch *)

(** A plugin's own part of the plane, and its comparison in two states. *)
Record same_for (p : string) c c' : Prop := {
  sf_reg : byName (c_reg c') !! p = byName (c_reg c) !! p;
  sf_des : filter (fun d => d_Name d = p) (desired (c_rec c')) = filter (fun d => d_Name d = p) (desired (c_rec c));
  sf_plug : plugins (c_rec c') !! p = plugins (c_rec c) !! p;
  sf_route : routes_of (events (c_rec c')) !! p = routes_of (events (c_rec c)) !! p;
  sf_toks : forall t, pluginTokens (c_gw c') !! t = Some p <-> pluginTokens (c_gw c) !! t = Some p;
}.
Definition only (n : string) c c' : Prop := forall p, p <> n -> same_for p c c'.

Lemma same_for_refl p c : same_for p c c.
Proof. by constructor. Qed.
Lemma only_refl n c : only n c c.
Proof. intros p _. apply same_for_refl. Qed.

(** Notifications about one plugin. *)
Definition about (n : string) (e : event) : Prop :=
  match e with EBind m _ | EUnbind m => m = n | ELaunch _ | ETerminate _ => True end.

Lemma fold_route_at es (rs rs' : gmap string string) p :
  rs !! p = rs' !! p -> fold_left route_event es rs !! p = fold_left route_event es rs' !! p.
Proof.
  revert rs rs'. induction es as [|e es IH]; intros rs rs' E; [done|]. simpl. apply IH. destruct e as [m|id|m ep|m]; simpl; try done.
  - destruct (decide (m = p)) as [->|]; [by rewrite !lookup_insert_eq|by rewrite !lookup_insert_ne].
  - destruct (decide (m = p)) as [->|]; [by rewrite !lookup_delete_eq|by rewrite !lookup_delete_ne].
Qed.

Lemma fold_route_about n es (rs : gmap string string) p : Forall (about n) es -> p <> n -> fold_left route_event es rs !! p = rs !! p.
Proof.
  intros He Hp. revert rs. induction He as [|e es Ha _ IH]; intros rs; [done|]. simpl. rewrite IH.
  destruct e; simpl in *; subst; [done..|by rewrite lookup_insert_ne|by rewrite lookup_delete_ne].
Qed.

(** ** What is kept *)

(** What a property of the plane has to be closed under for every step to keep it. *)
Record kept (I : Control (R := R) (Conn := Conn) -> Prop) : Prop := {
  kp_reg : forall c r, I c -> registry_wf r -> I (with_reg c r);
  kp_gw : forall c toks, I c -> I (with_gw c (with_tokens (c_gw c) toks));
  kp_drive : forall c r es, I c -> events r = events (c_rec c) ++ es -> I (drive grpc_NewClient c r);
  kp_wf : forall c, I c -> registry_wf (c_reg c);
  kp_covered : forall c, I c -> covered_by (c_gw c, c_rw c) (routes_of (events (c_rec c)));
}.

Section Kept.
Context (Hcap : 0 < CrashLoopCap cfg) (Hinj : Inj (=) (=) newPluginToken).
Context (I : Control (R := R) (Conn := Conn) -> Prop) (HI : kept I).

Record sane (s : adm) (l : loop_state LaunchSpec) : Prop := {
  sn_I : I (a_ctl s);
  sn_wired : c_wired (a_ctl s) = true;
  sn_snap : snap (c_rec (a_ctl s)) = view_of <$> plugins (c_rec (a_ctl s));
  sn_status : forall n ps, plugins (c_rec (a_ctl s)) !! n = Some ps -> status_ok cfg ps;
  sn_names : NoDup (Reconciler_DesiredNames (c_rec (a_ctl s)));
  sn_loop : NoDup (loop_names l);
  sn_tokens : forall t n, pluginTokens (c_gw (a_ctl s)) !! t = Some n -> exists j, (j < a_minted s)%nat /\ t = newPluginToken j;
}.

(** A change to the reconciler. *)
Lemma drive_sane s l r es :
  sane s l -> events r = events (c_rec (a_ctl s)) ++ es -> snap r = view_of <$> plugins r ->
  (forall n ps, plugins r !! n = Some ps -> status_ok cfg ps) -> NoDup (Reconciler_DesiredNames r) ->
  sane (on (fun c => drive grpc_NewClient c r) s) l.
Proof.
  intros [H1 H2 H3 H4 H5 H6 H7] He Hs Hst Hn. destruct (drive_admin grpc_NewClient (a_ctl s) r) as (E1 & E2 & E3).
  constructor; cbn [on a_ctl a_minted]; rewrite ?drive_rec ?E3 ?E2; try done. by eapply (kp_drive _ HI).
Qed.

Lemma drive_only n c r es :
  events r = events (c_rec c) ++ es -> Forall (about n) es ->
  (forall p, p <> n -> filter (fun d => d_Name d = p) (desired r) = filter (fun d => d_Name d = p) (desired (c_rec c))) ->
  (forall p, p <> n -> plugins r !! p = plugins (c_rec c) !! p) ->
  only n c (drive grpc_NewClient c r).
Proof.
  intros He Ha Hd Hp p Hne. destruct (drive_admin grpc_NewClient c r) as (E1 & E2 & _).
  constructor; rewrite ?drive_rec ?E1 ?E2; auto. rewrite He routes_of_app. by apply fold_route_about with n.
Qed.

Lemma with_reg_sane s l r : sane s l -> registry_wf r -> sane (on (fun c => with_reg c r) s) l.
Proof. intros [H1 H2 H3 H4 H5 H6 H7] Hr. constructor; try done. by apply (kp_reg _ HI). Qed.

Lemma filter_other n p (l : list (Desired LaunchSpec)) :
  p <> n -> filter (fun d => d_Name d = p) (filter (fun d => d_Name d <> n) l) = filter (fun d => d_Name d = p) l.
Proof.
  intros Hne. induction l as [|d l IH]; [done|]. rewrite !(filter_cons _ d). destruct (decide (d_Name d <> n)) as [H1|H1].
  - rewrite filter_cons. destruct (decide _); by rewrite ?IH.
  - rewrite IH. destruct (decide (d_Name d = p)); [exfalso; apply H1; congruence|done].
Qed.
Lemma filter_own n (l : list (Desired LaunchSpec)) : filter (fun d => d_Name d = n) (filter (fun d => d_Name d <> n) l) = [].
Proof.
  induction l as [|d l IH]; [done|]. rewrite !(filter_cons _ d). destruct (decide (d_Name d <> n)) as [H1|H1]; [|done].
  rewrite filter_cons. by destruct (decide (d_Name d = n)).
Qed.
Lemma filter_names n (l : list (Desired LaunchSpec)) : NoDup (d_Name <$> l) -> NoDup (d_Name <$> filter (fun d => d_Name d <> n) l).
Proof.
  induction l as [|d l IH]; [done|]. rewrite filter_cons. intros [Hn Hl]%NoDup_cons. destruct (decide _); [|by apply IH].
  constructor; [|by apply IH]. intros (d' & E & Hd')%list_elem_of_fmap. apply Hn. rewrite E. apply list_elem_of_fmap.
  exists d'. split; [done|]. by apply list_elem_of_filter in Hd' as [_ ?].
Qed.

(** *** Step by step *)

Lemma drop_desired_op n s l : sane s l ->
  sane (on (drop_desired n) s) l /\ only n (a_ctl s) (drop_desired n (a_ctl s)) /\
  c_reg (drop_desired n (a_ctl s)) = c_reg (a_ctl s) /\ pluginTokens (c_gw (drop_desired n (a_ctl s))) = pluginTokens (c_gw (a_ctl s)) /\
  c_rec (drop_desired n (a_ctl s)) = set_desired (c_rec (a_ctl s)) (filter (fun x => d_Name x <> n) (desired (c_rec (a_ctl s)))).
Proof.
  intros Hs. unfold drop_desired at 1. split.
  - apply (drive_sane s l _ [] Hs); cbn; [by rewrite app_nil_r|by apply Hs|by apply Hs|]. apply filter_names, Hs.
  - unfold drop_desired. destruct (drive_admin grpc_NewClient (a_ctl s) (set_desired (c_rec (a_ctl s)) (filter (fun x => d_Name x <> n) (desired (c_rec (a_ctl s)))))) as (E1 & E2 & _).
    split; [|rewrite drive_rec; by split_and!]. apply (drive_only n _ _ []); cbn; [by rewrite app_nil_r|done| |done]. intros p Hp. by apply filter_other.
Qed.

Lemma forget_op n s l : sane s l ->
  sane (on (forget n) s) l /\ only n (a_ctl s) (forget n (a_ctl s)) /\
  c_reg (forget n (a_ctl s)) = c_reg (a_ctl s) /\ pluginTokens (c_gw (forget n (a_ctl s))) = pluginTokens (c_gw (a_ctl s)) /\
  desired (c_rec (forget n (a_ctl s))) = desired (c_rec (a_ctl s)) /\ events (c_rec (forget n (a_ctl s))) = events (c_rec (a_ctl s)) /\
  plugins (c_rec (forget n (a_ctl s))) !! n = None.
Proof.
  intros Hs. unfold forget. destruct (plugins (c_rec (a_ctl s)) !! n) as [ps|] eqn:E.
  2:{ assert (on (fun c => match plugins (c_rec c) !! n with None => c | Some _ => forget n c end) s = s) as Hon.
      { unfold on. rewrite E. by destruct s. }
      split_and!; [|apply only_refl|done..]. unfold on. rewrite E. by destruct s. }
  set (r := Reconciler_publishLocked _ n).
  assert (on (fun c => match plugins (c_rec c) !! n with
     | Some _ => drive grpc_NewClient c (Reconciler_publishLocked (mkReconciler (desired (c_rec c)) (delete n (plugins (c_rec c))) (snap (c_rec c)) (runtime (c_rec c)) (events (c_rec c))) n)
     | None => c end) s = on (fun c => drive grpc_NewClient c r) s) as ->.
  { unfold on. by rewrite E. }
  destruct (drive_admin grpc_NewClient (a_ctl s) r) as (E1 & E2 & _). rewrite drive_rec. split_and!; try done.
  - apply (drive_sane s l _ [] Hs); cbn; [by rewrite app_nil_r| | |by apply Hs].
    + rewrite lookup_delete_eq (sn_snap _ _ Hs). by rewrite fmap_delete.
    + intros m psm [_ Hm]%lookup_delete_Some. by eapply sn_status.
  - apply (drive_only n _ _ []); cbn; [by rewrite app_nil_r|done..|]. intros p Hp. by rewrite lookup_delete_ne.
  - cbn. by rewrite lookup_delete_eq.
Qed.

Lemma unbind_op n s l : sane s l ->
  sane (on (unbind n) s) l /\ only n (a_ctl s) (unbind n (a_ctl s)) /\
  c_reg (unbind n (a_ctl s)) = c_reg (a_ctl s) /\ pluginTokens (c_gw (unbind n (a_ctl s))) = pluginTokens (c_gw (a_ctl s)) /\
  desired (c_rec (unbind n (a_ctl s))) = desired (c_rec (a_ctl s)) /\ plugins (c_rec (unbind n (a_ctl s))) = plugins (c_rec (a_ctl s)) /\
  routes_of (events (c_rec (unbind n (a_ctl s)))) !! n = None.
Proof.
  intros Hs. split; [apply (drive_sane s l (Reconciler_unbind (c_rec (a_ctl s)) n) [EUnbind n] Hs); cbn; [done|by apply Hs..]|].
  unfold unbind. set (r := Reconciler_unbind _ n).
  destruct (drive_admin grpc_NewClient (a_ctl s) r) as (E1 & E2 & _). rewrite drive_rec. split_and!; try done.
  - apply (drive_only n _ _ [EUnbind n]); cbn; [done|by repeat constructor|done..].
  - change (events r) with (events (c_rec (a_ctl s)) ++ [EUnbind n]). rewrite routes_of_app. cbn. by rewrite lookup_delete_eq.
Qed.

Lemma terminate_op n budget id s l : sane s l ->
  sane (on (terminate budget id) s) l /\ only n (a_ctl s) (terminate budget id (a_ctl s)) /\
  same_for n (a_ctl s) (terminate budget id (a_ctl s)).
Proof.
  intros Hs. unfold terminate. destruct (decide (id = "")) as [->|Hid].
  { split_and!; [|apply only_refl|apply same_for_refl]. by destruct s. }
  set (r := set_runtime _ _ _). split; [|split].
  - change (on _ s) with (on (fun c => drive grpc_NewClient c r) s).
    apply (drive_sane s l _ [ETerminate id] Hs); cbn; [done|by apply Hs..].
  - apply (drive_only n _ _ [ETerminate id]); cbn; [done|by repeat constructor|done..].
  - destruct (drive_admin grpc_NewClient (a_ctl s) r) as (E1 & E2 & _). constructor; rewrite ?drive_rec ?E1 ?E2; try done.
    change (events r) with (events (c_rec (a_ctl s)) ++ [ETerminate id]). by rewrite routes_of_app.
Qed.

Lemma register_op n m s l : sane s l -> name_of m = n ->
  sane (on (register_manifest m) s) l /\ only n (a_ctl s) (register_manifest m (a_ctl s)) /\
  pluginTokens (c_gw (register_manifest m (a_ctl s))) = pluginTokens (c_gw (a_ctl s)) /\
  c_rec (register_manifest m (a_ctl s)) = c_rec (a_ctl s) /\
  (byName (c_reg (a_ctl s)) !! n = None -> is_Ok (Registry_Register (c_reg (a_ctl s)) m) = true /\
     byName (c_reg (register_manifest m (a_ctl s))) !! n = Some m).
Proof.
  intros Hs Hn. unfold register_manifest.
  assert (byName (c_reg (a_ctl s)) !! n = None -> exists r, Registry_Register (c_reg (a_ctl s)) m = Ok r) as Hok.
  { intros E. unfold Registry_Register, Registry_insert. rewrite Hn E. by eexists. }
  destruct (Registry_Register (c_reg (a_ctl s)) m) as [r|e] eqn:Er.
  - pose proof Er as Er'. apply Registry_insert_Ok in Er' as [_ Eb].
    assert (on (fun c => match Registry_Register (c_reg c) m with Ok r => with_reg c r | Err _ => c end) s = on (fun c => with_reg c r) s) as ->
      by (unfold on; by rewrite Er).
    split_and!.
    + apply with_reg_sane; [done|]. eapply Registry_insert_wf; [|exact Er]. apply (kp_wf _ HI), Hs.
    + intros p Hp. constructor; try done. cbn. rewrite Eb. by rewrite Hn lookup_insert_ne.
    + done.
    + done.
    + intros _. split; [done|]. cbn. by rewrite Eb Hn lookup_insert_eq.
  - assert (on (fun c => match Registry_Register (c_reg c) m with Ok r => with_reg c r | Err _ => c end) s = s) as ->
      by (unfold on; rewrite Er; by destruct s).
    split_and!; [done|apply only_refl|done|done|]. intros E. by destruct (Hok E).
Qed.

Lemma deregister_op n s l : sane s l ->
  sane (on (fun c => c_Deregister c n) s) l /\ only n (a_ctl s) (c_Deregister (a_ctl s) n) /\
  pluginTokens (c_gw (c_Deregister (a_ctl s) n)) = pluginTokens (c_gw (a_ctl s)) /\
  c_rec (c_Deregister (a_ctl s) n) = c_rec (a_ctl s) /\ byName (c_reg (c_Deregister (a_ctl s) n)) !! n = None.
Proof.
  intros Hs. split_and!; [| |done|done|].
  - apply (with_reg_sane s l (Registry_Deregister (c_reg (a_ctl s)) n)); [done|]. apply Registry_Deregister_wf, (kp_wf _ HI), Hs.
  - intros p Hp. constructor; try done. cbn. unfold Registry_Deregister. destruct (byName (c_reg (a_ctl s)) !! n); [|done].
    cbn. by rewrite lookup_delete_ne.
  - cbn. unfold Registry_Deregister. destruct (byName (c_reg (a_ctl s)) !! n) eqn:E; [|done]. cbn. by rewrite lookup_delete_eq.
Qed.

Lemma drop_token_op n s l : sane s l ->
  sane (on (fun c => controlService_dropToken c n) s) l /\ only n (a_ctl s) (controlService_dropToken (a_ctl s) n) /\
  c_reg (controlService_dropToken (a_ctl s) n) = c_reg (a_ctl s) /\ c_rec (controlService_dropToken (a_ctl s) n) = c_rec (a_ctl s) /\
  forall t, pluginTokens (c_gw (controlService_dropToken (a_ctl s) n)) !! t <> Some n.
Proof.
  intros Hs. pose proof (sn_wired _ _ Hs) as Hw. unfold controlService_dropToken.
  assert (on (fun c => if c_wired c then with_gw c (Gateway_RemovePluginToken (c_gw c) n) else c) s =
    on (fun c => with_gw c (Gateway_RemovePluginToken (c_gw c) n)) s) as -> by (unfold on; by rewrite Hw).
  rewrite Hw. destruct Hs as [H1 H2 H3 H4 H5 H6 H7]. split_and!; [| |done|done|].
  - constructor; try done; [by apply (kp_gw _ HI)|]. intros t p. cbn. intros [Ht _]%map_lookup_filter_Some. by apply H7 in Ht.
  - intros p Hp. constructor; try done. intros t. cbn. rewrite map_lookup_filter_Some. naive_solver.
  - intros t. cbn. rewrite map_lookup_filter_Some. naive_solver.
Qed.

Lemma mint_token_op n s l : sane s l ->
  sane (mint_token n s) l /\ only n (a_ctl s) (a_ctl (mint_token n s)) /\
  c_reg (a_ctl (mint_token n s)) = c_reg (a_ctl s) /\ c_rec (a_ctl (mint_token n s)) = c_rec (a_ctl s) /\
  (forall t, pluginTokens (c_gw (a_ctl (mint_token n s))) !! t = Some n <->
     t = newPluginToken (a_minted s) \/ pluginTokens (c_gw (a_ctl s)) !! t = Some n).
Proof.
  intros Hs. pose proof (sn_wired _ _ Hs) as Hw. unfold mint_token, setToken. rewrite Hw.
  assert (pluginTokens (c_gw (a_ctl s)) !! newPluginToken (a_minted s) = None) as Hnew.
  { destruct (pluginTokens _ !! _) as [p|] eqn:E; [|done]. apply (sn_tokens _ _ Hs) in E as (j & Hj & E). apply Hinj in E. lia. }
  destruct Hs as [H1 H2 H3 H4 H5 H6 H7]. split_and!; [| |done|done|].
  - constructor; try done; [by apply (kp_gw _ HI)|]. intros t p. cbn. rewrite lookup_insert_Some. intros [[E _]|[_ Ht]]; [exists (a_minted s); split; [lia|done]|].
    apply H7 in Ht as (j & Hj & ->). exists j. split; [lia|done].
  - intros p Hp. constructor; try done. intros t. cbn. rewrite lookup_insert_Some. split; [by intros [[_ ?]|[_ ?]]|].
    intros Ht. right. split; [|done]. intros E. by rewrite -E Hnew in Ht.
  - intros t. cbn. rewrite lookup_insert_Some. destruct (decide (t = newPluginToken (a_minted s))) as [->|Hne]; [by split; [left|left]|].
    split; [intros [[? _]|[_ ?]]; [by left|by right]|]. intros [?|?]; [by left|right]. by split; [intros ?|].
Qed.

Lemma add_desired_op n (d : Desired LaunchSpec) s l : sane s l -> d_Name d = n ->
  sane (on (add_desired d) s) l /\ only n (a_ctl s) (add_desired d (a_ctl s)) /\
  c_reg (add_desired d (a_ctl s)) = c_reg (a_ctl s) /\ pluginTokens (c_gw (add_desired d (a_ctl s))) = pluginTokens (c_gw (a_ctl s)) /\
  plugins (c_rec (add_desired d (a_ctl s))) = plugins (c_rec (a_ctl s)) /\ events (c_rec (add_desired d (a_ctl s))) = events (c_rec (a_ctl s)) /\
  (filter (fun d => d_Name d = n) (desired (c_rec (a_ctl s))) = [] ->
     is_Ok (Reconciler_AddDesired (c_rec (a_ctl s)) d) = true /\
     filter (fun d => d_Name d = n) (desired (c_rec (add_desired d (a_ctl s)))) = [d]).
Proof.
  intros Hs Hn. unfold add_desired, Reconciler_AddDesired.
  destruct (existsb (fun x => bool_decide (d_Name x = d_Name d)) (desired (c_rec (a_ctl s)))) eqn:Ex.
  - assert (on (fun c => match (if existsb (fun x => bool_decide (d_Name x = d_Name d)) (desired (c_rec c)) then Err (Errorf "plugin %q is already in the desired set" [d_Name d])
        else Ok (set_desired (c_rec c) (desired (c_rec c) ++ [d]))) with Ok r => drive grpc_NewClient c r | Err _ => c end) s = s) as ->
      by (unfold on; rewrite Ex; by destruct s).
    split_and!; [done|apply only_refl|done..|]. intros E. exfalso. apply existsb_exists in Ex as (x & Hx & E'%bool_decide_eq_true).
    apply list_elem_of_In in Hx. assert (x ∈ filter (fun d => d_Name d = n) (desired (c_rec (a_ctl s)))) as Hin
      by (apply list_elem_of_filter; split; [congruence|done]). rewrite E in Hin. by apply elem_of_nil in Hin.
  - set (r := set_desired (c_rec (a_ctl s)) (desired (c_rec (a_ctl s)) ++ [d])).
    assert (on (fun c => match (if existsb (fun x => bool_decide (d_Name x = d_Name d)) (desired (c_rec c)) then Err (Errorf "plugin %q is already in the desired set" [d_Name d])
        else Ok (set_desired (c_rec c) (desired (c_rec c) ++ [d]))) with Ok r => drive grpc_NewClient c r | Err _ => c end) s =
        on (fun c => drive grpc_NewClient c r) s) as -> by (unfold on; by rewrite Ex).
    assert (d_Name d ∉ Reconciler_DesiredNames (c_rec (a_ctl s))) as Hnew.
    { intros (x & E & Hx)%list_elem_of_fmap. assert (existsb (fun x => bool_decide (d_Name x = d_Name d)) (desired (c_rec (a_ctl s))) = true) as Ht.
      { apply existsb_exists. exists x. split; [by apply list_elem_of_In|]. by apply bool_decide_eq_true. } by rewrite Ht in Ex. }
    destruct (drive_admin grpc_NewClient (a_ctl s) r) as (E1 & E2 & _). rewrite drive_rec. split_and!; try done.
    + apply (drive_sane s l _ [] Hs); cbn; [by rewrite app_nil_r|by apply Hs..|]. unfold Reconciler_DesiredNames. cbn. rewrite fmap_app.
      apply NoDup_app. split_and!; [apply Hs| |apply NoDup_singleton]. intros x Hx ->%list_elem_of_singleton. done.
    + apply (drive_only n _ _ []); cbn; [by rewrite app_nil_r|done| |done]. intros p Hp. rewrite filter_app filter_cons filter_nil.
      rewrite decide_False; [by rewrite app_nil_r|congruence].
    + intros E. split; [done|]. cbn. rewrite filter_app E filter_cons filter_nil. by rewrite decide_True.
Qed.

(** *** A step of a pass *)

Lemma advance_new r (d : Desired LaunchSpec) now r' ps' :
  advance cfg r d new_status now = (r', ps') ->
  ps_state ps' <> Healthy /\ routes_of (events r') = routes_of (events r).
Proof.
  unfold advance, new_status. cbn [ps_state Reconciler.instanceID nextRetryAt]. destruct (decide ("" = "")); [|done].
  destruct (now <? 0); [intros [= <- <-]; by split|].
  unfold Reconciler_launch, Reconciler_fail. destruct (rt_Launch _ _ _ _) as [[[id ep]|er] rt].
  - intros [= <- <-]. split; [done|]. cbn [events set_runtime]. by rewrite routes_of_app.
  - cbn [Reconciler.instanceID endpoint attempts]. destruct (decide ("" = "")); [|done].
    destruct (_ <=? _); intros [= <- <-]; (split; [done|]); cbn [events set_runtime]; by rewrite routes_of_app.
Qed.

Definition wired_right (n : string) c : Prop := routes_of (events (c_rec c)) !! n = route_for (plugins (c_rec c) !! n).

Lemma reconcileOne_op (d : Desired LaunchSpec) now s l :
  let c' := drive grpc_NewClient (a_ctl s) (Reconciler_reconcileOne cfg (c_rec (a_ctl s)) d now) in
  sane s l -> sane (mkAdm c' (a_minted s)) l /\ only (d_Name d) (a_ctl s) c' /\
  c_reg c' = c_reg (a_ctl s) /\ pluginTokens (c_gw c') = pluginTokens (c_gw (a_ctl s)) /\
  desired (c_rec c') = desired (c_rec (a_ctl s)) /\
  (wired_right (d_Name d) (a_ctl s) -> wired_right (d_Name d) c') /\
  (plugins (c_rec (a_ctl s)) !! d_Name d = None ->
     forall ps, plugins (c_rec c') !! d_Name d = Some ps -> ps_state ps <> Healthy).
Proof.
  intros c' Hs. unfold c'. set (r := c_rec (a_ctl s)) in *. unfold Reconciler_reconcileOne.
  set (ps := default new_status (plugins r !! d_Name d)).
  assert (status_ok cfg ps) as Hps.
  { unfold ps. destruct (plugins r !! d_Name d) as [x|] eqn:E; [by eapply (sn_status _ _ Hs)|by apply new_status_ok]. }
  destruct (advance cfg r d ps now) as [r1 ps1] eqn:Ea.
  destruct (advance_ok cfg r d ps now r1 ps1 Hps Ea) as ((Hp & Hsn & Hd) & Hst & es & Hes & Hrw).
  set (r2 := Reconciler_publishLocked _ _).
  assert (forall p, p <> d_Name d -> routes_of (events r2) !! p = routes_of (events r) !! p) as Hoth.
  { intros p Hne. change (events r2) with (events r1). rewrite Hes routes_of_app.
    set (rs := match route_for (Some ps) with Some ep => <[d_Name d := ep]> (routes_of (events r)) | None => delete (d_Name d) (routes_of (events r)) end).
    assert (rs !! d_Name d = route_for (Some ps)) as H0.
    { unfold rs. destruct (route_for (Some ps)); [by rewrite lookup_insert_eq|by rewrite lookup_delete_eq]. }
    assert (rs !! p = routes_of (events r) !! p) as H1.
    { unfold rs. destruct (route_for (Some ps)); [by rewrite lookup_insert_ne|by rewrite lookup_delete_ne]. }
    rewrite (fold_route_at es _ rs p); [|done]. destruct (Hrw rs H0) as [_ H2]. by rewrite H2. }
  assert (snap r2 = view_of <$> plugins r2) as Hsnap.
  { unfold r2. rewrite publish_ok; [done|]. intros m _. rewrite Hsn Hp. by rewrite (sn_snap _ _ Hs) lookup_fmap. }
  destruct (drive_admin grpc_NewClient (a_ctl s) r2) as (E1 & E2 & _).
  split; [|split; [|split; [|split; [|split; [|split]]]]].
  - change (sane (on (fun c => drive grpc_NewClient c r2) s) l). apply (drive_sane s l _ es Hs); [done|done| |].
    + intros m x. unfold r2. cbn. rewrite lookup_insert_Some. intros [[_ <-]|[_ Hm]]; [done|]. rewrite Hp in Hm. by eapply (sn_status _ _ Hs).
    + unfold Reconciler_DesiredNames, r2. cbn. rewrite Hd. apply Hs.
  - intros p Hne. constructor; rewrite ?drive_rec ?E1 ?E2; try done.
    + unfold r2. cbn. by rewrite Hd.
    + unfold r2. cbn. by rewrite lookup_insert_ne // Hp.
    + by apply Hoth.
  - done.
  - done.
  - rewrite drive_rec. unfold r2. cbn. by rewrite Hd.
  - unfold wired_right. rewrite drive_rec. intros Hw. change (events r2) with (events r1). rewrite Hes routes_of_app.
    unfold r2. cbn. rewrite lookup_insert_eq. apply Hrw. fold r in Hw. rewrite Hw. unfold ps. by destruct (plugins r !! d_Name d).
  - intros E x. rewrite drive_rec. unfold r2. cbn. rewrite lookup_insert_eq. intros [= <-].
    unfold ps in Ea. fold r in E. rewrite E in Ea. by apply advance_new in Ea as [? _].
Qed.

Lemma reconcileOne_new_route (d : Desired LaunchSpec) now c :
  plugins (c_rec c) !! d_Name d = None ->
  routes_of (events (c_rec (drive grpc_NewClient c (Reconciler_reconcileOne cfg (c_rec c) d now)))) = routes_of (events (c_rec c)).
Proof.
  intros E. rewrite drive_rec. unfold Reconciler_reconcileOne. rewrite E. cbn [default from_option].
  destruct (advance cfg (c_rec c) d new_status now) as [r1 ps1] eqn:Ea. by apply advance_new in Ea as [_ ?].
Qed.

(** ** A plugin's part of the plane *)

(** How its status and its route stand: in step; in step for one that the loop can no longer
    bring up; or, between the two halves of a removal, to be unbound. *)
Inductive phase := InStep | Off | Unbinding.
Record view := mkPart {
  v_reg : option Manifest;
  v_des : list (Desired LaunchSpec);
  v_toks : string -> Prop;
  v_phase : phase;
  v_up : option string;
}.

Definition out_of_reach (n : string) c (l : loop_state LaunchSpec) : Prop :=
  plugins (c_rec c) !! n = None \/
  (n ∉ loop_names l /\ forall ps, plugins (c_rec c) !! n = Some ps -> ps_state ps <> Healthy).
Definition phase_ok (ph : phase) (n : string) c (l : loop_state LaunchSpec) : Prop :=
  match ph with
  | InStep => wired_right n c
  | Off => wired_right n c /\ out_of_reach n c l
  | Unbinding => out_of_reach n c l
  end.

(** [hist] are the states passed since the request came. *)
Record part (n : string) (v : view) c (l : loop_state LaunchSpec) (hist : Control (R := R) (Conn := Conn) -> Prop) : Prop := {
  pt_reg : byName (c_reg c) !! n = v_reg v;
  pt_des : filter (fun d => d_Name d = n) (desired (c_rec c)) = v_des v;
  pt_toks : forall t, pluginTokens (c_gw c) !! t = Some n <-> v_toks v t;
  pt_phase : phase_ok (v_phase v) n c l;
  pt_off : v_phase v <> InStep -> v_des v = [];
  pt_up : forall ep, v_up v = Some ep ->
    (exists c0, hist c0 /\ (Reconciler_Status (c_rec c0) n).1.1 = Healthy) /\
    exists c1, hist c1 /\ Reconciler_Endpoint (c_rec c1) n = ep;
}.
Definition passed c (hist : Control (R := R) (Conn := Conn) -> Prop) (c0 : Control (R := R) (Conn := Conn)) : Prop := hist c0 \/ c0 = c.

(** Past states stay past. *)
Lemma up_passed n up c (hist : Control (R := R) (Conn := Conn) -> Prop) :
  (forall ep, up = Some ep -> (exists c0, hist c0 /\ (Reconciler_Status (c_rec c0) n).1.1 = Healthy) /\
     exists c1, hist c1 /\ Reconciler_Endpoint (c_rec c1) n = ep) ->
  forall ep, up = Some ep -> (exists c0, passed c hist c0 /\ (Reconciler_Status (c_rec c0) n).1.1 = Healthy) /\
     exists c1, passed c hist c1 /\ Reconciler_Endpoint (c_rec c1) n = ep.
Proof. intros Hu ep E. destruct (Hu ep E) as [(c0 & ? & ?) (c1 & ? & ?)]. split; [exists c0|exists c1]; (split; [by left|done]). Qed.

Lemma phase_same ph n c c' l : same_for n c c' -> phase_ok ph n c l -> phase_ok ph n c' l.
Proof.
  intros [_ _ Hp Hr _]. unfold phase_ok, wired_right, out_of_reach. rewrite Hp Hr. done.
Qed.

Lemma part_same n v c c' l hist : same_for n c c' -> part n v c l hist -> part n v c' l (passed c hist).
Proof.
  intros Hsf [H1 H2 H3 H4 H5 H6]. pose proof Hsf as [S1 S2 _ _ S5]. constructor.
  - by rewrite S1.
  - by rewrite S2.
  - intros t. by rewrite S5.
  - by eapply phase_same.
  - done.
  - by apply up_passed.
Qed.

Lemma desired_none n (l : list (Desired LaunchSpec)) : filter (fun d => d_Name d = n) l = [] -> n ∉ d_Name <$> l.
Proof.
  intros E (d & -> & Hd)%list_elem_of_fmap. assert (d ∈ filter (fun d' => d_Name d' = d_Name d) l) as Hin by by apply list_elem_of_filter.
  rewrite E in Hin. by apply elem_of_nil in Hin.
Qed.

(** What the loop does to it between passes: nothing is in reach that was not. *)
Lemma part_loop n v c l l' hist :
  part n v c l hist -> (v_des v = [] -> n ∉ loop_names l -> n ∉ loop_names l') -> part n v c l' (passed c hist).
Proof.
  intros [H1 H2 H3 H4 H5 H6] Hl. constructor; try done.
  - destruct (v_phase v); [done| |]; simpl in *; unfold out_of_reach in *; specialize (H5 ltac:(done)).
    + destruct H4 as [? [?|[? ?]]]; split; [done|by left|done|right; split; [by apply Hl|done]].
    + destruct H4 as [?|[? ?]]; [by left|right; split; [by apply Hl|done]].
  - by apply up_passed.
Qed.

Lemma part_one n v (d : Desired LaunchSpec) rest now s hist :
  sane s (Passing (d :: rest) now) -> part n v (a_ctl s) (Passing (d :: rest) now) hist ->
  part n v (drive grpc_NewClient (a_ctl s) (Reconciler_reconcileOne cfg (c_rec (a_ctl s)) d now)) (Passing rest now) (passed (a_ctl s) hist).
Proof.
  intros Hs Hp. pose proof (sn_loop _ _ Hs) as Hnd. cbn in Hnd. apply NoDup_cons in Hnd as [Hd _].
  destruct (reconcileOne_op d now s _ Hs) as (_ & Ho & H1 & H2 & H3 & H4 & H5).
  destruct (decide (n = d_Name d)) as [->|Hne].
  - destruct Hp as [P1 P2 P3 P4 P5 P6].
    set (c' := drive _ _ _) in *. constructor; [by rewrite H1|by rewrite H3|intros t; by rewrite H2| |done|].
    + destruct (v_phase v); simpl in *; [by apply H4| |].
      * destruct P4 as [Hw [Hno|[Hno _]]]; [|exfalso; apply Hno; left]. split; [by apply H4|]. right. split; [done|by apply H5].
      * destruct P4 as [Hno|[Hno _]]; [|exfalso; apply Hno; left]. right. split; [done|by apply H5].
    + by apply up_passed.
  - apply (part_same n v _ _ _ hist (Ho n Hne)) in Hp. destruct Hp as [P1 P2 P3 P4 P5 P6]. constructor; try done.
    destruct (v_phase v); simpl in *; [done| |]; unfold out_of_reach in *; cbn in P4; rewrite not_elem_of_cons in P4; tauto.
Qed.

(** ** Requests in flight *)

(** What a step may do to the plugin's entry: take it off the desired set, withdraw it, announce
    the manifest asked for where there is none, or launch it when it is announced. *)
Inductive turn (adds : option (Manifest * bool)) (v v' : view) : Prop :=
  | turn_none : v_reg v' = v_reg v -> (v_des v' = [] <-> v_des v = []) -> turn adds v v'
  | turn_retire : v_reg v' = v_reg v -> v_des v' = [] -> turn adds v v'
  | turn_withdraw : v_reg v' = None -> v_des v' = v_des v -> turn adds v v'
  | turn_announce m b : adds = Some (m, b) -> v_reg v = None -> v_reg v' = Some m -> v_des v' = v_des v -> turn adds v v'
  | turn_launch m : adds = Some (m, true) -> v_reg v = Some m -> v_reg v' = Some m -> v_des v' <> [] -> turn adds v v'.

(** A request about [n], from a view of its plugin on, makes only such steps, touches nothing
    of the others, never gets stuck, and is answered in a view that satisfies [Q]. *)
Inductive good (n : string) (adds : option (Manifest * bool)) (Q : observation -> view -> Prop) : view -> P -> Prop :=
  | good_ret v o : Q o v -> good n adds Q v (Ret o)
  | good_do v f k :
      (forall s l hist, sane s l -> part n v (a_ctl s) l hist ->
         sane (f s) l /\ only n (a_ctl s) (a_ctl (f s)) /\
         exists v', turn adds v v' /\ part n v' (a_ctl (f s)) l (passed (a_ctl s) hist) /\ good n adds Q v' (k s)) ->
      good n adds Q v (Do f k)
  | good_locked v f k :
      (forall s l hist, sane s l -> in_pass l = false -> part n v (a_ctl s) l hist ->
         sane (f s) l /\ only n (a_ctl s) (a_ctl (f s)) /\
         exists v', turn adds v v' /\ part n v' (a_ctl (f s)) l (passed (a_ctl s) hist) /\ good n adds Q v' (k s)) ->
      good n adds Q v (Locked f k).

Lemma turn_same adds v : turn adds v v.
Proof. by apply turn_none. Qed.

Lemma good_read n adds Q v k :
  (forall s l hist, sane s l -> part n v (a_ctl s) l hist -> good n adds Q v (k s)) -> good n adds Q v (Do id k).
Proof.
  intros Hk. apply good_do. intros s l hist Hs Hp. split_and!; [done|apply only_refl|]. exists v. split_and!; [apply turn_same| |by eapply Hk].
  apply part_same; [apply same_for_refl|done].
Qed.

Definition off_view (v : view) : view := mkPart (v_reg v) [] (v_toks v) Off (v_up v).

Lemma good_RemoveDesired n adds Q budget next v :
  v_phase v <> Unbinding -> good n adds Q (off_view v) next -> good n adds Q v (RemoveDesired budget n next).
Proof.
  intros Hph Hnext. apply good_do. intros s l hist Hs [P1 P2 P3 P4 P5 P6].
  destruct (drop_desired_op n s l Hs) as (Hs1 & Ho1 & E1 & E2 & E3). split_and!; [done|done|].
  exists (mkPart (v_reg v) [] (v_toks v) (v_phase v) (v_up v)). split_and!; [by apply turn_retire| |].
  { constructor; cbn [on a_ctl v_reg v_des v_toks v_phase v_up].
    - by rewrite E1.
    - rewrite E3. cbn. apply filter_own.
    - intros t. by rewrite E2.
    - destruct (v_phase v); cbn in *; unfold wired_right, out_of_reach in *; rewrite E3; done.
    - done.
    - by apply up_passed. }
  clear dependent s. clear dependent hist. clear P5. clear dependent l. apply good_locked. intros s l hist Hs Hl [P1 P2 P3 P4 P5 P6].
  destruct (forget_op n s l Hs) as (Hs1 & Ho1 & E1 & E2 & E3 & E4 & E5). split_and!; [done|done|].
  destruct (plugins (c_rec (a_ctl s)) !! n) as [ps|] eqn:Eps.
  - exists (mkPart (v_reg v) [] (v_toks v) Unbinding (v_up v)). split_and!; [by apply turn_none| |].
    { constructor; cbn [on a_ctl v_reg v_des v_toks v_phase v_up]; [by rewrite E1|by rewrite E3|intros t; by rewrite E2|by left|done|by apply up_passed]. }
    clear dependent s. clear dependent hist. clear P5. clear dependent l. apply good_do. intros s l hist Hs [P1 P2 P3 P4 P5 P6].
    destruct (unbind_op n s l Hs) as (Hs1 & Ho1 & E1 & E2 & E3 & E4 & E5). split_and!; [done|done|].
    exists (off_view v). split_and!; [by apply turn_none| |].
    { constructor; cbn [on a_ctl v_reg v_des v_toks v_phase v_up off_view]; [by rewrite E1|by rewrite E3|intros t; by rewrite E2| |done|by apply up_passed].
      cbn in P4. split; [|unfold out_of_reach; by rewrite E4]. unfold wired_right. rewrite E4 E5.
      destruct P4 as [->|[_ Hnh]]; [done|]. destruct (plugins (c_rec (a_ctl s)) !! n) as [x|]; [|done]. cbn.
      by rewrite decide_False; [|by apply Hnh]. }
    clear dependent s. clear dependent hist. clear P5. clear dependent l. apply good_do. intros s l hist Hs Hp.
    destruct (terminate_op n budget (Reconciler.instanceID ps) s l Hs) as (Hs1 & Ho1 & Hsame). split_and!; [done|done|].
    exists (off_view v). split_and!; [apply turn_same|by apply part_same|done].
  - exists (off_view v). split_and!; [by apply turn_none| |done].
    assert (wired_right n (a_ctl s)) as Hw by (destruct (v_phase v); cbn in P4; [done|by destruct P4|done]).
    constructor; cbn [on a_ctl v_reg v_des v_toks v_phase v_up off_view]; [by rewrite E1|by rewrite E3|intros t; by rewrite E2| |done|by apply up_passed].
    split; [|by left]. unfold wired_right in *. rewrite E4 E5. by rewrite Hw Eps.
Qed.

(** The two ends of a rollback. *)
Lemma good_deregister n adds Q v next :
  good n adds Q (mkPart None (v_des v) (v_toks v) (v_phase v) (v_up v)) next ->
  good n adds Q v (Do (on (fun c => c_Deregister c n)) (fun _ => next)).
Proof.
  intros Hnext. apply good_do. intros s l hist Hs [P1 P2 P3 P4 P5 P6].
  destruct (deregister_op n s l Hs) as (Hs1 & Ho1 & E1 & E2 & E3). split_and!; [done|done|]. eexists. split_and!; [| |exact Hnext].
  - by apply turn_withdraw.
  - constructor; cbn [on a_ctl v_reg v_des v_toks v_phase v_up]; [done|by rewrite E2|intros t; by rewrite E1| |done|by apply up_passed].
    destruct (v_phase v); cbn in *; unfold wired_right, out_of_reach in *; by rewrite E2.
Qed.

Lemma good_dropToken n adds Q v next :
  good n adds Q (mkPart (v_reg v) (v_des v) (fun _ => False) (v_phase v) (v_up v)) next ->
  good n adds Q v (Do (on (fun c => controlService_dropToken c n)) (fun _ => next)).
Proof.
  intros Hnext. apply good_do. intros s l hist Hs [P1 P2 P3 P4 P5 P6].
  destruct (drop_token_op n s l Hs) as (Hs1 & Ho1 & E1 & E2 & E3). split_and!; [done|done|]. eexists. split_and!; [| |exact Hnext].
  - by apply turn_none.
  - constructor; cbn [on a_ctl v_reg v_des v_toks v_phase v_up]; [by rewrite E1|by rewrite E2| | |done|by apply up_passed].
    + intros t. split; [by intros ?%E3|done].
    + destruct (v_phase v); cbn in *; unfold wired_right, out_of_reach in *; by rewrite E2.
Qed.

Lemma good_take_out n adds (Q : observation -> view -> Prop) budget o v :
  v_phase v <> Unbinding -> Q o (mkPart None [] (fun _ => False) Off (v_up v)) -> good n adds Q v (take_out budget n o).
Proof.
  intros Hph Hq. apply good_RemoveDesired; [done|]. apply good_dropToken, good_deregister. by apply good_ret.
Qed.

(** *** What the requests are answered *)

Definition wants_launch (req : RegisterReq) : bool := negb (bool_decide (from_option lr_Image "" (rq_Launch req) = "")).

(** A request that is refused for what it is. *)
Definition malformed (req : RegisterReq) : Prop :=
  rq_Name req = "" \/ (exists e, Parse yaml_Manifest (rq_Yaml req) = Err e) \/
  exists m, Parse yaml_Manifest (rq_Yaml req) = Ok m /\ name_of m <> rq_Name req.

(** What is launched for a request. *)
Definition launch_wanted (req : RegisterReq) (ls : LaunchReq) (m : Manifest) (tok : string) (d : Desired LaunchSpec) : Prop :=
  exists profile, isolationProfile (lr_Isolation ls) = Ok profile /\
    d = mkDesired (rq_Name req) (mkLaunch (lr_Image ls) (Some profile)
          (told_env (lr_Env ls) (rq_Name req) gwAddr tok (Manifest_PublishPorts m))).

Definition registered_as (req : RegisterReq) (v0 : view) (reply : RegisterReply) (v : view) : Prop :=
  exists m, Parse yaml_Manifest (rq_Yaml req) = Ok m /\ name_of m = rq_Name req /\ rq_Name req <> "" /\ v_reg v = Some m /\
    if wants_launch req then
      exists ls tok d ep, rq_Launch req = Some ls /\ launch_wanted req ls m tok d /\ v_des v = [d] /\ v_phase v = InStep /\
        (forall t, v_toks v t <-> t = tok \/ v_toks v0 t) /\ v_up v = Some ep /\ reply = mkRegisterReply (rq_Name req) "Healthy" ep
    else v_des v = [] /\ v_phase v = Off /\ (forall t, v_toks v t <-> v_toks v0 t) /\ reply = mkRegisterReply (rq_Name req) "registered" "".

Definition register_answer (req : RegisterReq) (v0 : view) (o : observation) (v : view) : Prop :=
  match o with
  | Registered req' (Ok reply) => req' = req /\ registered_as req v0 reply v
  | Registered req' (Err _) =>
      req' = req /\ ((malformed req /\ v = v0) \/
        (~ malformed req /\ v_reg v = None /\ v_des v = [] /\ v_phase v = Off /\ forall t, v_toks v t -> v_toks v0 t))
  | _ => False
  end.
Definition remove_answer (n : string) (v0 : view) (o : observation) (v : view) : Prop :=
  o = Removed n (bool_decide (is_Some (v_reg v0))) /\ v_reg v = None /\ v_des v = [] /\ v_phase v = Off /\ forall t, ~ v_toks v t.

(** A plugin that no request is about. *)
Record settled (v : view) : Prop := {
  st_phase : v_phase v <> Unbinding;
  st_off : v_des v = [] -> v_phase v = Off;
  st_reg : v_des v <> [] -> is_Some (v_reg v);
}.

Definition adds_of (req : RegisterReq) : option (Manifest * bool) :=
  match Parse yaml_Manifest (rq_Yaml req) with Ok m => Some (m, wants_launch req) | Err _ => None end.

(** *** The handlers *)

Lemma status_seen n v s l hist c0 :
  part n v (a_ctl s) l hist -> c0 = a_ctl s -> (Reconciler_Status (c_rec c0) n).1.1 = Healthy ->
  part n (mkPart (v_reg v) (v_des v) (v_toks v) (v_phase v) (Some (Reconciler_Endpoint (c_rec c0) n))) (a_ctl s) l (passed c0 hist).
Proof.
  intros [P1 P2 P3 P4 P5 P6] -> Hh. constructor; try done. cbn. intros ep [= <-]. split; exists (a_ctl s); (split; [by right|done]).
Qed.

Section Register.
Context (clock : nat -> Z) (cancelled : nat -> option error) (budget : nat -> Z) (req : RegisterReq).
Context (Hclock : ticks (50 * milli) clock).
Notation n := (rq_Name req).
Context (m : Manifest) (Hm : Parse yaml_Manifest (rq_Yaml req) = Ok m) (Hname : name_of m = n) (Hne : n <> "").
Context (v0 : view).
Notation goodr := (good n (adds_of req) (register_answer req v0)).

Lemma not_malformed : ~ malformed req.
Proof. intros [?|[[e He]|(m' & Hp & Hn)]]; congruence. Qed.

Lemma refused_off e v : v_reg v = None -> v_des v = [] -> v_phase v = Off -> (forall t, v_toks v t -> v_toks v0 t) ->
  register_answer req v0 (Registered req (Err e)) v.
Proof. intros. split; [done|]. right. split_and!; try done. apply not_malformed. Qed.

Lemma good_await fuel i timeout ls tok d v :
  fuel <> 0%nat -> timeout < 50 * milli * Z.of_nat (i + fuel - 1) ->
  wants_launch req = true -> rq_Launch req = Some ls -> launch_wanted req ls m tok d ->
  v_reg v = Some m -> v_des v = [d] -> (forall t, v_toks v t <-> t = tok \/ v_toks v0 t) -> v_phase v = InStep ->
  goodr v (await_healthy fuel i clock cancelled budget req (clock 0%nat + timeout)).
Proof.
  intros Hf Hlt Hw Hl Hd V1 V2 V3 V4. revert i Hlt. induction fuel as [|fuel IH]; intros i Hlt; [done|].
  cbn [await_healthy]. apply good_do. intros s l hist Hs Hp. split_and!; [done|apply only_refl|].
  destruct (decide ((Reconciler_Status (c_rec (a_ctl s)) n).1.1 = Healthy)) as [Hh|Hnh].
  - eexists. split_and!; [|exact (status_seen n v s l hist (a_ctl s) Hp eq_refl Hh)|]; [by apply turn_none|].
    apply good_do. intros s' l' hist' Hs' Hp'. split_and!; [done|apply only_refl|].
    exists (mkPart (v_reg v) (v_des v) (v_toks v) (v_phase v) (Some (Reconciler_Endpoint (c_rec (a_ctl s')) n))).
    split_and!; [by apply turn_none| |].
    + destruct Hp' as [P1 P2 P3 P4 P5 P6]. constructor; try done. cbn. intros ep [= <-].
      destruct (P6 _ eq_refl) as [(c0 & ? & ?) _]. split; [exists c0; split; [by left|done]|]. exists (a_ctl s'). split; [by right|done].
    + apply good_ret. rewrite Hh. split; [done|]. exists m. split_and!; try done. rewrite Hw. by exists ls, tok, d, (Reconciler_Endpoint (c_rec (a_ctl s')) n).
  - exists v. split_and!; [apply turn_same|apply part_same; [apply same_for_refl|done]|].
    destruct (bool_decide _ || _) eqn:Eb.
    { apply good_take_out; [by rewrite V4|]. by apply refused_off. }
    destruct (cancelled i) as [e|]; [apply good_take_out; [by rewrite V4|]; by apply refused_off|].
    apply orb_false_iff in Eb as [_ Eb]. apply Z.ltb_ge in Eb. pose proof (Hclock i) as Ht. apply IH.
    + intros ->. replace (i + 1 - 1)%nat with i in Hlt by lia. lia.
    + by replace (S i + fuel - 1)%nat with (i + S fuel - 1)%nat by lia.
Qed.

Lemma good_launch ls v :
  0 <= readyTO -> wants_launch req = true -> rq_Launch req = Some ls ->
  v_reg v = Some m -> v_des v = [] -> v_phase v = Off -> (forall t, v_toks v t <-> v_toks v0 t) ->
  goodr v (launch_plugin clock cancelled budget req m ls).
Proof.
  intros Hto Hw Hl V1 V2 V3 V4. unfold launch_plugin. destruct (isolationProfile (lr_Isolation ls)) as [profile|e] eqn:Ei.
  2:{ apply good_deregister, good_ret. apply refused_off; cbn; [done..|]. intros t. by rewrite V4. }
  apply good_do. intros s l hist Hs [P1 P2 P3 P4 P5 P6]. destruct (mint_token_op n s l Hs) as (Hs1 & Ho1 & E1 & E2 & E3). split_and!; [done|done|].
  set (tok := newPluginToken (a_minted s)) in *.
  exists (mkPart (v_reg v) [] (fun t => t = tok \/ v_toks v t) Off (v_up v)). split_and!; [apply turn_none; cbn; [done|by rewrite V2]| |].
  { constructor; cbn [v_reg v_des v_toks v_phase v_up]; [by rewrite E1|by rewrite E2 P2| | |done|by apply up_passed].
    - intros t. rewrite E3. by rewrite P3.
    - rewrite V3 in P4. cbn in *. unfold wired_right, out_of_reach in *. by rewrite E2. }
  set (spec := injectLaunchEnv _ _ _ _ _). set (d := mkDesired n spec).
  assert (launch_wanted req ls m tok d) as Hd by (exists profile; split; [done|]; unfold d, spec; by rewrite injectLaunchEnv_told).
  clearbody tok d. clear Hs Hs1 Ho1 E1 E2 E3 P1 P2 P3 P4 P5 P6 spec s l hist.
  apply good_do. intros s l hist Hs [P1 P2 P3 P4 P5 P6].
  assert (d_Name d = n) as Hdn by (destruct Hd as (? & _ & ->); done).
  destruct (add_desired_op n d s l Hs Hdn) as (Hs1 & Ho1 & E1 & E2 & E3 & E4 & E5). split_and!; [done|done|].
  destruct (E5 P2) as [Hok Hdes]. destruct (Reconciler_AddDesired (c_rec (a_ctl s)) d); [|done].
  exists (mkPart (v_reg v) [d] (fun t => t = tok \/ v_toks v t) InStep (v_up v)). split_and!.
  - by apply (turn_launch _ _ _ m); [unfold adds_of; by rewrite Hm Hw|..].
  - constructor; cbn [on a_ctl v_reg v_des v_toks v_phase v_up]; [by rewrite E1|done|intros t; by rewrite E2| |done|by apply up_passed].
    destruct P4 as [Hwr _]. cbn. unfold wired_right in *. by rewrite E3 E4.
  - assert (0 <= readyTO + 5 * (1000 * milli)) as Hnn by (unfold milli; lia).
    apply (good_await _ _ _ ls tok d); try done.
    + by apply wait_fuel_enough.
    + intros t. cbn. by rewrite V4.
Qed.

Lemma good_register v :
  0 <= readyTO -> v_reg v = None -> v_des v = [] -> v_phase v = Off -> (forall t, v_toks v t <-> v_toks v0 t) ->
  goodr v (register_plugin clock cancelled budget req m).
Proof.
  intros Hto V1 V2 V3 V4. apply good_do. intros s l hist Hs [P1 P2 P3 P4 P5 P6].
  destruct (register_op n m s l Hs Hname) as (Hs1 & Ho1 & E1 & E2 & E3). rewrite V1 in P1. destruct (E3 P1) as [Hok Hreg].
  split_and!; [done|done|]. exists (mkPart (Some m) [] (v_toks v) Off (v_up v)). split_and!.
  - by apply (turn_announce _ _ _ m (wants_launch req)); [unfold adds_of; by rewrite Hm|..].
  - constructor; cbn [on a_ctl v_reg v_des v_toks v_phase v_up]; [done|by rewrite E2 P2|intros t; by rewrite E1| |done|by apply up_passed].
    rewrite V3 in P4. cbn in *. unfold wired_right, out_of_reach in *. by rewrite E2.
  - destruct (Registry_Register (c_reg (a_ctl s)) m); [|done].
    assert (wants_launch req = false -> register_answer req v0 (Registered req (Ok (mkRegisterReply n "registered" "")))
      (mkPart (Some m) [] (v_toks v) Off (v_up v))) as Hplain.
    { intros Hw. split; [done|]. exists m. split_and!; try done. by rewrite Hw. }
    destruct (rq_Launch req) as [ls|] eqn:El; [|apply good_ret, Hplain; unfold wants_launch; by rewrite El].
    destruct (decide (lr_Image ls = "")) as [Ei|Ei]; [apply good_ret, Hplain; unfold wants_launch; by rewrite El /= Ei|].
    apply good_launch; try done. unfold wants_launch. rewrite El /=. by rewrite bool_decide_eq_false_2.
Qed.
End Register.

Lemma good_RegisterPlugin clock cancelled budget req v0 :
  ticks (50 * milli) clock -> 0 <= readyTO -> settled v0 ->
  good (rq_Name req) (adds_of req) (register_answer req v0) v0 (controlService_RegisterPlugin clock cancelled budget req).
Proof.
  intros Hclock Hto [Hph Hoff Hreg]. unfold controlService_RegisterPlugin.
  assert (forall e, malformed req -> register_answer req v0 (Registered req (Err e)) v0) as Hmal by (intros e Hbad; split; [done|by left]).
  destruct (decide (rq_Name req = "")) as [E|Hne]; [by apply good_ret, Hmal; left|].
  destruct (Parse yaml_Manifest (rq_Yaml req)) as [m|e] eqn:Hm; [|apply good_ret, Hmal; right; left; by exists e].
  destruct (decide (name_of m = rq_Name req)) as [Hn|Hn]; [|apply good_ret, Hmal; right; right; by exists m].
  apply good_read. intros s l hist Hs Hp. pose proof (pt_reg _ _ _ _ _ Hp) as Er. unfold Registry_Plugin.
  destruct (byName (c_reg (a_ctl s)) !! rq_Name req) as [old|] eqn:Eo.
  - apply good_RemoveDesired; [done|]. apply good_deregister. by apply good_register.
  - assert (v_des v0 = []) as Hd.
    { destruct (v_des v0) as [|d ds] eqn:Ed; [done|]. destruct Hreg as [x Hx]; [done|]. congruence. }
    apply good_register; try done. by apply Hoff.
Qed.

Lemma good_DeregisterPlugin budget n v0 : settled v0 ->
  good n None (remove_answer n v0) v0 (controlService_DeregisterPlugin budget n).
Proof.
  intros [Hph _ _]. apply good_read. intros s l hist Hs Hp. apply good_take_out; [done|].
  unfold Registry_Plugin. rewrite (pt_reg _ _ _ _ _ Hp). unfold remove_answer. cbn. by split_and!; [| | | |intros t []].
Qed.

(** Whoever is answered leaves the plugin settled. *)
Lemma register_settles req v0 o v : settled v0 -> register_answer req v0 o v -> settled v.
Proof.
  intros H0. destruct o as [req' [reply|e]|n b|l]; cbn; try done.
  - intros (_ & m & _ & _ & _ & Hreg & Hv). destruct (wants_launch req) eqn:Hw.
    + destruct Hv as (ls & tok & d & ep & _ & _ & Hd & Hph & _). constructor; rewrite ?Hd ?Hph ?Hreg; [done|done|by eexists].
    + destruct Hv as (Hd & Hph & _). constructor; rewrite ?Hd ?Hph; done.
  - intros [_ [[_ ->]|(_ & Hr & Hd & Hph & _)]]; [done|]. constructor; rewrite ?Hd ?Hph; done.
Qed.
Lemma remove_settles n v0 o v : remove_answer n v0 o v -> settled v.
Proof. intros (_ & Hr & Hd & Hph & _). constructor; rewrite ?Hd ?Hph; done. Qed.

(** ** The plane in use *)

(** A listing only reads. *)
Inductive reads : P -> Prop :=
  | reads_ret o : reads (Ret o)
  | reads_do k : (forall s, reads (k s)) -> reads (Do id k).

Lemma reads_list : reads controlService_ListPlugins.
Proof.
  apply reads_do. intros s. apply reads_do. intros s'. generalize (Registry_All (c_reg (a_ctl s'))) as ms.
  generalize (Reconciler_DesiredNames (c_rec (a_ctl s))) as names. intros names ms. generalize (@nil PluginStatus) as rows.
  induction ms as [|m ms IH]; intros rows; [apply reads_ret|]. cbn [list_rows]. destruct (bool_decide _); [|apply IH].
  apply reads_do. intros t. apply reads_do. intros t'. apply IH.
Qed.

Definition ok_move (m : move) : Prop :=
  match m with AskRegister clock _ _ _ => ticks (50 * milli) clock | _ => True end.

Definition no_hist : Control (R := R) (Conn := Conn) -> Prop := fun _ => False.
Definition fresh_view (v : view) : view := mkPart (v_reg v) (v_des v) (v_toks v) (v_phase v) None.

Lemma part_fresh n v c l hist : part n v c l hist -> part n (fresh_view v) c l no_hist.
Proof. intros [P1 P2 P3 P4 P5 P6]. by constructor. Qed.
Lemma settled_fresh v : settled v -> settled (fresh_view v).
Proof. intros [H1 H2 H3]. by constructor. Qed.

(** A plugin that no request is about is settled; a request about it goes its way from where
    the plugin is. *)
Definition plugin_ok (w : live) (n : string) : Prop :=
  match lv_reqs w !! n with
  | None => exists v, settled v /\ v_up v = None /\ part n v (lv_ctl w) (lv_loop w) no_hist
  | Some p => exists adds Q v hist,
      (forall o v, Q o v -> settled v) /\ part n v (lv_ctl w) (lv_loop w) hist /\ good n adds Q v p
  end.
Record live_ok (w : live) : Prop := {
  lo_sane : sane (lv_adm w) (lv_loop w);
  lo_plugins : forall n, plugin_ok w n;
  lo_lists : forall id p, lv_lists w !! id = Some p -> reads p;
}.

(** The plugin a move is about. *)
Definition concerns (m : move) : option string :=
  match m with
  | Work n | Answer n | AskRemove _ n => Some n
  | AskRegister _ _ _ req => Some (rq_Name req)
  | _ => None
  end.

(** What a request's own step does. *)
Lemma step_good n adds Q v p s l hist s' p' :
  sane s l -> part n v (a_ctl s) l hist -> good n adds Q v p -> step_of p l s = Some (s', p') ->
  sane s' l /\ only n (a_ctl s) (a_ctl s') /\
  exists v', turn adds v v' /\ part n v' (a_ctl s') l (passed (a_ctl s) hist) /\ good n adds Q v' p'.
Proof.
  intros Hs Hp Hg. destruct Hg as [v o Hq|v f k Hk|v f k Hk]; cbn; [done| |].
  - intros [= <- <-]. by apply Hk.
  - destruct (in_pass l) eqn:El; [done|]. intros [= <- <-]. by apply Hk.
Qed.

Lemma step_reads p s l s' p' : reads p -> step_of p l s = Some (s', p') -> s' = s /\ reads p'.
Proof. intros Hr. destruct Hr as [o|k Hk]; cbn; [done|]. intros [= <- <-]. split; [done|apply Hk]. Qed.

(** Every move keeps the plane sane, and touches no plugin but the one it works on. *)
Lemma move_frame w m w' :
  live_ok w -> do_move w m = Some w' ->
  sane (lv_adm w') (lv_loop w') /\
  forall n v hist, m <> Work n -> part n v (lv_ctl w) (lv_loop w) hist -> part n v (lv_ctl w') (lv_loop w') (passed (lv_ctl w) hist).
Proof.
  intros [Hs Hb Hl]. destruct w as [s l reqs lists]. unfold lv_ctl in *. cbn [lv_adm lv_loop lv_reqs lv_lists] in *.
  assert (forall n v hist, part n v (a_ctl s) l hist -> part n v (a_ctl s) l (passed (a_ctl s) hist)) as Hsame
    by (intros n v hist; apply part_same, same_for_refl).
  assert (forall l', NoDup (loop_names l') -> sane s l') as Hloop by (intros l' Hn; destruct Hs; by constructor).
  destruct m as [|now| | |clock cancelled budget req|budget n0|id|n0|id|n0|id]; cbn [do_move].
  - destruct l; try done. intros [= <-]. cbn. split; [apply Hloop, Hs|]. intros n v hist _ Hp. apply (part_loop n v _ Idle); [done|].
    intros Hd _. cbn. apply desired_none. by rewrite (pt_des _ _ _ _ _ Hp).
  - destruct l as [|copy|]; try done. intros [= <-]. cbn. split; [by apply Hloop, Hs|]. intros n v hist _ Hp. by apply (part_loop n v _ (Copied copy)).
  - destruct l as [| |[|d rest] now]; try done. intros [= <-]. cbn. split.
    + destruct (reconcileOne_op d now s (Passing (d :: rest) now) Hs) as [[H1 H2 H3 H4 H5 H6 H7] _]. constructor; try done.
      cbn in *. by apply NoDup_cons in H6 as [_ ?].
    + intros n v hist _ Hp. by apply part_one.
  - destruct l as [| |[|] now]; try done. intros [= <-]. cbn. split; [apply Hloop; constructor|]. intros n v hist _ Hp. by apply (part_loop n v _ (Passing [] now)).
  - destruct (reqs !! _); [done|]. intros [= <-]. cbn. split; [done|]. intros; by apply Hsame.
  - destruct (reqs !! _); [done|]. intros [= <-]. cbn. split; [done|]. intros; by apply Hsame.
  - destruct (lists !! _); [done|]. intros [= <-]. cbn. split; [done|]. intros; by apply Hsame.
  - destruct (reqs !! n0) as [p|] eqn:Ep; [|done]. cbn. destruct (step_of p l s) as [[s' p']|] eqn:Est; [|done]. intros [= <-]. cbn.
    specialize (Hb n0). unfold plugin_ok in Hb. cbn in Hb. rewrite Ep in Hb.
    destruct Hb as (adds & Q & v0 & hist0 & _ & Hp0 & Hg). destruct (step_good _ _ _ _ _ _ _ _ _ _ Hs Hp0 Hg Est) as (H1 & H2 & _).
    split; [done|]. intros n v hist Hne Hp. apply part_same; [|done]. apply H2. congruence.
  - destruct (lists !! id) as [p|] eqn:Ep; [|done]. cbn. destruct (step_of p l s) as [[s' p']|] eqn:Est; [|done]. intros [= <-]. cbn.
    destruct (step_reads _ _ _ _ _ (Hl _ _ Ep) Est) as [-> _]. split; [done|]. intros; by apply Hsame.
  - destruct (reqs !! n0) as [[]|]; try done. intros [= <-]. cbn. split; [done|]. intros; by apply Hsame.
  - destruct (lists !! id) as [[]|]; try done. intros [= <-]. cbn. split; [done|]. intros; by apply Hsame.
Qed.

(** The requests of other plugins are where they were. *)
Lemma move_reqs w m w' n : do_move w m = Some w' -> concerns m <> Some n -> lv_reqs w' !! n = lv_reqs w !! n.
Proof.
  destruct w as [s l reqs lists], m as [|now| | |clock cancelled budget req|budget n0|id|n0|id|n0|id]; cbn; intros Hm Hn;
    try assert (n <> n0) by congruence; try assert (n <> rq_Name req) by congruence.
  - by destruct l; simplify_eq.
  - by destruct l; simplify_eq.
  - by destruct l as [| |[|]]; simplify_eq.
  - by destruct l as [| |[|]]; simplify_eq.
  - destruct (reqs !! rq_Name req); simplify_eq. cbn. by rewrite lookup_insert_ne.
  - destruct (reqs !! n0); simplify_eq. cbn. by rewrite lookup_insert_ne.
  - by destruct (lists !! id); simplify_eq.
  - destruct (reqs !! n0); [|done]. cbn in Hm. destruct (step_of _ _ _) as [[s1 p1]|]; cbn in Hm; simplify_eq. cbn. by rewrite lookup_insert_ne.
  - destruct (lists !! id); [|done]. cbn in Hm. by destruct (step_of _ _ _) as [[s1 p1]|]; cbn in Hm; simplify_eq.
  - destruct (reqs !! n0) as [[]|]; simplify_eq. cbn. by rewrite lookup_delete_ne.
  - by destruct (lists !! id) as [[]|]; simplify_eq.
Qed.

(** A request's own move. *)
Lemma work_good w n w' adds Q v p hist :
  live_ok w -> do_move w (Work n) = Some w' -> lv_reqs w !! n = Some p ->
  part n v (lv_ctl w) (lv_loop w) hist -> good n adds Q v p ->
  only n (lv_ctl w) (lv_ctl w') /\
  exists v' p', turn adds v v' /\ lv_reqs w' !! n = Some p' /\ part n v' (lv_ctl w') (lv_loop w') (passed (lv_ctl w) hist) /\ good n adds Q v' p'.
Proof.
  intros Hok. destruct w as [s l reqs lists]. cbn. intros Hm Hp Hpart Hg. rewrite Hp in Hm. cbn in Hm.
  destruct (step_of p l s) as [[s' p']|] eqn:Est; [|done]. injection Hm as <-.
  destruct (step_good _ _ _ _ _ _ _ _ _ _ (lo_sane _ Hok) Hpart Hg Est) as (_ & Ho & v' & Ht & Hp' & Hg').
  split; [done|]. exists v', p'. split_and!; try done. cbn. by rewrite lookup_insert_eq.
Qed.

Lemma fresh_hist n v c l hist : v_up v = None -> part n v c l hist -> part n v c l no_hist.
Proof. intros E [P1 P2 P3 P4 P5 P6]. constructor; try done. rewrite E. done. Qed.

(** A plugin after a move that is about it. *)
Lemma concerned_ok w m w' n :
  0 <= readyTO -> ok_move m -> live_ok w -> do_move w m = Some w' -> concerns m = Some n -> plugin_ok w' n.
Proof.
  intros Hto Hm Hok Hd Hc. pose proof (lo_plugins _ Hok n) as Hn. destruct (move_frame w m w' Hok Hd) as [_ Hpart].
  unfold plugin_ok in Hn. destruct m as [|now| | |clock cancelled budget req|budget n0|id|n0|id|n0|id]; try done; cbn in Hc; injection Hc as Hc; subst n.
  - destruct w as [s l reqs lists]. cbn in *. destruct (reqs !! rq_Name req) as [p|] eqn:E; [done|]. injection Hd as <-.
    destruct Hn as (v & Hv & _ & Hp). unfold plugin_ok. cbn. rewrite lookup_insert_eq. exists (adds_of req), (register_answer req v), v, no_hist.
    split_and!; [intros o v'; by apply register_settles|done|by apply good_RegisterPlugin].
  - destruct w as [s l reqs lists]. cbn in *. destruct (reqs !! n0) as [p|] eqn:E; [done|]. injection Hd as <-.
    destruct Hn as (v & Hv & _ & Hp). unfold plugin_ok. cbn. rewrite lookup_insert_eq. exists None, (remove_answer n0 v), v, no_hist.
    split_and!; [intros o v'; by apply remove_settles|done|by apply good_DeregisterPlugin].
  - destruct (lv_reqs w !! n0) as [p|] eqn:E; [|destruct w as [s l reqs lists]; cbn in *; by rewrite E in Hd].
    destruct Hn as (adds & Q & v & hist & HQ & Hp & Hg).
    destruct (work_good w n0 w' adds Q v p hist Hok Hd E Hp Hg) as (_ & v' & p' & _ & E' & Hp' & Hg').
    unfold plugin_ok. rewrite E'. by exists adds, Q, v', (passed (lv_ctl w) hist).
  - destruct w as [s l reqs lists]. cbn in *. destruct (reqs !! n0) as [[o|?|?|]|] eqn:E; try done. injection Hd as <-.
    destruct Hn as (adds & Q & v & hist & HQ & Hp & Hg). inversion Hg as [v1 o1 Hq| |]; subst.
    unfold plugin_ok. cbn. rewrite lookup_delete_eq. exists (fresh_view v). split_and!; [by eapply settled_fresh, HQ|done|by eapply part_fresh].
Qed.

Lemma move_lists w m w' id p :
  live_ok w -> do_move w m = Some w' -> lv_lists w' !! id = Some p -> reads p.
Proof.
  intros Hok Hd E. pose proof (lo_lists _ Hok) as Hl. destruct w as [s l reqs lists]. cbn in Hl.
  destruct m as [|now| | |clock cancelled budget req|budget n0|id0|n0|id0|n0|id0]; cbn in Hd.
  - destruct l; simplify_eq. by eapply Hl.
  - destruct l; simplify_eq. by eapply Hl.
  - destruct l as [| |[|]]; simplify_eq. by eapply Hl.
  - destruct l as [| |[|]]; simplify_eq. by eapply Hl.
  - destruct (reqs !! rq_Name req); simplify_eq. by eapply Hl.
  - destruct (reqs !! n0); simplify_eq. by eapply Hl.
  - destruct (lists !! id0); simplify_eq. cbn in E. apply lookup_insert_Some in E as [[_ <-]|[_ E]]; [apply reads_list|by eapply Hl].
  - destruct (reqs !! n0); [|done]. cbn in Hd. destruct (step_of _ _ _) as [[s1 p1]|]; cbn in Hd; simplify_eq. by eapply Hl.
  - destruct (lists !! id0) as [p0|] eqn:E0; [|done]. cbn in Hd. destruct (step_of p0 l s) as [[s1 p1]|] eqn:Es; cbn in Hd; simplify_eq.
    cbn in E. apply lookup_insert_Some in E as [[_ <-]|[_ E]]; [|by eapply Hl]. by eapply step_reads, Es; eapply Hl.
  - destruct (reqs !! n0) as [[]|]; simplify_eq. by eapply Hl.
  - destruct (lists !! id0) as [[]|]; simplify_eq. cbn in E. apply lookup_delete_Some in E as [_ E]. by eapply Hl.
Qed.

Lemma move_ok w m w' : 0 <= readyTO -> ok_move m -> live_ok w -> do_move w m = Some w' -> live_ok w'.
Proof.
  intros Hto Hm Hok Hd. destruct (move_frame w m w' Hok Hd) as [Hs Hpart]. constructor; [done| |by intros id p; apply (move_lists w m)].
  intros n. destruct (decide (concerns m = Some n)) as [Hc|Hc]; [by eapply concerned_ok|].
  assert (m <> Work n) as Hne by (intros ->; by apply Hc).
  pose proof (lo_plugins _ Hok n) as Hn. unfold plugin_ok in *. rewrite (move_reqs w m w' n Hd Hc).
  destruct (lv_reqs w !! n) as [p|].
  - destruct Hn as (adds & Q & v & hist & HQ & Hp & Hg). exists adds, Q, v, (passed (lv_ctl w) hist). split_and!; [done|by apply Hpart|done].
  - destruct Hn as (v & Hv & Hup & Hp). exists v. split_and!; [done|done|]. eapply fresh_hist; [done|]. by apply Hpart.
Qed.

Lemma run_snoc w ms m : run w (ms ++ [m]) = (w' ← run w ms; do_move w' m).
Proof. unfold run. by rewrite foldl_app. Qed.

Lemma run_ok w ms w' : 0 <= readyTO -> Forall ok_move ms -> live_ok w -> run w ms = Some w' -> live_ok w'.
Proof.
  intros Hto. revert w'. induction ms as [|m ms IH] using rev_ind; intros w' Hms Hok; [by intros [= <-]|].
  apply Forall_app in Hms as [Hms Hm%Forall_inv]. rewrite run_snoc. destruct (run w ms) as [w1|] eqn:E; [|done]. cbn.
  intros Hd. eapply move_ok; [exact Hto|exact Hm| |exact Hd]. by apply IH.
Qed.

End Kept.
End Admin.
