(* ===== verification/StatePlugin.v ===== *)
(** The reference state backend (src/plugins/state/inmemory-go): the key grammar, the
    revisioned store with compare-and-set and create-if-absent, and the change log that
    watches replay. *)
From S2P Require Import Prelude Lease StateLease.

(** ** The key grammar *)

Definition maxKeyBytes : Z := 512.

Definition byte_in (lo hi : nat) (a : ascii) : bool := (lo <=? nat_of_ascii a)%nat && (nat_of_ascii a <=? hi)%nat.
Definition cont (a : ascii) : bool := byte_in 128 191 a.

(** [utf8.ValidString]. *)
Fixpoint ValidString (s : string) : bool :=
  match s with
  | "" => true
  | String a s1 =>
      if byte_in 0 127 a then ValidString s1
      else match s1 with
           | "" => false
           | String b s2 =>
               if byte_in 194 223 a then cont b && ValidString s2
               else match s2 with
                    | "" => false
                    | String c s3 =>
                        if byte_in 224 239 a then
                          (if byte_in 224 224 a then byte_in 160 191 b
                           else if byte_in 237 237 a then byte_in 128 159 b else cont b) &&
                          cont c && ValidString s3
                        else match s3 with
                             | "" => false
                             | String d s4 =>
                                 byte_in 240 244 a &&
                                 (if byte_in 240 240 a then byte_in 144 191 b
                                  else if byte_in 244 244 a then byte_in 128 143 b else cont b) &&
                                 cont c && cont d && ValidString s4
                             end
                    end
           end
  end.

Definition backslash_dots : string := ".." +:+ bytes [92%nat].

Definition validateKey (s : string) (allowEmpty : bool) : option error :=
  if decide (s = "") then
    if allowEmpty then None else Some (Status InvalidArgument "key is required" [])
  else if maxKeyBytes <? len s then Some (Status InvalidArgument "key exceeds %d bytes" [itoa maxKeyBytes])
  else if negb (ValidString s) then Some (Status InvalidArgument "key is not valid UTF-8" [])
  else if negb (str_forall (fun c => negb (nat_of_ascii c <? 32)%nat) s) then
    Some (Status InvalidArgument "key contains a control character" [])
  else if Contains s "../" || Contains s backslash_dots then
    Some (Status InvalidArgument "key contains a path-traversal sequence" [])
  else if existsb (fun comp => bool_decide (comp = "." \/ comp = "..")) (Split "/" s) then
    Some (Status InvalidArgument "key contains a '.' or '..' path component" [])
  else None.

(** ** The store *)

Record entry := mkEntry { e_value : string; e_revision : Z }.
Record changeEvent := mkChange { ce_key : string; ce_value : string; ce_revision : Z }.
Record store := mkState { st_data : gmap string entry; st_log : list changeEvent; st_rev : Z }.
Definition newStore : store := mkState ∅ [] 0.

Definition store_get (s : store) (key : string) : bool * string * Z :=
  match st_data s !! key with
  | None => (false, "", 0)
  | Some e => (true, e_value e, e_revision e)
  end.

(** The write both operations end in. *)
Definition commit (s : store) (key value : string) : store :=
  let rev := wrap64 (st_rev s + 1) in
  mkState (<[key := mkEntry value rev]> (st_data s)) (st_log s ++ [mkChange key value rev]) rev.

Definition store_put (s : store) (key value : string) (ifRev : Z) : bool * Z * store :=
  let cur := default (mkEntry "" 0) (st_data s !! key) in
  if (0 <? ifRev) && negb (e_revision cur =? ifRev) then (false, e_revision cur, s)
  else let s := commit s key value in (true, st_rev s, s).

Definition store_createIfAbsent (s : store) (key value : string) : bool * Z * store :=
  match st_data s !! key with
  | Some e => (false, e_revision e, s)
  | None => let s := commit s key value in (true, st_rev s, s)
  end.

Definition store_list (s : store) (prefix : string) : list string :=
  sort_strings (filter (fun k => HasPrefix k prefix = true) (map_to_list (st_data s)).*1).

Definition store_watchBacklog (s : store) (prefix : string) (fromRev : Z) : list changeEvent :=
  if fromRev =? 0 then []
  else filter (fun e => (fromRev <=? ce_revision e) && HasPrefix (ce_key e) prefix = true) (st_log s).

(** ** The service *)

Definition outcome_of (committed : bool) : PutOutcome := if committed then COMMITTED else CONFLICT.

Definition stateServer_Get (s : store) (key : string) : result (bool * string * Z) :=
  match validateKey key false with Some e => Err e | None => Ok (store_get s key) end.

Definition stateServer_Put (s : store) (key value : string) (ifRev : Z) : result (PutOutcome * Z) * store :=
  match validateKey key false with
  | Some e => (Err e, s)
  | None => let '(committed, rev, s) := store_put s key value ifRev in (Ok (outcome_of committed, rev), s)
  end.

Definition stateServer_CreateIfAbsent (s : store) (key value : string) : result (PutOutcome * Z) * store :=
  match validateKey key false with
  | Some e => (Err e, s)
  | None => let '(created, rev, s) := store_createIfAbsent s key value in (Ok (outcome_of created, rev), s)
  end.

Definition stateServer_List (s : store) (prefix : string) : result (list string) :=
  match validateKey prefix true with Some e => Err e | None => Ok (store_list s prefix) end.

(** The events sent before the stream ends or a send fails. *)
Definition stateServer_Watch (s : store) (prefix : string) (fromRev : Z) : result (list changeEvent) :=
  match validateKey prefix true with Some e => Err e | None => Ok (store_watchBacklog s prefix fromRev) end.

(** ** The log is the store *)

Definition apply_change (m : gmap string entry) (e : changeEvent) : gmap string entry :=
  <[ce_key e := mkEntry (ce_value e) (ce_revision e)]> m.
Definition replay (m : gmap string entry) (es : list changeEvent) : gmap string entry := fold_left apply_change es m.

Inductive state_step : store -> store -> Prop :=
  | step_put s k v r : state_step s (stateServer_Put s k v r).2
  | step_create s k v : state_step s (stateServer_CreateIfAbsent s k v).2.

Definition in_width (s : store) : Prop := Z.of_nat (length (st_log s)) < 2^63.

Record store_wf (s : store) : Prop := {
  sw_data : st_data s = replay ∅ (st_log s);
  sw_rev : st_rev s = Z.of_nat (length (st_log s));
  sw_log : forall i e, st_log s !! i = Some e -> ce_revision e = Z.of_nat i + 1;
}.

Lemma Put_cases s k v r : let s' := (stateServer_Put s k v r).2 in s' = s \/ exists v, s' = commit s k v.
Proof.
  unfold stateServer_Put. destruct (validateKey k false); [by left|]. unfold store_put. destruct (_ && _); [by left|right; eauto].
Qed.

Lemma Create_cases s k v : let s' := (stateServer_CreateIfAbsent s k v).2 in s' = s \/ exists v, s' = commit s k v.
Proof.
  unfold stateServer_CreateIfAbsent. destruct (validateKey k false); [by left|]. unfold store_createIfAbsent.
  destruct (st_data s !! k); [by left|right; eauto].
Qed.

Lemma step_cases s s' : state_step s s' -> s' = s \/ exists k v, s' = commit s k v.
Proof.
  intros [s0 k v r|s0 k v]; [destruct (Put_cases s0 k v r) as [E|[x E]]|destruct (Create_cases s0 k v) as [E|[x E]]];
    [by left|right; eauto..|by left|right; eauto].
Qed.

Lemma commit_log s k v : in_width (commit s k v) -> store_wf s ->
  st_log (commit s k v) = st_log s ++ [mkChange k v (Z.of_nat (length (st_log s)) + 1)] /\
  st_rev (commit s k v) = Z.of_nat (length (st_log s)) + 1.
Proof.
  unfold in_width, commit. simpl. rewrite length_app /=. intros Hw Hs. rw (sw_rev _ Hs).
  by rw wrap64_id; [|unfold in_int64; lia].
Qed.

Lemma commit_wf s k v : in_width (commit s k v) -> store_wf s -> store_wf (commit s k v).
Proof.
  intros Hw Hs. destruct (commit_log s k v Hw Hs) as [Hl Hr]. constructor.
  - rw Hl. unfold replay. rewrite fold_left_app. change (fold_left apply_change (st_log s) ∅) with (replay ∅ (st_log s)).
    unfold commit in *. simpl in *. by rw -(sw_data _ Hs) Hr.
  - rw Hr Hl length_app /=. lia.
  - intros i e. rw Hl. intros [H|[Hi H]]%lookup_app_Some; [by apply (sw_log _ Hs)|].
    destruct (i - length (st_log s))%nat eqn:E; [|done]. simpl in H. injection H as <-. simpl. lia.
Qed.

Lemma step_width s s' : state_step s s' -> in_width s' -> in_width s.
Proof.
  intros [->|(k & v & ->)]%step_cases; [done|]. unfold in_width, commit. simpl. rewrite length_app /=. lia.
Qed.

Lemma step_wf s s' : state_step s s' -> in_width s' -> store_wf s -> store_wf s'.
Proof. intros [->|(k & v & ->)]%step_cases; [done|]. apply commit_wf. Qed.

Lemma steps_extend s s' : rtc state_step s s' -> in_width s' -> store_wf s ->
  store_wf s' /\ exists es, st_log s' = st_log s ++ es.
Proof.
  intros Hs. revert s' Hs. refine (rtc_ind_r _ s _ _).
  - intros _ ?. split; [done|]. exists []. by rewrite app_nil_r.
  - intros s1 s2 _ Hst IH Hw Hwf. destruct IH as (Hwf1 & es & Hes); [by eapply step_width|done|].
    split; [by eapply step_wf|]. destruct (step_cases _ _ Hst) as [->|(k & v & ->)]; [eauto|].
    eexists. unfold commit. simpl. by rewrite Hes -app_assoc.
Qed.

Lemma newStore_wf : store_wf newStore.
Proof. by constructor. Qed.

(** ** Watching *)

Definition under (prefix : string) (kv : string * entry) : Prop := HasPrefix kv.1 prefix = true.
#[export] Instance under_dec prefix kv : Decision (under prefix kv).
Proof. unfold under. apply _. Defined.
Definition event_under (prefix : string) (e : changeEvent) : Prop := HasPrefix (ce_key e) prefix = true.
#[export] Instance event_under_dec prefix e : Decision (event_under prefix e).
Proof. unfold event_under. apply _. Defined.

Lemma replay_filter prefix es m :
  filter (under prefix) (replay m es) = replay (filter (under prefix) m) (filter (event_under prefix) es).
Proof.
  revert m. induction es as [|e es IH]; intros m; [done|]. simpl. rewrite IH filter_cons. case_decide as E; simpl.
  - f_equal. unfold apply_change. by rewrite map_filter_insert_True.
  - f_equal. unfold apply_change. rewrite map_filter_insert_False; [|done].
    rewrite map_filter_delete. apply delete_id. apply map_lookup_filter_None. right. intros x _ Hx. by apply E.
Qed.

Lemma filter_Forall_iff {A} (P Q : A -> Prop) `{!forall x, Decision (P x), !forall x, Decision (Q x)} l :
  Forall (fun x => P x <-> Q x) l -> filter P l = filter Q l.
Proof.
  induction 1 as [|x l Hx _ IH]; [done|]. rewrite !filter_cons IH. by repeat case_decide; tauto.
Qed.

Lemma revisions_above s es s' :
  store_wf s -> store_wf s' -> st_log s' = st_log s ++ es ->
  Forall (fun e => ce_revision e <= st_rev s) (st_log s) /\ Forall (fun e => st_rev s < ce_revision e) es.
Proof.
  intros Hs Hs' Hl. rw (sw_rev _ Hs). split; apply Forall_lookup; intros i e He.
  - rw (sw_log _ Hs _ _ He). apply lookup_lt_Some in He. lia.
  - assert (st_log s' !! (length (st_log s) + i)%nat = Some e) as H'
      by (by rewrite Hl lookup_app_r; [|lia]; replace (length (st_log s) + i - length (st_log s))%nat with i by lia).
    rw (sw_log _ Hs' _ _ H'). lia.
Qed.

Lemma backlog_new s es s' prefix :
  store_wf s -> store_wf s' -> st_log s' = st_log s ++ es ->
  store_watchBacklog s' prefix (st_rev s + 1) = filter (event_under prefix) es.
Proof.
  intros Hs Hs' Hl. destruct (revisions_above s es s' Hs Hs' Hl) as [Ho Hn].
  unfold store_watchBacklog. rewrite (proj2 (Z.eqb_neq _ 0)); [|rw (sw_rev _ Hs); lia].
  rewrite Hl filter_app filter_none.
  - simpl. apply filter_Forall_iff. eapply Forall_impl; [exact Hn|]. intros e He. cbn beta in He. unfold event_under.
    rewrite andb_true_iff Z.leb_le. split; [tauto|]. intros Hp. split; [lia|exact Hp].
  - eapply Forall_impl; [exact Ho|]. intros e He. cbn beta in He. rewrite andb_true_iff Z.leb_le. lia.
Qed.

(** C39: Watching loses nothing: whatever happened between two moments, replaying the backlog
    that starts after the first moment's revision, onto what was then stored under a
    prefix, gives exactly what is stored under the prefix at the second moment; and from
    the first revision it rebuilds the store from nothing. *)
Theorem watch_catches_up (s0 s1 : store) (prefix : string) :
  rtc state_step newStore s0 -> rtc state_step s0 s1 -> in_width s1 ->
  filter (under prefix) (st_data s1) =
    replay (filter (under prefix) (st_data s0)) (store_watchBacklog s1 prefix (st_rev s0 + 1)) /\
  filter (under prefix) (st_data s1) = replay ∅ (store_watchBacklog s1 prefix 1).
Proof.
  intros H0 H1 Hw.
  destruct (steps_extend newStore s1 (transitivity H0 H1) Hw newStore_wf) as (Hwf1 & _).
  assert (in_width s0 /\ store_wf s0) as [Hw0 Hwf0].
  { assert (in_width s0) as Hw0.
    { clear - H1 Hw. induction H1; [done|]. eapply step_width; eauto. }
    split; [done|]. by eapply steps_extend; [exact H0| |apply newStore_wf]. }
  destruct (steps_extend s0 s1 H1 Hw Hwf0) as (_ & es & Hes).
  split.
  - rewrite (backlog_new s0 es s1 prefix Hwf0 Hwf1 Hes) (sw_data _ Hwf1) (sw_data _ Hwf0) Hes.
    rewrite /replay fold_left_app. apply replay_filter.
  - rewrite (backlog_new newStore (st_log s1) s1 prefix newStore_wf Hwf1 eq_refl) (sw_data _ Hwf1).
    by rewrite replay_filter.
Qed.

(** ** The backend the lease protocol is proved against

    Seen through the lease's key, the store is a history of revisions and values, and its
    answers are steps of the backend of [StateLease]; what the store is used for under other
    keys only makes the revisions jump. *)
Definition change_to (key : string) (e : changeEvent) : Prop := ce_key e = key.
#[export] Instance change_to_dec key e : Decision (change_to key e).
Proof. unfold change_to. apply _. Defined.
Definition history (key : string) (s : store) : versions (Bytes := string) :=
  (fun e => (ce_revision e, ce_value e)) <$> filter (change_to key) (st_log s).

(** The client adapter's read. *)
Definition stateCAS_Get (r : result (bool * string * Z)) : result (option (string * Z)) :=
  match r with
  | Err e => Err e
  | Ok (found, v, rev) => Ok (if (found : bool) then Some (v, rev) else None)
  end.

Lemma replay_key key es :
  replay ∅ es !! key = (fun e => mkEntry (ce_value e) (ce_revision e)) <$> last (filter (change_to key) es).
Proof.
  induction es as [|e es IH] using rev_ind; [done|].
  rewrite /replay fold_left_app filter_app. simpl. unfold apply_change at 1. fold (replay ∅ es).
  rewrite filter_cons filter_nil. case_decide as E.
  - rewrite last_snoc. unfold change_to in E. by rw E lookup_insert_eq.
  - rewrite app_nil_r lookup_insert_ne; [exact IH|exact E].
Qed.

Lemma store_key key s : store_wf s ->
  st_data s !! key = (fun x => mkEntry x.2 x.1) <$> last (history key s).
Proof.
  intros Hs. rewrite (sw_data _ Hs) (replay_key key). unfold history. rewrite fmap_last.
  by destruct (last (filter (change_to key) (st_log s))).
Qed.

Lemma store_current key s : store_wf s -> Ok (current (history key s)) = stateCAS_Get (Ok (store_get s key)).
Proof.
  intros Hs. unfold current, store_get. rewrite (store_key key s Hs).
  by destruct (last (history key s)) as [[r v]|].
Qed.

Lemma history_revision key s : store_wf s -> revision (history key s) <= st_rev s.
Proof.
  intros Hs. unfold revision. destruct (last (history key s)) as [[r v]|] eqn:E; [|rw (sw_rev _ Hs); lia].
  apply last_Some_elem_of in E. unfold history in E. apply list_elem_of_fmap in E as (e & [= -> _] & He).
  apply list_elem_of_filter in He as [_ He]. apply list_elem_of_lookup in He as [i He].
  rw (sw_log _ Hs _ _ He) (sw_rev _ Hs). apply lookup_lt_Some in He. lia.
Qed.

Lemma commit_history k key s v : in_width (commit s k v) -> store_wf s ->
  history key (commit s k v) = if decide (k = key) then history key s ++ [(st_rev (commit s k v), v)] else history key s.
Proof.
  intros Hw Hs. destruct (commit_log s k v Hw Hs) as [Hl Hr]. unfold history. rewrite Hl Hr filter_app.
  rewrite filter_cons filter_nil. repeat case_decide; unfold change_to in *; simpl in *; try done.
  - by rewrite fmap_app.
  - by rewrite app_nil_r.
Qed.

Lemma commit_later key s v : in_width (commit s key v) -> store_wf s -> later (history key s) (st_rev (commit s key v)).
Proof.
  intros Hw Hs. destruct (commit_log s key v Hw Hs) as [_ Hr]. pose proof (history_revision key s Hs) as Hrev.
  rw (sw_rev _ Hs) in Hrev. unfold later. rw Hr. split; [lia|].
  revert Hw. unfold in_width, commit. simpl. rewrite length_app /=. lia.
Qed.

(** The three operations of the backend, as the lease sees them. *)
Lemma serves_get s key pd :
  validateKey key false = None -> store_wf s ->
  serve (Bytes := string) _ (CGet key) (history key s, pd) (stateCAS_Get (stateServer_Get s key)) (history key s, pd).
Proof. intros Hk Hs. unfold stateServer_Get. rewrite Hk -store_current; [|done]. constructor. Qed.

(** A write is made exactly when the key's history admits it. *)
Lemma put_cases s key v r :
  validateKey key false = None -> store_wf s ->
  stateServer_Put s key v r =
    if admits (history key s) (mkWrite v (IfRevision r)) then (Ok (COMMITTED, st_rev (commit s key v)), commit s key v)
    else (Ok (CONFLICT, revision (history key s)), s).
Proof.
  intros Hk Hs. unfold stateServer_Put, store_put. rewrite Hk (store_key key s Hs).
  assert (e_revision (default (mkEntry "" 0) ((fun x => mkEntry x.2 x.1) <$> last (history key s))) = revision (history key s)) as ->.
  { unfold revision. by destruct (last (history key s)) as [[? ?]|]. }
  unfold admits. simpl. destruct (Z.leb_spec r 0), (Z.eqb_spec r (revision (history key s))), (Z.ltb_spec 0 r),
    (Z.eqb_spec (revision (history key s)) r); simpl; try done; lia.
Qed.

Lemma create_cases s key v :
  validateKey key false = None -> store_wf s ->
  stateServer_CreateIfAbsent s key v =
    if admits (history key s) (mkWrite v IfAbsent) then (Ok (COMMITTED, st_rev (commit s key v)), commit s key v)
    else (Ok (CONFLICT, revision (history key s)), s).
Proof.
  intros Hk Hs. unfold stateServer_CreateIfAbsent, store_createIfAbsent. rewrite Hk (store_key key s Hs).
  unfold admits, revision. simpl. destruct (last (history key s)) as [[rev x]|] eqn:E; simpl.
  - rewrite bool_decide_eq_false_2; [done|]. intros H0. by rewrite H0 in E.
  - apply last_None in E. by rewrite bool_decide_eq_true_2.
Qed.

Lemma serves_put s key v r pd :
  validateKey key false = None -> store_wf s ->
  let out := stateServer_Put s key v r in
  in_width out.2 -> serve (Bytes := string) _ (CPut key v r) (history key s, pd) (stateCAS_Put out.1) (history key out.2, pd).
Proof.
  intros Hk Hs. rewrite (put_cases s key v r Hk Hs). destruct (admits _ _) eqn:Ha; cbn [fst snd]; intros Hw.
  - rewrite (commit_history key key s v Hw Hs) decide_True //.
    eapply (serve_commit _ _ _ _ (mkWrite v (IfRevision r))); [done|done|by apply commit_later|done].
  - by eapply serve_conflict.
Qed.

Lemma serves_create s key v pd :
  validateKey key false = None -> store_wf s ->
  let out := stateServer_CreateIfAbsent s key v in
  in_width out.2 -> serve (Bytes := string) _ (CCreate key v) (history key s, pd) (stateCAS_CreateIfAbsent out.1) (history key out.2, pd).
Proof.
  intros Hk Hs. rewrite (create_cases s key v Hk Hs). destruct (admits _ _) eqn:Ha; cbn [fst snd]; intros Hw.
  - rewrite (commit_history key key s v Hw Hs) decide_True //.
    eapply (serve_commit _ _ _ _ (mkWrite v IfAbsent)); [done|done|by apply commit_later|done].
  - by eapply serve_conflict.
Qed.

(** What is done under another key is not in the history. *)
Lemma other_key_history key s s' k :
  k <> key -> store_wf s -> in_width s' -> s' = s \/ (exists v, s' = commit s k v) -> history key s' = history key s.
Proof. intros Hne Hs Hw [->|[v ->]]; [done|]. by rewrite (commit_history k key s v Hw Hs) decide_False. Qed.

(** C10: The reference state backend is a backend the lease protocol is correct over, whatever
    else it stores: each answer it gives to a read, a conditional put or a
    create-if-absent of the lease key, passed through the client adapter, is a step the
    protocol allows between the histories of the key before and after, and a write to
    another key leaves the history alone. *)
Theorem state_backend_serves_lease (s : store) (key v : string) (r : Z) (pd : list write) :
  validateKey key false = None -> store_wf s -> in_width (commit s key v) ->
  serve (Bytes := string) _ (CGet key) (history key s, pd) (stateCAS_Get (stateServer_Get s key)) (history key s, pd) /\
  (let out := stateServer_Put s key v r in
   serve (Bytes := string) _ (CPut key v r) (history key s, pd) (stateCAS_Put out.1) (history key out.2, pd)) /\
  (let out := stateServer_CreateIfAbsent s key v in
   serve (Bytes := string) _ (CCreate key v) (history key s, pd) (stateCAS_CreateIfAbsent out.1) (history key out.2, pd)) /\
  (forall k x ifRev, k <> key -> let out := stateServer_Put s k x ifRev in in_width out.2 -> history key out.2 = history key s).
Proof.
  intros Hk Hs Hw. assert (in_width s) as Hw0 by (revert Hw; unfold in_width, commit; simpl; rewrite length_app /=; lia).
  split; [by apply serves_get|]. split; [|split].
  - apply serves_put; [done..|]. rewrite (put_cases s key v r Hk Hs). by destruct (admits _ _).
  - apply serves_create; [done..|]. rewrite (create_cases s key v Hk Hs). by destruct (admits _ _).
  - intros k x q Hne out Hwo. apply (other_key_history key s out.2 k Hne Hs Hwo), Put_cases.
Qed.

(** ** At concrete stores *)

Definition demo_put (s : store) (k v : string) : store := (stateServer_Put s k v 0).2.
Definition demo_s0 : store := demo_put (demo_put newStore "a/1" "x") "b/1" "y".
Definition demo_s1 : store := (stateServer_CreateIfAbsent (demo_put demo_s0 "a/1" "z") "a/2" "w").2.

Lemma watch_catches_up_witness :
  ce_value <$> store_watchBacklog demo_s1 "a/" (st_rev demo_s0 + 1) = ["z"; "w"] /\
  filter (under "a/") (st_data demo_s1) =
    replay (filter (under "a/") (st_data demo_s0)) (store_watchBacklog demo_s1 "a/" (st_rev demo_s0 + 1)) /\
  filter (under "a/") (st_data demo_s1) = replay ∅ (store_watchBacklog demo_s1 "a/" 1).
Proof.
  split; [vm_compute; reflexivity|]. apply (watch_catches_up demo_s0 demo_s1 "a/").
  - eapply rtc_l; [apply (step_put newStore "a/1" "x" 0)|]. apply rtc_once, step_put.
  - eapply rtc_l; [apply (step_put demo_s0 "a/1" "z" 0)|]. apply rtc_once, step_create.
  - reflexivity.
Defined.

(** The lease key beside a plugin's own. *)
Definition lease_key : string := "rat/lease/rat-serve".
Definition demo_lease : store := demo_put (demo_put newStore lease_key "a") "b/1" "y".

Lemma demo_lease_steps : rtc state_step newStore demo_lease.
Proof. eapply rtc_l; [apply (step_put newStore lease_key "a" 0)|]. apply rtc_once, step_put. Qed.

Lemma state_backend_serves_lease_witness :
  let s := demo_lease in
  let out := stateServer_Put s lease_key "b" 1 in
  out.1 = Ok (COMMITTED, 3) /\
  serve (Bytes := string) _ (CPut lease_key "b" 1) ([(1, "a")], []) (Ok (true, 3)) ([(1, "a"); (3, "b")], []).
Proof.
  intros s out. split; [reflexivity|].
  apply (state_backend_serves_lease demo_lease lease_key "b" 1 []); [reflexivity| |reflexivity].
  apply (steps_extend newStore demo_lease demo_lease_steps); [reflexivity|apply newStore_wf].
Defined.
