(* ===== verification/CatalogPlugin.v ===== *)
(** The reference catalog (src/plugins/catalog/inmemory-go): branches as named snapshots,
    merges and table commits under optimistic concurrency and idempotency keys. *)
From S2P Require Import Prelude.

Definition seedTable : string := "warehouse.sales.orders".

Record catalog := mkCatalog {
  branches : gmap string string;
  tables : gset string;
  merges : gmap string string;
  commits : gmap string string;
  commitKeys : gmap string string;
  counter : Z;
}.
Definition newCatalog : catalog := mkCatalog {["main" := "snap-0"]} {[seedTable]} ∅ ∅ ∅ 0.

Definition commitKey (identifier branch : string) : string := identifier +:+ bytes [0%nat] +:+ branch.
Definition or_main (branch : string) : string := if decide (branch = "") then "main" else branch.
Definition catalog_uri (identifier branch : string) : string := "catalog://" +:+ identifier +:+ "@" +:+ branch.

Definition catalog_getTable (c : catalog) (identifier branch : string) : result (string * string) :=
  if decide (identifier = "") then Err (Status InvalidArgument "identifier is required" [])
  else if decide (identifier ∉ tables c) then Err (Status NotFound "unknown table %q" [identifier])
  else
    let branch := or_main branch in
    match branches c !! branch with
    | None => Err (Status NotFound "unknown branch %q" [branch])
    | Some _ => Ok (branch, catalog_uri identifier branch)
    end.

Definition catalog_createBranch (c : catalog) (branch from : string) : option error * catalog :=
  if decide (branch = "") then (Some (Status InvalidArgument "branch is required" []), c)
  else
    let from := or_main from in
    match branches c !! from with
    | None => (Some (Status NotFound "unknown from_branch %q" [from]), c)
    | Some src => (None, mkCatalog (<[branch := src]> (branches c)) (tables c) (merges c) (commits c) (commitKeys c) (counter c))
    end.

(** The snapshot of an idempotency key that already committed; an empty key has none. *)
Definition ledger (l : gmap string string) (key : string) : option string := if decide (key = "") then None else l !! key.
Definition record (l : gmap string string) (key snap : string) : gmap string string :=
  if decide (key = "") then l else <[key := snap]> l.

Definition snapName (n : Z) : string := "snap-" +:+ itoa n.

Definition catalog_mergeBranch (c : catalog) (branch into expected key : string) : result (string * bool) * catalog :=
  match ledger (merges c) key with
  | Some snap => (Ok (snap, true), c)
  | None =>
      match branches c !! branch with
      | None => (Err (Status NotFound "unknown branch %q" [branch]), c)
      | Some _ =>
          match branches c !! into with
          | None => (Err (Status NotFound "unknown into_branch %q" [into]), c)
          | Some cur =>
              if decide (expected <> "" /\ expected <> cur) then
                (Err (Status FailedPrecondition
                   "into_branch %q is at %q, not the expected %q (concurrent merge?)" [into; cur; expected]), c)
              else
                let n := wrap64 (counter c + 1) in
                (Ok (snapName n, false),
                 mkCatalog (<[into := snapName n]> (branches c)) (tables c) (record (merges c) key (snapName n))
                   (commits c) (commitKeys c) n)
          end
      end
  end.

Definition catalog_registerTable (c : catalog) (identifier uri branch : string) : result (string * string) * catalog :=
  if decide (identifier = "") then (Err (Status InvalidArgument "identifier is required" []), c)
  else
    let branch := or_main branch in
    match branches c !! branch with
    | None => (Err (Status NotFound "unknown branch %q" [branch]), c)
    | Some _ =>
        (Ok (branch, if decide (uri = "") then catalog_uri identifier branch else uri),
         mkCatalog (branches c) ({[identifier]} ∪ tables c) (merges c) (commits c) (commitKeys c) (counter c))
    end.

Definition catalog_commitTable (c : catalog) (identifier branch snapshot expected key : string) :
    result (string * bool) * catalog :=
  if decide (identifier = "") then (Err (Status InvalidArgument "identifier is required" []), c)
  else if decide (snapshot = "") then (Err (Status InvalidArgument "snapshot_id is required" []), c)
  else
    let branch := or_main branch in
    match ledger (commitKeys c) key with
    | Some snap => (Ok (snap, true), c)
    | None =>
        if decide (identifier ∉ tables c) then (Err (Status NotFound "unknown table %q" [identifier]), c)
        else match branches c !! branch with
             | None => (Err (Status NotFound "unknown branch %q" [branch]), c)
             | Some _ =>
                 let ck := commitKey identifier branch in
                 let cur := default "" (commits c !! ck) in
                 if decide (expected <> "" /\ expected <> cur) then
                   (Err (Status FailedPrecondition
                      "table %q on branch %q is at %q, not the expected %q (concurrent commit?)"
                      [identifier; branch; cur; expected]), c)
                 else
                   (Ok (snapshot, false),
                    mkCatalog (branches c) (tables c) (merges c) (<[ck := snapshot]> (commits c))
                      (record (commitKeys c) key snapshot) (counter c))
             end
    end.

(** ** The service *)

Record TableRef := mkTableRef { Identifier : string; Uri : string; Branch : string }.

Definition catalogServer_GetTable (c : catalog) (identifier branch : string) : result TableRef :=
  let? r := catalog_getTable c identifier branch in Ok (mkTableRef identifier r.2 r.1).
Definition catalogServer_CreateBranch (c : catalog) (branch from : string) : result string * catalog :=
  let '(e, c) := catalog_createBranch c branch from in
  (match e with Some e => Err e | None => Ok branch end, c).
Definition catalogServer_MergeBranch (c : catalog) (branch into expected key : string) : result (string * bool) * catalog :=
  catalog_mergeBranch c branch into expected key.
Definition catalogServer_RegisterTable (c : catalog) (identifier uri branch : string) : result TableRef * catalog :=
  let '(r, c) := catalog_registerTable c identifier uri branch in
  (let? r := r in Ok (mkTableRef identifier r.2 r.1), c).
Definition catalogServer_CommitTable (c : catalog) (identifier branch snapshot expected key : string) :
    result (string * bool) * catalog :=
  catalog_commitTable c identifier branch snapshot expected key.

(** ** Reachable catalogs *)

(** Everything a client can do. *)
Inductive catalog_op :=
  | OpBranch (branch from : string)
  | OpMerge (branch into expected key : string)
  | OpRegister (identifier uri branch : string)
  | OpCommit (identifier branch snapshot expected key : string).

Definition apply_op (c : catalog) (o : catalog_op) : catalog :=
  match o with
  | OpBranch b f => (catalogServer_CreateBranch c b f).2
  | OpMerge b i e k => (catalogServer_MergeBranch c b i e k).2
  | OpRegister i u b => (catalogServer_RegisterTable c i u b).2
  | OpCommit i b s e k => (catalogServer_CommitTable c i b s e k).2
  end.
Definition apply_ops (c : catalog) (os : list catalog_op) : catalog := fold_left apply_op os c.

(** Every branch is at a snapshot that was minted, and the counter has not run over. *)
Record catalog_ok (c : catalog) : Prop := {
  co_counter : 0 <= counter c;
  co_branches : forall b s, branches c !! b = Some s -> exists n, s = snapName n /\ 0 <= n <= counter c;
}.

Definition creates (b : string) (o : catalog_op) : Prop := match o with OpBranch b' _ => b' = b | _ => False end.

(** Room for [k] more snapshots. *)
Definition room (c : catalog) (k : nat) : Prop := counter c + Z.of_nat k < 2^63.

Lemma snapName_inj n m : snapName n = snapName m -> n = m.
Proof. unfold snapName, itoa. intros H%str_app_inj_r. by apply (inj pretty). Qed.

Lemma op_counter c o : 0 <= counter c -> room c 1 ->
  counter c <= counter (apply_op c o) <= counter c + 1.
Proof.
  unfold room. intros H0 H1. assert (wrap64 (counter c + 1) = counter c + 1) as Hw
    by (apply wrap64_id; unfold in_int64; lia).
  destruct o; simpl; unfold catalogServer_CreateBranch, catalog_createBranch, catalogServer_MergeBranch, catalog_mergeBranch,
    catalogServer_RegisterTable, catalog_registerTable, catalogServer_CommitTable, catalog_commitTable;
    repeat case_match; simpl; simplify_eq/=; lia.
Qed.

(** What one operation does to the branch table. *)
Lemma op_branches c o b :
  branches (apply_op c o) !! b = branches c !! b \/
  (exists f s, o = OpBranch b f /\ branches c !! or_main f = Some s /\ branches (apply_op c o) !! b = Some s) \/
  (counter (apply_op c o) = wrap64 (counter c + 1) /\
   branches (apply_op c o) !! b = Some (snapName (wrap64 (counter c + 1)))).
Proof.
  destruct o as [b' f|b' i e k|i u b'|i b' s e k]; simpl.
  - unfold catalogServer_CreateBranch, catalog_createBranch. repeat case_match; simplify_eq/=; try by left.
    destruct (decide (b' = b)) as [->|Hne]; [right; left; exists f; eexists; by rewrite lookup_insert_eq|].
    left. by rewrite lookup_insert_ne.
  - unfold catalogServer_MergeBranch, catalog_mergeBranch. repeat case_match; simplify_eq/=; try by left.
    destruct (decide (i = b)) as [->|Hne]; [right; right; by rewrite lookup_insert_eq|]. left. by rewrite lookup_insert_ne.
  - unfold catalogServer_RegisterTable, catalog_registerTable. repeat case_match; simplify_eq/=; by left.
  - unfold catalogServer_CommitTable, catalog_commitTable. repeat case_match; simplify_eq/=; by left.
Qed.

Lemma op_ok c o : catalog_ok c -> room c 1 -> catalog_ok (apply_op c o).
Proof.
  intros Hc Hr. pose proof (op_counter c o (co_counter _ Hc) Hr). pose proof (co_counter _ Hc).
  assert (wrap64 (counter c + 1) = counter c + 1) as Hw by (apply wrap64_id; unfold room, in_int64 in *; lia).
  constructor; [lia|]. intros b s Hb.
  destruct (op_branches c o b) as [E|[(f & s' & _ & Hs & E)|[E1 E]]]; rewrite E in Hb.
  - destruct (co_branches _ Hc _ _ Hb) as (n & -> & ?). exists n. split; [done|lia].
  - simplify_eq. destruct (co_branches _ Hc _ _ Hs) as (n & -> & ?). exists n. split; [done|lia].
  - simplify_eq. rewrite E1 Hw. eexists; split; [done|lia].
Qed.

Lemma ops_ok os c : catalog_ok c -> room c (length os) ->
  catalog_ok (apply_ops c os) /\ counter c <= counter (apply_ops c os) <= counter c + Z.of_nat (length os).
Proof.
  revert c. induction os as [|o os IH]; intros c Hc Hr; [split; [done|simpl; lia]|]. simpl length in *.
  assert (room c 1) as H1 by (unfold room in *; lia). pose proof (op_counter c o (co_counter _ Hc) H1) as Hb.
  destruct (IH (apply_op c o)) as [Hok Hcnt]; [by apply op_ok|unfold room in *; lia|].
  split; [done|]. change (apply_ops c (o :: os)) with (apply_ops (apply_op c o) os). lia.
Qed.

Lemma newCatalog_ok : catalog_ok newCatalog.
Proof.
  constructor; [done|]. intros b s. unfold newCatalog. simpl. intros [<- <-]%lookup_singleton_Some. exists 0. done.
Qed.

(** A branch that nobody re-creates only moves to snapshots minted later. *)
Lemma ops_newer os c b n0 s :
  catalog_ok c -> room c (length os) -> Forall (fun o => ~ creates b o) os ->
  branches c !! b = Some (snapName n0) -> branches (apply_ops c os) !! b = Some s ->
  exists n, s = snapName n /\ n0 <= n.
Proof.
  revert c n0. induction os as [|o os IH]; intros c n0 Hc Hr Hn Hb.
  { simpl. rewrite Hb. intros [= <-]. eauto with lia. }
  inversion Hn as [|? ? Hno Hrest]; subst. simpl length in *.
  assert (room c 1) as H1 by (unfold room in *; lia). pose proof (op_counter c o (co_counter _ Hc) H1) as Hcnt.
  assert (wrap64 (counter c + 1) = counter c + 1) as Hw
    by (apply wrap64_id; pose proof (co_counter _ Hc); unfold room, in_int64 in *; lia).
  assert (room (apply_op c o) (length os)) as Hr' by (unfold room in *; lia).
  change (apply_ops c (o :: os)) with (apply_ops (apply_op c o) os).
  destruct (op_branches c o b) as [E|[(f & s' & -> & _)|[E1 E]]].
  - apply IH; [by apply op_ok|done|done|by rewrite E].
  - by destruct Hno.
  - intros Hs. destruct (IH (apply_op c o) (counter c + 1)) as (n & -> & Hle);
      [by apply op_ok|done|done|by rewrite E Hw|done|].
    exists n. split; [done|]. destruct (co_branches _ Hc _ _ Hb) as (m & Hm%snapName_inj & ?). lia.
Qed.

Lemma ledger_kept c o k s : merges c !! k = Some s -> merges (apply_op c o) !! k = Some s.
Proof.
  intros Hk. destruct o as [b' f|b' i e key|i u b'|i b' s' e key]; simpl.
  - unfold catalogServer_CreateBranch, catalog_createBranch. by repeat case_match; simplify_eq/=.
  - unfold catalogServer_MergeBranch, catalog_mergeBranch, ledger, record. repeat case_decide; subst; simpl;
      repeat case_match; simplify_eq/=; try done; by rewrite lookup_insert_ne; [|congruence].
  - unfold catalogServer_RegisterTable, catalog_registerTable. by repeat case_match; simplify_eq/=.
  - unfold catalogServer_CommitTable, catalog_commitTable. by repeat case_match; simplify_eq/=.
Qed.
Lemma ledger_kept_ops os c k s : merges c !! k = Some s -> merges (apply_ops c os) !! k = Some s.
Proof. revert c. induction os as [|o os IH]; intros c H; [done|]. by apply IH, ledger_kept. Qed.

(** An applied merge moves the target to a fresh snapshot and enters its key. *)
Lemma merge_applied c b into e k s c1 :
  catalogServer_MergeBranch c b into e k = (Ok (s, false), c1) ->
  s = snapName (wrap64 (counter c + 1)) /\ branches c1 !! into = Some s /\
  counter c1 = wrap64 (counter c + 1) /\ (k <> "" -> merges c1 !! k = Some s) /\
  exists cur, branches c !! into = Some cur /\ (e <> "" -> cur = e).
Proof.
  unfold catalogServer_MergeBranch, catalog_mergeBranch. destruct (ledger _ _); [done|].
  destruct (branches c !! b); [|done]. destruct (branches c !! into) as [cur|] eqn:Ei; [|done].
  destruct (decide _) as [|Hd]; [done|]. intros [= <- <-]. simpl. split_and!; try done.
  - by rewrite lookup_insert_eq.
  - intros Hk. unfold record. rewrite decide_False //. by rewrite lookup_insert_eq.
  - exists cur. split; [done|]. intros He. destruct (decide (e = cur)); [done|]. tauto.
Qed.

(** C27: Merging is safe under retry and concurrency.  After a merge guarded by an expected
    snapshot has been applied, and whatever else is done short of re-creating the target
    branch: no merge guarded by the same snapshot is ever applied to that branch again;
    and repeating the merge under its idempotency key, with whatever other arguments,
    changes nothing and returns the original snapshot. *)
Theorem merge_applied_once (c c1 : catalog) (os : list catalog_op) (b b' into e k k' s : string) :
  catalog_ok c -> room c (S (length os)) -> e <> "" ->
  catalogServer_MergeBranch c b into e k = (Ok (s, false), c1) ->
  Forall (fun o => ~ creates into o) os ->
  (forall s' c3, catalogServer_MergeBranch (apply_ops c1 os) b' into e k' <> (Ok (s', false), c3)) /\
  (k <> "" -> forall b'' into'' e'',
     catalogServer_MergeBranch (apply_ops c1 os) b'' into'' e'' k = (Ok (s, true), apply_ops c1 os)).
Proof.
  intros Hc Hr He Hm Hn. destruct (merge_applied _ _ _ _ _ _ _ Hm) as (Hs & Hb & Hcnt & Hk & cur & Hcur & Hexp).
  specialize (Hexp He). subst cur. pose proof (co_counter _ Hc) as H0.
  assert (wrap64 (counter c + 1) = counter c + 1) as Hw by (apply wrap64_id; unfold room, in_int64 in *; lia).
  assert (catalog_ok c1) as Hc1.
  { replace c1 with (apply_op c (OpMerge b into e k)) by (simpl; by rewrite Hm). apply op_ok; [done|unfold room in *; lia]. }
  split.
  - intros s' c3 (_ & _ & _ & _ & cur & Hcur2 & Hexp2)%merge_applied. specialize (Hexp2 He). subst cur.
    rewrite Hs Hw in Hb. destruct (ops_newer os c1 into (counter c + 1) e Hc1) as (n & -> & Hle);
      [unfold room in *; lia|done|done|done|].
    destruct (co_branches _ Hc _ _ Hcur) as (m & Hm'%snapName_inj & ?). lia.
  - intros Hne b'' i'' e''. unfold catalogServer_MergeBranch, catalog_mergeBranch, ledger.
    rewrite decide_False //. by rewrite (ledger_kept_ops os c1 k s (Hk Hne)).
Qed.

(** Creating a branch that already exists is not refused: it moves the existing branch,
    [main] included, back to another branch's snapshot.  The merge that was there is lost,
    and a merge guarded by the snapshot from before it is applied a second time. *)
Theorem createBranch_resets_existing :
  let c1 := (catalogServer_CreateBranch newCatalog "run" "").2 in
  let '(r1, c2) := catalogServer_MergeBranch c1 "run" "main" "snap-0" "" in
  let '(r2, c3) := catalogServer_CreateBranch c2 "main" "run" in
  let '(r3, c4) := catalogServer_MergeBranch c3 "run" "main" "snap-0" "" in
  r1 = Ok ("snap-1", false) /\ r2 = Ok "main" /\ branches c3 !! "main" = Some "snap-0" /\ r3 = Ok ("snap-2", false).
Proof. vm_compute. repeat split. Qed.

(** ** At a concrete catalog *)

Definition demo_catalog : catalog := (catalogServer_CreateBranch newCatalog "run" "").2.
Definition demo_ops : list catalog_op :=
  [OpRegister "warehouse.sales.daily" "" "run"; OpCommit "warehouse.sales.daily" "run" "s1" "" "c1";
   OpMerge "run" "main" "" "m2"; OpBranch "run2" "main"].

Lemma merge_applied_once_witness :
  let c1 := (catalogServer_MergeBranch demo_catalog "run" "main" "snap-0" "m1").2 in
  (forall s' c3, catalogServer_MergeBranch (apply_ops c1 demo_ops) "run2" "main" "snap-0" "m3" <> (Ok (s', false), c3)) /\
  catalogServer_MergeBranch (apply_ops c1 demo_ops) "run" "main" "snap-0" "m1" = (Ok ("snap-1", true), apply_ops c1 demo_ops).
Proof.
  intros c1.
  destruct (merge_applied_once demo_catalog c1 demo_ops "run" "run2" "main" "snap-0" "m1" "m3" "snap-1") as [H1 H2].
  - apply (op_ok newCatalog (OpBranch "run" "")); [apply newCatalog_ok|reflexivity].
  - reflexivity.
  - discriminate.
  - vm_compute. reflexivity.
  - repeat constructor; discriminate || exact id.
  - split; [exact H1|]. apply H2. discriminate.
Defined.
