(* ===== verification/StoragePlugin.v ===== *)
(** The local-filesystem storage backend (src/plugins/storage/localfs-go): credentials
    scoped to a directory under the caller's tenant root. *)
From S2P Require Import Prelude Paths CallContext.

Definition credentialTTLms : Z := 900000.

Record scopeReceipt := mkScope {
  sr_Tenant : string; sr_Prefix : string; sr_Mode : string; sr_ExpiresUnixMs : Z; ResolvedPath : string;
}.

Inductive AccessMode := MODE_UNSPECIFIED | MODE_READ | MODE_WRITE | MODE_READ_WRITE | MODE_OTHER (n : Z).
#[export] Instance AccessMode_eq_dec : EqDecision AccessMode.
Proof. solve_decision. Defined.

Definition modeString (m : AccessMode) : string :=
  match m with
  | MODE_READ => "READ" | MODE_WRITE => "WRITE" | MODE_READ_WRITE => "READ_WRITE" | _ => "UNSPECIFIED"
  end.

Section Storage.
(** The envelope's codec and the file system are the environment's. *)
Context (proto_Unmarshal : string -> option RequestContext).
Context (os_MkdirAll : string -> option error).

Definition store_vend (root tenant prefix mode : string) (expires : Z) : result scopeReceipt :=
  let tenantRoot := filepath_Join [root; tenant] in
  let resolved := filepath_Join [tenantRoot; prefix] in
  match Rel tenantRoot resolved with
  | Err _ => Err (Status PermissionDenied "prefix %q escapes the tenant root" [prefix])
  | Ok rel =>
      if bool_decide (rel = "..") || HasPrefix rel "../" then
        Err (Status PermissionDenied "prefix %q escapes the tenant root" [prefix])
      else match os_MkdirAll resolved with
           | Some e => Err (StatusWrap Internal "mkdir %s: %v" [resolved] e)
           | None => Ok (mkScope tenant prefix mode expires resolved)
           end
  end.

Definition tenantFromContext (c : Ctx) : string := GetTenant (GetIdentity (readCallMeta proto_Unmarshal c)).

(** The vended credentials and their expiry. *)
Definition storageServer_VendCredentials (root : string) (now : Z) (c : Ctx) (prefix : string) (mode : AccessMode) :
    result (scopeReceipt * Z) :=
  if decide (prefix = "") then Err (Status InvalidArgument "prefix is required" [])
  else if decide (mode = MODE_UNSPECIFIED) then Err (Status InvalidArgument "mode must be specified" [])
  else
    let expires := now + credentialTTLms in
    let? receipt := store_vend root (tenantFromContext c) prefix (modeString mode) expires in
    Ok (receipt, expires).

(** ** Containment *)

Lemma parse_Join2 root t :
  root <> "" -> real_comp t -> t <> ".." ->
  parse_path (filepath_Join [root; t]) = mkPath (rooted (parse_path root)) (comps (parse_path root) ++ [t]).
Proof.
  intros Hr (Hne & Hdot & Hsl) Hdd. pose proof (parse_Join_rel root t Hr) as H. rewrite (Split_no_byte "/" t Hsl) in H.
  apply H. rewrite /= andb_true_r. unfold plain_comp. by rewrite !bool_decide_eq_false_2.
Qed.

Lemma vend_inside root tenant prefix mode expires r :
  store_vend root tenant prefix mode expires = Ok r ->
  r = mkScope tenant prefix mode expires (ResolvedPath r) /\
  inside (parse_path (filepath_Join [root; tenant])) (parse_path (ResolvedPath r)).
Proof.
  unfold store_vend. destruct (Rel _ _) as [rel|] eqn:Er; [|done].
  destruct (bool_decide _ || _) eqn:Ec; [done|]. destruct (os_MkdirAll _); [done|]. intros [= <-].
  split; [done|]. cbn [ResolvedPath]. by eapply Rel_inside.
Qed.

Lemma Vend_Ok root now c prefix mode r e :
  storageServer_VendCredentials root now c prefix mode = Ok (r, e) ->
  store_vend root (tenantFromContext c) prefix (modeString mode) (now + credentialTTLms) = Ok r /\
  e = now + credentialTTLms.
Proof.
  unfold storageServer_VendCredentials. destruct (decide (prefix = "")); [done|]. destruct (decide (mode = _)); [done|].
  destruct (store_vend _ _ _ _ _); [|done]. by intros [= <- <-].
Qed.

Lemma Vend_request root now c prefix mode x :
  storageServer_VendCredentials root now c prefix mode = Ok x ->
  storageServer_VendCredentials root now c prefix mode = Ok x /\ prefix <> "" /\ mode <> MODE_UNSPECIFIED.
Proof.
  intros H. split; [done|]. unfold storageServer_VendCredentials in H. destruct (decide (prefix = "")); [done|].
  by destruct (decide (mode = _)).
Qed.

(** The tenant an envelope names, empty where there is none. *)
Definition tenant_of (c : Ctx) : string :=
  match readCallMeta proto_Unmarshal c with
  | Some rc => match rc_Identity rc with Some i => Tenant i | None => "" end
  | None => ""
  end.

(** The mode a grant is given for a request, as text; a value outside the enumeration is granted
    as unspecified. *)
Definition granted_mode (m : AccessMode) (text : string) : Prop :=
  m = MODE_READ /\ text = "READ" \/ m = MODE_WRITE /\ text = "WRITE" \/ m = MODE_READ_WRITE /\ text = "READ_WRITE" \/
  (exists n, m = MODE_OTHER n) /\ text = "UNSPECIFIED".

(** C28: Credentials never reach outside the caller's tenant: whatever the prefix, a grant is
    bound to the tenant of the call's envelope, to the requested prefix, to the requested
    mode (read, write, or both; a value outside the enumeration is not refused and grants an
    unspecified mode) and to fifteen minutes, and its directory lies under that tenant's root;
    and the grants of two different tenants, whose names are plain path components, under a
    root that is not empty, are never to nested directories. *)
Theorem vend_isolates_tenants (root : string) (now1 now2 : Z) (c1 c2 : Ctx) (p1 p2 : string) (m1 m2 : AccessMode)
    (r1 r2 : scopeReceipt) (e1 e2 : Z) :
  storageServer_VendCredentials root now1 c1 p1 m1 = Ok (r1, e1) ->
  storageServer_VendCredentials root now2 c2 p2 m2 = Ok (r2, e2) ->
  sr_Tenant r1 = tenant_of c1 /\ sr_Prefix r1 = p1 /\ p1 <> "" /\ granted_mode m1 (sr_Mode r1) /\
  sr_ExpiresUnixMs r1 = now1 + 900000 /\ e1 = now1 + 900000 /\
  inside (parse_path (filepath_Join [root; tenant_of c1])) (parse_path (ResolvedPath r1)) /\
  (root <> "" -> tenant_of c1 <> tenant_of c2 ->
   real_comp (tenant_of c1) -> tenant_of c1 <> ".." ->
   real_comp (tenant_of c2) -> tenant_of c2 <> ".." ->
   ~ inside (parse_path (ResolvedPath r1)) (parse_path (ResolvedPath r2))).
Proof.
  assert (forall c, tenantFromContext c = tenant_of c) as Hten.
  { intros c. unfold tenantFromContext, tenant_of. by destruct (readCallMeta _ c) as [[t [i|] d]|]. }
  intros ([E1 ->]%Vend_Ok & Hp1 & Hm1)%Vend_request ([E2 _]%Vend_Ok & _)%Vend_request. rewrite !Hten in E1, E2.
  destruct (vend_inside _ _ _ _ _ _ E1) as [-> I1], (vend_inside _ _ _ _ _ _ E2) as [_ I2].
  split_and!; [done|done|done| |done|done|done|].
  { unfold granted_mode. destruct m1 as [| | | |n]; cbn [sr_Mode modeString]; [by destruct Hm1|by left|by right; left|by do 2 right; left|].
    do 3 right. split; [by exists n|done]. }
  intros Hroot Hne Ht1 Hd1 Ht2 Hd2 (_ & rest & Hc & _).
  destruct I1 as (_ & rest1 & Hc1 & _), I2 as (_ & rest2 & Hc2 & _). cbn [ResolvedPath] in *.
  rewrite (parse_Join2 root _ Hroot Ht1 Hd1) in Hc1. rewrite (parse_Join2 root _ Hroot Ht2 Hd2) in Hc2.
  rewrite Hc1 Hc2 in Hc. cbn [comps] in Hc. rewrite -!app_assoc in Hc. apply app_inv_head in Hc.
  simpl in Hc. by injection Hc as ? _.
Qed.

(** The tenant itself is not checked: a tenant that is not a plain component moves the root. *)
Theorem tenant_name_unchecked :
  os_MkdirAll "/srv/secrets/keys" = None ->
  exists r, store_vend "/srv/rat" "../secrets" "keys" "READ" 0 = Ok r /\ ResolvedPath r = "/srv/secrets/keys".
Proof.
  intros Hm. unfold store_vend. 
  change (filepath_Join [filepath_Join ["/srv/rat"; "../secrets"]; "keys"]) with "/srv/secrets/keys".
  change (Rel (filepath_Join ["/srv/rat"; "../secrets"]) "/srv/secrets/keys") with (@Ok string "keys"). 
  cbn beta iota. rewrite Hm. by eexists.
Qed.
End Storage.

(** ** At concrete calls *)

Definition demo_unmarshal (v : string) : option RequestContext :=
  Some (mkRequestContext None (Some (mkIdentity "duck" None v)) 0).
Definition demo_ctx (tenant : string) : Ctx := mkCtx (Some {["rat-callmeta-bin" := [tenant]]}) [] None None None.
Definition demo_vend (tenant prefix : string) : result (scopeReceipt * Z) :=
  storageServer_VendCredentials demo_unmarshal (fun _ => None) "/srv/rat" 0 (demo_ctx tenant) prefix MODE_READ.
Definition demo_grant (tenant prefix path : string) : scopeReceipt := mkScope tenant prefix "READ" 900000 path.

Lemma vend_isolates_tenants_witness :
  demo_vend "acme" "../globex/x" = Err (Status PermissionDenied "prefix %q escapes the tenant root" ["../globex/x"]) /\
  inside (parse_path "/srv/rat/acme") (parse_path "/srv/rat/acme/b") /\
  ~ inside (parse_path "/srv/rat/acme/b") (parse_path "/srv/rat/globex/b").
Proof.
  split; [vm_compute; reflexivity|].
  destruct (vend_isolates_tenants demo_unmarshal (fun _ => None) "/srv/rat" 0 0 (demo_ctx "acme") (demo_ctx "globex")
              "a/../b" "b" MODE_READ MODE_READ (demo_grant "acme" "a/../b" "/srv/rat/acme/b")
              (demo_grant "globex" "b" "/srv/rat/globex/b") 900000 900000) as (_ & _ & _ & _ & _ & _ & H1 & H2);
    [vm_compute; reflexivity|vm_compute; reflexivity|].
  split; [exact H1|].
  apply H2; [discriminate|discriminate|repeat split; discriminate|discriminate|repeat split; discriminate|discriminate].
Defined.
