(* ===== verification/EnginePlugin.v ===== *)
(** The reference engine (src/plugins/engine/inmemory-go): the mini-SQL parser, the
    in-memory tables, the single-use result streams and the service over them. *)
From S2P Require Import Prelude Paths Manifest.

(** ** The mini-SQL grammar *)

Record stmt := mkStmt {
  s_kind : string;
  s_table : string;
  s_cols : list string;
  s_vals : list string;
  whereCol : string;
  whereVal : string;
  hasWhere : bool;
  s_limit : Z;
  hasLimit : bool;
}.

Definition errEmptySQL : error := Sentinel "sql is required".
Definition errParse : error := Sentinel "unparseable sql (mini-SQL grammar only)".
Definition errUnknownTable (name : string) : error := Errorf "unknown table %q" [name].

(** [\w] and [[\w, ]]. *)
Definition is_word (a : ascii) : bool := is_lower a || is_upper a || is_digit a || bool_decide (a = "_"%char).
Definition is_list_byte (a : ascii) : bool := is_word a || bool_decide (a = ","%char) || bool_decide (a = " "%char).

(** A non-empty run of bytes satisfying [P], and the rest. *)
Definition scan1 (P : ascii -> bool) (s : string) : option (string * string) := scan_segment P P s.

(** [strings.Split(s, comma space)]. *)
Fixpoint splitList (s : string) : list string :=
  match s with
  | "" => [""]
  | String a s' =>
      match s' with
      | String b s'' =>
          if bool_decide (a = ","%char) && bool_decide (b = " "%char) then "" :: splitList s''
          else match splitList s' with
               | [] => [String a ""]
               | w :: ws => String a w :: ws
               end
      | "" => [String a ""]
      end
  end.

(** [reCreate] and [reInsert]: every class is followed by a byte outside it, so matching is
    deterministic. *)
Definition match_call (kw mid : string) (s : string) : option (string * string) :=
  s1 ← expect kw s;
  '(t, s2) ← scan1 is_word s1;
  s3 ← expect mid s2;
  '(l, s4) ← scan1 is_list_byte s3;
  if decide (s4 = ")") then Some (t, l) else None.
Definition reCreate : string -> option (string * string) := match_call "CREATE TABLE " " (".
Definition reInsert : string -> option (string * string) := match_call "INSERT INTO " " VALUES (".

(** [( LIMIT (\d+))?$]. *)
Definition match_limit (s : string) : option (option string) :=
  if decide (s = "") then Some None
  else s1 ← expect " LIMIT " s; '(n, s2) ← scan1 is_digit s1; if decide (s2 = "") then Some (Some n) else None.

(** The rest of [reSelect] after the projection: table, condition, limit digits. *)
Definition match_tail (s : string) : option (string * option (string * string) * option string) :=
  s1 ← expect " FROM " s;
  '(t, s2) ← scan1 is_word s1;
  match expect " WHERE " s2 with
  | Some s3 =>
      '(c, s4) ← scan1 is_word s3;
      s5 ← expect " = " s4;
      '(v, s6) ← scan1 is_word s5;
      l ← match_limit s6;
      Some (t, Some (c, v), l)
  | None => l ← match_limit s2; Some (t, None, l)
  end.

(** The projection class contains letters and spaces, so [FROM] may occur in it: the greedy
    match backs off from the longest projection to the shortest. *)
Fixpoint match_projection (pre s : string) : option (string * (string * option (string * string) * option string)) :=
  let longer := match s with
                | String a s' => if is_list_byte a then match_projection (pre +:+ String a "") s' else None
                | "" => None
                end in
  match longer with
  | Some r => Some r
  | None => if decide (pre = "") then None else t ← match_tail s; Some (pre, t)
  end.

Definition reSelect (s : string) : option (string * (string * option (string * string) * option string)) :=
  s1 ← expect "SELECT " s;
  match expect "*" s1 with
  | Some s2 => t ← match_tail s2; Some ("*", t)
  | None => match_projection "" s1
  end.

(** [strconv.ParseInt] on a string of digits. *)
Fixpoint digits_value (n : Z) (s : string) : Z :=
  match s with
  | "" => n
  | String a s' => digits_value (10 * n + (Z.of_nat (nat_of_ascii a) - 48)) s'
  end.
Definition ParseInt (s : string) : option Z := let n := digits_value 0 s in if n <? 2^63 then Some n else None.

Definition select_stmt (m : string * (string * option (string * string) * option string)) : result stmt :=
  let '(proj, (t, cond, lim)) := m in
  let cols := if decide (proj = "*") then ["*"] else splitList proj in
  let '(c, v, hw) := match cond with Some (c, v) => (c, v, true) | None => ("", "", false) end in
  match lim with
  | None => Ok (mkStmt "select" t cols [] c v hw 0 false)
  | Some d => match ParseInt d with
              | None => Err errParse
              | Some n => Ok (mkStmt "select" t cols [] c v hw n true)
              end
  end.

Definition parseSQL (sql : string) : result stmt :=
  let sql := TrimSpace sql in
  if decide (sql = "") then Err errEmptySQL
  else match reCreate sql with
       | Some (t, l) => Ok (mkStmt "create" t (splitList l) [] "" "" false 0 false)
       | None =>
           match reInsert sql with
           | Some (t, l) => Ok (mkStmt "insert" t [] (splitList l) "" "" false 0 false)
           | None => match reSelect sql with
                     | Some m => select_stmt m
                     | None => Err errParse
                     end
           end
       end.

Example parse_backs_off :
  parseSQL "SELECT a FROM b FROM t LIMIT 3" = Ok (mkStmt "select" "t" ["a FROM b"] [] "" "" false 3 true).
Proof. vm_compute. reflexivity. Qed.
Example parse_where :
  parseSQL " SELECT a, b FROM t WHERE a = x1 " = Ok (mkStmt "select" "t" ["a"; "b"] [] "a" "x1" true 0 false).
Proof. vm_compute. reflexivity. Qed.

(** ** Tables *)

Notation row := (gmap string string).
Record table := mkTable { t_cols : list string; t_rows : list row }.
Record store := mkStore { st_tables : gmap string table; st_snapshot : Z }.
Definition newStore : store := mkStore ∅ 0.

Definition store_create (s : store) (name : string) (cols : list string) : Z * store :=
  let n := wrap64 (st_snapshot s + 1) in (n, mkStore (<[name := mkTable cols []]> (st_tables s)) n).

(** Values are bound by position; a repeated column takes its last value. *)
Fixpoint bind_row (cols vals : list string) (r : row) : row :=
  match cols, vals with
  | c :: cols, v :: vals => bind_row cols vals (<[c := v]> r)
  | _, _ => r
  end.

Definition store_insert (s : store) (name : string) (vals : list string) : result (Z * Z) * store :=
  match st_tables s !! name with
  | None => (Err (errUnknownTable name), s)
  | Some t =>
      let n := wrap64 (st_snapshot s + 1) in
      (Ok (1, n), mkStore (<[name := mkTable (t_cols t) (t_rows t ++ [bind_row (t_cols t) vals ∅])]> (st_tables s)) n)
  end.

Definition project (r : row) (proj allCols : list string) : row :=
  let cols := if decide (proj = ["*"]) then allCols else proj in
  fold_left (fun out c => match r !! c with Some v => <[c := v]> out | None => out end) cols ∅.

Definition row_matches (st : stmt) (r : row) : bool :=
  negb (hasWhere st) || bool_decide (default "" (r !! whereCol st) = whereVal st).

Definition store_selectRows (s : store) (st : stmt) : result (list row) :=
  match st_tables s !! s_table st with
  | None => Err (errUnknownTable (s_table st))
  | Some t => Ok ((fun r => project r (s_cols st) (t_cols t)) <$> filter (fun r => row_matches st r = true) (t_rows t))
  end.

(** ** Streams *)

(** Batches keyed by ticket; the ticket is random, hence an argument. *)
Definition batches : Type := gmap string (list row).
Definition streams_put (b : batches) (ticket : string) (rows : list row) : batches := <[ticket := rows]> b.
Definition streams_pull (b : batches) (stream : option string) : list row * batches :=
  match stream with
  | None => ([], b)
  | Some ticket => (default [] (b !! ticket), delete ticket b)
  end.

(** ** The service *)

Record engineServer := mkEngine { es_store : store; es_streams : batches }.
Definition newServer : engineServer := mkEngine newStore ∅.

(** The errors of parsing and of the store are reported as invalid arguments. *)
Definition bad_sql (e : error) : error := StatusWrap InvalidArgument "%s" [] e.

(** Rows affected and snapshot. *)
Definition engineServer_Execute (s : engineServer) (sql : string) : result (Z * Z) * engineServer :=
  match parseSQL sql with
  | Err e => (Err (bad_sql e), s)
  | Ok st =>
      if decide (s_kind st = "create") then
        let '(n, d) := store_create (es_store s) (s_table st) (s_cols st) in (Ok (0, n), mkEngine d (es_streams s))
      else if decide (s_kind st = "insert") then
        let '(r, d) := store_insert (es_store s) (s_table st) (s_vals st) in
        (match r with Err e => Err (bad_sql e) | Ok x => Ok x end, mkEngine d (es_streams s))
      else (Err (Status InvalidArgument "Execute requires a CREATE or INSERT statement" []), s)
  end.

Definition effective_limit (st : stmt) (previewLimit : Z) : Z :=
  let limit := if hasLimit st then s_limit st else -1 in
  if (0 <? previewLimit) && ((limit <? 0) || (previewLimit <? limit)) then previewLimit else limit.

Definition engineServer_runSelect (s : engineServer) (sql : string) (previewLimit : Z) : result (list row) :=
  match parseSQL sql with
  | Err e => Err (bad_sql e)
  | Ok st =>
      if decide (s_kind st = "select") then
        match store_selectRows (es_store s) st with
        | Err e => Err (bad_sql e)
        | Ok rows =>
            let limit := effective_limit st previewLimit in
            Ok (if (0 <=? limit) && (limit <? Z.of_nat (length rows)) then take (Z.to_nat limit) rows else rows)
        end
      else Err (Status InvalidArgument "Query/Preview requires a SELECT statement" [])
  end.

(** Both answer with the ticket of a stream that holds the rows. *)
Definition engineServer_Query (s : engineServer) (ticket sql : string) : result string * engineServer :=
  match engineServer_runSelect s sql 0 with
  | Err e => (Err e, s)
  | Ok rows => (Ok ticket, mkEngine (es_store s) (streams_put (es_streams s) ticket rows))
  end.
Definition engineServer_Preview (s : engineServer) (ticket sql : string) (limit : Z) : result string * engineServer :=
  match engineServer_runSelect s sql limit with
  | Err e => (Err e, s)
  | Ok rows => (Ok ticket, mkEngine (es_store s) (streams_put (es_streams s) ticket rows))
  end.

(** ** Printing *)

(** A statement as a client writes it: the columns of a projection ([None] is the star), the
    digits of a limit. *)
Inductive sql_ast :=
  | ACreate (t : string) (cols : list string)
  | AInsert (t : string) (vals : list string)
  | ASelect (cols : option (list string)) (t : string) (cond : option (string * string)) (lim : option string).

Definition print_list (l : list string) : string := Join l ", ".
Definition tail_words (t : string) (cond : option (string * string)) (lim : option string) : list string :=
  "FROM" :: t :: match cond with Some (c, v) => ["WHERE"; c; "="; v] | None => [] end ++
                 match lim with Some d => ["LIMIT"; d] | None => [] end.
Definition print_tail t cond lim : string := " " +:+ Join (tail_words t cond lim) " ".
Definition print (a : sql_ast) : string :=
  match a with
  | ACreate t cols => "CREATE TABLE " +:+ t +:+ " (" +:+ print_list cols +:+ ")"
  | AInsert t vals => "INSERT INTO " +:+ t +:+ " VALUES (" +:+ print_list vals +:+ ")"
  | ASelect cols t cond lim =>
      "SELECT " +:+ from_option print_list "*" cols +:+ print_tail t cond lim
  end.

Definition meaning (a : sql_ast) : stmt :=
  match a with
  | ACreate t cols => mkStmt "create" t cols [] "" "" false 0 false
  | AInsert t vals => mkStmt "insert" t [] vals "" "" false 0 false
  | ASelect cols t cond lim =>
      mkStmt "select" t (default ["*"] cols) [] (from_option fst "" cond) (from_option snd "" cond)
        (bool_decide (is_Some cond)) (from_option (digits_value 0) 0 lim) (bool_decide (is_Some lim))
  end.

Definition word (w : string) : Prop := segment is_word is_word w.
Definition words (l : list string) : Prop := l <> [] /\ Forall word l.
Definition name_ok (w : string) : Prop := word w /\ w <> "FROM".

Definition ast_ok (a : sql_ast) : Prop :=
  match a with
  | ACreate t l | AInsert t l => word t /\ words l
  | ASelect cols t cond lim =>
      from_option words True cols /\ name_ok t /\
      match cond with Some (c, v) => name_ok c /\ name_ok v | None => True end /\
      match lim with Some d => segment is_digit is_digit d /\ digits_value 0 d < 2^63 | None => True end
  end.

(** *** Trimming leaves a statement alone *)

Lemma word_graphic a : is_word a = true -> graphic a = true.
Proof. destruct a as [[] [] [] [] [] [] [] []]; vm_compute; congruence. Qed.

(** A text ends in a graphic byte if its last part does. *)
Lemma rev_starts P u v : starts P (str_rev v) = true -> starts P (str_rev (u +:+ v)) = true.
Proof. rewrite str_rev_app_distr. by destruct (str_rev v). Qed.
Lemma segment_rev f r w : segment f r w -> (forall a, f a = true -> r a = true) -> starts r (str_rev w) = true.
Proof.
  destruct w as [|a w]; [done|]. intros [Ha Hw] Hfr.
  assert (str_forall r (str_rev (String a w)) = true) as H.
  { clear -Ha Hw Hfr. rewrite str_rev_cons str_forall_app /= (Hfr _ Ha) /= andb_true_r.
    induction w as [|b w IH]; [done|]. simpl in Hw. apply andb_true_iff in Hw as [Hb Hw].
    rewrite str_rev_cons str_forall_app IH //. simpl. by rewrite Hb. }
  destruct (str_rev (String a w)) eqn:E.
  - rewrite str_rev_cons in E. by destruct (str_rev w).
  - simpl in *. by apply andb_true_iff in H as [? _].
Qed.

(** *** Lists *)

Lemma splitList_ne s : splitList s <> [].
Proof. destruct s as [|a [|b s]]; simpl; by repeat case_match. Qed.

Lemma splitList_word w s :
  str_forall is_word w = true -> splitList (w +:+ s) =
    match splitList s with x :: xs => (w +:+ x) :: xs | [] => [w] end.
Proof.
  induction w as [|a w IH]; intros Hw.
  - simpl. destruct (splitList s) eqn:E; [by destruct (splitList_ne s)|done].
  - simpl in Hw. apply andb_true_iff in Hw as [Ha Hw]. specialize (IH Hw).
    rewrite str_app_cons. cbn [splitList].
    assert (bool_decide (a = ","%char) = false) as Hc by (apply bool_decide_eq_false; intros ->; done).
    destruct (w +:+ s) as [|b r] eqn:E.
    + destruct w; [|done]. rewrite str_app_nil in E. by subst s.
    + rewrite Hc. cbn [andb].
      change (match splitList (String b r) with [] => [String a ""] | x :: xs => String a x :: xs end =
              match splitList s with [] => [String a w] | x :: xs => (String a w +:+ x) :: xs end).
      rewrite IH. by destruct (splitList s).
Qed.

Lemma splitList_print l : words l -> splitList (print_list l) = l.
Proof.
  intros [Hne Hl]. unfold print_list, Join. induction Hl as [|w l Hw Hl IH]; [done|].
  assert (str_forall is_word w = true) as Hf by (destruct w; [done|]; simpl in *; by apply andb_true_iff).
  destruct l as [|w2 l].
  - simpl. rewrite -{1}(str_app_nil_r w) splitList_word //. simpl. by rewrite str_app_nil_r.
  - change (String.concat ", " (w :: w2 :: l)) with (w +:+ String "," (String " " (String.concat ", " (w2 :: l)))).
    rewrite splitList_word //.
    change (splitList (String "," (String " " (String.concat ", " (w2 :: l))))) with ("" :: splitList (String.concat ", " (w2 :: l))).
    rewrite IH //. by rewrite str_app_nil_r.
Qed.

Lemma word_list_byte w : word w -> segment is_list_byte is_list_byte w.
Proof.
  assert (forall a, is_word a = true -> is_list_byte a = true) as H by (intros a Ha; unfold is_list_byte; by rewrite Ha).
  destruct w as [|a w]; [done|]. intros [Ha Hw]. split; [by apply H|].
  clear Ha. induction w as [|b w IH]; [done|]. simpl in *. apply andb_true_iff in Hw as [Hb Hw]. by rewrite (H b Hb) IH.
Qed.

Lemma segment_all (P : ascii -> bool) w : segment P P w <-> w <> "" /\ str_forall P w = true.
Proof.
  destruct w as [|a w]; simpl; [naive_solver|]. rewrite andb_true_iff. naive_solver.
Qed.

Lemma print_list_bytes l : words l -> segment is_list_byte is_list_byte (print_list l).
Proof.
  intros [Hne Hl]. unfold print_list, Join. induction Hl as [|w l Hw Hl IH]; [done|].
  apply word_list_byte in Hw. destruct l as [|w2 l]; [done|].
  change (String.concat ", " (w :: w2 :: l)) with (w +:+ (", " +:+ String.concat ", " (w2 :: l))).
  apply segment_all in Hw as [Hw1 Hw2]. destruct (proj1 (segment_all _ _) (IH ltac:(done))) as [_ H2].
  apply segment_all. split; [by destruct w|]. by rewrite !str_forall_app Hw2 H2.
Qed.

(** *** The projection *)

Lemma mp_advance P pre T r :
  str_forall is_list_byte P = true -> match_projection (pre +:+ P) T = Some r ->
  match_projection pre (P +:+ T) = Some r.
Proof.
  revert pre. induction P as [|a P IH]; intros pre HP H; [by rewrite str_app_nil_r in H|].
  simpl in HP. apply andb_true_iff in HP as [Ha HP]. rewrite str_app_cons. cbn [match_projection]. rewrite Ha.
  rewrite (IH (pre +:+ String a "") HP); [done|]. by rewrite str_app_assoc.
Qed.

Lemma mp_none pre s : Contains s " FROM " = false -> match_projection pre s = None.
Proof.
  revert pre. induction s as [|a s IH]; intros pre H; cbn [Contains] in H; apply orb_false_iff in H as [Hp H].
  - simpl. by case_decide.
  - cbn [match_projection].
    assert (match_tail (String a s) = None) as -> by (unfold match_tail, expect; by rewrite Hp).
    rewrite IH //. destruct (is_list_byte a); by case_decide.
Qed.

Lemma mp_at P T t :
  P <> "" -> match_tail (String " " T) = Some t -> Contains T " FROM " = false ->
  match_projection P (String " " T) = Some (P, t).
Proof. intros HP Ht Hc. cbn [match_projection]. simpl is_list_byte. cbv iota. by rewrite mp_none // decide_False // Ht. Qed.

Lemma Contains_true s sub : Contains s sub = true -> exists u v, s = u +:+ (sub +:+ v).
Proof.
  induction s as [|a s IH]; cbn [Contains]; intros [H|H]%orb_true_iff.
  - apply HasPrefix_true in H as [r ->]. by exists "", r.
  - done.
  - apply HasPrefix_true in H as [r ->]. by exists "", r.
  - destruct (IH H) as (u & v & ->). by exists (String a u), v.
Qed.

(** A keyword between two spaces is one of the inner space-separated words. *)
Lemma no_inner_FROM w ws :
  Forall (fun x => no_byte " " x = true) (w :: ws) -> "FROM" ∉ ws -> Contains (Join (w :: ws) " ") " FROM " = false.
Proof.
  intros Hs Hn. apply not_true_iff_false. intros (u & v & E)%Contains_true. apply Hn.
  assert (Split " " (Join (w :: ws) " ") = w :: ws) as Hsp by (by apply Split_Join).
  rewrite E in Hsp. change (u +:+ (" FROM " +:+ v)) with (u +:+ String " " ("FROM" +:+ String " " v)) in Hsp.
  rewrite !Split_sep in Hsp. destruct (Split " " u) as [|x xs] eqn:Eu; [by destruct (Split_not_nil " " u)|].
  simpl in Hsp. injection Hsp as _ <-. apply elem_of_app. right. left.
Qed.

Lemma name_no_space w : word w -> no_byte " " w = true.
Proof. intros [_ H]%segment_all. by apply (str_forall_no_byte is_word). Qed.
Lemma digits_no_space w : segment is_digit is_digit w -> no_byte " " w = true.
Proof. intros [_ H]%segment_all. by apply (str_forall_no_byte is_digit). Qed.
Lemma digits_not_FROM w : segment is_digit is_digit w -> w <> "FROM".
Proof. by intros [_ H]%segment_all ->. Qed.

Lemma scan1_app (P : ascii -> bool) u v :
  segment P P u -> starts P v = false -> scan1 P (u +:+ v) = Some (u, v).
Proof. intros Hu Hv. apply scan_segment_app; [done|]. destruct v; [by left|right; eauto]. Qed.

Lemma expect_app p s : expect p (p +:+ s) = Some s.
Proof. by apply expect_spec. Qed.

Lemma match_limit_print lim :
  match lim with Some d => segment is_digit is_digit d | None => True end ->
  match_limit (from_option (fun d => " LIMIT " +:+ d) "" lim) = Some lim.
Proof.
  destruct lim as [d|]; [|done]. intros Hd.
  change (match_limit (" LIMIT " +:+ d) = Some (Some d)). unfold match_limit. destruct (decide _); [done|].
  rewrite expect_app /= -{1}(str_app_nil_r d) scan1_app //.
Qed.

(** One step of a chain of optional matches. *)
Ltac run := cbn [mbind option_bind].

Lemma match_tail_print t cond lim :
  ast_ok (ASelect None t cond lim) -> match_tail (print_tail t cond lim) = Some (t, cond, lim).
Proof.
  intros (_ & [Ht _] & Hc & Hl). set (L := from_option (fun d => " LIMIT " +:+ d) "" lim).
  assert (match lim with Some d => segment is_digit is_digit d | None => True end) as Hl' by (destruct lim; naive_solver).
  assert (starts is_word L = false) as HL by (by destruct lim).
  assert (expect " WHERE " L = None) as HW by (by destruct lim).
  destruct cond as [[c v]|].
  - destruct Hc as [[Hc _] [Hv _]].
    assert (print_tail t (Some (c, v)) lim = " FROM " +:+ (t +:+ (" WHERE " +:+ (c +:+ (" = " +:+ (v +:+ L)))))) as ->.
    { unfold print_tail, Join, L. destruct lim; simpl; [reflexivity|by rewrite str_app_nil_r]. }
    unfold match_tail. rewrite expect_app. run. rewrite (scan1_app is_word t) //. run. rewrite expect_app.
    rewrite (scan1_app is_word c) //. run. rewrite expect_app. run. rewrite (scan1_app is_word v) //. run.
    by rewrite match_limit_print.
  - assert (print_tail t None lim = " FROM " +:+ (t +:+ L)) as ->.
    { unfold print_tail, Join, L. destruct lim; simpl; [reflexivity|by rewrite str_app_nil_r]. }
    unfold match_tail. rewrite expect_app. run. rewrite (scan1_app is_word t) //. run. by rewrite HW match_limit_print.
Qed.

Lemma tail_no_inner t cond lim :
  ast_ok (ASelect None t cond lim) -> Contains (Join (tail_words t cond lim) " ") " FROM " = false.
Proof.
  intros (_ & [Ht Htn] & Hc & Hl). unfold tail_words. apply no_inner_FROM.
  - destruct cond as [[c v]|], lim as [d|]; simpl; rewrite ?Forall_cons; split_and!; try done;
      first [apply name_no_space; by destruct Hc as [[? ?] [? ?]]|by apply name_no_space|apply digits_no_space; by destruct Hl].
  - rewrite not_elem_of_cons. split; [done|]. rewrite not_elem_of_app. split.
    + destruct cond as [[c v]|]; [|apply not_elem_of_nil]. destruct Hc as [[_ Hcn] [_ Hvn]].
      rewrite !not_elem_of_cons. split_and!; try done. apply not_elem_of_nil.
    + destruct lim as [d|]; [|apply not_elem_of_nil]. rewrite !not_elem_of_cons.
      split_and!; [done| |apply not_elem_of_nil]. destruct Hl as [Hd _]. intros E. by apply (digits_not_FROM d).
Qed.

Lemma reSelect_print cols t cond lim :
  ast_ok (ASelect cols t cond lim) ->
  reSelect (print (ASelect cols t cond lim)) = Some (from_option print_list "*" cols, (t, cond, lim)).
Proof.
  intros Hok. assert (ast_ok (ASelect None t cond lim)) as Hok' by (destruct Hok as (_ & Hok); split; [exact I|exact Hok]).
  unfold reSelect, print. rewrite expect_app. run. destruct cols as [l|]; cbn [from_option].
  - destruct Hok as (Hl & _). pose proof (print_list_bytes l Hl) as [Hne Hb]%segment_all.
    assert (expect "*" (print_list l +:+ print_tail t cond lim) = None) as ->.
    { destruct (print_list l) as [|a x]; [done|]. unfold expect. rewrite (not_prefix is_list_byte) //.
      simpl in *. by apply andb_true_iff in Hb as [? _]. }
    apply mp_advance; [done|]. rewrite str_app_nil. apply mp_at; [done| |by apply tail_no_inner].
    by apply match_tail_print.
  - rewrite expect_app. by rewrite match_tail_print.
Qed.

Lemma match_call_print kw mid t l :
  word t -> words l -> mid <> "" -> starts is_word mid = false ->
  match_call kw mid (kw +:+ (t +:+ (mid +:+ (print_list l +:+ ")")))) = Some (t, print_list l).
Proof.
  intros Ht Hl Hne Hm. unfold match_call. rewrite expect_app /= (scan1_app is_word t) //.
  - rewrite /= expect_app /= (scan1_app is_list_byte (print_list l)) //; by apply print_list_bytes.
  - by destruct mid.
Qed.

Lemma print_starts a : starts graphic (print a) = true.
Proof. by destruct a. Qed.

Lemma print_ends a : ast_ok a -> starts graphic (str_rev (print a)) = true.
Proof.
  assert (forall w, word w -> starts graphic (str_rev w) = true) as Hw.
  { intros w H. eapply (starts_mono is_word); [exact word_graphic|]. by apply (segment_rev is_word). }
  destruct a as [t l|t l|cols t cond lim]; intros Hok; unfold print.
  - do 4 apply rev_starts. done.
  - do 4 apply rev_starts. done.
  - do 2 apply rev_starts. unfold print_tail, Join, tail_words. apply rev_starts.
    destruct Hok as (_ & [Ht _] & Hc & Hl).
    assert (forall d, segment is_digit is_digit d -> starts graphic (str_rev d) = true) as Hd.
    { intros d H. apply (starts_mono is_digit); [|by apply (segment_rev is_digit)].
      intros [[] [] [] [] [] [] [] []]; vm_compute; congruence. }
    destruct cond as [[c v]|], lim as [d|]; cbn [app String.concat]; repeat apply rev_starts;
      first [apply Hd; by destruct Hl|apply Hw; by destruct Hc as [_ [? _]]|by apply Hw].
Qed.

(** Printing a statement and parsing it gives the statement back: every statement whose
    identifiers and values are words (and, in a query, are not the keyword FROM) and
    whose limit is in range is expressible, and has exactly one reading, although the
    projection class also matches the text that follows it. *)
Theorem parse_print (a : sql_ast) : ast_ok a -> parseSQL (print a) = Ok (meaning a).
Proof.
  intros Hok. unfold parseSQL. rewrite TrimSpace_graphic; [|apply print_starts|by apply print_ends].
  rewrite decide_False; [|by destruct a].
  destruct a as [t l|t l|cols t cond lim].
  - destruct Hok as [Ht Hl]. unfold reCreate, print. rewrite match_call_print //. by rewrite splitList_print.
  - destruct Hok as [Ht Hl]. assert (reCreate (print (AInsert t l)) = None) as -> by done.
    unfold reInsert, print. rewrite match_call_print //. by rewrite splitList_print.
  - assert (reCreate (print (ASelect cols t cond lim)) = None) as -> by done.
    assert (reInsert (print (ASelect cols t cond lim)) = None) as -> by done.
    rewrite reSelect_print //. destruct Hok as (Hc & _ & _ & Hl). unfold select_stmt, meaning.
    assert ((if decide (from_option print_list "*" cols = "*") then ["*"] else splitList (from_option print_list "*" cols)) =
            default ["*"] cols) as ->.
    { destruct cols as [l|]; [|done]. simpl in *. rewrite decide_False; [by apply splitList_print|].
      pose proof (print_list_bytes l Hc) as [_ Hb]%segment_all. by intros E; rewrite E in Hb. }
    destruct cond as [[c v]|], lim as [d|]; simpl; try done; unfold ParseInt;
      destruct Hl as [_ Hl%Z.ltb_lt]; by rewrite Hl.
Qed.

Lemma parse_print_witness :
  parseSQL "SELECT id, from_ FROM t WHERE id = 7 LIMIT 10" =
    Ok (mkStmt "select" "t" ["id"; "from_"] [] "id" "7" true 10 true).
Proof.
  apply (parse_print (ASelect (Some ["id"; "from_"]) "t" (Some ("id", "7")) (Some "10"))).
  repeat split; try discriminate; repeat constructor.
Defined.
