(* ===== verification/FormatPlugin.v ===== *)
(** The reference table format (src/plugins/format/inmemory-go): append, overwrite, merge,
    scan and maintenance of in-memory tables, fed and read through single-use streams. *)
From S2P Require Import Prelude.

Notation row := (gmap string string).
Record table := mkTable { t_rows : list row; t_snapshot : Z }.

(** The whole state: a table is made, empty, the first time it is touched. *)
Definition store : Type := gmap string table.
Definition newStore : store := ∅.
Definition store_get (s : store) (identifier : string) : table := default (mkTable [] 0) (s !! identifier).

(** Writing new rows bumps the snapshot. *)
Definition write_rows (s : store) (identifier : string) (rows : list row) : Z * store :=
  let n := wrap64 (t_snapshot (store_get s identifier) + 1) in (n, <[identifier := mkTable rows n]> s).

Definition store_append (s : store) (identifier : string) (rows : list row) : Z * Z * store :=
  let '(n, s') := write_rows s identifier (t_rows (store_get s identifier) ++ rows) in
  (Z.of_nat (length rows), n, s').

Definition store_overwrite (s : store) (identifier : string) (rows : list row) : Z * Z * store :=
  let '(n, s') := write_rows s identifier rows in (Z.of_nat (length rows), n, s').

(** A missing column reads as the empty string. *)
Definition column (r : row) (k : string) : string := default "" (r !! k).
Definition keysMatch (a b : row) (keys : list string) : bool :=
  forallb (fun k => bool_decide (column a k = column b k)) keys.

(** One source row: it replaces the first row it matches, else it is appended. *)
Fixpoint upsert (keys : list string) (rows : list row) (sr : row) : list row :=
  match rows with
  | [] => [sr]
  | r :: rows' => if keysMatch r sr keys then sr :: rows' else r :: upsert keys rows' sr
  end.

Definition store_merge (s : store) (identifier : string) (mergeKeys : list string) (src : list row) : Z * Z * store :=
  let '(n, s') := write_rows s identifier (fold_left (upsert mergeKeys) src (t_rows (store_get s identifier))) in
  (Z.of_nat (length src), n, s').

Definition project_row (columns : list string) (r : row) : row :=
  if decide (columns = []) then r
  else fold_left (fun cp c => match r !! c with Some v => <[c := v]> cp | None => cp end) columns ∅.

(** Reading also makes the table. *)
Definition store_scan (s : store) (identifier : string) (columns : list string) : list row * store :=
  let t := store_get s identifier in (project_row columns <$> t_rows t, <[identifier := t]> s).

Definition store_maintain (s : store) (identifier : string) : Z * store :=
  write_rows s identifier (t_rows (store_get s identifier)).

(** ** Streams and the service *)

Definition batches : Type := gmap string (list row).
Definition streams_put (b : batches) (ticket : string) (rows : list row) : batches := <[ticket := rows]> b.
Definition streams_pull (b : batches) (stream : option string) : list row * batches :=
  match stream with
  | None => ([], b)
  | Some ticket => (default [] (b !! ticket), delete ticket b)
  end.

Record formatServer := mkFormat { fs_store : store; fs_streams : batches }.
Definition newServer : formatServer := mkFormat newStore ∅.

(** Absent rows are unknown. *)
Record WriteResult := mkWrite { RowsAffected : option Z; SnapshotId : string }.
Definition snapshotID (n : Z) : string := "snap-" +:+ itoa n.
Definition writeResult (rows snapshot : Z) : WriteResult := mkWrite (Some rows) (snapshotID snapshot).

(** A nil reference is [None]. *)
Definition tableID (t : option string) : result string :=
  match t with
  | Some id => if decide (id = "") then Err (Status InvalidArgument "table.identifier is required" []) else Ok id
  | None => Err (Status InvalidArgument "table.identifier is required" [])
  end.

Definition formatServer_Resolve (s : formatServer) (ticket : string) (t : option string) (columns : list string) :
    result string * formatServer :=
  match tableID t with
  | Err e => (Err e, s)
  | Ok id =>
      let '(rows, st) := store_scan (fs_store s) id columns in
      (Ok ticket, mkFormat st (streams_put (fs_streams s) ticket rows))
  end.

(** Pull the source, then write. *)
Definition write_with (s : formatServer) (source : option string) (f : store -> list row -> Z * Z * store) :
    result WriteResult * formatServer :=
  let '(rows, b) := streams_pull (fs_streams s) source in
  let '(n, snap, st) := f (fs_store s) rows in
  (Ok (writeResult n snap), mkFormat st b).

Definition formatServer_Append (s : formatServer) (t source : option string) : result WriteResult * formatServer :=
  match tableID t with
  | Err e => (Err e, s)
  | Ok id => write_with s source (fun st rows => store_append st id rows)
  end.

Definition formatServer_Overwrite (s : formatServer) (t source : option string) : result WriteResult * formatServer :=
  match tableID t with
  | Err e => (Err e, s)
  | Ok id => write_with s source (fun st rows => store_overwrite st id rows)
  end.

Definition formatServer_Merge (s : formatServer) (t source : option string) (mergeKeys : list string) :
    result WriteResult * formatServer :=
  match tableID t with
  | Err e => (Err e, s)
  | Ok id =>
      if decide (mergeKeys = []) then (Err (Status InvalidArgument "merge_keys is required for Merge" []), s)
      else write_with s source (fun st rows => store_merge st id mergeKeys rows)
  end.

Definition formatServer_Maintain (s : formatServer) (t : option string) : result WriteResult * formatServer :=
  match tableID t with
  | Err e => (Err e, s)
  | Ok id => let '(n, st) := store_maintain (fs_store s) id in (Ok (mkWrite None (snapshotID n)), mkFormat st (fs_streams s))
  end.

(** ** Merging is upserting *)

Definition key_of (keys : list string) (r : row) : list string := column r <$> keys.

(** The row a table holds under a key: the first one. *)
Definition find_key (keys : list string) (k : list string) (rows : list row) : option row :=
  snd <$> list_find (fun r => key_of keys r = k) rows.

Lemma keysMatch_key a b keys : keysMatch a b keys = bool_decide (key_of keys a = key_of keys b).
Proof.
  unfold keysMatch, key_of. induction keys as [|k keys IH]; [done|]. simpl. rewrite IH.
  apply eq_true_iff_eq. rewrite andb_true_iff !bool_decide_eq_true. split; [intros [H1 H2]; by f_equal|intros E; by injection E].
Qed.

Lemma find_key_cons keys k r rows :
  find_key keys k (r :: rows) = if decide (key_of keys r = k) then Some r else find_key keys k rows.
Proof.
  unfold find_key. simpl. case_decide; [done|]. by destruct (list_find _ rows) as [[]|].
Qed.

Lemma upsert_find keys k rows sr :
  find_key keys k (upsert keys rows sr) = if decide (key_of keys sr = k) then Some sr else find_key keys k rows.
Proof.
  induction rows as [|r rows IH]; simpl; [apply find_key_cons|]. rewrite keysMatch_key.
  case_bool_decide as E; rewrite !find_key_cons; [|rewrite IH]; repeat case_decide; congruence.
Qed.

(** Only the key of a new row is new, and it goes last. *)
Lemma upsert_keys keys rows sr :
  key_of keys <$> upsert keys rows sr =
    (key_of keys <$> rows) ++ if decide (key_of keys sr ∈ key_of keys <$> rows) then [] else [key_of keys sr].
Proof.
  induction rows as [|r rows IH]; [done|]. cbn [upsert]. rewrite keysMatch_key. case_bool_decide as E; rewrite !fmap_cons.
  - rewrite E decide_True; [by rewrite app_nil_r|]. apply elem_of_cons. by left.
  - rewrite IH -app_comm_cons. do 2 f_equal. destruct (decide (key_of keys sr ∈ key_of keys <$> rows)) as [H1|H1].
    + rewrite decide_True //. apply elem_of_cons. by right.
    + rewrite decide_False //. intros [H2|H2]%elem_of_cons; [congruence|done].
Qed.

Lemma find_key_app keys k l1 l2 :
  find_key keys k (l1 ++ l2) = match find_key keys k l1 with Some r => Some r | None => find_key keys k l2 end.
Proof. induction l1 as [|r l1 IH]; [done|]. simpl. rewrite !find_key_cons. by case_decide. Qed.

Lemma store_get_insert s id t : store_get (<[id := t]> s) id = t.
Proof. unfold store_get. by rewrite lookup_insert_eq. Qed.

Lemma merge_rows keys src rows :
  let rows' := fold_left (upsert keys) src rows in
  (forall k, find_key keys k rows' = match find_key keys k (rev src) with Some r => Some r | None => find_key keys k rows end) /\
  (key_of keys <$> rows) `prefix_of` (key_of keys <$> rows') /\
  (NoDup (key_of keys <$> rows) -> NoDup (key_of keys <$> rows')).
Proof.
  revert rows. induction src as [|sr src IH]; intros rows; simpl; [by split_and!|].
  destruct (IH (upsert keys rows sr)) as (H1 & H2 & H3). split_and!.
  - intros k. rewrite H1 upsert_find find_key_app find_key_cons.
    destruct (find_key keys k (rev src)); [done|]. by case_decide.
  - etrans; [|exact H2]. rewrite upsert_keys. by eexists.
  - intros Hn. apply H3. rewrite upsert_keys. case_decide as Hd; [by rewrite app_nil_r|].
    apply NoDup_app. split_and!; [done| |apply NoDup_singleton]. intros x Hx ->%list_elem_of_singleton. done.
Qed.

(** A merge is an upsert.  Through the service: the source is consumed, every source row
    is counted, and under each key the table then holds the last source row with that key
    if there is one and what it held before otherwise; existing rows keep their places;
    and a table with at most one row per key stays such a table. *)
Theorem Merge_upserts (s s' : formatServer) (id : string) (ticket : string) (keys : list string) (res : result WriteResult) :
  id <> "" -> keys <> [] ->
  formatServer_Merge s (Some id) (Some ticket) keys = (res, s') ->
  let src := default [] (fs_streams s !! ticket) in
  let rows := t_rows (store_get (fs_store s) id) in
  let rows' := t_rows (store_get (fs_store s') id) in
  (exists snap, res = Ok (mkWrite (Some (Z.of_nat (length src))) snap)) /\ fs_streams s' !! ticket = None /\
  (forall k, find_key keys k rows' = match find_key keys k (rev src) with Some r => Some r | None => find_key keys k rows end) /\
  (key_of keys <$> rows) `prefix_of` (key_of keys <$> rows') /\
  (NoDup (key_of keys <$> rows) -> NoDup (key_of keys <$> rows')).
Proof.
  intros Hid Hk. unfold formatServer_Merge, tableID. rewrite !decide_False //. unfold write_with. simpl.
  intros [= <- <-]. cbn [fs_store fs_streams]. split; [by eexists|]. split; [by rewrite lookup_delete_eq|].
  rewrite !store_get_insert. apply merge_rows.
Qed.

Lemma Merge_upserts_witness :
  let old : list row := [{["id" := "1"; "v" := "a"]}; {["id" := "2"; "v" := "b"]}] in
  let new : list row := [{["id" := "2"; "v" := "c"]}; {["id" := "3"; "v" := "d"]}] in
  let s := mkFormat {["t" := mkTable old 4]} {["tk" := new]} in
  let s' := (formatServer_Merge s (Some "t") (Some "tk") ["id"]).2 in
  t_rows (store_get (fs_store s') "t") = [{["id" := "1"; "v" := "a"]}; {["id" := "2"; "v" := "c"]}; {["id" := "3"; "v" := "d"]}] /\
  find_key ["id"] ["2"] (t_rows (store_get (fs_store s') "t")) = Some {["id" := "2"; "v" := "c"]}.
Proof.
  intros old new s s'. split; [vm_compute; reflexivity|].
  destruct (Merge_upserts s s' "t" "tk" ["id"] (Ok (mkWrite (Some 2) "snap-5"))) as (_ & _ & H & _);
    [discriminate|discriminate|vm_compute; reflexivity|].
  rewrite H. vm_compute. reflexivity.
Defined.
