(* ===== verification/Marketplace.v ===== *)
(** Marketplace sources (src/core/cmd/rat/marketplace.go, signing.go): the configured
    sources, fetching an index with its offline cache, the signature a pinned key demands,
    and the entries the sources advertise. *)
From S2P Require Import Prelude Paths Manifest.

(** ** Data *)

Record marketEntry := mkEntry {
  e_Name : string;
  e_Kind : string;
  e_Image : string;
  e_Version : string;
  e_Provides : list string;
  e_Requires : list string;
  e_Description : string;
  source : string;
  verified : bool;
}.

Record marketIndex := mkIndex { ix_Name : string; ix_Plugins : list marketEntry }.

Record marketSource := mkSource { ms_Name : string; ms_Path : string; PubKey : string }.

Record marketConfig := mkConfig { Marketplaces : list marketSource }.

Record sourceLoad := mkLoad { data : string; note : option error; sl_verified : bool }.

Definition officialIndexURL : string :=
  "https://squat-collective.github.io/marketplace/official.json".
Definition wellKnownMarketplaces : gmap string string := {["official" := officialIndexURL]}.
Definition wellKnownNames : list string := sorted_keys wellKnownMarketplaces.

Definition trustLabel (e : marketEntry) : string :=
  if decide (source e = "local") then "local"
  else if verified e then "signed✓" else "unsigned".

Definition isURL (s : string) : bool := HasPrefix s "http://" || HasPrefix s "https://".

(** [e.source = src.Name; e.verified = res.verified] *)
Definition stamp (src : string) (v : bool) (e : marketEntry) : marketEntry :=
  mkEntry (e_Name e) (e_Kind e) (e_Image e) (e_Version e) (e_Provides e) (e_Requires e)
    (e_Description e) src v.

(** The files a command reads and writes. *)
Notation files := (gmap string string).

Definition os_ReadFile (fs : files) (p : string) : result string :=
  match fs !! p with
  | Some d => Ok d
  | None => Err (Errorf "open %s: no such file or directory" [p])
  end.

Section Marketplace.
(** base64 and ed25519; the index codec; the network, as it answers during one command;
    which paths can be written; and the cache directory. *)
Context (base64_Decode : string -> result string).
Context (ed25519_Verify : string -> string -> string -> bool).
Context (json_Index : string -> result marketIndex).
Context (http_Get : string -> result string).
Context (writable : string -> bool).
Context (userCacheDir : string).

(** ** Signatures *)

(** [None] is the nil error. *)
Definition verifyBytes (pubB64 data sigB64 : string) : option error :=
  match base64_Decode (TrimSpace pubB64) with
  | Err e => Some (Wrap "decode public key: %w" [] e)
  | Ok pub =>
      if decide (len pub = 32) then
        match base64_Decode (TrimSpace sigB64) with
        | Err e => Some (Wrap "decode signature: %w" [] e)
        | Ok sig =>
            if ed25519_Verify pub data sig then None
            else Some (Errorf "signature does not match (wrong key or tampered index)" [])
        end
      else Some (Errorf "public key must be %d bytes, got %d" ["32"; itoa (len pub)])
  end.

(** A key given literally or as a file that holds it. *)
Definition resolveKeyArg (fs : files) (v : string) : string :=
  if decide (v = "") then ""
  else match fs !! v with Some b => TrimSpace b | None => TrimSpace v end.

(** ** Fetching *)

Definition marketCacheDir : string := filepath_Join [userCacheDir; "rat"; "marketplaces"].

(** The body, and whether it came from the cache. *)
Definition getCached (url cachePath : string) (fs : files) : result (string * bool) * files :=
  match http_Get url with
  | Ok b => (Ok (b, false), if writable cachePath then <[cachePath := b]> fs else fs)
  | Err e =>
      match fs !! cachePath with
      | Some b => (Ok (b, true), fs)
      | None => (Err e, fs)
      end
  end.

(** The index of a source and the detached signature found for it (empty: none). *)
Definition fetch_index (src : marketSource) (fs : files) :
    result (string * string * option error) * files :=
  if isURL (ms_Path src) then
    let cache := filepath_Join [marketCacheDir; ms_Name src +:+ ".json"] in
    match getCached (ms_Path src) cache fs with
    | (Err e, fs) => (Err (Wrap "fetch %s: %w" [ms_Path src] e), fs)
    | (Ok (b, fromCache), fs) =>
        let n := if fromCache : bool
                 then Some (Errorf "⚠ %s unreachable — using cached copy" [ms_Name src])
                 else None in
        if decide (PubKey src = "") then (Ok (b, "", n), fs)
        else
          match getCached (ms_Path src +:+ ".sig") (cache +:+ ".sig") fs with
          | (Ok (sb, _), fs) => (Ok (b, TrimSpace sb, n), fs)
          | (Err _, fs) => (Ok (b, "", n), fs)
          end
    end
  else
    match os_ReadFile fs (ms_Path src) with
    | Err e => (Err e, fs)
    | Ok b => (Ok (b, from_option TrimSpace "" (fs !! (ms_Path src +:+ ".sig")), None), fs)
    end.

Definition fetchSource (src : marketSource) (fs : files) : result sourceLoad * files :=
  match fetch_index src fs with
  | (Err e, fs) => (Err e, fs)
  | (Ok (b, sig, n), fs) =>
      if decide (PubKey src = "") then (Ok (mkLoad b n false), fs)
      else if decide (sig = "") then
        (Err (Errorf "source %q pins a key but no signature (%s.sig) was found" [ms_Name src; ms_Path src]), fs)
      else match verifyBytes (PubKey src) b sig with
           | Some e => (Err (Wrap "source %q signature INVALID: %w" [ms_Name src] e), fs)
           | None => (Ok (mkLoad b n true), fs)
           end
  end.

(** ** Entries *)

(** The entries and the warnings of the configured sources, in order. *)
Fixpoint addedEntries (srcs : list marketSource) (fs : files) : list marketEntry * list error * files :=
  match srcs with
  | [] => ([], [], fs)
  | src :: srcs =>
      match fetchSource src fs with
      | (Err e, fs) =>
          let '(es, ws, fs) := addedEntries srcs fs in
          (es, Wrap "⚠ marketplace %q: %v" [ms_Name src] e :: ws, fs)
      | (Ok res, fs) =>
          let '(es, ws, fs) := addedEntries srcs fs in
          let noted := from_option (fun n => [n]) [] (note res) in
          match json_Index (data res) with
          | Err _ => (es, noted ++ Errorf "⚠ marketplace %q: malformed index" [ms_Name src] :: ws, fs)
          | Ok idx => ((stamp (ms_Name src) (sl_verified res) <$> ix_Plugins idx) ++ es, noted ++ ws, fs)
          end
      end
  end.

(** Packed images on this machine; [podman images] and the stamped manifest of an image
    are the environment's. *)
Definition local_entry (stamped : string -> result Manifest) (ref : string) : option marketEntry :=
  if decide (ref = "") then None
  else if Contains ref "<none>" then None
  else match stamped ref with
       | Err _ => None
       | Ok m => Some (mkEntry (name_of m) (Kind m) ref (md_Version (Meta m)) (Manifest_ProvidesCaps m)
                         (Manifest_RequiresCaps m) "" "local" false)
       end.
Definition localEntries (podman_images : result string) (stamped : string -> result Manifest) : list marketEntry :=
  match podman_images with
  | Err _ => []
  | Ok got => omap (local_entry stamped) (Fields got)
  end.

Definition allMarketEntries (podman_images : result string) (stamped : string -> result Manifest)
    (cfg : marketConfig) (fs : files) : list marketEntry * list error * files :=
  let '(added, ws, fs) := addedEntries (Marketplaces cfg) fs in
  (localEntries podman_images stamped ++ added, ws, fs).

(** The first entry that provides a capability. *)
Fixpoint providerFor (entries : list marketEntry) (capability : string) : option marketEntry :=
  match entries with
  | [] => None
  | e :: es => if decide (capability ∈ e_Provides e) then Some e else providerFor es capability
  end.

Lemma providerFor_in entries c e : providerFor entries c = Some e -> e ∈ entries /\ c ∈ e_Provides e.
Proof.
  induction entries as [|e' es IH]; [done|]. simpl. case_decide; [intros [= <-]; by split; [left|]|].
  intros [??]%IH. by split; [right|].
Qed.

(** ** What a pinned key guarantees *)

(** [sigB64] is a signature of the data under the key, both in base64. *)
Definition signed_under (pubB64 data sigB64 : string) : Prop :=
  exists pub sig, base64_Decode (TrimSpace pubB64) = Ok pub /\ len pub = 32 /\
    base64_Decode (TrimSpace sigB64) = Ok sig /\ ed25519_Verify pub data sig = true.

Lemma verifyBytes_signed pub d sig : verifyBytes pub d sig = None -> signed_under pub d sig.
Proof.
  unfold verifyBytes, signed_under. destruct (base64_Decode (TrimSpace pub)) as [p|]; [|done]. destruct (decide (len p = 32)); [|done].
  destruct (base64_Decode (TrimSpace sig)) as [s|]; [|done]. destruct (ed25519_Verify p d s) eqn:E; [|done]. intros _. by exists p, s.
Qed.

Lemma fetchSource_verified src fs res fs' :
  fetchSource src fs = (Ok res, fs') ->
  (sl_verified res = true <-> PubKey src <> "") /\
  (PubKey src <> "" -> exists sig, signed_under (PubKey src) (data res) sig).
Proof.
  unfold fetchSource. destruct (fetch_index src fs) as [[[[b sig] n]|] fs1]; [|done].
  destruct (decide (PubKey src = "")) as [Hp|Hp]; [by intros [= <- <-]|].
  destruct (decide (sig = "")); [done|].
  destruct (verifyBytes (PubKey src) b sig) eqn:E; [done|].
  intros [= <- <-]. split; [done|]. intros _. exists sig. by apply verifyBytes_signed.
Qed.

Definition advertised (srcs : list marketSource) (e : marketEntry) : Prop :=
  exists src d idx e0, src ∈ srcs /\ json_Index d = Ok idx /\ e0 ∈ ix_Plugins idx /\
    e = stamp (ms_Name src) (verified e) e0 /\ (verified e = true <-> PubKey src <> "") /\
    (PubKey src <> "" -> exists sig, signed_under (PubKey src) d sig).

Lemma advertised_cons src srcs e : advertised srcs e -> advertised (src :: srcs) e.
Proof. intros (s & d & idx & e0 & Hs & H). exists s, d, idx, e0. split; [by right|done]. Qed.

Lemma addedEntries_advertised srcs fs e :
  e ∈ (addedEntries srcs fs).1.1 -> advertised srcs e.
Proof.
  revert fs. induction srcs as [|src srcs IH]; intros fs; simpl; [by intros ?%not_elem_of_nil|].
  destruct (fetchSource src fs) as [[res|err] fs1] eqn:Ef;
    specialize (IH fs1); destruct (addedEntries srcs fs1) as [[es ws] fs2]; simpl in *.
  - destruct (json_Index (data res)) as [idx|] eqn:Ej; simpl.
    + rw elem_of_app list_elem_of_fmap. intros [(e0 & -> & He0)|He]; [|by apply advertised_cons, IH].
      apply fetchSource_verified in Ef as [Hv Hk].
      exists src, (data res), idx, e0. split_and!; try done; [left|by simpl..].
    + intros He. by apply advertised_cons, IH.
  - intros He. by apply advertised_cons, IH.
Qed.

(** An entry for a packed image on this machine, read from its stamped manifest. *)
Definition packed (podman_images : result string) (stamped : string -> result Manifest) (e : marketEntry) : Prop :=
  exists got ref m, podman_images = Ok got /\ ref ∈ Fields got /\ ref <> "" /\ Contains ref "<none>" = false /\
    stamped ref = Ok m /\
    e = mkEntry (md_Name (Meta m)) (Kind m) ref (md_Version (Meta m)) (Capability <$> Provides m) (Capability <$> Requires m)
          "" "local" false.

(** C32: An entry offered to the resolver is that of a packed image on this machine, with what its
    stamped manifest says, and then it is never marked verified; or it is listed by the index
    of a configured source, whose name it carries.  A source that pins a key contributes only
    entries of an index that comes with an ed25519 signature of its bytes under that key,
    whether it was fetched or read from the cache, and they are marked verified; those of a
    source without a key are not. *)
Theorem pinned_sources_signed podman_images stamped cfg fs e :
  e ∈ (allMarketEntries podman_images stamped cfg fs).1.1 ->
  packed podman_images stamped e \/
  exists src d idx e0, src ∈ Marketplaces cfg /\ json_Index d = Ok idx /\ e0 ∈ ix_Plugins idx /\
    e = mkEntry (e_Name e0) (e_Kind e0) (e_Image e0) (e_Version e0) (e_Provides e0) (e_Requires e0) (e_Description e0)
          (ms_Name src) (verified e) /\
    (PubKey src = "" /\ verified e = false \/
     PubKey src <> "" /\ verified e = true /\
     exists pub sigB64 sig, base64_Decode (TrimSpace (PubKey src)) = Ok pub /\ len pub = 32 /\
       base64_Decode (TrimSpace sigB64) = Ok sig /\ ed25519_Verify pub d sig = true).
Proof.
  unfold allMarketEntries. pose proof (addedEntries_advertised (Marketplaces cfg) fs e) as Ha.
  destruct (addedEntries (Marketplaces cfg) fs) as [[added ws] fs1]. simpl in *.
  rw elem_of_app. intros [He|He]; [left|right].
  - unfold localEntries in He. destruct podman_images as [got|]; [|by apply not_elem_of_nil in He].
    apply list_elem_of_omap in He as (ref & Hin & Hr). unfold local_entry in Hr.
    destruct (decide (ref = "")); [done|]. destruct (Contains ref "<none>") eqn:Ec; [done|].
    destruct (stamped ref) as [m|] eqn:Es; [|done]. injection Hr as <-. by exists got, ref, m.
  - destruct (Ha He) as (src & d & idx & e0 & Hs & Hj & H0 & Hst & Hv & Hk). exists src, d, idx, e0.
    split_and!; [done|done|done|exact Hst|]. destruct (decide (PubKey src = "")) as [Hp|Hp]; [left|right].
    + split; [done|]. destruct (verified e); [|done]. by destruct Hv as [Hv _]; [destruct (Hv eq_refl)].
    + split_and!; [done|by apply Hv|]. destruct (Hk Hp) as (sigB64 & pub & sig & ? & ? & ? & ?). by exists pub, sigB64, sig.
Qed.
End Marketplace.

(** ** At a concrete source *)

Definition demo_key : string := "0123456789abcdef0123456789abcdef".
Definition demo_index (d : string) : result marketIndex :=
  if decide (d = "index")
  then Ok (mkIndex "official" [mkEntry "state" "state-backend" "rat/state:1" "1.0" ["rat://state/v1/get"] [] "" "" false])
  else Err (Errorf "malformed" []).
Definition toy_ed25519 (pub d sig : string) : bool := bool_decide (sig = pub +:+ d).
Definition demo_config : marketConfig := mkConfig [mkSource "official" "https://m/official.json" demo_key].
(** The network is down; the cache holds the index and its signature. *)
Definition demo_cache : files :=
  {["/cache/rat/marketplaces/official.json" := "index";
    "/cache/rat/marketplaces/official.json.sig" := demo_key +:+ "index"]}.
Definition demo_entry_state : marketEntry :=
  mkEntry "state" "state-backend" "rat/state:1" "1.0" ["rat://state/v1/get"] [] "" "official" true.

Lemma pinned_sources_signed_witness :
  let run := allMarketEntries Ok toy_ed25519 demo_index (fun _ => Err EOF) (fun _ => true) "/cache"
               (Err EOF) (fun _ => Err EOF) demo_config demo_cache in
  run.1.1 = [demo_entry_state] /\ length run.1.2 = 1%nat /\
  exists d sig, toy_ed25519 demo_key d sig = true.
Proof.
  intros run. split; [by vm_compute|]. split; [by vm_compute|].
  destruct (pinned_sources_signed Ok toy_ed25519 demo_index (fun _ => Err EOF) (fun _ => true) "/cache"
              (Err EOF) (fun _ => Err EOF) demo_config demo_cache demo_entry_state)
    as [(got & ref & m & H & _)|(src & d & idx & e0 & Hs & _ & _ & _ & H)]; [vm_compute; left|discriminate|].
  apply list_elem_of_singleton in Hs. rewrite Hs in H.
  destruct H as [[H _]|(_ & _ & pub & sigB64 & sig & Hp & _ & _ & Hv)]; [discriminate|].
  assert (pub = demo_key) as -> by (vm_compute in Hp; by injection Hp as <-). exists d, sig. exact Hv.
Defined.
