(* ===== verification/Project.v ===== *)
(** The project layer (src/core/cmd/rat/project.go, resolver.go and the project-editing
    part of marketplace.go): rat.toml and its edits at the text level, adding and removing
    plugins, and resolving what the plugins require. *)
From S2P Require Import Prelude Paths Manifest Registry DeployRuntime Supervisor Plane Marketplace.

Definition projectFile : string := "rat.toml".
Definition nl : ascii := byte_of 10.

(** ** Data *)

Record ratTomlPlugin := mkTomlPlugin {
  tp_Name : string;
  tp_Image : string;
  tp_Manifest : string;
  tp_Endpoint : string;
  tp_Isolation : string;
  tp_Env : gmap string string;
}.
Record ratToml := mkToml {
  rt_Name : string;
  rt_Runtime : string;
  rt_Addr : string;
  rt_HealthTimeout : string;
  rt_Plugins : list ratTomlPlugin;
}.

Definition names (rt : ratToml) : list string := tp_Name <$> rt_Plugins rt.

(** ** Requirements *)

Record missingDep := mkDep { dep_Plugin : string; dep_Capability : string }.

Definition provided (ms : list Manifest) (c : string) : bool :=
  existsb (fun m => contains (Manifest_ProvidesCaps m) c) ms.

Definition unsatisfiedRequires (ms : list Manifest) : list missingDep :=
  mjoin ((fun m => (fun c => mkDep (name_of m) c) <$>
                     List.filter (fun c => negb (provided ms c)) (Manifest_RequiresCaps m)) <$> ms).

Definition manifestsOf (pl : LoadedPlane) : list Manifest := sp_Manifest <$> pl_Specs pl.

(** ** Rendering *)

Definition hex_digit (n : nat) : ascii := if (n <? 10)%nat then byte_of (48 + n) else byte_of (87 + n).

(** One byte of [strconv.Quote], below 128. *)
Definition quote_byte (a : ascii) : string :=
  let n := nat_of_ascii a in
  if (n =? 34)%nat then "\" +:+ dq
  else if (n =? 92)%nat then "\\"
  else if (n =? 7)%nat then "\a"
  else if (n =? 8)%nat then "\b"
  else if (n =? 12)%nat then "\f"
  else if (n =? 10)%nat then "\n"
  else if (n =? 13)%nat then "\r"
  else if (n =? 9)%nat then "\t"
  else if (n =? 11)%nat then "\v"
  else if (n <? 32)%nat || (n =? 127)%nat
  then "\x" +:+ String (hex_digit (n / 16)) (String (hex_digit (n mod 16)) "")
  else String a "".

Fixpoint quote_bytes (s : string) : string :=
  match s with "" => "" | String a s' => quote_byte a +:+ quote_bytes s' end.

Definition is_ascii (a : ascii) : bool := (nat_of_ascii a <? 128)%nat.

(** The lines, each with its newline. *)
Fixpoint unlines (ls : list string) : string :=
  match ls with [] => "" | l :: ls' => l +:+ String nl (unlines ls') end.

Section Quoting.
(** [strconv.Quote] on a string with bytes from 128 up depends on Unicode tables. *)
Context (quote_unicode : string -> string).

Definition Quote (s : string) : string :=
  if str_forall is_ascii s then dq +:+ quote_bytes s +:+ dq else quote_unicode s.

(** The block [rat add] appends; [envs] are the KEY and VALUE parts. *)
Definition plugin_lines (name image manifest isolation : string) (envs : list (string * string)) : list string :=
  ["[[plugin]]"; "name     = " +:+ Quote name] ++
  (if decide (image = "") then [] else ["image    = " +:+ Quote image]) ++
  ["manifest = " +:+ Quote manifest] ++
  (if decide (image = "") then [] else ["isolation = " +:+ Quote isolation]) ++
  (if decide (envs = []) then []
   else "[plugin.env]" :: ((fun kv => kv.1 +:+ " = " +:+ Quote kv.2) <$> envs)).

Definition plugin_block (name image manifest isolation : string) (envs : list (string * string)) : string :=
  String nl (unlines (plugin_lines name image manifest isolation envs)).

(** The manifest written for an entry that is not pulled yet. *)
Definition synthManifest (e : marketEntry) : string :=
  let caps := fun title cs => if decide (cs = []) then [] else title :: ((fun c => "  - capability: " +:+ c) <$> cs) in
  unlines
    (["# synthesized by `rat add --with-deps` from marketplace " +:+ Quote (source e);
      "api_version: rat.dev/v1";
      "kind: " +:+ e_Kind e;
      "metadata:";
      "  name: " +:+ e_Name e;
      "  version: " +:+ Quote (if decide (e_Version e = "") then "0.0" else e_Version e)]
     ++ caps "provides:" (e_Provides e) ++ caps "requires:" (e_Requires e)).
End Quoting.

(** ** Removing a block at the text level *)

Definition isHdr (s : string) : bool := bool_decide (TrimSpace s = "[[plugin]]").

(** The white space of the regular expression, a smaller set than [TrimSpace]'s. *)
Definition re_space (a : ascii) : bool :=
  existsb (Nat.eqb (nat_of_ascii a)) [9; 10; 12; 13; 32]%nat.
Definition skip_space (s : string) : string := (span re_space s).2.

(** [^\s*name\s*=\s*<quoted name>\s*$]: what follows each [\s*] is not a space, so
    matching is deterministic. *)
Definition nameRe (name s : string) : bool :=
  match
    s1 ← expect "name" (skip_space s);
    s2 ← expect "=" (skip_space s1);
    expect (dq +:+ name +:+ dq) (skip_space s2)
  with
  | Some s3 => bool_decide (skip_space s3 = "")
  | None => false
  end.

(** The lines before and from the next header. *)
Fixpoint until_hdr (ls : list string) : list string :=
  match ls with [] => [] | l :: ls' => if isHdr l then [] else l :: until_hdr ls' end.
Fixpoint from_hdr (ls : list string) : list string :=
  match ls with [] => [] | l :: ls' => if isHdr l then ls else from_hdr ls' end.

(** The blank separator before the block, the lines before it being reversed. *)
Definition drop_blank (before : list string) : list string :=
  match before with
  | l :: before' => if decide (TrimSpace l = "") then before' else before
  | [] => []
  end.

(** The scan for the first block with a matching line.  The lines of a block that does not
    match hold no header, so going through them one by one is the jump of the source. *)
Fixpoint remove_from (name : string) (before ls : list string) : option (list string) :=
  match ls with
  | [] => None
  | l :: ls' =>
      if isHdr l && existsb (nameRe name) (l :: until_hdr ls')
      then Some (rev (drop_blank before) ++ from_hdr ls')
      else remove_from name (l :: before) ls'
  end.

Definition remove_block (text name : string) : option string :=
  (fun ls => Join ls (String nl "")) <$> remove_from name [] (Split nl text).

(** *** Removing what was just appended *)

Lemma Join_Split c s : Join (Split c s) (String c "") = s.
Proof.
  unfold Join. induction s as [|a s IH]; [done|]. simpl. case_decide as Ha.
  - subst a. destruct (Split c s) as [|w ws] eqn:E; [by destruct (Split_not_nil c s)|].
    change (String.concat (String c "") ("" :: w :: ws)) with (String c (String.concat (String c "") (w :: ws))).
    by rw IH.
  - destruct (Split c s) as [|w ws] eqn:E; [by destruct (Split_not_nil c s)|].
    destruct ws; simpl in *; by rw -IH.
Qed.

Lemma Split_unlines ls : Forall (fun l => no_byte nl l = true) ls -> Split nl (unlines ls) = ls ++ [""].
Proof. induction 1 as [|l ls Hl _ IH]; [done|]. simpl. by rw Split_app // IH. Qed.

Lemma until_hdr_app ls h rest : isHdr h = true -> until_hdr (ls ++ h :: rest) = until_hdr ls.
Proof. intros Hh. induction ls as [|l ls IH]; simpl; [by rw Hh|]. case_match; [done|by rw IH]. Qed.

Lemma from_hdr_none ls : Forall (fun l => isHdr l = false) ls -> from_hdr ls = [] /\ until_hdr ls = ls.
Proof. induction 1 as [|l ls Hl _ [IH1 IH2]]; [done|]. simpl. by rw Hl IH1 IH2. Qed.

(** Appending a block with a matching line to lines in which no block matches. *)
Lemma remove_from_app name before ls h body :
  remove_from name before ls = None -> isHdr h = true -> Forall (fun l => isHdr l = false) body ->
  existsb (nameRe name) body = true ->
  remove_from name before (ls ++ h :: body) = Some (rev (drop_blank (rev ls ++ before))).
Proof.
  intros Hn Hh Hb Hm. destruct (from_hdr_none _ Hb) as [Hf Hu]. revert before Hn.
  induction ls as [|l ls IH]; intros before; simpl.
  - intros _. by rw Hh Hu Hm orb_true_r /= Hf app_nil_r.
  - rw until_hdr_app //. destruct (isHdr l && _); [done|]. intros Hn. rw IH // /=. by rw -app_assoc.
Qed.

Lemma not_space_eq : not_space_byte "=".
Proof. repeat (constructor; [done|]). constructor. Qed.

(** A line with an equals sign is not a header. *)
Lemma assignment_not_hdr l : no_byte "=" l = false -> isHdr l = false.
Proof.
  intros H. unfold isHdr. apply bool_decide_eq_false. intros E.
  rewrite -(TrimSpace_no_byte "=" l not_space_eq) E in H. done.
Qed.

Definition plain_byte (a : ascii) : bool :=
  (32 <=? nat_of_ascii a)%nat && (nat_of_ascii a <? 127)%nat && negb (nat_of_ascii a =? 34)%nat
  && negb (nat_of_ascii a =? 92)%nat.

Lemma quote_byte_facts a :
  no_byte nl (quote_byte a) = true /\ (plain_byte a = true -> quote_byte a = String a "" /\ is_ascii a = true).
Proof. destruct a as [[] [] [] [] [] [] [] []]; vm_compute; by split. Qed.

Lemma quote_bytes_nl s : no_byte nl (quote_bytes s) = true.
Proof. induction s as [|a s IH]; [done|]. simpl. rw no_byte_app IH andb_true_r. apply quote_byte_facts. Qed.

Lemma quote_bytes_plain s : str_forall plain_byte s = true -> quote_bytes s = s /\ str_forall is_ascii s = true.
Proof.
  induction s as [|a s IH]; [done|]. simpl. intros [Ha [IH1 IH2]%IH]%andb_true_iff.
  destruct (proj2 (quote_byte_facts a) Ha) as [-> ->]. by rw IH1 IH2.
Qed.

Section Appended.
Context (quote_unicode : string -> string).
Context (Hq : forall s, no_byte nl (quote_unicode s) = true).

Lemma Quote_nl s : no_byte nl (Quote quote_unicode s) = true.
Proof. unfold Quote. destruct (str_forall _ _); [|apply Hq]. by rw !no_byte_app quote_bytes_nl. Qed.

Lemma Quote_plain s : str_forall plain_byte s = true -> Quote quote_unicode s = dq +:+ s +:+ dq.
Proof. intros [Hs Ha]%quote_bytes_plain. unfold Quote. by rw Ha Hs. Qed.

Lemma nameRe_line name : str_forall plain_byte name = true -> nameRe name ("name     = " +:+ Quote quote_unicode name) = true.
Proof.
  intros Hp. rw Quote_plain //. set (q := dq +:+ name +:+ dq).
  assert (expect q q = Some "") as Hx by by apply expect_spec; rw str_app_nil_r.
  change (nameRe name ("name     = " +:+ q)) with
    (match expect q (skip_space (" " +:+ q)) with Some s3 => bool_decide (skip_space s3 = "") | None => false end).
  change (skip_space (" " +:+ q)) with q. by rw Hx.
Qed.

Definition keys_ok (envs : list (string * string)) : Prop := Forall (fun kv => no_byte nl kv.1 = true) envs.

Lemma plugin_lines_shape name image manifest isolation envs :
  keys_ok envs ->
  exists body, plugin_lines quote_unicode name image manifest isolation envs = "[[plugin]]" :: body /\
    "name     = " +:+ Quote quote_unicode name ∈ body /\
    Forall (fun l => no_byte nl l = true /\ isHdr l = false) body.
Proof.
  intros Hk. eexists. split; [reflexivity|]. split; [left|].
  assert (forall p s, no_byte nl p = true -> no_byte "=" p = false ->
            no_byte nl (p +:+ Quote quote_unicode s) = true /\ isHdr (p +:+ Quote quote_unicode s) = false) as Ha.
  { intros p s H1 H2. split; [by rw no_byte_app H1 Quote_nl|]. apply assignment_not_hdr. by rw no_byte_app H2. }
  constructor; [by apply Ha|]. apply Forall_app. split; [case_decide; repeat constructor; by apply Ha|].
  constructor; [by apply Ha|]. apply Forall_app. split; [case_decide; repeat constructor; by apply Ha|].
  case_decide; [constructor|]. constructor; [by vm_compute|]. apply Forall_fmap. apply (Forall_impl _ _ _ Hk).
  intros [k v] Hkv. simpl in *. rw -str_app_assoc. apply Ha; rw no_byte_app; [by rw Hkv|]. apply andb_false_r.
Qed.

Lemma remove_block_appended u name image manifest isolation envs :
  str_forall plain_byte name = true -> keys_ok envs ->
  remove_block (u +:+ String nl "") name = None ->
  remove_block ((u +:+ String nl "") +:+ plugin_block quote_unicode name image manifest isolation envs) name = Some u.
Proof.
  intros Hp Hk Hn. destruct (plugin_lines_shape name image manifest isolation envs Hk) as (body & Hl & Hin & Hb).
  unfold remove_block, plugin_block in *. rw Hl Split_sep.
  assert (Forall (fun l => no_byte nl l = true) ("[[plugin]]" :: body)) as Hnl.
  { constructor; [done|]. by apply (Forall_impl _ _ _ Hb); intros ? []. }
  rw (Split_unlines _ Hnl). apply fmap_None in Hn.
  change (("[[plugin]]" :: body) ++ [""]) with ("[[plugin]]" :: (body ++ [""])).
  rw remove_from_app //.
  - rw Split_sep rev_app_distr app_nil_r /=. rw rev_involutive. by rw Join_Split.
  - apply Forall_app. split; [|by repeat constructor]. by apply (Forall_impl _ _ _ Hb); intros ? [].
  - apply existsb_exists. exists ("name     = " +:+ Quote quote_unicode name).
    split; [|by apply nameRe_line]. apply list_elem_of_In, elem_of_app. by left.
Qed.
End Appended.

(** ** The commands

    The paths given are absolute.  Output to the terminal is left out; the flags, and the
    calls that carry an edit to a running daemon, are in Edit. *)
Record addOptions := mkAdd {
  ao_image : string;
  ao_manifest : string;
  ao_isolation : string;
  ao_env : list string;
}.

Section Commands.
(** The TOML, YAML and duration decoders, the environment, the working directory, the
    quoting of non-ASCII text, which paths can be written, and the container images. *)
Context (quote_unicode : string -> string).
Context (toml_Unmarshal : string -> result ratToml).
Context (LookupEnv : string -> option string).
Context (yaml_Manifest : string -> result Manifest).
Context (ParseDuration : string -> result Z).
Context (cwd : string).
Context (writable : string -> bool).
Context (ensureImagePresent : string -> option error).
Context (readStampedManifest : string -> result (Manifest * string)).

Definition os_MkdirAll (p : string) : option error :=
  if writable p then None else Some (Errorf "mkdir %s: permission denied" [p]).
Definition os_WriteFile (fs : files) (p d : string) : result files :=
  if writable p then Ok (<[p := d]> fs) else Err (Errorf "open %s: permission denied" [p]).
(** Opened with [O_APPEND] and without [O_CREATE]. *)
Definition os_Append (fs : files) (p d : string) : result files :=
  match fs !! p with
  | None => Err (Errorf "open %s: no such file or directory" [p])
  | Some t => os_WriteFile fs p (t +:+ d)
  end.

Definition parseProject (fs : files) (tomlPath : string) : result ratToml :=
  match os_ReadFile fs tomlPath with
  | Err e => Err (Wrap "read %s: %w" [tomlPath] e)
  | Ok d => match toml_Unmarshal d with
            | Err e => Err (Wrap "parse %s: %w" [tomlPath] e)
            | Ok rt => Ok rt
            end
  end.

Definition rawPlugin_of (p : ratTomlPlugin) : rawPlugin :=
  mkRawPlugin (tp_Name p) (tp_Manifest p)
    (if decide (tp_Image p = "") then None else Some (mkRawLaunch (tp_Image p) (tp_Isolation p) (tp_Env p)))
    (tp_Endpoint p).

Definition rawPlane_of (tomlPath : string) (rt : ratToml) : rawPlane :=
  mkRawPlane (rt_Name rt)
    (if decide (rt_Addr rt = "") then "unix:" +:+ filepath_Join [Dir tomlPath; ".rat"; "daemon.sock"] else rt_Addr rt)
    (rt_Runtime rt) (rt_HealthTimeout rt) (rawPlugin_of <$> rt_Plugins rt).

Definition LoadProject (fs : files) (tomlPath : string) : result LoadedPlane :=
  let? rt := parseProject fs tomlPath in
  planeFromRaw LookupEnv yaml_Manifest (os_ReadFile fs) ParseDuration cwd (rawPlane_of tomlPath rt) tomlPath.

(** *** Adding *)

Definition manifest_rel (name : string) : string := filepath_Join ["manifests"; name +:+ ".plugin.yaml"].

(** Write a manifest into the project. *)
Definition write_manifest (fs : files) (dir name content : string) : result files :=
  match os_MkdirAll (filepath_Join [dir; "manifests"]) with
  | Some e => Err e
  | None => os_WriteFile fs (filepath_Join [dir; manifest_rel name]) content
  end.

(** The name and manifest path to record: given, or read from the image or the manifest. *)
Definition add_manifest (fs : files) (dir name : string) (o : addOptions) : result (string * string) * files :=
  let '(r, fs) :=
    if decide (ao_manifest o = "" /\ ao_image o <> "") then
      match ensureImagePresent (ao_image o) with
      | Some e => (Err e, fs)
      | None =>
          match readStampedManifest (ao_image o) with
          | Err e => (Err (Wrap "%s: %w (pass --manifest, or `rat plugin pack` the image to stamp one in)" [ao_image o] e), fs)
          | Ok (m, raw) =>
              let name := if decide (name = "") then name_of m else name in
              match write_manifest fs dir name raw with
              | Err e => (Err e, fs)
              | Ok fs => (Ok (name, manifest_rel name), fs)
              end
          end
      end
    else (Ok (name, ao_manifest o), fs) in
  match r with
  | Err e => (Err e, fs)
  | Ok (name, manifest) =>
      let r := if decide (name = "" /\ manifest <> "") then
                 match Load yaml_Manifest (os_ReadFile fs) (absPath cwd manifest) with
                 | Err e => Err (Wrap "read --manifest %s: %w" [manifest] e)
                 | Ok m => Ok (name_of m)
                 end
               else Ok name in
      match r with
      | Err e => (Err e, fs)
      | Ok name =>
          if decide (name = "") then
            (Err (Errorf "usage: rat add [<name>] --manifest <path> [--image <ref>]  (or `rat add --image <packed-ref>` to read the stamped manifest)" []), fs)
          else if decide (manifest = "") then
            (Err (Errorf "--manifest <path> required (or pass --image a packed image whose manifest is stamped in)" []), fs)
          else (Ok (name, manifest), fs)
      end
  end.

Definition cut_env (kv : string) : result (string * string) :=
  let '(k, v, ok) := Cut "=" kv in
  if ok : bool then Ok (k, v) else Err (Errorf "--env %q must be KEY=VALUE" [kv]).

(** Append the block, unless the name is taken. *)
Definition record_plugin (fs : files) (tomlPath name manifest : string) (o : addOptions) : result files :=
  let? rt := parseProject fs tomlPath in
  if contains (names rt) name then Err (Errorf "plugin %q is already in %s" [name; projectFile])
  else
    let? envs := result_map cut_env (ao_env o) in
    match os_Append fs tomlPath (plugin_block quote_unicode name (ao_image o) manifest (ao_isolation o) envs) with
    | Err e => Err (Wrap "open %s: %w" [projectFile] e)
    | Ok fs => Ok fs
    end.

(** [rat add] without [--with-deps], up to its report. *)
Definition runAdd (fs : files) (tomlPath dir name : string) (o : addOptions) : option error * files :=
  match add_manifest fs dir name o with
  | (Err e, fs) => (Some e, fs)
  | (Ok (name, manifest), fs) =>
      match record_plugin fs tomlPath name manifest o with
      | Err e => (Some e, fs)
      | Ok fs => (None, fs)
      end
  end.

(** *** Removing *)

Definition managedManifest (dir abs : string) : bool :=
  match Rel (filepath_Join [dir; "manifests"]) abs with
  | Ok rel => negb (bool_decide (rel = ".")) && negb (HasPrefix rel "..")
  | Err _ => false
  end.

Definition removePluginBlock (fs : files) (tomlPath name : string) : result files :=
  let? d := os_ReadFile fs tomlPath in
  match remove_block d name with
  | Some kept => os_WriteFile fs tomlPath kept
  | None => Err (Errorf "could not locate the [[plugin]] block for %q in %s" [name; projectFile])
  end.

Definition delete_managed (fs : files) (dir manifestRel : string) : files :=
  let abs := if IsAbs manifestRel then manifestRel else filepath_Join [dir; manifestRel] in
  if managedManifest dir abs && writable abs then delete abs fs else fs.

Definition runRemove (fs : files) (tomlPath dir name : string) (keepManifest : bool) : option error * files :=
  if decide (name = "") then (Some (Errorf "usage: rat remove <name> [--keep-manifest] [--no-live]" []), fs)
  else
    match parseProject fs tomlPath with
    | Err e => (Some e, fs)
    | Ok rt =>
        match List.find (fun p => bool_decide (tp_Name p = name)) (rt_Plugins rt) with
        | None => (Some (Errorf "plugin %q is not in %s (`rat list` to see what is)" [name; projectFile]), fs)
        | Some p =>
            match removePluginBlock fs tomlPath name with
            | Err e => (Some e, fs)
            | Ok fs =>
                (None, if negb keepManifest && negb (bool_decide (tp_Manifest p = ""))
                       then delete_managed fs dir (tp_Manifest p) else fs)
            end
        end
    end.

(** *** Resolving *)

(** [Ok false]: a plugin of that name is already there. *)
Definition addMarketEntry (fs : files) (tomlPath dir : string) (e : marketEntry) : result bool * files :=
  match parseProject fs tomlPath with
  | Err err => (Err err, fs)
  | Ok rt =>
      if contains (names rt) (e_Name e) then (Ok false, fs)
      else
        match write_manifest fs dir (e_Name e) (synthManifest quote_unicode e) with
        | Err err => (Err err, fs)
        | Ok fs =>
            match os_Append fs tomlPath
                    (plugin_block quote_unicode (e_Name e) (e_Image e) (manifest_rel (e_Name e)) "i9" []) with
            | Err err => (Err err, fs)
            | Ok fs => (Ok true, fs)
            end
        end
  end.

(** One round over the missing dependencies; the boolean is [progress]. *)
Fixpoint resolve_round (entries : list marketEntry) (requireSigned : bool) (tomlPath dir : string)
    (progress : bool) (miss : list missingDep) (fs : files) : result bool * files :=
  match miss with
  | [] => (Ok progress, fs)
  | d :: miss =>
      match providerFor entries (dep_Capability d) with
      | None => resolve_round entries requireSigned tomlPath dir progress miss fs
      | Some e =>
          if requireSigned && negb (verified e)
          then resolve_round entries requireSigned tomlPath dir progress miss fs
          else match addMarketEntry fs tomlPath dir e with
               | (Err err, fs) => (Err err, fs)
               | (Ok added, fs) =>
                   resolve_round entries requireSigned tomlPath dir (progress || added) miss fs
               end
      end
  end.

(** [None]: out of fuel.  [Ok miss] is what it leaves unsatisfied. *)
Fixpoint resolveWithDeps (fuel : nat) (entries : list marketEntry) (requireSigned : bool)
    (tomlPath dir : string) (fs : files) : option (result (list missingDep) * files) :=
  match fuel with
  | O => None
  | S n =>
      match LoadProject fs tomlPath with
      | Err e => Some (Err e, fs)
      | Ok pl =>
          let miss := unsatisfiedRequires (manifestsOf pl) in
          if decide (miss = []) then Some (Ok [], fs)
          else match resolve_round entries requireSigned tomlPath dir false miss fs with
               | (Err e, fs) => Some (Err e, fs)
               | (Ok false, fs) => Some (Ok miss, fs)
               | (Ok true, fs) => resolveWithDeps n entries requireSigned tomlPath dir fs
               end
      end
  end.

(** ** What the edits keep

    The project's own file, and the decoder's one assumption: a block appended to a text
    that parses adds the plugin it names, if the longer text parses at all, and keeps the
    plugins that were there. *)
Definition tomlPath (dir : string) : string := filepath_Join [dir; projectFile].

Definition toml_appends : Prop := forall t rt rt' name image manifest isolation envs,
  toml_Unmarshal t = Ok rt ->
  toml_Unmarshal (t +:+ plugin_block quote_unicode name image manifest isolation envs) = Ok rt' ->
  names rt ⊆ names rt' /\ name ∈ names rt'.

Definition known (fs : files) (toml : string) : list string :=
  match parseProject fs toml with Ok rt => names rt | Err _ => [] end.

Lemma write_manifest_other fs dir name content fs' p :
  write_manifest fs dir name content = Ok fs' -> p <> filepath_Join [dir; manifest_rel name] ->
  fs' !! p = fs !! p.
Proof.
  unfold write_manifest, os_WriteFile. destruct (os_MkdirAll _); [done|]. case_match; [|done].
  intros [= <-] Hp. by rw lookup_insert_ne.
Qed.

Lemma os_Append_ok fs p d fs' :
  os_Append fs p d = Ok fs' -> exists t, fs !! p = Some t /\ fs' = <[p := t +:+ d]> fs /\ writable p = true.
Proof.
  unfold os_Append, os_WriteFile. destruct (fs !! p) as [t|]; [|done]. destruct (writable p); [|done].
  intros [= <-]. by exists t.
Qed.

Lemma parseProject_lookup fs fs' toml : fs !! toml = fs' !! toml -> parseProject fs toml = parseProject fs' toml.
Proof. unfold parseProject, os_ReadFile. by intros ->. Qed.

Lemma parseProject_ok fs toml rt :
  parseProject fs toml = Ok rt <-> exists t, fs !! toml = Some t /\ toml_Unmarshal t = Ok rt.
Proof.
  unfold parseProject, os_ReadFile. destruct (fs !! toml) as [t|]; [|by split; [|intros (? & ? & ?)]].
  destruct (toml_Unmarshal t) eqn:E; split.
  - intros [= <-]. by exists t.
  - intros (t' & [= <-] & Ht). by rw -Ht.
  - done.
  - intros (t' & [= <-] & Ht). congruence.
Qed.

Lemma appended_names fs p name image manifest isolation envs fs' rt rt' :
  toml_appends -> os_Append fs p (plugin_block quote_unicode name image manifest isolation envs) = Ok fs' ->
  parseProject fs p = Ok rt -> parseProject fs' p = Ok rt' -> names rt ⊆ names rt' /\ name ∈ names rt'.
Proof.
  intros Ht (t & Hp & -> & _)%os_Append_ok (t1 & H1 & Hrt)%parseProject_ok (t2 & H2 & Hrt')%parseProject_ok.
  rw lookup_insert_eq in H2. simplify_eq. by eapply Ht.
Qed.

(** *** Every edit of the resolver reaches the project file or leaves it *)

Lemma manifest_path_ending dir name :
  is_rooted dir = true -> exists q, filepath_Join [dir; manifest_rel name] = q +:+ ".plugin.yaml".
Proof.
  intros Hd. assert (ending ".plugin.yaml") as He by (split; [done|simpl; lia]).
  assert (exists q, manifest_rel name = q +:+ ".plugin.yaml") as [q ->].
  { unfold manifest_rel, filepath_Join. cbn [skip_empty]. destruct (decide _); [done|].
    change (Join ["manifests"; name +:+ ".plugin.yaml"] "/") with (("manifests/" +:+ name) +:+ ".plugin.yaml").
    by apply Clean_ending. }
  unfold filepath_Join. destruct dir as [|a d]; [done|]. cbn [skip_empty].
  destruct (decide (String a d = "")); [done|].
  change (Join [String a d; q +:+ ".plugin.yaml"] "/") with (String a d +:+ "/" +:+ (q +:+ ".plugin.yaml")).
  rw -!str_app_assoc. by apply Clean_ending.
Qed.

Lemma tomlPath_comps dir : is_rooted dir = true -> comps (parse_path (tomlPath dir)) = comps (parse_path dir) ++ [projectFile].
Proof. intros Hd. by apply comps_Join. Qed.

Lemma manifest_not_toml dir name : is_rooted dir = true -> tomlPath dir <> filepath_Join [dir; manifest_rel name].
Proof.
  intros Hd E. destruct (manifest_path_ending dir name Hd) as [q Hq].
  assert (ending ".plugin.yaml") as He by (split; [done|simpl; lia]).
  destruct (comps_ending _ q He) as (ini & x & Hc). rw -Hq -E tomlPath_comps // in Hc.
  apply app_inj_tail in Hc as [_ Hx]. apply (f_equal String.length) in Hx. rw str_length_app in Hx.
  simpl in Hx. lia.
Qed.

Lemma addMarketEntry_step dir e fs fs' added :
  is_rooted dir = true -> toml_appends ->
  addMarketEntry fs (tomlPath dir) dir e = (Ok added, fs') ->
  exists rt, parseProject fs (tomlPath dir) = Ok rt /\
    if added : bool
    then e_Name e ∉ names rt /\
         forall rt', parseProject fs' (tomlPath dir) = Ok rt' -> names rt ⊆ names rt' /\ e_Name e ∈ names rt'
    else fs' = fs /\ e_Name e ∈ names rt.
Proof.
  intros Hd Ht. unfold addMarketEntry. destruct (parseProject fs _) as [rt|] eqn:Ep; [|done].
  destruct (contains (names rt) (e_Name e)) eqn:Ec.
  { apply contains_elem in Ec. intros [= <- <-]. by exists rt. }
  rw -not_true_iff_false contains_elem in Ec.
  destruct (write_manifest _ _ _ _) as [fs1|] eqn:Ew; [|done].
  destruct (os_Append _ _ _) as [fs2|] eqn:Ea; [|done]. intros [= <- <-]. exists rt. split_and!; [done..|].
  intros rt' Hrt'. eapply appended_names; [done..| |done].
  rw -Ep. apply parseProject_lookup. eapply write_manifest_other; [done|]. by apply manifest_not_toml.
Qed.

(** What no outcome of the resolver touches: the text of rat.toml is only ever extended, and if
    it still parses, its plugins are still there. *)
Record keeps_project (toml : string) (fs fs' : files) : Prop := {
  kp_text : forall t, fs !! toml = Some t -> exists more, fs' !! toml = Some (t +:+ more);
  kp_names : forall rt rt', parseProject fs toml = Ok rt -> parseProject fs' toml = Ok rt' -> names rt ⊆ names rt';
  kp_parsed : fs' !! toml = fs !! toml \/ is_Ok (parseProject fs toml) = true;
}.

Lemma keeps_same toml fs fs' : fs' !! toml = fs !! toml -> keeps_project toml fs fs'.
Proof.
  intros E. constructor; [|rewrite (parseProject_lookup _ _ _ E); by intros rt rt' -> [= <-]|by left].
  intros t Ht. exists "". by rewrite E Ht str_app_nil_r.
Qed.

Lemma keeps_trans toml fs1 fs2 fs3 : keeps_project toml fs1 fs2 -> keeps_project toml fs2 fs3 -> keeps_project toml fs1 fs3.
Proof.
  intros [T1 N1 P1] [T2 N2 P2]. constructor.
  - intros t Ht. destruct (T1 t Ht) as [m1 H1]. destruct (T2 _ H1) as [m2 H2]. exists (m1 +:+ m2). by rewrite H2 str_app_assoc.
  - intros rt rt' H1 H3. destruct P2 as [E|Hp].
    + apply (N1 rt rt' H1). by rewrite -(parseProject_lookup _ _ _ E).
    + destruct (parseProject fs2 toml) as [rt2|] eqn:E2; [|done]. etrans; [by eapply N1|by eapply N2].
  - destruct P1 as [E1|]; [|by right]. destruct P2 as [E2|Hp]; [left; by rewrite E2|right]. by rewrite (parseProject_lookup _ _ _ E1) in Hp.
Qed.

Lemma addMarketEntry_keeps dir e fs r fs' :
  is_rooted dir = true -> toml_appends -> addMarketEntry fs (tomlPath dir) dir e = (r, fs') -> keeps_project (tomlPath dir) fs fs'.
Proof.
  intros Hd Ht. unfold addMarketEntry. destruct (parseProject fs (tomlPath dir)) as [rt|] eqn:Ep; [|intros [= _ <-]; by apply keeps_same].
  destruct (contains (names rt) (e_Name e)); [intros [= _ <-]; by apply keeps_same|].
  destruct (write_manifest _ _ _ _) as [fs1|] eqn:Ew; [|intros [= _ <-]; by apply keeps_same].
  assert (fs1 !! tomlPath dir = fs !! tomlPath dir) as E1 by (eapply write_manifest_other; [done|]; by apply manifest_not_toml).
  destruct (os_Append _ _ _) as [fs2|] eqn:Ea; [|intros [= _ <-]; by apply keeps_same].
  intros [= _ <-]. pose proof (os_Append_ok _ _ _ _ Ea) as (t & Hp & Ef & _). constructor.
  - intros t0 Ht0. rewrite E1 Ht0 in Hp. injection Hp as ->. rewrite Ef. eexists. by rewrite lookup_insert_eq.
  - intros rt1 rt' H1 H2. eapply appended_names; [done..|by rewrite (parseProject_lookup _ _ _ E1)|done].
  - right. by rewrite Ep.
Qed.

(** *** Resolution ends *)

#[local] Set Default Proof Using "Type".

Section Resolution.
Context (dir : string) (entries : list marketEntry) (requireSigned : bool).
Context (Hdir : is_rooted dir = true) (Htoml : toml_appends).
#[local] Set Default Proof Using "Type Hdir Htoml".

(** Why a missing capability is not supplied: no entry offers it, the first that does is
    not acceptable, or its name is already taken in the project. *)
Definition blocked (fs : files) (c : string) : Prop :=
  match providerFor entries c with
  | None => True
  | Some e => (requireSigned = true /\ verified e = false) \/ e_Name e ∈ known fs (tomlPath dir)
  end.

Lemma resolve_round_names miss progress fs pr fs' rt' :
  resolve_round entries requireSigned (tomlPath dir) dir progress miss fs = (Ok pr, fs') ->
  parseProject fs' (tomlPath dir) = Ok rt' ->
  exists rt, parseProject fs (tomlPath dir) = Ok rt /\ names rt ⊆ names rt' /\
    (pr = true -> progress = true \/ exists e, e ∈ entries /\ e_Name e ∉ names rt /\ e_Name e ∈ names rt').
Proof.
  revert progress fs. induction miss as [|d miss IH]; intros progress fs; simpl.
  { intros [= -> ->] Hp. exists rt'. split_and!; [done..|]. by left. }
  destruct (providerFor entries _) as [e|] eqn:Ef; [|apply IH].
  destruct (requireSigned && negb (verified e)); [apply IH|].
  destruct (addMarketEntry _ _ _ _) as [[added|] fs1] eqn:Ea; [|done]. intros Hr Hp.
  destruct (IH _ _ Hr Hp) as (rt1 & Hp1 & Hsub & Hpr).
  apply addMarketEntry_step in Ea as (rt & Hrt & Ha); [|done..].
  destruct added.
  - destruct Ha as [Hn Ha]. destruct (Ha _ Hp1) as [Hs1 Hin]. exists rt. split_and!; [done|by etrans|].
    intros _. right. exists e. split_and!; [by apply providerFor_in in Ef as [? _]|done|by apply Hsub].
  - destruct Ha as [-> _]. rw Hrt in Hp1. injection Hp1 as <-. exists rt. rw orb_false_r in Hpr. done.
Qed.

Lemma resolve_round_progress miss fs fs' :
  resolve_round entries requireSigned (tomlPath dir) dir true miss fs <> (Ok false, fs').
Proof.
  revert fs. induction miss as [|d miss IH]; intros fs; simpl; [done|].
  destruct (providerFor entries _) as [e|]; [|apply IH]. destruct (requireSigned && _); [apply IH|].
  destruct (addMarketEntry _ _ _ _) as [[]]; [apply IH|done].
Qed.

Lemma resolve_round_idle miss fs fs' :
  resolve_round entries requireSigned (tomlPath dir) dir false miss fs = (Ok false, fs') ->
  fs' = fs /\ Forall (fun d => blocked fs (dep_Capability d)) miss.
Proof.
  enough (forall progress, resolve_round entries requireSigned (tomlPath dir) dir progress miss fs = (Ok false, fs') ->
    progress = false /\ fs' = fs /\ Forall (fun d => blocked fs (dep_Capability d)) miss) as H.
  { intros E. by apply H in E as (_ & ? & ?). }
  induction miss as [|d miss IH]; intros progress; simpl; [by intros [= -> ->]|].
  unfold blocked at 1. destruct (providerFor entries _) as [e|] eqn:Ef.
  - destruct (requireSigned && negb (verified e)) eqn:Es.
    + apply andb_true_iff in Es as [Hs Hv%negb_true_iff].
      intros (? & ? & ?)%IH. split_and!; [done..|]. constructor; [|done]. rw Ef. by left.
    + destruct (addMarketEntry _ _ _ _) as [[[]|] fs1] eqn:Ea; [| |done].
      * rw orb_true_r. by intros ?%resolve_round_progress.
      * apply addMarketEntry_step in Ea as (rt & Hrt & -> & Hin); [|done..]. rw orb_false_r.
        intros (? & ? & ?)%IH. split_and!; [done..|]. constructor; [|done]. rw Ef. right.
        unfold known. by rw Hrt.
  - intros (? & ? & ?)%IH. split_and!; [done..|]. constructor; [by rw Ef|done].
Qed.

(** How many entries are still absent from a project that parses. *)
Definition pending (fs : files) : nat :=
  match parseProject fs (tomlPath dir) with
  | Ok rt => length (filter (fun e => e_Name e ∉ names rt) entries)
  | Err _ => O
  end.

Lemma resolve_round_pending miss fs fs' :
  resolve_round entries requireSigned (tomlPath dir) dir false miss fs = (Ok true, fs') -> (0 < pending fs)%nat.
Proof.
  induction miss as [|d miss IH]; simpl; [done|].
  destruct (providerFor entries _) as [e|] eqn:Ef; [|apply IH]. destruct (requireSigned && _); [apply IH|].
  destruct (addMarketEntry _ _ _ _) as [[added|] fs1] eqn:Ea; [|done].
  apply addMarketEntry_step in Ea as (rt & Hrt & Ha); [|done..]. destruct added.
  - intros _. destruct Ha as [Hn _]. unfold pending. rw Hrt. apply providerFor_in in Ef as [Hin _].
    assert (e ∈ filter (fun e => e_Name e ∉ names rt) entries) as Hf by by apply list_elem_of_filter.
    destruct (filter _ entries); [by apply not_elem_of_nil in Hf|simpl; lia].
  - destruct Ha as [-> _]. apply IH.
Qed.

Lemma resolve_round_decreases miss fs fs' :
  resolve_round entries requireSigned (tomlPath dir) dir false miss fs = (Ok true, fs') ->
  (pending fs' < pending fs)%nat.
Proof.
  intros Hr. pose proof (resolve_round_pending _ _ _ Hr) as Hpos. unfold pending in Hpos |- *. destruct (parseProject fs' _) as [rt'|] eqn:Ep; [|done].
  destruct (resolve_round_names _ _ _ _ _ _ Hr Ep) as (rt & Hrt & Hsub & He).
  destruct (He eq_refl) as [?|(e & Hin & Hn & Hy)]; [done|]. rw Hrt.
  apply (filter_length_lt _ _ _ e); [by intros x Hx Hx'; apply Hx, Hsub|done|by intros Hx; apply Hx|done].
Qed.

Lemma resolve_fuel n fs :
  (pending fs < n)%nat -> exists r fs', resolveWithDeps n entries requireSigned (tomlPath dir) dir fs = Some (r, fs').
Proof.
  revert fs. induction n as [|n IH]; intros fs Hn; [lia|]. simpl.
  destruct (LoadProject fs _); [|by eauto]. case_decide; [by eauto|].
  destruct (resolve_round _ _ _ _ _ _ _) as [[[]|] fs1] eqn:Er; [|by eauto..].
  apply IH. apply resolve_round_decreases in Er. lia.
Qed.

(** What the project still requires, nothing in it provides and nothing will supply. *)
Lemma resolve_result n fs miss fs' :
  resolveWithDeps n entries requireSigned (tomlPath dir) dir fs = Some (Ok miss, fs') ->
  exists pl, LoadProject fs' (tomlPath dir) = Ok pl /\ unsatisfiedRequires (manifestsOf pl) = miss /\
    Forall (fun d => blocked fs' (dep_Capability d)) miss.
Proof.
  revert fs. induction n as [|n IH]; intros fs; simpl; [done|].
  destruct (LoadProject fs _) as [pl|] eqn:El; [|done].
  case_decide as Hm; [intros [= <- <-]; by exists pl|].
  destruct (resolve_round _ _ _ _ _ _ _) as [[[]|] fs1] eqn:Er; [by apply IH| |done].
  intros [= <- <-]. apply resolve_round_idle in Er as [-> Hb]. by exists pl.
Qed.

Lemma resolve_round_keeps miss progress fs r fs' :
  resolve_round entries requireSigned (tomlPath dir) dir progress miss fs = (r, fs') -> keeps_project (tomlPath dir) fs fs'.
Proof.
  revert progress fs. induction miss as [|d miss IH]; intros progress fs; simpl; [intros [= _ <-]; by apply keeps_same|].
  destruct (providerFor entries _) as [e|]; [|apply IH]. destruct (requireSigned && _); [apply IH|].
  destruct (addMarketEntry _ _ _ _) as [[added|err] fs1] eqn:Ea; apply addMarketEntry_keeps in Ea; try done.
  - intros H. eapply keeps_trans; [done|by eapply IH].
  - by intros [= _ <-].
Qed.

Lemma resolve_keeps n fs r fs' :
  resolveWithDeps n entries requireSigned (tomlPath dir) dir fs = Some (r, fs') -> keeps_project (tomlPath dir) fs fs'.
Proof.
  revert fs. induction n as [|n IH]; intros fs; simpl; [done|].
  destruct (LoadProject fs _) as [pl|]; [|intros [= _ <-]; by apply keeps_same].
  case_decide; [intros [= _ <-]; by apply keeps_same|].
  destruct (resolve_round _ _ _ _ _ _ _) as [[[]|] fs1] eqn:Er; apply resolve_round_keeps in Er; [|by intros [= _ <-]..].
  intros H2. eapply keeps_trans; [done|by eapply IH].
Qed.

Lemma LoadProject_parses fs pl : LoadProject fs (tomlPath dir) = Ok pl -> exists rt, parseProject fs (tomlPath dir) = Ok rt.
Proof. unfold LoadProject. destruct (parseProject _ _) as [rt|]; [|done]. by exists rt. Qed.

Lemma resolve_names n fs miss fs' :
  resolveWithDeps n entries requireSigned (tomlPath dir) dir fs = Some (Ok miss, fs') ->
  known fs (tomlPath dir) ⊆ known fs' (tomlPath dir).
Proof.
  revert fs. induction n as [|n IH]; intros fs; simpl; [done|].
  destruct (LoadProject fs _) as [pl|] eqn:El; [|done].
  case_decide as Hm; [by intros [= <- <-]|].
  destruct (resolve_round _ _ _ _ _ _ _) as [[[]|] fs1] eqn:Er; [| |done].
  - intros Hr. pose proof (resolve_result _ _ _ _ Hr) as (pl' & Hl & _).
    apply LoadProject_parses in Hl as [rt' Hrt'].
    assert (exists rt1, parseProject fs1 (tomlPath dir) = Ok rt1) as [rt1 Hrt1].
    { destruct n; [done|]. simpl in Hr. destruct (LoadProject fs1 _) eqn:E1; [|done]. by eapply LoadProject_parses. }
    destruct (resolve_round_names _ _ _ _ _ _ Er Hrt1) as (rt & Hrt & Hsub & _).
    etrans; [|by apply IH]. unfold known. by rw Hrt Hrt1.
  - intros [= <- <-]. by apply resolve_round_idle in Er as [-> _].
Qed.
End Resolution.

Lemma provided_spec ms c : provided ms c = true <-> exists m, m ∈ ms /\ c ∈ Manifest_ProvidesCaps m.
Proof.
  unfold provided. rw existsb_exists. by setoid_rewrite contains_elem; setoid_rewrite list_elem_of_In.
Qed.

Lemma unsatisfied_spec ms n c :
  mkDep n c ∈ unsatisfiedRequires ms <->
  exists m, m ∈ ms /\ name_of m = n /\ c ∈ Manifest_RequiresCaps m /\
    ~ exists p, p ∈ ms /\ c ∈ Manifest_ProvidesCaps p.
Proof.
  setoid_rewrite <-provided_spec. unfold unsatisfiedRequires. generalize (provided ms) as prov. intros prov.
  induction ms as [|m ms IH]; simpl; [split; [by intros ?%not_elem_of_nil|by intros (? & ?%not_elem_of_nil & _)]|].
  rw elem_of_app IH list_elem_of_fmap. split.
  - intros [(c' & [= -> ->] & Hc)|(m' & ? & H)]; [|exists m'; split; [by right|done]].
    apply list_elem_of_In, filter_In in Hc as [Hc%list_elem_of_In Hp%negb_true_iff].
    exists m. split_and!; [left|done|done|congruence].
  - intros (m' & Hm & Hn & Hc & Hp). apply elem_of_cons in Hm as [->|Hm]; [left|right; by exists m'].
    exists c. split; [by rw Hn|]. apply list_elem_of_In, filter_In. rw -list_elem_of_In negb_true_iff.
    split; [done|by apply not_true_iff_false].
Qed.

(** C25: Resolving dependencies always ends, after at most one round more than there are entries.
    Whatever the outcome, an error included, the text of rat.toml is kept and at most extended,
    and if it still parses it has every plugin it had (given that a block appended to it adds
    a plugin and keeps the others).  When it does not fail the project loads with all its
    plugins, and every capability that a plugin of it requires is provided in it, or nothing
    acceptable supplies it: no entry, an unsigned first entry where signatures are demanded,
    or an entry whose name the project already uses. *)
Theorem resolveWithDeps_settles (dir : string) (entries : list marketEntry) (requireSigned : bool) (fs : files) :
  is_rooted dir = true -> toml_appends ->
  exists r fs',
    resolveWithDeps (S (length entries)) entries requireSigned (tomlPath dir) dir fs = Some (r, fs') /\
    (forall t, fs !! filepath_Join [dir; "rat.toml"] = Some t ->
       exists more, fs' !! filepath_Join [dir; "rat.toml"] = Some (t +:+ more) /\
       forall rt rt', toml_Unmarshal t = Ok rt -> toml_Unmarshal (t +:+ more) = Ok rt' ->
         (tp_Name <$> rt_Plugins rt) ⊆ (tp_Name <$> rt_Plugins rt')) /\
    forall miss, r = Ok miss ->
      known fs (tomlPath dir) ⊆ known fs' (tomlPath dir) /\
      exists pl, LoadProject fs' (tomlPath dir) = Ok pl /\
        forall m c, m ∈ (sp_Manifest <$> pl_Specs pl) -> c ∈ (Capability <$> Requires m) ->
          (exists p, p ∈ (sp_Manifest <$> pl_Specs pl) /\ c ∈ (Capability <$> Provides p)) \/
          blocked dir entries requireSigned fs' c.
Proof.
  intros Hd Ht.
  destruct (resolve_fuel dir entries requireSigned Hd Ht (S (length entries)) fs) as (r & fs' & Hr).
  { unfold pending. destruct (parseProject _ _); [|lia]. pose proof (length_filter (fun e => e_Name e ∉ names a) entries). lia. }
  exists r, fs'. split; [done|]. split.
  - destruct (resolve_keeps dir entries requireSigned Hd Ht _ _ _ _ Hr) as [T N _]. intros t Hft.
    destruct (T t Hft) as [more Hm]. exists more. split; [done|]. intros rt rt' H1 H2.
    apply (N rt rt'); apply parseProject_ok; [by exists t|by exists (t +:+ more)].
  - intros miss ->. split; [by eapply resolve_names|]. apply resolve_result in Hr as (pl & Hl & Hm & Hb); [|done..].
    exists pl. split; [done|]. intros m c Hin Hc.
    destruct (provided (manifestsOf pl) c) eqn:Ep; [left; by apply provided_spec|right].
    assert (mkDep (name_of m) c ∈ miss) as Hmiss.
    { rw -Hm unsatisfied_spec. exists m. split_and!; [done..|]. rewrite <-provided_spec. by rw Ep. }
    rewrite Forall_forall in Hb. by apply Hb in Hmiss.
Qed.

(** *** Removing touches nothing else *)

Lemma managedManifest_inside dir abs :
  managedManifest dir abs = true -> inside (parse_path (filepath_Join [dir; "manifests"])) (parse_path abs).
Proof.
  unfold managedManifest. destruct (Rel _ _) as [rel|] eqn:E; [|done].
  intros [_ Hp%negb_true_iff]%andb_true_iff. apply Rel_inside in E; [done|].
  unfold climbs. apply orb_false_iff. split.
  - apply bool_decide_eq_false. by intros ->.
  - apply not_true_iff_false. intros [r ->]%HasPrefix_true. change ("../" +:+ r) with (".." +:+ ("/" +:+ r)) in Hp.
    by rw HasPrefix_app in Hp.
Qed.

Definition manifests_tree (dir p : string) : Prop :=
  inside (parse_path (filepath_Join [dir; "manifests"])) (parse_path p).

Lemma delete_managed_change fs dir rel p :
  delete_managed fs dir rel !! p <> fs !! p ->
  delete_managed fs dir rel !! p = None /\ manifests_tree dir p.
Proof.
  unfold delete_managed. set (abs := if IsAbs _ then _ else _).
  destruct (managedManifest dir abs && writable abs) eqn:Em; [|done].
  apply andb_true_iff in Em as [Hin%managedManifest_inside _]. intros Hp.
  destruct (decide (p = abs)) as [->|Hpa]; [by rw lookup_delete_eq|]. by rw lookup_delete_ne in Hp.
Qed.

Lemma delete_managed_toml fs dir rel :
  is_rooted dir = true -> delete_managed fs dir rel !! tomlPath dir = fs !! tomlPath dir.
Proof.
  intros Hd. destruct (decide (delete_managed fs dir rel !! tomlPath dir = fs !! tomlPath dir)) as [|Hn]; [done|].
  exfalso. apply delete_managed_change in Hn as [_ (_ & rest & Hc & _)].
  rw (tomlPath_comps dir Hd) comps_Join // -app_assoc in Hc. by apply app_inv_head in Hc.
Qed.

Lemma runRemove_success dir name keep fs t kept rt :
  is_rooted dir = true -> name <> "" -> writable (tomlPath dir) = true ->
  fs !! tomlPath dir = Some t -> toml_Unmarshal t = Ok rt -> name ∈ names rt -> remove_block t name = Some kept ->
  exists fs', runRemove fs (tomlPath dir) dir name keep = (None, fs') /\ fs' !! tomlPath dir = Some kept /\
    forall p, p <> tomlPath dir -> fs' !! p <> fs !! p -> fs' !! p = None /\ manifests_tree dir p.
Proof.
  intros Hd Hn Hw Hfs Ht Hin Hk. unfold runRemove. rw decide_False //.
  assert (parseProject fs (tomlPath dir) = Ok rt) as -> by (apply parseProject_ok; by exists t).
  destruct (List.find _ _) as [q|] eqn:Eq.
  2:{ exfalso. apply list_elem_of_fmap in Hin as (q & -> & Hq%list_elem_of_In).
      apply (find_none _ _ Eq) in Hq. by rw bool_decide_true in Hq. }
  unfold removePluginBlock, os_ReadFile, os_WriteFile. rw Hfs /= Hk Hw. eexists. split; [reflexivity|].
  destruct (negb keep && _).
  - rw delete_managed_toml // lookup_insert_eq. split; [done|]. intros p Hp Hc.
    apply delete_managed_change. by rw lookup_insert_ne.
  - rw lookup_insert_eq. split; [done|]. intros p Hp. by rw lookup_insert_ne.
Qed.

(** [rat remove] either fails and changes no file, or changes the project file alone and
    deletes at most a file that lies inside the project's manifests directory, which the
    project file itself does not. *)
Theorem runRemove_confined (dir name : string) (keepManifest : bool) (fs fs' : files) (e : option error) :
  is_rooted dir = true -> runRemove fs (tomlPath dir) dir name keepManifest = (e, fs') ->
  (e <> None -> fs' = fs) /\
  (e = None -> is_Some (fs' !! tomlPath dir)) /\
  forall p, fs' !! p <> fs !! p ->
    p = tomlPath dir \/
    (fs' !! p = None /\ inside (parse_path (filepath_Join [dir; "manifests"])) (parse_path p)).
Proof.
  intros Hd. unfold runRemove. case_decide; [by intros [= <- <-]|].
  destruct (parseProject _ _) as [rt|]; [|by intros [= <- <-]].
  destruct (List.find _ _) as [q|]; [|by intros [= <- <-]].
  unfold removePluginBlock. destruct (os_ReadFile _ _) as [t|]; [|by intros [= <- <-]]. simpl.
  destruct (remove_block t name) as [kept|]; [|by intros [= <- <-]].
  unfold os_WriteFile. destruct (writable (tomlPath dir)); [|by intros [= <- <-]]. intros [= <- <-].
  split; [done|]. set (fs1 := <[tomlPath dir := kept]> fs).
  assert (forall p, fs1 !! p <> fs !! p -> p = tomlPath dir) as H1.
  { intros p Hp. destruct (decide (p = tomlPath dir)); [done|]. by unfold fs1 in Hp; rw lookup_insert_ne in Hp. }
  assert (is_Some (fs1 !! tomlPath dir)) as H2 by (unfold fs1; by rw lookup_insert_eq).
  destruct (negb keepManifest && _); [|split; [done|]; by intros p ?%H1; left].
  split; [by rw delete_managed_toml|]. intros p Hp.
  destruct (decide (fs1 !! p = fs !! p)) as [E|E]; [right|left; by apply H1].
  apply delete_managed_change. by rw E.
Qed.

(** Adding a plugin and removing it again gives the project file back, but for its last
    newline, whatever the plugin's image, manifest and environment; the only other change
    left is a deleted manifest.  (Removing takes the newline for the blank line that
    adding put before the block.) *)
Theorem add_then_remove (dir name u t1 : string) (o : addOptions) (keepManifest : bool)
    (fs fs1 : files) (rt1 : ratToml) :
  is_rooted dir = true -> (forall s, no_byte nl (quote_unicode s) = true) -> toml_appends ->
  name <> "" -> str_forall plain_byte name = true ->
  ao_manifest o <> "" -> Forall (fun kv => no_byte nl kv = true) (ao_env o) ->
  fs !! tomlPath dir = Some (u +:+ String nl "") -> remove_block (u +:+ String nl "") name = None ->
  runAdd fs (tomlPath dir) dir name o = (None, fs1) ->
  fs1 !! tomlPath dir = Some t1 -> toml_Unmarshal t1 = Ok rt1 ->
  exists fs2, runRemove fs1 (tomlPath dir) dir name keepManifest = (None, fs2) /\
    fs2 !! tomlPath dir = Some u /\
    forall p, p <> tomlPath dir -> fs2 !! p <> fs !! p -> fs2 !! p = None /\ manifests_tree dir p.
Proof.
  intros Hd Hq Ht Hn Hp Hm Hkv Hfs Hno. unfold runAdd, add_manifest.
  do 2 (rw decide_False; [|by intros []]). rw !decide_False //.
  unfold record_plugin. destruct (parseProject fs _) as [rt|] eqn:Erp; [|done]. simpl.
  destruct (contains _ _); [done|]. destruct (result_map cut_env (ao_env o)) as [envs|] eqn:Ee; [|done]. simpl.
  destruct (os_Append _ _ _) as [fs1'|] eqn:Ea; [|done]. intros [= <-] Ht1 Hrt1.
  assert (parseProject fs1' (tomlPath dir) = Ok rt1) as Hp1 by (apply parseProject_ok; by exists t1).
  destruct (appended_names _ _ _ _ _ _ _ _ _ _ Ht Ea Erp Hp1) as [_ Hin].
  apply os_Append_ok in Ea as (t & Hft & -> & Hw). rw Hfs in Hft. injection Hft as <-.
  rw lookup_insert_eq in Ht1. injection Ht1 as <-.
  assert (keys_ok envs) as Hk.
  { apply result_map_Forall2 in Ee. clear -Ee Hkv. induction Ee as [|kv [k v] kvs envs Hc _ IH]; [constructor|].
    inversion Hkv as [|?? Hl Hkv']; subst. constructor; [|by apply IH]. unfold cut_env in Hc.
    destruct (Cut "=" kv) as [[k' v'] []] eqn:E; [|done]. injection Hc as <- <-.
    apply Cut_spec in E as [-> _]. rw no_byte_app in Hl. by apply andb_true_iff in Hl as [? _]. }
  pose proof (remove_block_appended quote_unicode Hq u name (ao_image o) (ao_manifest o) (ao_isolation o) envs Hp Hk Hno) as Hrb.
  match type of Hrb with remove_block ?t _ = _ =>
    destruct (runRemove_success dir name keepManifest (<[tomlPath dir := t]> fs) t u rt1) as (fs2 & H1 & H2 & H3) end;
    [by rw ?lookup_insert_eq..|].
  exists fs2. split_and!; [done..|]. intros p Hpt Hc. apply H3; [done|]. by rw lookup_insert_ne.
Qed.
End Commands.

(** ** Two edits that go wrong *)

Definition toy_quote (s : string) : string := "".

Definition demo_project : string :=
  unlines ["name    = " +:+ dq +:+ "lab" +:+ dq; "runtime = " +:+ dq +:+ "podman" +:+ dq].

(** The block to remove is found by a line that assigns the name, and the environment of
    another plugin can hold such a line: removing the plugin [state] takes out the block of
    [web], which was added with [--env name=state], and leaves the one of [state]. *)
Theorem remove_takes_another_block :
  let web := plugin_block toy_quote "web" "rat/web:1" "manifests/web.yaml" "i9" [("name", "state")] in
  let state := plugin_block toy_quote "state" "rat/state:1" "manifests/state.yaml" "i9" [] in
  remove_block (demo_project +:+ web +:+ state) "state" =
  Some (TrimSuffix demo_project (String nl "") +:+ state).
Proof. vm_compute. reflexivity. Qed.

(** The name of a marketplace entry is not checked: the manifest written for it can land
    outside the project. *)
Theorem entry_name_leaves_the_project :
  filepath_Join ["/home/me/lab"; manifest_rel "../../evil"] = "/home/me/evil.plugin.yaml".
Proof. vm_compute. reflexivity. Qed.

(** ** At concrete files

    A decoder for the lines this library writes, with plain names. *)
Definition toy_line (l : string) : result (option string) :=
  match expect ("name     = " +:+ dq) l with
  | None => if HasPrefix l "name     = " then Err (Errorf "bad name" []) else Ok None
  | Some r =>
      match Cut (byte_of 34) r with
      | (x, "", true) => if str_forall plain_byte x then Ok (Some x) else Err (Errorf "bad name" [])
      | _ => Err (Errorf "bad name" [])
      end
  end.
Definition toy_plugin (n : string) : ratTomlPlugin :=
  mkTomlPlugin n ("rat/" +:+ n) ("manifests/" +:+ n +:+ ".plugin.yaml") "" "i9" ∅.
Definition toy_toml (t : string) : result ratToml :=
  let? ns := result_map toy_line (Split nl t) in
  Ok (mkToml "lab" "podman" "" "" (toy_plugin <$> omap id ns)).

Lemma quote_byte_plain a : str_forall plain_byte (quote_byte a) = plain_byte a.
Proof. destruct a as [[] [] [] [] [] [] [] []]; reflexivity. Qed.
Lemma quote_bytes_plain_iff s : str_forall plain_byte (quote_bytes s) = str_forall plain_byte s.
Proof. induction s as [|a s IH]; [done|]. simpl. by rw str_forall_app quote_byte_plain IH. Qed.

Lemma plain_no_dq s : str_forall plain_byte s = true -> no_byte (byte_of 34) s = true.
Proof. intros H. by eapply str_forall_no_byte. Qed.

Lemma toy_line_quote name r :
  toy_line ("name     = " +:+ Quote toy_quote name) = Ok r -> r = Some name.
Proof.
  unfold toy_line, Quote. destruct (str_forall is_ascii name); [|done].
  rw -(str_app_assoc "name     = ").
  assert (expect ("name     = " +:+ dq) (("name     = " +:+ dq) +:+ quote_bytes name +:+ dq) = Some (quote_bytes name +:+ dq)) as ->
    by by apply expect_spec.
  destruct (Cut (byte_of 34) (quote_bytes name +:+ dq)) as [[x rest] ok] eqn:E.
  destruct ok; [|by destruct rest]. destruct rest; [|done].
  destruct (str_forall plain_byte x) eqn:Ex; [|done]. intros [= <-]. f_equal.
  apply Cut_spec in E as [E _]. change (String (byte_of 34) "") with dq in E.
  assert (quote_bytes name = x) as Hx.
  { apply (f_equal str_rev) in E. rw !str_rev_app_distr in E. change (str_rev dq) with dq in E.
    apply str_app_inj_r in E. by rw -(str_rev_involutive (quote_bytes name)) E str_rev_involutive. }
  rw -Hx quote_bytes_plain_iff in Ex. by apply quote_bytes_plain in Ex as [? _]; congruence.
Qed.

Lemma result_map_app {A B} (f : A -> result B) l1 l2 ys :
  result_map f (l1 ++ l2) = Ok ys <->
  exists y1 y2, result_map f l1 = Ok y1 /\ result_map f l2 = Ok y2 /\ ys = y1 ++ y2.
Proof.
  setoid_rewrite result_map_Forall2. split.
  - intros (y1 & y2 & ? & ? & ->)%Forall2_app_inv_l. by exists y1, y2.
  - intros (y1 & y2 & ? & ? & ->). by apply Forall2_app.
Qed.

Lemma toy_toml_names t rt : toy_toml t = Ok rt -> exists ns, result_map toy_line (Split nl t) = Ok ns /\ names rt = omap id ns.
Proof.
  unfold toy_toml. destruct (result_map _ _) as [ns|]; [|done]. intros [= <-]. exists ns. split; [done|].
  unfold names. simpl. rw -list_fmap_compose. by apply list_fmap_id.
Qed.

Lemma toy_appends : toml_appends toy_quote toy_toml.
Proof.
  intros t rt rt' name image manifest isolation envs (ns & Hns & ->)%toy_toml_names (ns' & Hns' & ->)%toy_toml_names.
  unfold plugin_block in Hns'. rw Split_sep in Hns'.
  apply result_map_app in Hns' as (y1 & y2 & H1 & H2 & ->). rw Hns in H1. injection H1 as <-. rw omap_app.
  split; [by intros x Hx; apply elem_of_app; left|].
  apply elem_of_app. right. unfold plugin_lines in H2.
  change (unlines (["[[plugin]]"; "name     = " +:+ Quote toy_quote name] ++ ?l))
    with ("[[plugin]]" +:+ String nl (("name     = " +:+ Quote toy_quote name) +:+ String nl (unlines l))) in H2.
  assert (no_byte nl ("name     = " +:+ Quote toy_quote name) = true) as Hnl by (rw no_byte_app; by apply Quote_nl).
  rw !Split_app // in H2.
  apply result_map_Forall2, Forall2_cons_inv_l in H2 as (r1 & y3 & _ & H2 & ->).
  apply Forall2_cons_inv_l in H2 as (r2 & y4 & H2 & _ & ->).
  apply toy_line_quote in H2 as ->. apply list_elem_of_omap. exists (Some name). split; [right; left|done].
Qed.

(** A decoder for the manifests [synthManifest] writes. *)
Definition value_after (p : string) (ls : list string) : string := default "" (head (omap (expect p) ls)).
Fixpoint caps_after (on : bool) (title : string) (ls : list string) : list CapabilityRef :=
  match ls with
  | [] => []
  | l :: ls' =>
      match expect "  - capability: " l with
      | Some c => if on then mkRef c :: caps_after on title ls' else caps_after on title ls'
      | None => caps_after (bool_decide (l = title)) title ls'
      end
  end.
Definition toy_yaml (d : string) : result Manifest :=
  let ls := Split nl d in
  Ok (mkManifest "rat.dev/v1" (value_after "kind: " ls) (mkMetadata (value_after "  name: " ls) "0.0" ∅) []
        (caps_after false "provides:" ls) (caps_after false "requires:" ls) []
        (mkResources (mkQuantities "" "") (mkQuantities "" "")) [] (mkContributes []) "").

Definition demo_entry (name : string) (provides requires : list string) (v : bool) : marketEntry :=
  mkEntry name "strategy" ("rat/" +:+ name) "" provides requires "" "official" v.
Definition demo_entries : list marketEntry :=
  [demo_entry "scheduler" ["rat://scheduler/v1/run"] ["rat://state/v1/get"] true;
   demo_entry "state" ["rat://state/v1/get"] ["rat://secret/v1/resolve"; "rat://audit/v1/append"] true;
   demo_entry "secret" ["rat://secret/v1/resolve"] [] true;
   demo_entry "audit" ["rat://audit/v1/append"] [] false].
Definition demo_dir : string := "/home/me/lab".
Definition demo_files : files :=
  {[tomlPath demo_dir := demo_project +:+ plugin_block toy_quote "web" "rat/web" "manifests/web.plugin.yaml" "i9" [];
    "/home/me/lab/manifests/web.plugin.yaml" :=
      synthManifest toy_quote (demo_entry "web" [] ["rat://scheduler/v1/run"] false)]}.

Definition demo_LoadProject (fs : files) :=
  LoadProject toy_toml (fun _ => None) toy_yaml (fun _ => Ok 0) "/" fs (tomlPath demo_dir).

Lemma resolveWithDeps_settles_witness :
  exists miss fs',
    resolveWithDeps toy_quote toy_toml (fun _ => None) toy_yaml (fun _ => Ok 0) "/" (fun _ => true)
      5 demo_entries true (tomlPath demo_dir) demo_dir demo_files = Some (Ok miss, fs') /\
    miss = [mkDep "state" "rat://audit/v1/append"] /\
    known toy_toml fs' (tomlPath demo_dir) = ["web"; "scheduler"; "state"; "secret"] /\
    exists pl, demo_LoadProject fs' = Ok pl.
Proof.
  destruct (resolveWithDeps_settles toy_quote toy_toml (fun _ => None) toy_yaml (fun _ => Ok 0) "/" (fun _ => true)
              demo_dir demo_entries true demo_files eq_refl toy_appends) as (r & fs' & Hr & H).
  match type of Hr with ?run = _ =>
    assert ((r ← run; Some (r.1, known toy_toml r.2 (tomlPath demo_dir))) =
      Some (Ok [mkDep "state" "rat://audit/v1/append"], ["web"; "scheduler"; "state"; "secret"])) as Hc
      by (vm_compute; reflexivity) end.
  rewrite Hr in Hc. injection Hc as -> Hk. destruct H as (_ & H). destruct (H _ eq_refl) as (_ & pl & Hpl & _).
  eexists _, fs'. split_and!; [exact Hr|reflexivity|exact Hk|by exists pl].
Defined.

Lemma runRemove_confined_witness :
  exists fs',
    runRemove toy_toml (fun _ => true) demo_files (tomlPath demo_dir) demo_dir "web" false = (None, fs') /\
    is_Some (fs' !! tomlPath demo_dir) /\ fs' !! "/home/me/lab/manifests/web.plugin.yaml" = None.
Proof.
  destruct (runRemove toy_toml (fun _ => true) demo_files (tomlPath demo_dir) demo_dir "web" false) as [e fs'] eqn:E.
  destruct (runRemove_confined toy_toml (fun _ => true) demo_dir "web" false demo_files fs' e eq_refl E) as (_ & H & _).
  match type of E with ?run = _ =>
    assert ((run.1, run.2 !! "/home/me/lab/manifests/web.plugin.yaml") = (None, None)) as Hc
      by (vm_compute; reflexivity) end.
  rewrite E in Hc. injection Hc as -> Hm. exists fs'. split_and!; [reflexivity|by apply H|exact Hm].
Defined.

Definition demo_add : addOptions := mkAdd "rat/state" "manifests/state.yaml" "i9" ["MODE=fast"].
Definition demo_header : string := TrimSuffix (default "" (demo_files !! tomlPath demo_dir)) (String nl "").

Lemma add_then_remove_witness :
  exists fs1 fs2,
    runAdd toy_quote toy_toml toy_yaml "/" (fun _ => true) (fun _ => None) (fun _ => Err EOF)
      demo_files (tomlPath demo_dir) demo_dir "state" demo_add = (None, fs1) /\
    runRemove toy_toml (fun _ => true) fs1 (tomlPath demo_dir) demo_dir "state" true = (None, fs2) /\
    fs2 !! tomlPath demo_dir = Some demo_header.
Proof.
  destruct (runAdd toy_quote toy_toml toy_yaml "/" (fun _ => true) (fun _ => None) (fun _ => Err EOF)
      demo_files (tomlPath demo_dir) demo_dir "state" demo_add) as [e fs1] eqn:E.
  match type of E with ?run = _ =>
    assert ((run.1, is_Ok (parseProject toy_toml run.2 (tomlPath demo_dir))) = (None, true)) as Hc
      by (vm_compute; reflexivity) end.
  rewrite E in Hc. injection Hc as -> Hp. simpl in Hp.
  destruct (parseProject toy_toml fs1 (tomlPath demo_dir)) as [rt1|] eqn:Ep; [|done].
  apply parseProject_ok in Ep as (t1 & Ht1 & Hrt1).
  destruct (add_then_remove toy_quote toy_toml toy_yaml "/" (fun _ => true) (fun _ => None) (fun _ => Err EOF)
      demo_dir "state" demo_header t1 demo_add true demo_files fs1 rt1 eq_refl (fun _ => eq_refl) toy_appends)
    as (fs2 & H1 & H2 & _).
  - done.
  - reflexivity.
  - done.
  - by repeat constructor.
  - vm_compute. reflexivity.
  - vm_compute. reflexivity.
  - exact E.
  - exact Ht1.
  - exact Hrt1.
  - by exists fs1, fs2.
Defined.
