(* ===== verification/Validate.v ===== *)
(** The static preflight (src/core/cmd/rat/validate.go), the axes and kinds it refers to
    (plugin.go, capabilities.go), and the checks of [rat plugin check]. *)
From S2P Require Import Prelude Paths Manifest Registry DeployRuntime Supervisor Plane Marketplace Project.

(** ** Kinds and axes *)

Definition knownKinds : gset string :=
  list_to_set ["engine"; "runtime"; "format"; "strategy"; "catalog"; "storage"; "deployment-runtime";
    "state-backend"; "secret-backend"; "scheduler-backend"; "identity"; "tenancy"; "billing";
    "observability"; "audit-log"; "ui"; "notifications"; "marketplace"].

Definition kindProvides : gmap string (list string) :=
  {["state-backend" := ["rat://state/v1/get"; "rat://state/v1/put"; "rat://state/v1/list"];
    "secret-backend" := ["rat://secret/v1/resolve"];
    "strategy" := ["rat://strategy/v1/apply"];
    "engine" := ["rat://engine/v1/execute"];
    "storage" := ["rat://storage/v1/vend-credentials"; "rat://storage/v1/vend-credentials-read";
                  "rat://storage/v1/vend-credentials-write"]]}.

Definition builtinVerbs : gset string :=
  list_to_set ["help"; "serve"; "up"; "down"; "status"; "hub"; "ls"; "init"; "add"; "remove"; "rm";
    "call"; "apply"; "version"; "ui"; "plugin"; "search"; "list"; "marketplace"; "market"; "context";
    "ctx"; "validate"; "capabilities"; "caps"].

Definition kindToAxis : gmap string string :=
  {["state-backend" := "state"; "secret-backend" := "secret"; "scheduler-backend" := "scheduler";
    "audit-log" := "auditlog"; "deployment-runtime" := "deploymentruntime"]}.

Definition axisForKind (kind : string) : string := default kind (kindToAxis !! kind).

Definition capAxisOf (cap : string) : string :=
  let '(axis, _, ok) := Cut "/" (TrimPrefix cap "rat://") in if ok : bool then axis else "".

Definition plural (n : nat) : string := if (n =? 1)%nat then "y" else "ies".

(** The warnings, one for each requirement that nothing provides: on the terminal under a
    heading, and in the daemon's log. *)
Definition reportUnsatisfied (miss : list missingDep) : list message :=
  match miss with
  | [] => []
  | _ => ("⚠ %d unsatisfied dependenc%s (a `requires` no plugin in this project provides):", [itoa (Z.of_nat (length miss)); plural (length miss)]) ::
         ((fun d => ("   %s requires %s — no provider (add a %s-axis plugin)", [dep_Plugin d; dep_Capability d; capAxisOf (dep_Capability d)])) <$> miss)
  end.
Definition logUnsatisfied (ms : list Manifest) : list message :=
  (fun d => ("⚠ unsatisfied: %s requires %s — no provider in the plane (add a %s-axis plugin)",
             [dep_Plugin d; dep_Capability d; capAxisOf (dep_Capability d)])) <$> unsatisfiedRequires ms.

Definition kindAxis (kind : string) : string :=
  match kindProvides !! kind with
  | Some (c :: _) => capAxisOf c
  | _ => ""
  end.

(** ** Linked descriptors

    The methods of the generated code that a rat links, in the order they are ranged over:
    the capability annotation (empty when there is none), the method path, and the full
    names of the request and response messages. *)
Record Rpc := mkRpc { rpc_Capability : string; rpc_Path : string; rpc_In : string; rpc_Out : string }.

(** Field kinds of protobuf reflection. *)
Inductive kind : Set :=
  | BoolKind | EnumKind | Int32Kind | Sint32Kind | Uint32Kind | Int64Kind | Sint64Kind | Uint64Kind
  | Sfixed32Kind | Fixed32Kind | FloatKind | Sfixed64Kind | Fixed64Kind | DoubleKind
  | StringKind | BytesKind | MessageKind | GroupKind.
#[export] Instance kind_eq_dec : EqDecision kind.
Proof. solve_decision. Defined.

Definition kind_String (k : kind) : string :=
  match k with
  | BoolKind => "bool" | EnumKind => "enum" | Int32Kind => "int32" | Sint32Kind => "sint32"
  | Uint32Kind => "uint32" | Int64Kind => "int64" | Sint64Kind => "sint64" | Uint64Kind => "uint64"
  | Sfixed32Kind => "sfixed32" | Fixed32Kind => "fixed32" | FloatKind => "float"
  | Sfixed64Kind => "sfixed64" | Fixed64Kind => "fixed64" | DoubleKind => "double"
  | StringKind => "string" | BytesKind => "bytes" | MessageKind => "message" | GroupKind => "group"
  end.

(** A field: its name, its kind, whether it is repeated (a list or a map), and the name of
    its message type when it has one. *)
Record FieldDescriptor := mkField {
  fd_Name : string;
  fd_Kind : kind;
  fd_List : bool;
  fd_Message : string;
}.

Section Linked.
Context (linked : list Rpc).
(** The fields of a message type. *)
Context (fields_of : string -> list FieldDescriptor).

Definition resolveMethod (capURI : string) : result Rpc :=
  match List.find (fun m => bool_decide (rpc_Capability m = capURI)) linked with
  | Some m => Ok m
  | None => Err (Errorf "capability %q not declared by any linked axis" [capURI])
  end.

(** Is the axis among [linkedAxes]? *)
Definition linkedAxes (axis : string) : bool :=
  existsb (fun m => negb (bool_decide (rpc_Capability m = "")) &&
                    bool_decide (capAxisOf (rpc_Capability m) = axis)) linked && negb (bool_decide (axis = "")).

Definition ByName (md : string) (name : string) : option FieldDescriptor :=
  List.find (fun fd => bool_decide (fd_Name fd = name)) (fields_of md).

(** A dotted path, already split. *)
Fixpoint path_exists (md : string) (parts : list string) : bool :=
  match parts with
  | [] => true
  | p :: ps =>
      match ByName md p with
      | None => false
      | Some fd =>
          match ps with
          | [] => true
          | _ => if decide (fd_Kind fd = MessageKind) then path_exists (fd_Message fd) ps else false
          end
      end
  end.
Definition fieldPathExists (md path : string) : bool := path_exists md (Split "." path).

(** ** The authoring gate *)

(** One contributed command; [None] is the index panic on a name made of spaces. *)
Definition validateCommand (m : Manifest) (c : Command) : option (option error) :=
  if bool_decide (cmd_Name c = "") || bool_decide (cmd_Capability c = "") then
    Some (Some (Errorf "check failed: %s contributes a command missing name or capability" [name_of m]))
  else
    match Fields (cmd_Name c) with
    | [] => None
    | f :: _ =>
        if decide (f ∈ builtinVerbs) then
          Some (Some (Errorf "check failed: %s command %q shadows the built-in verb %q" [name_of m; cmd_Name c; f]))
        else if negb (linkedAxes (capAxisOf (cmd_Capability c))) then Some None
        else
          match resolveMethod (cmd_Capability c) with
          | Err _ => Some (Some (Errorf "check failed: %s command %q → %q is not a real capability"
                                   [name_of m; cmd_Name c; cmd_Capability c]))
          | Ok rpc =>
              Some (first_error ((fun a =>
                if fieldPathExists (rpc_In rpc) (arg_Field a) then None
                else Some (Errorf "check failed: %s command %q arg %q maps to field %q absent on %s"
                             [name_of m; cmd_Name c; arg_Name a; arg_Field a; rpc_In rpc])) <$> cmd_Args c))
          end
    end.

Fixpoint validateCommands_from (m : Manifest) (cs : list Command) : option (option error) :=
  match cs with
  | [] => Some None
  | c :: cs =>
      e ← validateCommand m c;
      match e with
      | Some e => Some (Some e)
      | None => validateCommands_from m cs
      end
  end.
Definition validateCommands (m : Manifest) : option (option error) := validateCommands_from m (Commands (Contrib m)).

Definition validateAuthored (m : Manifest) : option error :=
  if decide (Provides m = [] /\ Requires m = []) then
    Some (Errorf "check failed: %s declares neither `provides` nor `requires` — a plugin must do something (a provider provides capabilities; a driver requires them; see ADR-039)" [name_of m])
  else if Manifest_HasResources m then None
  else Some (Errorf "check failed: %s is missing `resources.requests` (C4 — required by plugin.v1.json; declare cpu/memory asks)" [name_of m]).

(** A capability of an axis this rat links must be one of its methods. *)
Definition checkReal (m : Manifest) (role cap : string) : option error :=
  if negb (linkedAxes (capAxisOf cap)) then None
  else match resolveMethod cap with
       | Ok _ => None
       | Err _ => Some (Errorf "check failed: %s — %s %q is not a real capability of axis %q (typo?)"
                          [name_of m; role; cap; capAxisOf cap])
       end.

Definition checkAxis (m : Manifest) (cap : string) : option error :=
  if bool_decide (kindAxis (Kind m) = "") || bool_decide (capAxisOf cap = kindAxis (Kind m)) then None
  else Some (Errorf "check failed: a %q plugin provides %q (axis %q) — expected %q-axis capabilities"
               [Kind m; cap; capAxisOf cap; kindAxis (Kind m)]).

(** [rat plugin check] on a loaded manifest. *)
Definition runPluginCheck (m : Manifest) : option (option error) :=
  if decide (Kind m ∈ knownKinds) then
    if decide (md_Version (Meta m) = "") then Some (Some (Errorf "check failed: missing metadata.version" []))
    else
      match first_error ((checkReal m "provides" <$> Manifest_ProvidesCaps m) ++
                         (checkReal m "requires" <$> Manifest_RequiresCaps m) ++
                         (checkAxis m <$> Manifest_ProvidesCaps m) ++ [validateAuthored m]) with
      | Some e => Some (Some e)
      | None => validateCommands m
      end
  else Some (Some (Errorf "check failed: unknown kind %q (not one of the 18 axes)" [Kind m])).

(** ** The preflight *)

Record vIssue := mkIssue { vi_err : bool; vi_msg : message }.
Definition bad (fmt : string) (args : list string) : vIssue := mkIssue true (fmt, args).
Definition warn (fmt : string) (args : list string) : vIssue := mkIssue false (fmt, args).

(** Whether the runtime could launch an image, with a note. *)
Context (probe : string -> string -> result string).

Fixpoint dup_issues (seen : gset string) (specs : list (PluginSpec LaunchSpec)) : list vIssue :=
  match specs with
  | [] => []
  | s :: specs =>
      let name := name_of (sp_Manifest s) in
      (if decide (name ∈ seen) then [bad "duplicate plugin name %q — names must be unique in a plane" [name]] else [])
      ++ dup_issues ({[name]} ∪ seen) specs
  end.

Definition hasLaunch (specs : list (PluginSpec LaunchSpec)) : bool :=
  existsb (fun s => bool_decide (is_Some (sp_Launch s))) specs.
Definition hasEndpoint (specs : list (PluginSpec LaunchSpec)) : bool :=
  existsb (fun s => negb (bool_decide (sp_Endpoint s = ""))) specs.

Definition mode_issues (specs : list (PluginSpec LaunchSpec)) : list vIssue :=
  if hasLaunch specs && hasEndpoint specs
  then [bad "plane mixes launch and attach plugins — not supported in v1 (all-launch or all-attach; register-only drivers are fine in either)" []]
  else [].

Definition checkCaps (m : Manifest) (role : string) (caps : list string) : list vIssue :=
  mjoin ((fun c =>
    if negb (linkedAxes (capAxisOf c)) then
      [warn "%s: %s %q — axis %q isn't compiled into this rat; capability unverified" [name_of m; role; c; capAxisOf c]]
    else if is_Ok (resolveMethod c) then []
    else [bad "%s: %s %q is not a real capability of axis %q (typo?)" [name_of m; role; c; capAxisOf c]]) <$> caps).

Definition axis_issues (m : Manifest) : list vIssue :=
  if decide (kindAxis (Kind m) = "") then []
  else mjoin ((fun c => if decide (capAxisOf c = kindAxis (Kind m)) then []
                        else [bad "%s: a %q plugin provides %q (axis %q) — expected %q-axis capabilities"
                                [name_of m; Kind m; c; capAxisOf c; kindAxis (Kind m)]])
                <$> Manifest_ProvidesCaps m).

Definition capability_issues (m : Manifest) : list vIssue :=
  checkCaps m "provides" (Manifest_ProvidesCaps m) ++ checkCaps m "requires" (Manifest_RequiresCaps m) ++ axis_issues m.

Definition requires_issues (ms : list Manifest) : list vIssue :=
  (fun d => bad "%s requires %s — no provider in this plane (add a %s-axis plugin, or register one live later and drop --strict)"
              [dep_Plugin d; dep_Capability d; capAxisOf (dep_Capability d)]) <$> unsatisfiedRequires ms.

Definition image_issues (runtime : string) (s : PluginSpec LaunchSpec) : list vIssue :=
  match sp_Launch s with
  | None => []
  | Some l =>
      match probe runtime (ls_Image l) with
      | Err e => [mkIssue true ("%s: launch %v", [name_of (sp_Manifest s)])]
      | Ok note => if decide (note = "") then []
                   else [warn "%s: launch image %q %s" [name_of (sp_Manifest s); ls_Image l; note]]
      end ++
      if Manifest_HasResources (sp_Manifest s) then []
      else [warn "%s: launched provider declares no resources.requests (C4 — mandatory at the authoring gate; the runtime launches it unbounded)" [name_of (sp_Manifest s)]]
  end.

Definition preflight (pl : LoadedPlane) : list vIssue :=
  dup_issues ∅ (pl_Specs pl) ++ mode_issues (pl_Specs pl) ++
  mjoin (capability_issues <$> manifestsOf pl) ++ requires_issues (manifestsOf pl) ++
  mjoin (image_issues (pl_Runtime pl) <$> pl_Specs pl).

(** The error count [renderPreflight] returns; the text it prints is in Verbs. *)
Definition renderPreflight (issues : list vIssue) : nat := length (List.filter vi_err issues).

Definition strictPreflight (pl : LoadedPlane) : option error :=
  let errs := renderPreflight (preflight pl) in
  if (0 <? errs)%nat
  then Some (Errorf "--strict: %d preflight error(s) — fix the plane, or boot without --strict" [itoa (Z.of_nat errs)])
  else None.

(** ** What a clean preflight means *)

Definition clean (l : list vIssue) : Prop := Forall (fun i => vi_err i = false) l.

Lemma renderPreflight_clean l : renderPreflight l = 0%nat <-> clean l.
Proof.
  unfold renderPreflight, clean. induction l as [|i l IH]; simpl; [done|].
  rw Forall_cons -IH. destruct (vi_err i); simpl; [by split; [|intros []]|]. by split; [|intros []].
Qed.

Lemma clean_app a b : clean (a ++ b) <-> clean a /\ clean b.
Proof. apply Forall_app. Qed.

Lemma clean_join {A} (f : A -> list vIssue) (l : list A) : clean (mjoin (f <$> l)) <-> Forall (fun x => clean (f x)) l.
Proof.
  induction l as [|x l IH]; simpl; [split; intros _; constructor|].
  rw clean_app IH. by rw Forall_cons.
Qed.

Lemma dup_issues_clean seen specs :
  clean (dup_issues seen specs) <->
  NoDup ((fun s => name_of (sp_Manifest s)) <$> specs) /\
  Forall (fun s => name_of (sp_Manifest s) ∉ seen) specs.
Proof.
  revert seen. induction specs as [|s specs IH]; intros seen; simpl.
  { split; [intros _; split; constructor|intros _; constructor]. }
  rw clean_app IH NoDup_cons !Forall_cons list_elem_of_fmap. setoid_rewrite not_elem_of_union.
  setoid_rewrite not_elem_of_singleton. rw Forall_and. rewrite !Forall_forall. case_decide as Hs.
  - split; [|tauto]. intros [H _]. inversion H as [|?? E]. done.
  - split.
    + intros (_ & Hnd & Hx & Hy). split_and!; [|done..]. intros (y & E & Hin). by apply (Hx y).
    + intros [[Hn Hnd] [_ Hy]]. split_and!; [constructor|done| |done]. intros y Hin E. apply Hn. by exists y.
Qed.

Definition real_capability (c : string) : Prop :=
  linkedAxes (capAxisOf c) = true -> exists rpc, rpc ∈ linked /\ rpc_Capability rpc = c.

Lemma resolveMethod_ok c : is_Ok (resolveMethod c) = true <-> exists rpc, rpc ∈ linked /\ rpc_Capability rpc = c.
Proof.
  unfold resolveMethod. destruct (List.find _ linked) as [m|] eqn:E; simpl; split; try done.
  - intros _. apply find_some in E as [Hin Hc]. bool_to_prop. exists m. by rw list_elem_of_In.
  - intros (rpc & Hin%list_elem_of_In & Hc). apply (find_none _ _ E) in Hin. by rw bool_decide_true in Hin.
Qed.

Lemma checkCaps_clean m role caps : clean (checkCaps m role caps) <-> Forall real_capability caps.
Proof.
  unfold checkCaps. rw clean_join. apply Forall_iff. intros c. unfold real_capability. rw -resolveMethod_ok.
  destruct (linkedAxes _); simpl; [destruct (is_Ok _)|]; split; try done; try by repeat constructor.
  - intros H. by inversion H.
  - intros H. by specialize (H eq_refl).
Qed.

Definition on_axis (m : Manifest) : Prop :=
  kindAxis (Kind m) <> "" -> Forall (fun c => capAxisOf c = kindAxis (Kind m)) (Manifest_ProvidesCaps m).

Lemma axis_issues_clean m : clean (axis_issues m) <-> on_axis m.
Proof.
  unfold axis_issues, on_axis. destruct (decide (kindAxis (Kind m) = "")); [split; [done|intros _; constructor]|].
  rw clean_join. split; [intros H _|intros H; specialize (H n)]; apply (Forall_impl _ _ _ H); intros c; case_decide;
    try done; [by inversion 1|intros _; constructor].
Qed.

Definition satisfied (ms : list Manifest) : Prop :=
  forall m c, m ∈ ms -> c ∈ Manifest_RequiresCaps m -> exists p, p ∈ ms /\ c ∈ Manifest_ProvidesCaps p.

Lemma requires_issues_clean ms : clean (requires_issues ms) <-> satisfied ms.
Proof.
  unfold requires_issues, satisfied. split.
  - intros H m c Hm Hc. destruct (provided ms c) eqn:Ep; [by apply provided_spec|]. exfalso.
    assert (mkDep (name_of m) c ∈ unsatisfiedRequires ms) as Hd.
    { apply unsatisfied_spec. exists m. split_and!; [done..|]. rewrite <-provided_spec. by rw Ep. }
    unfold clean in H. rewrite Forall_fmap Forall_forall in H. by apply H in Hd.
  - intros H. destruct (unsatisfiedRequires ms) as [|[n c] l] eqn:E; [constructor|]. exfalso.
    assert (mkDep n c ∈ unsatisfiedRequires ms) as Hd by (rw E; left).
    apply unsatisfied_spec in Hd as (m & Hm & _ & Hc & Hn). by apply Hn, (H m).
Qed.

Definition launchable (runtime : string) (s : PluginSpec LaunchSpec) : Prop :=
  match sp_Launch s with Some l => is_Ok (probe runtime (ls_Image l)) = true | None => True end.

Lemma image_issues_clean runtime s : clean (image_issues runtime s) <-> launchable runtime s.
Proof.
  unfold image_issues, launchable. destruct (sp_Launch s) as [l|]; [|split; [done|intros _; constructor]].
  rw clean_app. destruct (probe _ _) as [n|]; simpl.
  - split; [done|]. intros _. split; [case_decide|destruct (Manifest_HasResources _)]; repeat constructor.
  - split; [|done]. intros [H _]. by inversion H.
Qed.

(** A strict boot is let through exactly when the plane's plugin names are distinct, it is
    all-launch or all-attach, every capability of a linked axis is a method of it, every
    provider stays on the axis of its kind, every requirement is provided in the plane, and
    every image can be launched; warnings never refuse a boot. *)
Theorem strictPreflight_exact (pl : LoadedPlane) :
  strictPreflight pl = None <->
  NoDup (name_of <$> manifestsOf pl) /\
  (hasLaunch (pl_Specs pl) && hasEndpoint (pl_Specs pl))%bool = false /\
  Forall (fun m => Forall real_capability (Manifest_ProvidesCaps m) /\
                   Forall real_capability (Manifest_RequiresCaps m) /\ on_axis m) (manifestsOf pl) /\
  satisfied (manifestsOf pl) /\
  Forall (launchable (pl_Runtime pl)) (pl_Specs pl).
Proof.
  assert (strictPreflight pl = None <-> clean (preflight pl)) as ->.
  { rw -renderPreflight_clean. unfold strictPreflight. by destruct (renderPreflight _). }
  unfold preflight. rw !clean_app !clean_join dup_issues_clean requires_issues_clean.
  assert (forall m, clean (capability_issues m) <->
    Forall real_capability (Manifest_ProvidesCaps m) /\ Forall real_capability (Manifest_RequiresCaps m) /\ on_axis m) as Hc.
  { intros m. unfold capability_issues. by rw !clean_app !checkCaps_clean axis_issues_clean. }
  assert (clean (mode_issues (pl_Specs pl)) <-> (hasLaunch (pl_Specs pl) && hasEndpoint (pl_Specs pl))%bool = false) as ->.
  { unfold mode_issues. destruct (_ && _); split; try done; [by inversion 1|constructor]. }
  rw (Forall_iff _ _ _ Hc) (Forall_iff _ _ _ (image_issues_clean (pl_Runtime pl))).
  unfold manifestsOf. rw -list_fmap_compose. split; [intros ([Hnd _] & Hr); by split|].
  intros (Hnd & Hr). split; [|done]. split; [done|]. apply Forall_forall. intros x _. apply not_elem_of_empty.
Qed.

Lemma preflight_one_mode (pl : LoadedPlane) :
  strictPreflight pl = None -> (hasLaunch (pl_Specs pl) && hasEndpoint (pl_Specs pl))%bool = false.
Proof.
  intros H. assert (clean (preflight pl)) as Hc.
  { apply renderPreflight_clean. unfold strictPreflight in H. by destruct (renderPreflight _). }
  unfold preflight in Hc. rewrite !clean_app in Hc. destruct Hc as (_ & Hm & _). revert Hm.
  unfold mode_issues. destruct (_ && _); [by inversion 1|done].
Qed.

(** The registry of a plane that passes, and what it authorises. *)
Lemma preflight_authorizes (pl : LoadedPlane) :
  strictPreflight pl = None ->
  exists r, New (manifestsOf pl) = Ok r /\
    forall m, m ∈ manifestsOf pl ->
      byName r !! name_of m = Some m /\
      forall c, c ∈ Manifest_RequiresCaps m -> authorized r (name_of m) c.
Proof.
  intros H. assert (clean (preflight pl)) as Hc.
  { apply renderPreflight_clean. unfold strictPreflight in H. by destruct (renderPreflight _). }
  unfold preflight in Hc. rewrite !clean_app dup_issues_clean requires_issues_clean in Hc.
  destruct Hc as ([Hnd _] & _ & _ & Hs & _).
  change (fun s => name_of (sp_Manifest s)) with (name_of ∘ (@sp_Manifest LaunchSpec)) in Hnd.
  rewrite list_fmap_compose in Hnd. fold (manifestsOf pl) in Hnd.
  destruct (insert_all_distinct (manifestsOf pl) empty_registry Hnd) as (r & Hr & Hall & _);
    [by apply Forall_forall|].
  exists r. split; [done|]. rewrite Forall_forall in Hall. intros m Hm. split; [by apply Hall|].
  intros c Hcap. exists m. split_and!; [by apply Hall|done|].
  destruct (Hs m c Hm Hcap) as (p & Hp & Hpc). exists (name_of p), p. split; [by apply Hall|done].
Qed.

(** What passes the preflight boots: the registry is built from the plane's manifests, and
    every call that a plugin of the plane declares it makes is one the registry authorises. *)
Theorem strictPreflight_authorizes (pl : LoadedPlane) :
  strictPreflight pl = None ->
  exists r, New (manifestsOf pl) = Ok r /\
    forall m, m ∈ manifestsOf pl ->
      byName r !! name_of m = Some m /\
      forall c, c ∈ Manifest_RequiresCaps m -> authorized r (name_of m) c.
Proof. apply preflight_authorizes. Qed.

(** A contributed command that passes the check does not shadow a verb, and, when its axis
    is linked, names a method on whose request every argument's field exists. *)
Lemma validateCommands_passed m c :
  validateCommands m = Some None -> c ∈ Commands (Contrib m) ->
  (exists f rest, Fields (cmd_Name c) = f :: rest /\ f ∉ builtinVerbs) /\
  (linkedAxes (capAxisOf (cmd_Capability c)) = true ->
   exists rpc, resolveMethod (cmd_Capability c) = Ok rpc /\
     Forall (fun a => fieldPathExists (rpc_In rpc) (arg_Field a) = true) (cmd_Args c)).
Proof.
  unfold validateCommands. generalize (Commands (Contrib m)) as cs. intros cs Hp Hc.
  assert (validateCommand m c = Some None) as Hv.
  { revert Hp. induction cs as [|c' cs IH]; [by apply not_elem_of_nil in Hc|]. simpl.
    destruct (validateCommand m c') as [[e|]|] eqn:E; simpl; try done.
    apply elem_of_cons in Hc as [->|Hc]; [done|]. by apply IH. }
  clear Hp Hc. unfold validateCommand in Hv. destruct (_ || _); [done|].
  destruct (Fields (cmd_Name c)) as [|f rest] eqn:Ef; [done|]. case_decide as Hb; [done|].
  split; [by exists f, rest|]. intros Hl. rw Hl /= in Hv.
  destruct (resolveMethod _) as [rpc|]; [|done]. exists rpc. split; [done|]. injection Hv as Hv.
  apply first_error_None in Hv. rewrite Forall_fmap in Hv. apply (Forall_impl _ _ _ Hv).
  intros a. simpl. by destruct (fieldPathExists _ _).
Qed.
End Linked.

(** What the runtimes do at launch: [stat] tells whether a path is a directory and whether
    it has an execute bit; [run] whether a command succeeds. *)
Definition defaultImageProbe (stat : string -> option (bool * bool)) (run : list string -> bool)
    (RAT_PODMAN_BIN : string) (runtime image : string) : result string :=
  if decide (runtime = "local") then
    match stat image with
    | None => Err (Errorf "binary %q not found (the local runtime execs a filesystem path)" [image])
    | Some (isDir, executable) =>
        if (isDir || negb executable)%bool then Err (Errorf "%q is not an executable binary" [image]) else Ok ""
    end
  else if decide (runtime = "podman") then
    let bin := if decide (RAT_PODMAN_BIN = "") then "podman" else RAT_PODMAN_BIN in
    if run [bin; "image"; "exists"; image] then Ok ""
    else if run [bin; "manifest"; "inspect"; image] then Ok "not local — will be pulled at launch"
    else Err (Errorf "image %q is neither local nor remotely resolvable (`%s manifest inspect` failed) — a typo'd ref crash-loops at launch" [image; bin])
  else Ok "".

(** ** A check that crashes *)

(** A contributed command whose name is made of spaces is not refused: the check indexes
    the first word of a name that has none. *)
Theorem blank_command_name_panics (linked : list Rpc) (fields_of : string -> list FieldDescriptor) (m : Manifest) :
  validateCommand linked fields_of m (mkCommand " " "rat://state/v1/get" "" []) = None.
Proof. reflexivity. Qed.

(** ** At a concrete plane *)

Definition demo_linked : list Rpc :=
  [mkRpc "" "/rat.core.v1.ControlService/ListPlugins" "rat.core.v1.ListPluginsRequest" "rat.core.v1.ListPluginsResponse";
   mkRpc "rat://state/v1/get" "/rat.state.v1.StateService/Get" "rat.state.v1.GetRequest" "rat.state.v1.GetResponse";
   mkRpc "rat://state/v1/put" "/rat.state.v1.StateService/Put" "rat.state.v1.PutRequest" "rat.state.v1.PutResponse"].
Definition demo_manifest (name kind : string) (provides requires : list string) : Manifest :=
  mkManifest "rat.dev/v1" kind (mkMetadata name "1.0" ∅) [] (mkRef <$> provides) (mkRef <$> requires) []
    (mkResources (mkQuantities "1" "1Gi") (mkQuantities "" "")) [] (mkContributes []) "".
Definition demo_loaded : LoadedPlane :=
  mkLoadedPlane "lab" "unix:/run/lab.sock" "podman" 10
    [mkSpec (demo_manifest "pg-state" "state-backend" ["rat://state/v1/get"; "rat://state/v1/put"] [])
       (Some (mkLaunch "rat/state:1" None [])) "";
     mkSpec (demo_manifest "cli" "ui" [] ["rat://state/v1/get"]) None ""].

Lemma strictPreflight_authorizes_witness :
  exists r, strictPreflight demo_linked (fun _ _ => Ok "") demo_loaded = None /\
    New (manifestsOf demo_loaded) = Ok r /\ authorized r "cli" "rat://state/v1/get".
Proof.
  assert (strictPreflight demo_linked (fun _ _ => Ok "") demo_loaded = None) as H by (vm_compute; reflexivity).
  destruct (strictPreflight_authorizes demo_linked (fun _ _ => Ok "") demo_loaded H) as (r & Hr & Ha).
  exists r. split_and!; [exact H|exact Hr|].
  apply (Ha (demo_manifest "cli" "ui" [] ["rat://state/v1/get"])); [right; left|left].
Defined.
