(* ===== verification/Command.v ===== *)
(** The dispatcher of plugin-contributed commands (src/core/client/command.go): its own
    flags, the command index read through the gateway, longest-prefix matching, and the
    binding of command-line arguments to the fields of a request message. *)
From S2P Require Import Prelude Paths Manifest Registry Plane Marketplace Project Validate.

(** ** Data *)

(** [cliCommandArg] and [cliCommand] mirror the manifest's [CommandArg] and [Command]; the
    contributing plugin is read off the state key. *)
Record cliCommand := mkCli { cc_Command : Command; cc_source : string }.
Definition cc_Name (c : cliCommand) : string := cmd_Name (cc_Command c).

Record connection := mkConn { cn_addr : string; cn_caller : string; cn_token : string; cn_workspace : string }.

(** ** The dispatcher's own flags *)

(** The next argument after a flag, if there is one. *)
Fixpoint own_flags (argv : list string) (c : connection) (rest : list string) : connection * list string :=
  match argv with
  | [] => (c, rev rest)
  | t :: more =>
      let flag a b := bool_decide (t = a) || bool_decide (t = b) in
      match more with
      | v :: more' =>
          if flag "--addr" "-addr" then own_flags more' (mkConn v (cn_caller c) (cn_token c) (cn_workspace c)) rest
          else if flag "--as" "-as" then own_flags more' (mkConn (cn_addr c) v (cn_token c) (cn_workspace c)) rest
          else if flag "--token" "-token" then own_flags more' (mkConn (cn_addr c) (cn_caller c) v (cn_workspace c)) rest
          else if flag "--workspace" "-workspace" then own_flags more' (mkConn (cn_addr c) (cn_caller c) (cn_token c) v) rest
          else own_flags more c (t :: rest)
      | [] =>
          if flag "--addr" "-addr" || flag "--as" "-as" || flag "--token" "-token" || flag "--workspace" "-workspace"
          then (c, rev rest) else (c, rev (t :: rest))
      end
  end.

(** ** Matching *)

(** [rest] without the words of a name it starts with. *)
Fixpoint strip_words (name rest : list string) : option (list string) :=
  match name, rest with
  | [], _ => Some rest
  | w :: name', r :: rest' => if decide (r = w) then strip_words name' rest' else None
  | _ :: _, [] => None
  end.

(** The loop over the commands, with the best match so far. *)
Fixpoint match_from (cmds : list cliCommand) (rest : list string) (best : option (cliCommand * list string))
    (bestLen : nat) : option (cliCommand * list string) :=
  match cmds with
  | [] => best
  | c :: cmds =>
      let name := Fields (cc_Name c) in
      if (length rest <? length name)%nat || (length name <=? bestLen)%nat
      then match_from cmds rest best bestLen
      else match strip_words name rest with
           | Some tail => match_from cmds rest (Some (c, tail)) (length name)
           | None => match_from cmds rest best bestLen
           end
  end.
Definition matchCommand (cmds : list cliCommand) (rest : list string) : option (cliCommand * list string) :=
  match_from cmds rest None 0.

Definition unknownCommandErr (rest : list string) (cmds : list cliCommand) : error :=
  let first := match rest with r :: _ => r | [] => "" end in
  match sort_strings (cc_Name <$> cmds) with
  | [] => Errorf "unknown command %q — and no plugin commands are available (is the platform up + reachable at --addr?)" [first]
  | names => Errorf "unknown command %q — available plugin commands: %s" [first; Join names ", "]
  end.

(** ** Coercion *)

(** [strconv.ParseBool]. *)
Definition ParseBool (s : string) : result bool :=
  if contains ["1"; "t"; "T"; "true"; "TRUE"; "True"] s then Ok true
  else if contains ["0"; "f"; "F"; "false"; "FALSE"; "False"] s then Ok false
  else Err (Errorf "strconv.ParseBool: parsing %q: invalid syntax" [s]).

Definition errSyntax (s : string) : error := Errorf "strconv.ParseInt: parsing %q: invalid syntax" [s].
Definition errRange (s : string) : error := Errorf "strconv.ParseInt: parsing %q: value out of range" [s].

(** The digit loop of [strconv.ParseUint] in base 10: the first digit that takes the number
    past the largest value is the range error. *)
Fixpoint parse_digits (whole : string) (maxVal n : Z) (s : string) : result Z :=
  match s with
  | "" => Ok n
  | String a s' =>
      if is_digit a then
        let n1 := 10 * n + (Z.of_nat (nat_of_ascii a) - 48) in
        if maxVal <? n1 then Err (errRange whole) else parse_digits whole maxVal n1 s'
      else Err (errSyntax whole)
  end.

(** [strconv.ParseInt] in base 10 at a width of [bits]. *)
Definition ParseInt (s : string) (bits : Z) : result Z :=
  let '(neg, digits) := match s with
                        | String a s' => if decide (a = "+"%char) then (false, s')
                                         else if decide (a = "-"%char) then (true, s') else (false, s)
                        | "" => (false, s)
                        end in
  if decide (digits = "") then Err (errSyntax s)
  else
    let? un := parse_digits s (2 ^ bits - 1) 0 digits in
    if (negb neg && (2 ^ (bits - 1) <=? un)) || (neg && (2 ^ (bits - 1) <? un)) then Err (errRange s)
    else Ok (if neg : bool then - un else un).

(** What the text of an integer stands for: an optional sign, then decimal digits. *)
Fixpoint decimal (n : Z) (s : string) : option Z :=
  match s with
  | "" => Some n
  | String a s' => if is_digit a then decimal (10 * n + (Z.of_nat (nat_of_ascii a) - 48)) s' else None
  end.
Definition unsigned_text (s : string) : option Z := if decide (s = "") then None else decimal 0 s.
Definition int_text (s : string) : option Z :=
  match s with
  | String "+" s' => unsigned_text s'
  | String "-" s' => Z.opp <$> unsigned_text s'
  | _ => unsigned_text s
  end.

Inductive scalar (Float : Type) :=
  | VString (s : string)
  | VBool (b : bool)
  | VInt32 (z : Z)
  | VInt64 (z : Z)
  | VFloat64 (f : Float)
  | VBytes (s : string).
Arguments VString {Float}. Arguments VBool {Float}. Arguments VInt32 {Float}.
Arguments VInt64 {Float}. Arguments VFloat64 {Float}. Arguments VBytes {Float}.

(** A message under construction: the scalars set, by path, and the submessages created. *)
Record Msg (Float : Type) := mkMsg {
  leaves : gmap (list string) (scalar Float);
  created : gset (list string);
}.
Arguments mkMsg {Float}. Arguments leaves {Float}. Arguments created {Float}.

Section Binding.
(** Floating-point numbers, and the fields of a message type. *)
Context {Float : Type} (ParseFloat : string -> result Float).
Context (fields_of : string -> list FieldDescriptor).

Definition coerce (fd : FieldDescriptor) (raw : string) : result (scalar Float) :=
  match fd_Kind fd with
  | StringKind => Ok (VString raw)
  | BoolKind => let? b := ParseBool raw in Ok (VBool b)
  | Int32Kind | Sint32Kind | Sfixed32Kind => let? n := ParseInt raw 32 in Ok (VInt32 n)
  | Int64Kind | Sint64Kind | Sfixed64Kind => let? n := ParseInt raw 64 in Ok (VInt64 n)
  | DoubleKind => let? f := ParseFloat raw in Ok (VFloat64 f)
  | BytesKind => Ok (VBytes raw)
  | _ => Err (Errorf "unsupported field kind %s (use `rat call --data`)" [kind_String (fd_Kind fd)])
  end.

(** [None] is the panic of protobuf reflection: a scalar set on a repeated field, or a
    message taken out of one. *)
Fixpoint set_path (path : string) (md : string) (prefix parts : list string) (raw : string)
    (m : Msg Float) : option (result (Msg Float)) :=
  match parts with
  | [] => Some (Ok m)
  | p :: ps =>
      match ByName fields_of md p with
      | None => Some (Err (Errorf "unknown field %q" [p]))
      | Some fd =>
          match ps with
          | [] =>
              match coerce fd raw with
              | Err e => Some (Err e)
              | Ok v => if fd_List fd then None
                        else Some (Ok (mkMsg (<[prefix ++ [p] := v]> (leaves m)) (created m)))
              end
          | _ =>
              if decide (fd_Kind fd = MessageKind) then
                if fd_List fd then None
                else set_path path (fd_Message fd) (prefix ++ [p]) ps raw
                       (mkMsg (leaves m) ({[prefix ++ [p]]} ∪ created m))
              else Some (Err (Errorf "field %q is not a message (cannot descend to %q)" [p; path]))
          end
      end
  end.
Definition setFieldPath (md path raw : string) (m : Msg Float) : option (result (Msg Float)) :=
  set_path path md [] (Split "." path) raw m.

(** ** Binding *)

(** The flags and the bare tokens of the tail. *)
Fixpoint scan_tail (tail : list string) (values : gmap string string) : gmap string string * list string :=
  match tail with
  | [] => (values, [])
  | t :: more =>
      if HasPrefix t "--" then
        let name := TrimPrefix t "--" in
        let '(k, v, eq) := Cut "=" name in
        if eq : bool then scan_tail more (<[k := v]> values)
        else match more with
             | v :: more' => scan_tail more' (<[name := v]> values)
             | [] => (values, [])
             end
      else let '(values, ps) := scan_tail more values in (values, t :: ps)
  end.

(** The raw value of one argument (missing: [None]), and the positionals left. *)
Definition raw_value (values : gmap string string) (positionals : list string) (a : CommandArg) :
    option string * list string :=
  let '(found, positionals) :=
    if arg_Positional a then
      match positionals with
      | p :: ps => (Some p, ps)
      | [] => (None, [])
      end
    else (values !! arg_Name a, positionals) in
  (match found with
   | Some raw => Some raw
   | None => if decide (arg_Default a = "") then None else Some (arg_Default a)
   end, positionals).

Fixpoint bind_from (md cmd : string) (values : gmap string string) (positionals : list string)
    (args : list CommandArg) (m : Msg Float) : option (result (Msg Float)) :=
  match args with
  | [] => Some (Ok m)
  | a :: args =>
      let '(raw, positionals) := raw_value values positionals a in
      match raw with
      | None =>
          if arg_Required a then Some (Err (Errorf "command %q: missing required arg %q" [cmd; arg_Name a]))
          else bind_from md cmd values positionals args m
      | Some raw =>
          r ← setFieldPath md (arg_Field a) raw m;
          match r with
          | Err e => Some (Err (Wrap "command %q arg %q: %w" [cmd; arg_Name a] e))
          | Ok m => bind_from md cmd values positionals args m
          end
      end
  end.

Definition bindArgs (md : string) (c : Command) (tail : list string) : option (result (Msg Float)) :=
  let '(values, positionals) := scan_tail tail ∅ in
  bind_from md (cmd_Name c) values positionals (cmd_Args c) (mkMsg ∅ ∅).

(** ** Dispatch

    The gateway is called with a capability and a payload; the codecs are the generated
    code's and protobuf's. *)
Context (linked : list Rpc).
Context (registered : string -> bool).
Context (Invoke : string -> string -> result string).
Context (proto_Marshal : Msg Float -> result string).
Context (render : string -> string -> result string).
Context (ListRequest GetRequest : string -> string).
Context (ListResponse : string -> result (list string)) (GetResponse : string -> result (option string)).
Context (json_Command : string -> result Command).

(** A key whose value is missing or does not decode is skipped. *)
Definition read_command (key : string) : option cliCommand :=
  match Invoke "rat://state/v1/get" (GetRequest key) with
  | Err _ => None
  | Ok res =>
      match GetResponse res with
      | Ok (Some value) =>
          match json_Command value with
          | Ok c => Some (mkCli c (match Split "/" key with _ :: _ :: p :: _ => p | _ => "" end))
          | Err _ => None
          end
      | _ => None
      end
  end.

Definition readCommands : result (list cliCommand) :=
  match Invoke "rat://state/v1/list" (ListRequest "cli/commands/") with
  | Err e => Err (Wrap "list commands: %w" [] e)
  | Ok res => let? keys := ListResponse res in Ok (omap read_command keys)
  end.

Definition resolveCapability (capURI : string) : result (string * string) :=
  match resolveMethod linked capURI with
  | Ok m => Ok (rpc_In m, rpc_Out m)
  | Err _ => Err (Errorf "unknown capability %q (no linked axis method declares it)" [capURI])
  end.

Definition newMessage (name : string) : result (Msg Float) :=
  if registered name then Ok (mkMsg ∅ ∅) else Err (Wrap "message type %s not registered: %w" [name] (Sentinel "protoregistry.NotFound")).

(** [None]: the panic of [bindArgs].  The result is the line printed. *)
Definition dispatch (cmd : cliCommand) (tail : list string) : option (result string) :=
  let c := cc_Command cmd in
  match resolveCapability (cmd_Capability c) with
  | Err e => Some (Err e)
  | Ok (inName, outName) =>
      match newMessage inName with
      | Err e => Some (Err e)
      | Ok _ =>
          r ← bindArgs inName c tail;
          Some (let? reqMsg := r in
                let? payload := proto_Marshal reqMsg in
                let? resp := Invoke (cmd_Capability c) payload in
                let? _ := newMessage outName in
                render outName resp)
      end
  end.

(** The call is made as the caller of the connection, which must be given. *)
Definition RunCommand (c0 : connection) (argv : list string) : option (result string) :=
  let '(c, rest) := own_flags argv c0 [] in
  if decide (cn_caller c = "") then
    Some (Err (Errorf "--as <caller> is required (the gateway authorizes the command against the caller's declared `requires`)" []))
  else
    match readCommands with
    | Err e => Some (Err e)
    | Ok cmds =>
        match matchCommand cmds rest with
        | None => Some (Err (unknownCommandErr rest cmds))
        | Some (cmd, tail) => dispatch cmd tail
        end
    end.

(** ** Matching is longest-prefix *)

Lemma strip_words_spec name rest tail : strip_words name rest = Some tail <-> rest = name ++ tail.
Proof.
  revert rest. induction name as [|w name IH]; intros rest; simpl; [by split; [intros [= ->]|intros ->]|].
  destruct rest as [|r rest]; [done|]. case_decide as Hr.
  - subst. rw IH. by split; [intros ->|intros [= ->]].
  - split; [done|]. by intros [= ? _].
Qed.

(** A command whose name, of at least one word, starts [rest]. *)
Definition matches_words (rest : list string) (c : cliCommand) : Prop :=
  Fields (cc_Name c) <> [] /\ exists tail, rest = Fields (cc_Name c) ++ tail.
Definition words (c : cliCommand) : nat := length (Fields (cc_Name c)).

(** What the loop maintains over the commands [seen] so far. *)
Definition best_of (rest : list string) (seen : list cliCommand) (best : option (cliCommand * list string)) (n : nat) : Prop :=
  match best with
  | None => n = 0%nat /\ Forall (fun c => ~ matches_words rest c) seen
  | Some (c, tail) =>
      rest = Fields (cc_Name c) ++ tail /\ n = words c /\ (0 < n)%nat /\
      exists before after, seen = before ++ c :: after /\
        Forall (fun c' => matches_words rest c' -> (words c' < n)%nat) before /\
        Forall (fun c' => matches_words rest c' -> (words c' <= n)%nat) after
  end.

Lemma best_of_skip rest seen best n c :
  best_of rest seen best n -> (matches_words rest c -> (words c <= n)%nat) -> best_of rest (seen ++ [c]) best n.
Proof.
  intros H Hc. destruct best as [[b tail]|]; simpl in *.
  - destruct H as (? & ? & ? & before & after & -> & ? & ?). split_and!; [done..|].
    exists before, (after ++ [c]). rw -app_assoc. split_and!; [done..|]. apply Forall_app. by repeat constructor.
  - destruct H as [-> H]. split; [done|]. apply Forall_app. split; [done|]. constructor; [|done].
    intros Hm. specialize (Hc Hm). destruct Hm as [Hne _]. apply Hne. unfold words in Hc.
    by destruct (Fields (cc_Name c)); [|simpl in Hc; lia].
Qed.

Lemma best_of_take rest seen best n c tail :
  best_of rest seen best n -> rest = Fields (cc_Name c) ++ tail -> (n < words c)%nat ->
  best_of rest (seen ++ [c]) (Some (c, tail)) (words c).
Proof.
  intros H Hr Hn. simpl. split_and!; [done..|lia|]. exists seen, []. split_and!; [done| |constructor].
  destruct best as [[b tail']|]; simpl in H.
  - destruct H as (_ & -> & _ & before & after & -> & Hb & Ha). apply Forall_app. split.
    + apply (Forall_impl _ _ _ Hb). intros c' Hc Hm. specialize (Hc Hm). lia.
    + constructor; [by intros _|]. apply (Forall_impl _ _ _ Ha). intros c' Hc Hm. specialize (Hc Hm). lia.
  - destruct H as [_ H]. apply (Forall_impl _ _ _ H). intros c' Hc Hm. by destruct Hc.
Qed.

Lemma match_from_best rest cmds seen best n :
  best_of rest seen best n -> exists n', best_of rest (seen ++ cmds) (match_from cmds rest best n) n'.
Proof.
  revert seen best n. induction cmds as [|c cmds IH]; intros seen best n H; simpl; [rw app_nil_r; by exists n|].
  replace (seen ++ c :: cmds) with ((seen ++ [c]) ++ cmds) by by rw -app_assoc.
  destruct ((_ <? _)%nat || _) eqn:E.
  - apply IH, best_of_skip; [done|]. intros [_ [tail Ht]]. apply (f_equal length) in Ht. rw length_app in Ht.
    unfold words. apply orb_true_iff in E as [E%Nat.ltb_lt|E%Nat.leb_le]; lia.
  - apply orb_false_iff in E as [_ E%Nat.leb_gt]. destruct (strip_words _ rest) as [tail|] eqn:Es.
    + apply strip_words_spec in Es. by apply IH, (best_of_take _ _ best n).
    + apply IH, best_of_skip; [done|]. intros [_ [tail Ht]]. apply strip_words_spec in Ht. congruence.
Qed.

(** The dispatcher runs a command whose name starts the words given, and hands it exactly
    the words that follow the name; no command that also matches has a longer name, and of
    several with the same number of words it is the first.  It finds none only when none
    matches.  (A command whose name has no words is never run.) *)
Theorem matchCommand_longest (cmds : list cliCommand) (rest : list string) :
  match matchCommand cmds rest with
  | None => forall c, c ∈ cmds -> ~ matches_words rest c
  | Some (c, tail) =>
      rest = Fields (cc_Name c) ++ tail /\ Fields (cc_Name c) <> [] /\
      exists before after, cmds = before ++ c :: after /\
        Forall (fun c' => matches_words rest c' -> (words c' < words c)%nat) before /\
        Forall (fun c' => matches_words rest c' -> (words c' <= words c)%nat) after
  end.
Proof.
  destruct (match_from_best rest cmds [] None 0) as [n H]; [by split|].
  unfold matchCommand. destruct (match_from cmds rest None 0) as [[c tail]|]; simpl in H.
  - destruct H as (? & -> & Hn & Hs). split_and!; [done| |done]. intros E. unfold words in Hn. rw E in Hn. simpl in Hn. lia.
  - destruct H as [_ H]. by rewrite Forall_forall in H.
Qed.

(** ** Binding *)

(** The field at the end of a path, and whether a field on the way is repeated. *)
Fixpoint field_at (md : string) (parts : list string) : option FieldDescriptor :=
  match parts with
  | [] => None
  | p :: ps =>
      fd ← ByName fields_of md p;
      match ps with [] => Some fd | _ => field_at (fd_Message fd) ps end
  end.
Fixpoint repeated_on (md : string) (parts : list string) : bool :=
  match parts with
  | [] => false
  | p :: ps =>
      match ByName fields_of md p with
      | Some fd => fd_List fd || repeated_on (fd_Message fd) ps
      | None => false
      end
  end.
Definition path_of (a : CommandArg) : list string := Split "." (arg_Field a).

(** What a field of each kind holds once it is set from [raw]: text as it is, a boolean by one
    of its six spellings, an integer by its decimal text when it fits the width. *)
Definition true_words : list string := ["1"; "t"; "T"; "TRUE"; "true"; "True"].
Definition false_words : list string := ["0"; "f"; "F"; "FALSE"; "false"; "False"].
Definition held (fd : FieldDescriptor) (raw : string) (v : scalar Float) : Prop :=
  match v with
  | VString s => fd_Kind fd = StringKind /\ s = raw
  | VBytes s => fd_Kind fd = BytesKind /\ s = raw
  | VBool b => fd_Kind fd = BoolKind /\ raw ∈ (if b : bool then true_words else false_words)
  | VInt32 z => fd_Kind fd ∈ [Int32Kind; Sint32Kind; Sfixed32Kind] /\ int_text raw = Some z /\ - 2 ^ 31 <= z < 2 ^ 31
  | VInt64 z => fd_Kind fd ∈ [Int64Kind; Sint64Kind; Sfixed64Kind] /\ int_text raw = Some z /\ - 2 ^ 63 <= z < 2 ^ 63
  | VFloat64 f => fd_Kind fd = DoubleKind /\ ParseFloat raw = Ok f
  end.

(** Why a value cannot be set: its kind is one that the command line does not set, or its text
    is not one of that kind's. *)
Definition unfit (fd : FieldDescriptor) (raw : string) (e : error) : Prop :=
  match fd_Kind fd with
  | StringKind | BytesKind => False
  | BoolKind => raw ∉ true_words ++ false_words /\ e = Errorf "strconv.ParseBool: parsing %q: invalid syntax" [raw]
  | Int32Kind | Sint32Kind | Sfixed32Kind =>
      (forall z, int_text raw = Some z -> ~ (- 2 ^ 31 <= z < 2 ^ 31)) /\ (e = errSyntax raw \/ e = errRange raw)
  | Int64Kind | Sint64Kind | Sfixed64Kind =>
      (forall z, int_text raw = Some z -> ~ (- 2 ^ 63 <= z < 2 ^ 63)) /\ (e = errSyntax raw \/ e = errRange raw)
  | DoubleKind => ParseFloat raw = Err e
  | k => e = Errorf "unsupported field kind %s (use `rat call --data`)" [kind_String k]
  end.

Lemma digit_value a : is_digit a = true -> 0 <= Z.of_nat (nat_of_ascii a) - 48.
Proof. unfold is_digit, in_range. rewrite andb_true_iff !Nat.leb_le. lia. Qed.

Lemma decimal_mono n s r : 0 <= n -> decimal n s = Some r -> n <= r.
Proof.
  revert n. induction s as [|a s IH]; intros n Hn; simpl; [by intros [= <-]|]. destruct (is_digit a) eqn:Ed; [|done].
  apply digit_value in Ed. intros Hr. apply IH in Hr; lia.
Qed.

Lemma parse_digits_decimal whole maxVal n s : 0 <= n <= maxVal ->
  match parse_digits whole maxVal n s with
  | Ok r => decimal n s = Some r /\ n <= r <= maxVal
  | Err e => (forall r, decimal n s = Some r -> maxVal < r) /\ (e = errSyntax whole \/ e = errRange whole)
  end.
Proof.
  revert n. induction s as [|a s IH]; intros n Hn; simpl; [by split; [|lia]|]. destruct (is_digit a) eqn:Ed; [|by split; [|left]].
  apply digit_value in Ed. destruct (maxVal <? _) eqn:Em; bool_to_prop.
  - split; [|by right]. intros r Hr. apply decimal_mono in Hr; lia.
  - specialize (IH (10 * n + (Z.of_nat (nat_of_ascii a) - 48)) ltac:(lia)). destruct (parse_digits _ _ _ s); [|done].
    destruct IH. split; [done|lia].
Qed.

Lemma signed_digits neg digits whole bits : 1 <= bits ->
  let r := if decide (digits = "") then Err (errSyntax whole)
           else let? un := parse_digits whole (2 ^ bits - 1) 0 digits in
                if (negb neg && (2 ^ (bits - 1) <=? un)) || (neg && (2 ^ (bits - 1) <? un)) then Err (errRange whole)
                else Ok (if neg : bool then - un else un) in
  let t := (if neg : bool then Z.opp else id) <$> unsigned_text digits in
  match r with
  | Ok z => t = Some z /\ - 2 ^ (bits - 1) <= z < 2 ^ (bits - 1)
  | Err e => (forall z, t = Some z -> ~ (- 2 ^ (bits - 1) <= z < 2 ^ (bits - 1))) /\ (e = errSyntax whole \/ e = errRange whole)
  end.
Proof.
  intros Hb. assert (2 ^ bits = 2 * 2 ^ (bits - 1)) as Hp by (rewrite -Z.pow_succ_r; [f_equal; lia|lia]).
  pose proof (Z.pow_pos_nonneg 2 (bits - 1) ltac:(lia) ltac:(lia)) as Hpos. unfold unsigned_text.
  case_decide; simpl; [by split; [|left]|].
  pose proof (parse_digits_decimal whole (2 ^ bits - 1) 0 digits ltac:(lia)) as H1.
  destruct (parse_digits _ _ _ _) as [un|e]; simpl.
  - destruct H1 as [-> Hu]. destruct ((_ && _) || _) eqn:E; destruct neg; simpl in *; bool_to_prop;
      try (split; [intros z [= <-]; unfold id; lia|by right]); (split; [done|lia]).
  - destruct H1 as [H1 He]. split; [|done]. intros z (u & Hd & ->)%fmap_Some. apply H1 in Hd. destruct neg; unfold id; lia.
Qed.

Lemma ParseInt_text s bits : 1 <= bits ->
  match ParseInt s bits with
  | Ok z => int_text s = Some z /\ - 2 ^ (bits - 1) <= z < 2 ^ (bits - 1)
  | Err e => (forall z, int_text s = Some z -> ~ (- 2 ^ (bits - 1) <= z < 2 ^ (bits - 1))) /\ (e = errSyntax s \/ e = errRange s)
  end.
Proof.
  intros Hb. unfold ParseInt.
  assert (forall a s', s = String a s' -> a <> "+"%char -> a <> "-"%char -> int_text s = unsigned_text s) as Hplain.
  { intros a s' -> H1 H2. unfold int_text. destruct a as [b0 b1 b2 b3 b4 b5 b6 b7]. by destruct b0, b1, b2, b3, b4, b5, b6, b7. }
  destruct s as [|a s']; [by split; [|left]|].
  destruct (decide (a = "+"%char)) as [->|H1]; [|destruct (decide (a = "-"%char)) as [->|H2]].
  - pose proof (signed_digits false s' (String "+" s') bits Hb) as H. rewrite option_fmap_id in H. exact H.
  - exact (signed_digits true s' (String "-" s') bits Hb).
  - pose proof (signed_digits false (String a s') (String a s') bits Hb) as H. rewrite option_fmap_id in H.
    rewrite (Hplain a s' eq_refl H1 H2). exact H.
Qed.

Lemma ParseBool_words s :
  match ParseBool s with
  | Ok b => s ∈ (if b : bool then true_words else false_words)
  | Err e => s ∉ true_words ++ false_words /\ e = Errorf "strconv.ParseBool: parsing %q: invalid syntax" [s]
  end.
Proof.
  clear.
  unfold ParseBool. destruct (contains _ s) eqn:E1; [apply contains_elem in E1; set_solver|].
  destruct (contains ["0"; _; _; _; _; _] s) eqn:E2; [apply contains_elem in E2; set_solver|].
  split; [|done]. intros Hin. rewrite elem_of_app in Hin.
  destruct Hin as [Hin|Hin].
  - assert (s ∈ ["1"; "t"; "T"; "true"; "TRUE"; "True"]) as H%contains_elem by set_solver. by rewrite H in E1.
  - assert (s ∈ ["0"; "f"; "F"; "false"; "FALSE"; "False"]) as H%contains_elem by set_solver. by rewrite H in E2.
Qed.

Lemma coerce_held fd raw :
  match coerce fd raw with Ok v => held fd raw v | Err e => unfit fd raw e end.
Proof.
  clear -ParseFloat.
  unfold coerce, unfit.
  pose proof (ParseBool_words raw) as Hb. pose proof (ParseInt_text raw 32 ltac:(lia)) as H32. pose proof (ParseInt_text raw 64 ltac:(lia)) as H64.
  destruct (fd_Kind fd) eqn:Ek; try done;
    try (destruct (ParseBool raw); simpl; [by split|exact Hb]);
    try (destruct (ParseInt raw 32); simpl; [split; [rewrite Ek; set_solver|exact H32]|exact H32]);
    try (destruct (ParseInt raw 64); simpl; [split; [rewrite Ek; set_solver|exact H64]|exact H64]).
  by destruct (ParseFloat raw) eqn:Ef; simpl.
Qed.

(** A value and a reason not to have one exclude each other. *)
Lemma held_fits fd raw v : held fd raw v -> exists v', coerce fd raw = Ok v'.
Proof.
  clear -ParseFloat.
  intros Hh. pose proof (coerce_held fd raw) as Hc. destruct (coerce fd raw) as [v'|e]; [by exists v'|]. exfalso.
  unfold unfit in Hc. destruct v; simpl in Hh; destruct Hh as [Hk Hh]; try (rewrite Hk in Hc); try done.
  - destruct Hc as [Hc _]. apply Hc. destruct b; set_solver.
  - destruct Hh as [Ht Hr]. assert (forall z, int_text raw = Some z -> ~ (- 2 ^ 31 <= z < 2 ^ 31)) as Hn.
    { rewrite !elem_of_cons in Hk. destruct Hk as [Hk|[Hk|[Hk|[]%elem_of_nil]]]; rewrite Hk in Hc; apply Hc. }
    by apply (Hn _ Ht).
  - destruct Hh as [Ht Hr]. assert (forall z, int_text raw = Some z -> ~ (- 2 ^ 63 <= z < 2 ^ 63)) as Hn.
    { rewrite !elem_of_cons in Hk. destruct Hk as [Hk|[Hk|[Hk|[]%elem_of_nil]]]; rewrite Hk in Hc; apply Hc. }
    by apply (Hn _ Ht).
  - by rewrite Hc in Hh.
Qed.

Lemma set_path_ok path md prefix parts raw m m' :
  parts <> [] -> set_path path md prefix parts raw m = Some (Ok m') ->
  exists fd v, field_at md parts = Some fd /\ coerce fd raw = Ok v /\
    leaves m' = <[prefix ++ parts := v]> (leaves m).
Proof.
  revert md prefix m. induction parts as [|p ps IH]; intros md prefix m Hne; [done|]. simpl.
  destruct (ByName _ md p) as [fd|]; [|done]. destruct ps as [|q ps].
  - simpl. destruct (coerce fd raw) as [v|] eqn:Ec; [|done]. destruct (fd_List fd); [done|].
    intros [= <-]. by exists fd, v.
  - case_decide; [|done]. destruct (fd_List fd); [done|]. intros H1. apply IH in H1 as (fd' & v & ? & ? & Hl); [|done].
    exists fd', v. rw Hl /= -app_assoc. done.
Qed.

(** On a path that exists only the value can be at fault, or the path is repeated. *)
Lemma set_path_exists path md prefix parts raw m :
  parts <> [] -> path_exists fields_of md parts = true ->
  match set_path path md prefix parts raw m with
  | Some (Ok _) => True
  | Some (Err e) => exists fd, field_at md parts = Some fd /\ coerce fd raw = Err e
  | None => repeated_on md parts = true
  end.
Proof.
  revert md prefix m. induction parts as [|p ps IH]; intros md prefix m Hne; [done|]. simpl.
  destruct (ByName _ md p) as [fd|]; [|done]. destruct ps as [|q ps].
  - intros _. destruct (coerce fd raw) as [v|e] eqn:Ec; [by destruct (fd_List fd)|by exists fd].
  - case_decide; [|done]. intros He. destruct (fd_List fd); [done|].
    specialize (IH (fd_Message fd) (prefix ++ [p]) (mkMsg (leaves m) ({[prefix ++ [p]]} ∪ created m))).
    by apply IH.
Qed.

Lemma paths_distinct args : NoDup (arg_Field <$> args) -> NoDup (path_of <$> args).
Proof.
  intros H1. change (path_of <$> args) with ((Split "." ∘ arg_Field) <$> args). rw list_fmap_compose.
  apply NoDup_fmap_2; [|done]. intros x y E. by rewrite -(Join_Split "." x) -(Join_Split "." y) E.
Qed.
Lemma path_of_not_nil a : path_of a <> [].
Proof. apply Split_not_nil. Qed.

(** What each argument reads. *)
Fixpoint raws (values : gmap string string) (positionals : list string) (args : list CommandArg) : list (option string) :=
  match args with
  | [] => []
  | a :: args => let '(r, ps) := raw_value values positionals a in r :: raws values ps args
  end.

Definition bound (md : string) (m : Msg Float) (a : CommandArg) (raw : option string) : Prop :=
  match raw with
  | Some r => exists fd v, field_at md (path_of a) = Some fd /\ held fd r v /\ leaves m !! path_of a = Some v
  | None => arg_Required a = false /\ leaves m !! path_of a = None
  end.

(** An argument whose value can be bound: its path leads through messages to a field that is
    not repeated, and the value is one of that field; or it has none and needs none. *)
Definition fitting (md : string) (a : CommandArg) (raw : option string) : Prop :=
  match raw with
  | Some r => path_exists fields_of md (path_of a) = true /\ repeated_on md (path_of a) = false /\
              exists fd v, field_at md (path_of a) = Some fd /\ held fd r v
  | None => arg_Required a = false
  end.

Lemma bind_from_ok md cmd values positionals args m m' :
  bind_from md cmd values positionals args m = Some (Ok m') ->
  NoDup (path_of <$> args) -> Forall (fun a => leaves m !! path_of a = None) args ->
  Forall2 (bound md m') args (raws values positionals args) /\
  forall p, p ∉ path_of <$> args -> leaves m' !! p = leaves m !! p.
Proof.
  revert positionals m. induction args as [|a args IH]; intros positionals m; simpl; [by intros [= <-]|].
  destruct (raw_value values positionals a) as [[raw|] ps].
  - destruct (setFieldPath md (arg_Field a) raw m) as [[m1|]|] eqn:Es; [|done..]. simpl.
    apply set_path_ok in Es as (fd & v & Hf & Hc & Hl); [|apply path_of_not_nil]. simpl in Hl. fold (path_of a) in Hl, Hf.
    intros Hb [Hn Hnd]%NoDup_cons [Ha Hargs]%Forall_cons.
    destruct (IH _ _ Hb Hnd) as [H1 H2].
    { apply Forall_forall. intros b Hb'. rewrite Forall_forall in Hargs. rw Hl lookup_insert_ne; [by apply Hargs|].
      intros E. apply Hn. apply list_elem_of_fmap. by exists b. }
    split.
    + constructor; [|done]. exists fd, v. pose proof (coerce_held fd raw) as Hh. rewrite Hc in Hh.
      split_and!; [done..|]. rw (H2 _ Hn) Hl. by rw lookup_insert_eq.
    + intros p [Hp1 Hp2]%not_elem_of_cons. rw (H2 _ Hp2) Hl. by rw lookup_insert_ne.
  - destruct (arg_Required a) eqn:Er; [done|]. intros Hb [Hn Hnd]%NoDup_cons [Ha Hargs]%Forall_cons.
    destruct (IH _ _ Hb Hnd Hargs) as [H1 H2]. split.
    + constructor; [|done]. split; [done|]. by rw (H2 _ Hn).
    + intros p [Hp1 Hp2]%not_elem_of_cons. by apply H2.
Qed.

Lemma bind_from_fitting md cmd values positionals args m :
  Forall2 (fitting md) args (raws values positionals args) ->
  exists m', bind_from md cmd values positionals args m = Some (Ok m').
Proof.
  revert positionals m. induction args as [|a args IH]; intros positionals m; simpl; [by exists m|].
  destruct (raw_value values positionals a) as [[raw|] ps]; intros [Ha Hs]%Forall2_cons; simpl in Ha.
  - destruct Ha as (Hp & Hr & fd & v & Hf & Hh). unfold setFieldPath. fold (path_of a).
    pose proof (set_path_exists (arg_Field a) md [] (path_of a) raw m (Split_not_nil _ _) Hp) as Hx.
    destruct (set_path _ _ _ _ _ _) as [[m1|e]|]; simpl; [by apply IH| |congruence].
    destruct Hx as (fd' & Hf' & Hc). rewrite Hf in Hf'. injection Hf' as <-. apply held_fits in Hh as [v' Hv']. congruence.
  - rewrite Ha. by apply IH.
Qed.

(** The command line that gives each argument the value chosen for it: [--name=value] for a
    flag, the bare value for a positional. *)
Definition render_arg (a : CommandArg) (v : option string) : list string :=
  match v with
  | None => []
  | Some v => if arg_Positional a then [v] else ["--" +:+ arg_Name a +:+ "=" +:+ v]
  end.
Fixpoint render_args (args : list CommandArg) (vs : list (option string)) : list string :=
  match args, vs with
  | a :: args, v :: vs => render_arg a v ++ render_args args vs
  | _, _ => []
  end.

(** What the command then sees of an argument. *)
Definition effective (a : CommandArg) (v : option string) : option string :=
  match v with
  | Some v => Some v
  | None => if decide (arg_Default a = "") then None else Some (arg_Default a)
  end.

(** The lines that can be written: no equals sign in a flag's name, no positional value
    that looks like a flag, and no positional skipped before one that is given. *)
Fixpoint writable_args (args : list CommandArg) (vs : list (option string)) : Prop :=
  match args, vs with
  | a :: args, v :: vs =>
      (if arg_Positional a
       then match v with
            | Some v => HasPrefix v "--" = false
            | None => Forall2 (fun a v => arg_Positional a = true -> v = None) args vs
            end
       else no_byte "=" (arg_Name a) = true) /\ writable_args args vs
  | [], [] => True
  | _, _ => False
  end.

Definition flag_names (args : list CommandArg) : list string :=
  arg_Name <$> List.filter (fun a => negb (arg_Positional a)) args.

(** The flags and the positionals of a line, without going through the line. *)
Fixpoint flags_of (args : list CommandArg) (vs : list (option string)) (values : gmap string string) : gmap string string :=
  match args, vs with
  | a :: args, v :: vs =>
      flags_of args vs (match v with
                        | Some v => if arg_Positional a then values else <[arg_Name a := v]> values
                        | None => values
                        end)
  | _, _ => values
  end.
Fixpoint positionals_of (args : list CommandArg) (vs : list (option string)) : list string :=
  match args, vs with
  | a :: args, v :: vs => (if arg_Positional a then option_list v else []) ++ positionals_of args vs
  | _, _ => []
  end.

Lemma scan_flag n v more values :
  no_byte "=" n = true -> scan_tail (("--" +:+ n +:+ "=" +:+ v) :: more) values = scan_tail more (<[n := v]> values).
Proof.
  intros Hn. remember ("--" +:+ n +:+ "=" +:+ v) as t eqn:Ht. cbn [scan_tail].
  assert (HasPrefix t "--" = true) as Hp by (rw Ht; apply HasPrefix_app).
  assert (TrimPrefix t "--" = n +:+ String "=" v) as ->.
  { unfold TrimPrefix. rw Hp Ht. apply str_drop_app. }
  by rw Hp Cut_app.
Qed.

Lemma scan_render args vs values :
  writable_args args vs -> scan_tail (render_args args vs) values = (flags_of args vs values, positionals_of args vs).
Proof.
  revert vs values. induction args as [|a args IH]; intros [|v vs] values; simpl; try done.
  intros [Ha Hw]. destruct v as [v|]; cbn [render_arg].
  - destruct (arg_Positional a); [cbn [scan_tail app]; by rw Ha IH|]. cbn [app].
    rewrite scan_flag; [by apply IH|done].
  - rw IH //. by destruct (arg_Positional a).
Qed.

Lemma flags_of_other args vs values n : n ∉ flag_names args -> flags_of args vs values !! n = values !! n.
Proof.
  revert vs values. induction args as [|a args IH]; intros [|v vs] values Hn; simpl; try done.
  unfold flag_names in Hn. simpl in Hn. destruct (arg_Positional a); simpl in Hn; [by destruct v; apply IH|].
  apply not_elem_of_cons in Hn as [Hne Hn]. rw IH //. destruct v; [|done]. by rw lookup_insert_ne.
Qed.

(** Reading a rendered line back argument by argument. *)
Lemma raws_render args vs values :
  writable_args args vs -> NoDup (flag_names args) ->
  (forall n, n ∈ flag_names args -> values !! n = None) ->
  raws (flags_of args vs values) (positionals_of args vs) args = zip_with effective args vs.
Proof.
  intros Hw Hnd Hv.
  enough (forall fl, (forall n, n ∈ flag_names args -> fl !! n = flags_of args vs values !! n) ->
    raws fl (positionals_of args vs) args = zip_with effective args vs) as Hx by by apply Hx.
  intros fl. revert vs values fl Hw Hnd Hv.
  induction args as [|a args IH]; intros [|v vs] values fl; simpl; try done.
  intros [Ha Hw] Hnd Hv Hfl. unfold flag_names in *. unfold raw_value. simpl in *.
  destruct (arg_Positional a) eqn:Ep; simpl in *.
  - destruct v as [v|]; simpl.
    + f_equal. by apply (IH vs values).
    + assert (positionals_of args vs = []) as E.
      { clear -Ha. induction Ha as [|b w args vs Hb _ IH]; [done|]. simpl. rw IH app_nil_r.
        destruct (arg_Positional b); [by rw Hb|done]. }
      rw E /=. f_equal. rw -E. by apply (IH vs values).
  - apply NoDup_cons in Hnd as [Hn Hnd]. f_equal.
    + rw Hfl; [|left]. rw flags_of_other //. destruct v; [by rw lookup_insert_eq|]. rw Hv; [done|left].
    + apply (IH vs (match v with Some v => <[arg_Name a := v]> values | None => values end)); [done..| |].
      * intros n Hin. destruct v; [rw lookup_insert_ne; [|by intros E; rw E in Hn]|]; apply Hv; by right.
      * intros n Hin. apply Hfl. by right.
Qed.

(** C34: Typing the values of a command's arguments gives a request that holds exactly them.
    For a command whose arguments name distinct fields and whose flags have distinct names,
    take the line that gives each argument the value chosen for it, as [--name=value] or as a
    bare positional, or leaves it out (the flag names hold no equals sign, no positional value
    looks like a flag, none is skipped before one that is given).  If every value, given or
    the manifest's default, fits its field (the path leads through messages to a field that is
    not repeated; a string or bytes field takes any text, a boolean one of six spellings each
    way, a signed integer decimal digits within its width, a double what ParseFloat reads),
    and what is left out without a default is optional, the line is bound.  And whenever it is bound,
    each of those values sits at its field, typed as said, the field of an optional
    argument left out is not set, and nothing else is. *)
Theorem bindArgs_roundtrip (md : string) (c : Command) (vs : list (option string)) :
  NoDup (arg_Field <$> cmd_Args c) -> NoDup (flag_names (cmd_Args c)) -> writable_args (cmd_Args c) vs ->
  match bindArgs md c (render_args (cmd_Args c) vs) with
  | Some (Ok m) =>
      Forall2 (bound md m) (cmd_Args c) (zip_with effective (cmd_Args c) vs) /\
      forall p, p ∉ (fun a => Split "." (arg_Field a)) <$> cmd_Args c -> leaves m !! p = None
  | _ => ~ Forall2 (fitting md) (cmd_Args c) (zip_with effective (cmd_Args c) vs)
  end.
Proof.
  intros Hf Hn Hw. unfold bindArgs. rw scan_render //.
  rewrite -(raws_render (cmd_Args c) vs ∅) //.
  pose proof (bind_from_fitting md (cmd_Name c) (flags_of (cmd_Args c) vs ∅) (positionals_of (cmd_Args c) vs) (cmd_Args c) (mkMsg ∅ ∅)) as Hfit.
  destruct (bind_from _ _ _ _ _ _) as [[m|e]|] eqn:Hb; [|by intros [m Hm]%Hfit..].
  apply bind_from_ok in Hb as [Hb Ho]; [|by apply paths_distinct|by apply Forall_forall; intros; apply lookup_empty].
  split; [done|]. intros p Hp. rewrite (Ho p Hp). apply lookup_empty.
Qed.

(** *** A checked command *)

(** The words of [tail] that give an argument a value: for a positional, a word that is not a
    flag; for a flag, the rest of a word [--name=value], or the word after [--name]. *)
Definition typed (tail : list string) (a : CommandArg) (raw : string) : Prop :=
  if arg_Positional a then raw ∈ tail /\ HasPrefix raw "--" = false
  else ("--" +:+ arg_Name a +:+ "=" +:+ raw) ∈ tail \/
       exists before after, tail = before ++ ("--" +:+ arg_Name a) :: raw :: after.
Definition given (tail : list string) (a : CommandArg) (raw : string) : Prop :=
  typed tail a raw \/ (arg_Default a = raw /\ raw <> "").

Definition missing_required (c : Command) (e : error) : Prop :=
  exists a, a ∈ cmd_Args c /\ arg_Required a = true /\ arg_Default a = "" /\
    e = Errorf "command %q: missing required arg %q" [cmd_Name c; arg_Name a].
Definition bad_value (md : string) (c : Command) (tail : list string) (e : error) : Prop :=
  exists a raw fd err, a ∈ cmd_Args c /\ given tail a raw /\ field_at md (path_of a) = Some fd /\ unfit fd raw err /\
    e = Wrap "command %q arg %q: %w" [cmd_Name c; arg_Name a] err.
Definition met (md : string) (tail : list string) (a : CommandArg) : Prop :=
  arg_Required a = false \/
  exists raw fd v, given tail a raw /\ field_at md (path_of a) = Some fd /\ held fd raw v.

(** What the scan of the tail makes of it: flags typed on it, and its words that are not flags. *)
Lemma scan_tail_typed tail before values :
  (forall a v, arg_Positional a = false -> values !! arg_Name a = Some v -> typed (before ++ tail) a v) ->
  (forall a v, arg_Positional a = false -> (scan_tail tail values).1 !! arg_Name a = Some v -> typed (before ++ tail) a v) /\
  Forall (fun w => w ∈ tail /\ HasPrefix w "--" = false) (scan_tail tail values).2.
Proof.
  clear.
  remember (length tail) as n eqn:Hlen. assert (length tail <= n)%nat as Hn by lia. clear Hlen.
  revert tail before values Hn. induction n as [|n IH]; intros [|t more] before values Hn Hv; cbn [scan_tail]; simpl in Hn;
    try (by split); [lia|].
  destruct (HasPrefix t "--") eqn:Ep.
  - apply HasPrefix_true in Ep as [name ->]. replace (TrimPrefix _ _) with name by (symmetry; unfold TrimPrefix; rewrite HasPrefix_app; apply str_drop_app).
    destruct (Cut "=" name) as [[k v] eq] eqn:Ec.
    destruct eq.
    + apply Cut_spec in Ec as [-> _]. specialize (IH more (before ++ ["--" +:+ k +:+ String "=" v]) (<[k := v]> values) ltac:(lia)).
      rewrite -app_assoc in IH. destruct IH as [H1 H2].
      { intros a w Ha [[E1 E2]|[_ Hw]]%lookup_insert_Some; [|by apply Hv]. unfold typed. rewrite Ha -E1 -E2. left. set_solver. }
      split; [done|]. eapply Forall_impl; [exact H2|]. intros w [? ?]. split; [by right|done].
    + destruct more as [|v' more']; [by split|]. simpl in Hn.
      specialize (IH more' (before ++ ["--" +:+ name; v']) (<[name := v']> values) ltac:(lia)).
      rewrite -app_assoc in IH. destruct IH as [H1 H2].
      { intros a w Ha [[E1 E2]|[_ Hw]]%lookup_insert_Some; [|by apply Hv]. unfold typed. rewrite Ha -E1 -E2. right. by exists before, more'. }
      split; [done|]. eapply Forall_impl; [exact H2|]. intros w [? ?]. split; [by do 2 right|done].
  - specialize (IH more (before ++ [t]) values ltac:(lia)). rewrite -app_assoc in IH. specialize (IH Hv) as [H1 H2].
    destruct (scan_tail more values) as [vs ps]. simpl in *. split; [done|]. constructor; [by split; [left|]|].
    eapply Forall_impl; [exact H2|]. intros w [? ?]. split; [by right|done].
Qed.

(** What an argument reads is what was typed for it, or its default. *)
Lemma raw_value_given tail values positionals a :
  (forall a v, arg_Positional a = false -> values !! arg_Name a = Some v -> typed tail a v) ->
  Forall (fun w => w ∈ tail /\ HasPrefix w "--" = false) positionals ->
  Forall (fun w => w ∈ tail /\ HasPrefix w "--" = false) (raw_value values positionals a).2 /\
  match (raw_value values positionals a).1 with Some raw => given tail a raw | None => arg_Default a = "" end.
Proof.
  clear.
  intros Hv Hp. unfold raw_value. destruct (arg_Positional a) eqn:Ea.
  - destruct positionals as [|p ps]; simpl; [split; [done|]; case_decide; [done|by right]|].
    apply Forall_cons in Hp as [Hp Hps]. split; [done|]. left. unfold typed. by rewrite Ea.
  - destruct (values !! arg_Name a) as [v|] eqn:Ev; simpl; [split; [done|]; left; by apply Hv|].
    split; [done|]. case_decide; [done|by right].
Qed.

Lemma bind_from_checked md c tail values positionals args m :
  args ⊆ cmd_Args c -> Forall (fun a => fieldPathExists fields_of md (arg_Field a) = true) args ->
  (forall a v, arg_Positional a = false -> values !! arg_Name a = Some v -> typed tail a v) ->
  Forall (fun w => w ∈ tail /\ HasPrefix w "--" = false) positionals ->
  match bind_from md (cmd_Name c) values positionals args m with
  | Some (Ok _) => Forall (met md tail) args
  | Some (Err e) => missing_required c e \/ bad_value md c tail e
  | None => exists a, a ∈ cmd_Args c /\ repeated_on md (path_of a) = true
  end.
Proof.
  intros Hsub Hp Hv. revert positionals m Hsub Hp. induction args as [|a args IH]; intros positionals m Hsub Hp Hpos; simpl; [done|].
  apply Forall_cons in Hp as [Ha Hp].
  assert (a ∈ cmd_Args c) as Hin by (apply Hsub; left).
  assert (args ⊆ cmd_Args c) as Hs by (intros x Hx; apply Hsub; by right).
  pose proof (raw_value_given tail values positionals a Hv Hpos) as Hraw.
  destruct (raw_value values positionals a) as [[raw|] ps] eqn:Er; simpl in Hraw; destruct Hraw as [Hps Hraw].
  - pose proof (set_path_exists (arg_Field a) md [] (path_of a) raw m (path_of_not_nil a) Ha) as Hx.
    unfold setFieldPath. fold (path_of a).
    destruct (set_path _ _ _ _ _ _) as [[m1|e]|] eqn:Es; simpl; [| |by exists a].
    + apply set_path_ok in Es as (fd & v & Hf & Hc & _); [|apply path_of_not_nil].
      pose proof (coerce_held fd raw) as Hh. rewrite Hc in Hh.
      specialize (IH ps m1 Hs Hp Hps). destruct (bind_from _ _ _ _ _ _) as [[]|]; [|done..].
      constructor; [|done]. right. by exists raw, fd, v.
    + destruct Hx as (fd & Hfd & Hc). right. exists a, raw, fd, e. pose proof (coerce_held fd raw) as Hh. by rewrite Hc in Hh.
  - destruct (arg_Required a) eqn:Eq; [left; by exists a|].
    specialize (IH ps m Hs Hp Hps). destruct (bind_from _ _ _ _ _ _) as [[]|]; [|done..].
    constructor; [by left|done].
Qed.

End Binding.

(** ** Integers *)

Lemma pretty_N_char_digit x : (x < 10)%N ->
  is_digit (pretty_N_char x) = true /\ Z.of_nat (nat_of_ascii (pretty_N_char x)) - 48 = Z.of_N x.
Proof. intros Hx. do 10 (destruct x as [|x] using N.peano_ind; [by vm_compute|clear IHx]). lia. Qed.

Lemma parse_digits_go whole maxVal x s : 0 <= maxVal ->
  parse_digits whole maxVal 0 (pretty_N_go x s) =
  if maxVal <? Z.of_N x then Err (errRange whole) else parse_digits whole maxVal (Z.of_N x) s.
Proof.
  intros Hm. revert s. induction (N.lt_wf_0 x) as [x _ IH]; intros s.
  destruct (decide (x = 0%N)) as [->|Hx]; [by rw pretty_N_go_0 (proj2 (Z.ltb_ge maxVal (Z.of_N 0)) Hm)|].
  rw pretty_N_go_step; [|lia]. rw IH; [|apply N.div_lt; lia]. cbn [parse_digits].
  pose proof (N.mod_lt x 10 ltac:(lia)) as Hlt. destruct (pretty_N_char_digit _ Hlt) as [-> ->].
  pose proof (N.div_mod x 10 ltac:(lia)) as Hd.
  assert (10 * Z.of_N (x / 10) + Z.of_N (x mod 10) = Z.of_N x) as -> by lia.
  destruct (maxVal <? Z.of_N (x / 10)) eqn:E1; [|done].
  apply Z.ltb_lt in E1. destruct (maxVal <? Z.of_N x) eqn:E2; [done|]. apply Z.ltb_ge in E2.
  pose proof (N.div_lt x 10 ltac:(lia) ltac:(lia)). exfalso. lia.
Qed.

Lemma parse_digits_pretty whole maxVal (n : N) : 0 <= maxVal ->
  parse_digits whole maxVal 0 (pretty n) = if maxVal <? Z.of_N n then Err (errRange whole) else Ok (Z.of_N n).
Proof.
  intros Hm. unfold pretty, pretty_N. case_decide as Hn; [|by rw parse_digits_go].
  subst. rw (proj2 (Z.ltb_ge maxVal (Z.of_N 0)) Hm). cbn. by rw (proj2 (Z.ltb_ge maxVal 0) Hm).
Qed.

Lemma pretty_N_digits (n : N) : str_forall is_digit (pretty n) = true.
Proof.
  assert (forall x s, str_forall is_digit s = true -> str_forall is_digit (pretty_N_go x s) = true) as Hgo.
  { intros x. induction (N.lt_wf_0 x) as [x _ IH]; intros s Hs.
    destruct (decide (x = 0%N)) as [->|Hx]; [by rw pretty_N_go_0|]. rw pretty_N_go_step; [|lia].
    apply IH; [apply N.div_lt; lia|]. simpl. rw Hs andb_true_r. by apply pretty_N_char_digit, N.mod_lt. }
  unfold pretty, pretty_N. case_decide; [done|by apply Hgo].
Qed.

Lemma pretty_N_not_nil (n : N) : @pretty N _ n <> "".
Proof. intros E. apply (itoa_nonempty (Z.of_N n)). unfold itoa, pretty, pretty_Z. by destruct n. Qed.

Lemma ParseInt_decimal (z bits : Z) :
  1 <= bits ->
  ParseInt (itoa z) bits =
  if decide (- 2 ^ (bits - 1) <= z < 2 ^ (bits - 1)) then Ok z else Err (errRange (itoa z)).
Proof.
  intros Hb. assert (2 ^ bits = 2 * 2 ^ (bits - 1)) as Hp.
  { rw -Z.pow_succ_r; [|lia]. f_equal. lia. }
  pose proof (Z.pow_pos_nonneg 2 (bits - 1) ltac:(lia) ltac:(lia)) as Hpos.
  assert (forall n : N, z = Z.of_N n -> ParseInt (pretty n) bits =
    if decide (- 2 ^ (bits - 1) <= z < 2 ^ (bits - 1)) then Ok z else Err (errRange (pretty n))) as Hnat.
  { intros n ->. pose proof (pretty_N_digits n) as Hd. pose proof (pretty_N_not_nil n) as Hn.
    pose proof (parse_digits_pretty (pretty n) (2 ^ bits - 1) n ltac:(lia)) as Hx.
    unfold ParseInt. destruct (pretty n) as [|a s]; [done|]. simpl in Hd. apply andb_true_iff in Hd as [Ha _].
    destruct (decide (a = "+"%char)) as [->|]; [done|]. destruct (decide (a = "-"%char)) as [->|]; [done|].
    destruct (decide (String a s = "")); [done|]. rw Hx.
    destruct (2 ^ bits - 1 <? Z.of_N n) eqn:E1; cbn [result_bind negb andb]; bool_to_prop.
    - rw decide_False; [done|lia].
    - rw orb_false_r. destruct (2 ^ (bits - 1) <=? Z.of_N n) eqn:E2; bool_to_prop.
      + rw decide_False; [done|lia].
      + rw decide_True; [done|lia]. }
  destruct z as [|p|p]; [by apply (Hnat 0%N)|by apply (Hnat (N.pos p))|].
  change (itoa (Z.neg p)) with (String "-" (pretty (N.pos p))).
  pose proof (pretty_N_not_nil (N.pos p)) as Hn. unfold ParseInt.
  destruct (decide ("-" = "+")%char); [done|]. destruct (decide ("-" = "-")%char); [|done].
  destruct (decide (pretty (N.pos p) = "")); [done|].
  rw parse_digits_pretty; [|lia]. simpl Z.of_N.
  destruct (2 ^ bits - 1 <? Z.pos p) eqn:E1; simpl; bool_to_prop; [rw decide_False; [done|lia]|].
  destruct (2 ^ (bits - 1) <? Z.pos p) eqn:E2; bool_to_prop; [rw decide_False; [done|lia]|].
  rw decide_True; [done|lia].
Qed.

(** Integer arguments are read at the width of their field, exactly: the decimal text of a
    number gives the number back when it fits, at both ends of the range, and is refused
    as out of range when it does not; nothing wraps. *)
Theorem ParseInt_itoa (z bits : Z) :
  1 <= bits ->
  ParseInt (itoa z) bits =
  if decide (- 2 ^ (bits - 1) <= z < 2 ^ (bits - 1)) then Ok z else Err (errRange (itoa z)).
Proof. apply ParseInt_decimal. Qed.

(** ** A repeated field crashes the binding

    The coercion says that repeated fields fall back to [rat call --data], but it looks at
    the kind of the field alone, and a scalar set on a repeated field panics.  The check of
    the authoring gate accepts such an argument. *)
Definition rows_fields (md : string) : list FieldDescriptor :=
  if decide (md = "Scan") then [mkField "columns" StringKind true ""; mkField "target" MessageKind false "Target";
                                mkField "limit" Int32Kind false ""]
  else if decide (md = "Target") then [mkField "branch" StringKind false ""] else [].
Definition scan_rpc : Rpc := mkRpc "rat://format/v1/scan" "/rat.format.v1.FormatService/Scan" "Scan" "Rows".
Definition scan_columns : Command :=
  mkCommand "scan columns" "rat://format/v1/scan" "" [mkArg "columns" "columns" true true ""].
Definition no_float (s : string) : result unit := Err (errSyntax s).

Theorem repeated_field_panics :
  validateCommand [scan_rpc] rows_fields (demo_manifest "fmt" "format" [] []) scan_columns = Some None /\
  bindArgs no_float rows_fields "Scan" scan_columns ["id"] = None.
Proof. vm_compute. by split. Qed.

(** A field of a kind the command line cannot set passes the authoring gate all the same, and
    so does a default that is no value of its field: the command is then always refused. *)
Definition kinds_fields (md : string) : list FieldDescriptor :=
  [mkField "mode" EnumKind false ""; mkField "rows" Uint64Kind false ""; mkField "limit" Int32Kind false ""].
Definition kinds_command (field default : string) : Command :=
  mkCommand "scan" "rat://format/v1/scan" "" [mkArg "v" field false false default].
Theorem unsettable_field_checked :
  Forall (fun c => validateCommand [scan_rpc] kinds_fields (demo_manifest "fmt" "format" [] []) c = Some None /\
                   exists e, bindArgs no_float kinds_fields "Scan" c [] = Some (Err e))
    [kinds_command "mode" "FAST"; kinds_command "rows" "10"; kinds_command "limit" "ten"].
Proof. repeat (apply Forall_cons; split; [split; [by vm_compute|eexists; by vm_compute]|]). constructor. Qed.

(** ** At a concrete command *)

Definition scan_command : Command :=
  mkCommand "scan" "rat://format/v1/scan" ""
    [mkArg "table" "target.branch" true true ""; mkArg "limit" "limit" false false "10"].
Definition scan_manifest : Manifest :=
  mkManifest "rat.dev/v1" "format" (mkMetadata "fmt" "1.0" ∅) [] [] [] []
    (mkResources (mkQuantities "1" "") (mkQuantities "" "")) [] (mkContributes [scan_command]) "".

Lemma bindArgs_roundtrip_witness :
  exists m, bindArgs no_float rows_fields "Scan" scan_command ["main"; "--limit=-5"] = Some (Ok m) /\
    leaves m !! ["target"; "branch"] = Some (VString "main") /\ leaves m !! ["limit"] = Some (VInt32 (-5)).
Proof.
  assert (NoDup (arg_Field <$> cmd_Args scan_command) /\ NoDup (flag_names (cmd_Args scan_command)) /\
          writable_args (cmd_Args scan_command) [Some "main"; Some "-5"]) as (Hf & Hn & Hw).
  { split; [|split]; [by vm_compute; repeat constructor; set_solver..|by split_and!]. }
  pose proof (bindArgs_roundtrip no_float rows_fields "Scan" scan_command [Some "main"; Some "-5"] Hf Hn Hw) as H.
  change (render_args _ _) with ["main"; "--limit=-5"] in H.
  destruct (bindArgs no_float rows_fields "Scan" scan_command ["main"; "--limit=-5"]) as [[m|e]|] eqn:E;
    [|by vm_compute in E|by vm_compute in E].
  destruct H as [H _].
  apply Forall2_cons_1 in H as [(fd1 & v1 & Hf1 & Hc1 & H1) H].
  apply Forall2_cons_1 in H as [(fd2 & v2 & Hf2 & Hc2 & H2) _].
  injection Hf1 as <-. injection Hf2 as <-.
  exists m. split; [done|]. split.
  - destruct v1; simpl in Hc1; destruct Hc1 as [Hk Hc1]; try done; [by rewrite Hc1 in H1|exfalso; set_solver..].
  - destruct v2; simpl in Hc2; destruct Hc2 as [Hk Hc2]; try done; [|exfalso; set_solver].
    destruct Hc2 as [Hc2 _]. vm_compute in Hc2. injection Hc2 as <-. done.
Defined.


Lemma ParseInt_itoa_witness :
  ParseInt (itoa (-2147483648)) 32 = Ok (-2147483648) /\
  ParseInt (itoa 2147483648) 32 = Err (errRange (itoa 2147483648)).
Proof.
  split.
  - rewrite (ParseInt_itoa (-2147483648) 32); [done|lia].
  - rewrite (ParseInt_itoa 2147483648 32); [done|lia].
Defined.
