(* ===== verification/Net.v ===== *)
(** Network addresses: the part of [net] the daemon and the hub use.  Splitting
    a host and port, and parsing an IP address to decide whether it is a loopback. *)
From S2P Require Import Prelude Paths Manifest.

(** ** [net.SplitHostPort] *)

Definition addrErr (addr why : string) : result (string * string) := Err (Errorf "address %s: %s" [addr; why]).
Definition missingPort : string := "missing port in address".
Definition tooManyColons : string := "too many colons in address".

(** The text before and after the last [:]; [None] without one. *)
Definition cut_last_colon (s : string) : option (string * string) :=
  match rev (Split ":" s) with
  | p :: w :: ws => Some (Join (rev (w :: ws)) ":", p)
  | _ => None
  end.

(** Brackets that remain in the parts where none may be. *)
Definition no_brackets (addr opening closing host port : string) : result (string * string) :=
  if negb (no_byte "[" opening) then addrErr addr "unexpected '[' in address"
  else if negb (no_byte "]" closing) then addrErr addr "unexpected ']' in address"
  else Ok (host, port).

Definition SplitHostPort (hostport : string) : result (string * string) :=
  match cut_last_colon hostport with
  | None => addrErr hostport missingPort
  | Some (host, port) =>
      match hostport with
      | String "[" inner =>
          match Cut "]" inner with
          | (_, _, false) => addrErr hostport "missing ']' in address"
          | (_, "", true) => addrErr hostport missingPort
          | (h, rest, true) =>
              if decide (rest = String ":" port)
              then no_brackets hostport inner rest h port
              else if HasPrefix rest ":" then addrErr hostport tooManyColons
              else addrErr hostport missingPort
          end
      | _ =>
          if negb (no_byte ":" host) then addrErr hostport tooManyColons
          else no_brackets hostport hostport hostport host port
      end
  end.

Example SplitHostPort_ex :
  SplitHostPort "127.0.0.1:7700" = Ok ("127.0.0.1", "7700") /\ SplitHostPort ":7700" = Ok ("", "7700") /\
  SplitHostPort "[::1]:80" = Ok ("::1", "80") /\ is_Ok (SplitHostPort "::1") = false /\
  is_Ok (SplitHostPort "host") = false /\ is_Ok (SplitHostPort "[::1]") = false /\
  is_Ok (SplitHostPort "") = false /\ is_Ok (SplitHostPort "[a]b:1") = false /\ is_Ok (SplitHostPort "[a]:1:2") = false /\
  is_Ok (SplitHostPort "[[a]:1") = false /\ is_Ok (SplitHostPort "a]:1") = false.
Proof. by vm_compute. Qed.

(** ** [net.ParseIP] *)

Definition digit_val (a : ascii) : Z := Z.of_nat (nat_of_ascii a) - 48.

(** A decimal field of at most 255 without a leading zero. *)
Fixpoint octet_from (val : Z) (first : bool) (s : string) : option Z :=
  match s with
  | "" => if first then None else Some val
  | String a s' =>
      if is_digit a then
        if negb first && (val =? 0) then None
        else let v := val * 10 + digit_val a in
             if 255 <? v then None else octet_from v false s'
      else None
  end.
Definition octet (s : string) : option Z := octet_from 0 true s.

Definition parseIPv4Fields (s : string) : option (list Z) :=
  match Split "." s with
  | [a; b; c; d] => mapM octet [a; b; c; d]
  | _ => None
  end.

Definition hex_val (a : ascii) : option Z :=
  let n := Z.of_nat (nat_of_ascii a) in
  if (48 <=? n) && (n <=? 57) then Some (n - 48)
  else if (97 <=? n) && (n <=? 102) then Some (n - 87)
  else if (65 <=? n) && (n <=? 70) then Some (n - 55)
  else None.

(** The run of hexadecimal digits at the front: how many, their value, and the rest. *)
Fixpoint hex_run (off acc : Z) (s : string) : Z * Z * string :=
  match s with
  | String a s' => match hex_val a with
                   | Some d => hex_run (off + 1) (acc * 16 + d) s'
                   | None => (off, acc, s)
                   end
  | "" => (off, acc, "")
  end.

(** The groups of an IPv6 address: the bytes so far, where [::] stood, and the text left. *)
Fixpoint groups (n : nat) (ip : list Z) (ellipsis : option nat) (s : string) :
    option (list Z * option nat * string) :=
  match n with
  | O => Some (ip, ellipsis, s)
  | S n =>
      let '(off, acc, rest) := hex_run 0 0 s in
      if (off =? 0) || (4 <? off) then None
      else match rest with
           | String "." _ =>
               if (bool_decide (ellipsis = None) && negb (length ip =? 12)%nat) || (16 <? length ip + 4)%nat then None
               else v4 ← parseIPv4Fields s; Some (ip ++ v4, ellipsis, "")
           | _ =>
               let ip := ip ++ [acc / 256; acc mod 256] in
               match rest with
               | "" => Some (ip, ellipsis, "")
               | String ":" "" => None
               | String ":" (String ":" more) =>
                   match ellipsis with
                   | Some _ => None
                   | None => if decide (more = "") then Some (ip, Some (length ip), "")
                             else groups n ip (Some (length ip)) more
                   end
               | String ":" more => groups n ip ellipsis more
               | _ => None
               end
           end
  end.

Definition parseIPv6 (s : string) : option (list Z) :=
  if negb (no_byte "%" s) then None
  else
    let '(e, s) := if HasPrefix s "::" then (Some 0%nat, str_drop 2 s) else (None, s) in
    if bool_decide (e = Some 0%nat) && bool_decide (s = "") then Some (replicate 16 0)
    else
      '(ip, e, rest) ← groups 8 [] e s;
      if decide (rest = "") then
        match e with
        | None => if (length ip =? 16)%nat then Some ip else None
        | Some k => if (length ip =? 16)%nat then None
                    else Some (take k ip ++ replicate (16 - length ip) 0 ++ drop k ip)
        end
      else None.

(** What comes first, a dot or a colon, decides the family. *)
Fixpoint parse_addr (whole s : string) : option (list Z) :=
  match s with
  | "" => None
  | String a s' =>
      if decide (a = "."%char) then (fun v4 => replicate 10 0 ++ [255; 255] ++ v4) <$> parseIPv4Fields whole
      else if decide (a = ":"%char) then parseIPv6 whole
      else if decide (a = "%"%char) then None
      else parse_addr whole s'
  end.
(** Sixteen bytes; an IPv4 address in its mapped form. *)
Definition ParseIP (s : string) : option (list Z) := parse_addr s s.

Definition IP_IsLoopback (ip : list Z) : bool :=
  if decide (take 12 ip = replicate 10 0 ++ [255; 255]) then bool_decide (ip !! 12%nat = Some 127)
  else bool_decide (ip = replicate 15 0 ++ [1]).

Example ParseIP_ex :
  (IP_IsLoopback <$> ParseIP "127.0.0.1") = Some true /\ (IP_IsLoopback <$> ParseIP "::1") = Some true /\
  (IP_IsLoopback <$> ParseIP "::ffff:127.9.0.1") = Some true /\ (IP_IsLoopback <$> ParseIP "10.0.0.1") = Some false /\
  (IP_IsLoopback <$> ParseIP "fe80::1:2") = Some false /\ (IP_IsLoopback <$> ParseIP "0:0:0:0:0:0:0:1") = Some true /\
  ParseIP "127.0.1" = None /\ ParseIP "127.0.0.01" = None /\ ParseIP "256.0.0.1" = None /\ ParseIP "host" = None /\
  ParseIP "1:2:3" = None /\ ParseIP "1::2::3" = None /\ ParseIP "fe80::1%lo" = None /\ ParseIP "12345::" = None /\
  ParseIP "1:2:3:4:5:6:7::" = Some [0;1;0;2;0;3;0;4;0;5;0;6;0;7;0;0] /\ ParseIP "1:2:3:4:5:6:7:8::" = None.
Proof. by vm_compute. Qed.

(** ** A plain host and port, and a dotted quad *)

Definition plain (s : string) : Prop := no_byte ":" s = true /\ no_byte "[" s = true /\ no_byte "]" s = true.

Lemma SplitHostPort_plain h p : plain h -> plain p -> SplitHostPort (h +:+ String ":" p) = Ok (h, p).
Proof.
  intros (Hc & Ho & Hx) (Pc & Po & Px). unfold SplitHostPort.
  assert (cut_last_colon (h +:+ String ":" p) = Some (h, p)) as ->.
  { unfold cut_last_colon. rw Split_sep (Split_no_byte _ _ Hc) (Split_no_byte _ _ Pc). done. }
  assert (no_brackets (h +:+ String ":" p) (h +:+ String ":" p) (h +:+ String ":" p) h p = Ok (h, p)) as E.
  { unfold no_brackets. rw !no_byte_app Ho Hx.
    change (no_byte "[" (String ":" p)) with (no_byte "[" p). change (no_byte "]" (String ":" p)) with (no_byte "]" p).
    by rw Po Px. }
  rw Hc. simpl negb. cbv iota. destruct h as [|a h]; [exact E|].
  rw str_app_cons. rw str_app_cons in E. clear Hx.
  destruct (decide (a = "["%char)) as [->|Ha]; [by vm_compute in Ho|].
  destruct a as [[] [] [] [] [] [] [] []]; try exact E. by destruct Ha.
Qed.

Definition is_octet (z : Z) : Prop := 0 <= z <= 255.

Lemma octet_all z : is_octet z -> octet (itoa z) = Some z /\ no_byte "." (itoa z) = true.
Proof.
  intros [H0 H1].
  assert (forallb (fun n => bool_decide (octet (itoa (Z.of_nat n)) = Some (Z.of_nat n)) && no_byte "." (itoa (Z.of_nat n)))
            (seq 0 256) = true) as H by by vm_compute.
  rewrite forallb_forall in H. specialize (H (Z.to_nat z)). rw Z2Nat.id in H; [|done].
  apply andb_true_iff in H as [Ha Hb]; [by bool_to_prop|]. apply in_seq. lia.
Qed.

Definition dotted (a b c d : Z) : string := Join [itoa a; itoa b; itoa c; itoa d] ".".

Lemma ParseIP_dotted a b c d : is_octet a -> is_octet b -> is_octet c -> is_octet d ->
  ParseIP (dotted a b c d) = Some (replicate 10 0 ++ [255; 255; a; b; c; d]).
Proof.
  intros Ha Hb Hc Hd. destruct (octet_all a Ha) as [Ea Na], (octet_all b Hb) as [Eb Nb],
    (octet_all c Hc) as [Ec Nc], (octet_all d Hd) as [Ed Nd].
  assert (parseIPv4Fields (dotted a b c d) = Some [a; b; c; d]) as Hf.
  { unfold parseIPv4Fields, dotted. rw Split_Join; [|done|by repeat constructor].
    simpl. by rw Ea Eb Ec Ed. }
  unfold ParseIP. assert (forall t, str_forall numeral_byte t = true -> parse_addr (dotted a b c d) (t +:+ "." +:+ Join [itoa b; itoa c; itoa d] ".")
    = Some (replicate 10 0 ++ [255; 255; a; b; c; d])) as H.
  { induction t as [|x t IH]; simpl; [by rw Hf|]. intros [Hx Ht]%andb_true_iff.
    destruct (decide (x = "."%char)) as [->|]; [done|]. destruct (decide (x = ":"%char)) as [->|]; [done|].
    destruct (decide (x = "%"%char)) as [->|]; [done|]. by apply IH. }
  change (dotted a b c d) with (itoa a +:+ "." +:+ Join [itoa b; itoa c; itoa d] ".") at 2. apply H, itoa_numeral.
Qed.

Lemma IsLoopback_dotted a b c d : IP_IsLoopback (replicate 10 0 ++ [255; 255; a; b; c; d]) = bool_decide (a = 127).
Proof. unfold IP_IsLoopback. simpl. apply bool_decide_ext. split; [by intros [= ->]|by intros ->]. Qed.
