(* ===== verification/Daemon.v ===== *)
(** The daemon (src/core/cmd/rat/main.go): the topology-dependent addresses, assembling a
    plane in either mode, the launch-mode boot with its bounded wait, its teardown, and
    the serving process around it. *)
From S2P Require Import Prelude Manifest Registry CallContext Gateway Reconciler DeployRuntime Supervisor Plane Rewire Control Project Validate Net.

(** ** Addresses and the runtime *)

Definition isLoopbackBind (addr : string) : bool :=
  HasPrefix addr "127.0.0.1" || HasPrefix addr "localhost" || HasPrefix addr "[::1]".
Definition isContainerRuntime (rt : string) : bool := bool_decide (rt = "podman") || bool_decide (rt = "docker").

Section Topology.
Context (Getenv : string -> string) (Hostname : string).

Definition gatewayCallbackAddr (pl : LoadedPlane) (port : string) : string :=
  if negb (bool_decide (Getenv "RAT_PODMAN_NETWORK" = ""))
  then (if decide (Hostname = "") then "rat" else Hostname) +:+ ":" +:+ port
  else if decide (pl_Runtime pl = "podman") then "host.containers.internal:" +:+ port
  else "127.0.0.1:" +:+ port.

Definition selfGatewayAddr (pl : LoadedPlane) : string :=
  let port := match SplitHostPort (pl_Addr pl) with
              | Ok (_, p) => if decide (p = "") then "7777" else p
              | Err _ => "7777"
              end in
  gatewayCallbackAddr pl port.

(** Whether a listener for plugin callbacks is opened beside the control listener, whose TCP
    port is [cbPort] (empty for a unix socket). *)
Definition loopbackTCP (pl : LoadedPlane) (cbPort : string) : bool :=
  negb (bool_decide (cbPort = "")) && isLoopbackBind (pl_Addr pl) && isContainerRuntime (pl_Runtime pl).
Definition needs_companion (pl : LoadedPlane) (cbPort : string) : bool :=
  bool_decide (cbPort = "") || loopbackTCP pl cbPort.

Definition newRuntime (o : OS) (h : Host) (name instance dataRoot : string) : result (LocalProcess + Podman) :=
  if decide (name = "local") then Ok (inl (NewLocalProcess o))
  else if decide (name = "podman") then
    let net := Getenv "RAT_PODMAN_NETWORK" in
    let p := if decide (net = "") then NewPodman h else NewPodmanInstanced h net instance in
    Ok (inr (mkPodman dataRoot (Network p) (NamePrefix p) (seq p) (instances p) (host p)))
  else Err (Errorf "unknown runtime %q" [name]).
End Topology.

(** ** The launch-mode boot *)

Section Launch.
Context {R Conn : Type} `{DeploymentRuntime R LaunchSpec}.
Context (grpc_NewClient : nat -> string -> result Conn).
(** The token minted for the [i]-th spec. *)
Context (newPluginToken : nat -> string).
Context (Duration_String : Z -> string).

Definition launch_cfg (healthTimeout : Z) : Config :=
  mkConfig (500 * milli) (10 * (1000 * milli)) 6 healthTimeout 0 (fun _ => 0).

(** The loop over the specs: the desired set and the token of every launched plugin. *)
Fixpoint launch_specs (gwAddr : string) (i : nat) (specs : list (PluginSpec LaunchSpec))
    (ds : list (Desired LaunchSpec)) (toks : gmap string string) : list (Desired LaunchSpec) * gmap string string :=
  match specs with
  | [] => (ds, toks)
  | s :: specs' =>
      match sp_Launch s with
      | None => launch_specs gwAddr (S i) specs' ds toks
      | Some l =>
          let name := name_of (sp_Manifest s) in
          let tok := newPluginToken i in
          let l := injectLaunchEnv l name gwAddr tok (Manifest_PublishPorts (sp_Manifest s)) in
          launch_specs gwAddr (S i) specs' (ds ++ [mkDesired name l]) (<[name := tok]> toks)
      end
  end.

Definition set_tokens (g : Gateway (Conn := Conn)) (toks : gmap string string) : Gateway :=
  fold_left (fun g kv => Gateway_SetPluginToken g kv.2 kv.1) (map_to_list toks) g.

(** Registry, gateway, rewire and reconciler, before the loop starts. *)
Definition plane_start (descriptors : list FileDesc) (gwAddr : string) (pl : LoadedPlane) (rt : R) :
    result (Control (R := R) (Conn := Conn)) :=
  let '(ds, toks) := launch_specs gwAddr 0 (pl_Specs pl) [] ∅ in
  match New (sp_Manifest <$> pl_Specs pl) with
  | Err e => Err (Wrap "registry: %w" [] e)
  | Ok r =>
      let gw := Gateway_RequirePluginAuth (set_tokens (gateway_New r ∅ descriptors) toks) true in
      Ok (mkControl gw true (reconciler_New rt ds) newGatewayRewire)
  end.

(** What has come out of a boot: the plane and its control service; an error before any
    plugin was launched; or an error with the plane that was torn down. *)
Inductive booted :=
  | Up (c : Control (R := R) (Conn := Conn))
  | Refused (e : error)
  | TornDown (e : error) (c : Control (R := R) (Conn := Conn)).

Section Boot.
Context (cfg : Config).
(** The order in which the map of statuses happens to be iterated at the shutdown. *)
Context (order : gmap string pluginStatus -> list string).

(** The loop is cancelled but not waited for: a pass may still be made after the instances were
    collected, before the connections are closed or after that.  A cancelled loop makes no
    second one. *)
Definition plane_close (c : Control (R := R) (Conn := Conn)) : Control (R := R) (Conn := Conn) :=
  mkControl (c_gw c) (c_wired c) (c_rec c) (gatewayRewire_Close (c_rw c)).
Definition plane_shutdown (late : option (Z * bool)) (c : Control (R := R) (Conn := Conn)) : Control (R := R) (Conn := Conn) :=
  let c := mkControl (c_gw c) (c_wired c) (Reconciler_Shutdown cfg (c_rec c) (order (plugins (c_rec c)))) (c_rw c) in
  match late with
  | None => plane_close c
  | Some (now, true) => plane_close (c_Reconcile cfg grpc_NewClient c now)
  | Some (now, false) => c_Reconcile cfg grpc_NewClient (plane_close c) now
  end.

Section Wait.
Context (clock : nat -> Z) (passes : nat -> list Z).
Context (deadline : Z).

(** Waiting for one plugin: before a look the reconcile loop makes its passes; [j] counts
    the looks that found a plugin healthy, [i] the others, after each of which the clock
    is read. *)
Fixpoint await_one (fuel j i : nat) (name : string) (c : Control (R := R) (Conn := Conn)) :
    option (bool * nat * Control (R := R) (Conn := Conn)) :=
  match fuel with
  | O => None
  | S fuel =>
      let c := fold_left (c_Reconcile cfg grpc_NewClient) (passes (j + i)) c in
      if decide ((Reconciler_Status (c_rec c) name).1.1 = Healthy) then Some (true, i, c)
      else if deadline <? clock (S i) then Some (false, i, c)
      else await_one fuel j (S i) name c
  end.

(** All of them in turn; the first that missed the deadline ends the wait. *)
Fixpoint await_all (fuel j i : nat) (names : list string) (c : Control (R := R) (Conn := Conn)) :
    option (option string * Control (R := R) (Conn := Conn)) :=
  match names with
  | [] => Some (None, c)
  | name :: names' =>
      '(ok, i, c) ← await_one fuel j i name c;
      if ok : bool then await_all fuel (S j) i names' c else Some (Some name, c)
  end.
End Wait.
End Boot.

(** [callback] is the address computed from the listeners, [fallback] the plane's own;
    [lease] whether the lease backend failed to open. *)
Definition launchPlane (order : gmap string pluginStatus -> list string) (late : option (Z * bool)) (clock : nat -> Z)
    (passes : nat -> list Z) (lease : option error) (descriptors : list FileDesc)
    (callback fallback : string) (pl : LoadedPlane) (rt : R) : option booted :=
  let gwAddr := if decide (callback = "") then fallback else callback in
  let cfg := launch_cfg (pl_HealthTimeout pl) in
  match plane_start descriptors gwAddr pl rt with
  | Err e => Some (Refused e)
  | Ok c =>
      match lease with
      | Some e => Some (Refused e)
      | None =>
          let timeout := pl_HealthTimeout pl + 5 * (1000 * milli) in
          '(missed, c) ← await_all cfg clock passes (clock 0%nat + timeout) (wait_fuel timeout (50 * milli))
                           0 0 (Reconciler_DesiredNames (c_rec c)) c;
          Some match missed with
               | Some name => TornDown (Errorf "plugin %q never became healthy within %s"
                                          [name; Duration_String (pl_HealthTimeout pl)]) (plane_shutdown cfg order late c)
               | None => Up c
               end
      end
  end.

(** ** Either mode *)

(** What [assemble] gives back: the outcome of a launch, or of an attach. *)
Inductive assembled :=
  | ByLaunch (b : booted)
  | ByAttach (p : result (Plane (Conn := Conn)) * Assembly (R := R) (Conn := Conn))
  | Mixed (e : error).

(** The attach path dials with the supervisor's own connections. *)
Definition assemble (dial_addr : string -> result Conn) (dial_endpoint : string -> nat -> option error)
    (clocks : nat -> nat -> Z) (order : gmap string pluginStatus -> list string) (late : option (Z * bool)) (clock : nat -> Z)
    (passes : nat -> list Z) (lease : option error) (descriptors : list FileDesc)
    (callback fallback : string) (pl : LoadedPlane) (rt : R) : option assembled :=
  if hasLaunch (pl_Specs pl) && hasEndpoint (pl_Specs pl)
  then Some (Mixed (Errorf "plane mixes launch and attach plugins — not supported in v1 (use all-launch or all-attach)" []))
  else if hasEndpoint (pl_Specs pl)
  then '(p, a) ← Attach dial_addr dial_endpoint clocks (fun _ _ => None) (pl_HealthTimeout pl) rt (pl_Specs pl) descriptors;
       Some (ByAttach (match p with Ok p => Ok p | Err e => Err (Wrap "attach plane: %w" [] e) end, a))
  else b ← launchPlane order late clock passes lease descriptors callback fallback pl rt; Some (ByLaunch b).

(** The error of an assembly, if it failed. *)
Definition assembled_err (x : assembled) : option error :=
  match x with
  | ByLaunch (Up _) => None
  | ByLaunch (Refused e) | ByLaunch (TornDown e _) => Some e
  | ByAttach (Ok _, _) => None
  | ByAttach (Err e, _) => Some e
  | Mixed e => Some e
  end.
End Launch.

(** ** The serving process *)

Inductive handle := AuditFile | ControlListener | CallbackListener.
Inductive effect :=
  | Opened (h : handle) | Closed (h : handle)
  | MetricsOn | MetricsOff | Published | Retracted | Drained.
#[export] Instance handle_eq_dec : EqDecision handle.
Proof. solve_decision. Defined.
#[export] Instance effect_eq_dec : EqDecision effect.
Proof. solve_decision. Defined.

Section Serve.
Context (Getenv : string -> string) (Hostname : string).
(** What the environment answers: the runtime, the audit file, the two listeners (with their
    TCP ports), the assembly at a callback address, and how serving ends: a signal, or one
    of the servers with or without an error. *)
Record serving := mkServing {
  sv_runtime : option error;
  sv_audit : option error;
  sv_listen : result string;
  sv_callback : result string;
  sv_assemble : string -> option error;
  sv_end : option (option error);
}.

(** Draining stops the servers, which close their listeners, and shuts the plane down. *)
Definition drain (servers : list handle) : list effect := (Closed <$> servers) ++ [Drained].

(** What the wait for a signal, or for a server that ends, returns. *)
Definition serve_end (e : option (option error)) : option error :=
  match e with Some (Some e) => Some (Wrap "gateway serve: %w" [] e) | _ => None end.

(** [hasProject]: the plane has a runtime directory.  Deferred calls run in reverse order. *)
Definition serveResolved (hasProject : bool) (pl : LoadedPlane) (env : serving) : option error * list effect :=
  match sv_runtime env with
  | Some e => (Some e, [])
  | None =>
      match (if hasProject then sv_audit env else None) with
      | Some e => (Some (Wrap "open durable audit log: %w" [] e), [])
      | None =>
          let opened := if hasProject then [Opened AuditFile] else [] in
          let deferred := if hasProject then [Closed AuditFile] else [] in
          match sv_listen env with
          | Err e => (Some (Wrap "listen on %s: %w" [pl_Addr pl] e), opened ++ deferred)
          | Ok port =>
              let opened := opened ++ [Opened ControlListener] in
              let cb := if needs_companion pl port then Some (sv_callback env) else None in
              match cb with
              | Some (Err e) =>
                  (Some (Wrap "open plugin-callback listener: %w" [] e), opened ++ [Closed ControlListener] ++ deferred)
              | _ =>
                  let cbPort := match cb with Some (Ok p) => p | _ => port end in
                  let listeners := ControlListener :: (if cb then [CallbackListener] else []) in
                  let opened := opened ++ (if cb then [Opened CallbackListener] else []) in
                  match sv_assemble env (gatewayCallbackAddr Getenv Hostname pl cbPort) with
                  | Some e => (Some e, opened ++ (Closed <$> listeners) ++ deferred)
                  | None =>
                      let trace := opened ++ [MetricsOn] ++ (if hasProject then [Published] else []) ++
                                   drain listeners ++
                                   (if hasProject then [Retracted] else []) ++ [MetricsOff] ++ deferred in
                      (serve_end (sv_end env), trace)
                  end
              end
          end
      end
  end.
End Serve.

(** ** Shutdown *)

Section Proofs.
Context {R Conn : Type} `{DeploymentRuntime R LaunchSpec}.
Context (cfg : Config).
Implicit Types (r : Reconciler R LaunchSpec).

Definition cleared (ps : pluginStatus) : pluginStatus :=
  mkStatus (ps_state ps) "" (endpoint ps) (attempts ps) (nextRetryAt ps) (launchedAt ps).

Lemma forget_all order r :
  desired (fold_left forget_instance order r) = desired r /\ events (fold_left forget_instance order r) = events r /\
  (forall n, n ∈ order -> plugins (fold_left forget_instance order r) !! n = cleared <$> plugins r !! n) /\
  (forall n, n ∉ order -> plugins (fold_left forget_instance order r) !! n = plugins r !! n).
Proof.
  revert r. induction order as [|x order IH]; intros r; simpl.
  { split_and!; try done. intros n Hn. by apply not_elem_of_nil in Hn. }
  destruct (IH (forget_instance r x)) as (H1 & H2 & H3 & H4).
  assert (desired (forget_instance r x) = desired r /\ events (forget_instance r x) = events r /\
          plugins (forget_instance r x) !! x = cleared <$> plugins r !! x /\
          forall n, n <> x -> plugins (forget_instance r x) !! n = plugins r !! n) as (K1 & K2 & K3 & K4).
  { unfold forget_instance. destruct (plugins r !! x) as [ps|] eqn:E; [|by rw E].
    destruct (decide (Reconciler.instanceID ps = "")) as [Hi|Hi]; simpl.
    - split_and!; try done. rw E. simpl. by destruct ps; simpl in *; subst.
    - split_and!; [done..|by rw lookup_insert_eq|]. intros n Hn. by rw lookup_insert_ne. }
  rw H1 H2 K1 K2. split_and!; try done.
  - intros n [->|Hn]%elem_of_cons; [|destruct (decide (n = x)) as [->|Hx]].
    + destruct (decide (x ∈ order)) as [Ho|Ho]; [rw (H3 _ Ho) K3|by rw (H4 _ Ho) K3].
      by destruct (plugins r !! x).
    + rw (H3 _ Hn) K3. by destruct (plugins r !! x).
    + rw (H3 _ Hn). by rw K4.
  - intros n [Hx Hn]%not_elem_of_cons. rw (H4 _ Hn). by rw K4.
Qed.

Lemma terminate_all ids r :
  Forall (fun id => id <> "") ids ->
  plugins (fold_left (Reconciler_terminate cfg) ids r) = plugins r /\
  desired (fold_left (Reconciler_terminate cfg) ids r) = desired r /\
  events (fold_left (Reconciler_terminate cfg) ids r) = events r ++ (ETerminate <$> ids).
Proof.
  revert r. induction ids as [|id ids IH]; intros r; simpl; [by rw app_nil_r|].
  intros [Hid Hids]%Forall_cons. destruct (IH (Reconciler_terminate cfg r id) Hids) as (-> & -> & ->).
  unfold Reconciler_terminate. rw decide_False //. simpl. by rw -app_assoc.
Qed.

(** A shutdown that visits every status terminates every instance that is held, and leaves
    no status with one. *)
Lemma Shutdown_spec order r :
  (forall n, is_Some (plugins r !! n) -> n ∈ order) ->
  desired (Reconciler_Shutdown cfg r order) = desired r /\
  (forall n, plugins (Reconciler_Shutdown cfg r order) !! n = cleared <$> plugins r !! n) /\
  exists ids, events (Reconciler_Shutdown cfg r order) = events r ++ (ETerminate <$> ids) /\
    forall id, id ∈ ids <-> id <> "" /\ exists n ps, n ∈ order /\ plugins r !! n = Some ps /\ Reconciler.instanceID ps = id.
Proof.
  intros Hall. unfold Reconciler_Shutdown. set (ids := omap _ order).
  destruct (forget_all order r) as (H1 & H2 & H3 & H4).
  assert (forall id, id ∈ ids <-> id <> "" /\ exists n ps, n ∈ order /\ plugins r !! n = Some ps /\ Reconciler.instanceID ps = id) as Hids.
  { intros id. unfold ids. rewrite list_elem_of_omap. split.
    - intros (n & Hn & E). destruct (plugins r !! n) as [ps|] eqn:Ep; [|done]. simpl in E.
      destruct (decide (Reconciler.instanceID ps = "")); [done|]. injection E as <-. eauto 6.
    - intros (Hne & n & ps & Hn & Ep & <-). exists n. split; [done|]. rw Ep. simpl. by rw decide_False. }
  destruct (terminate_all ids (fold_left forget_instance order r)) as (E1 & E2 & E3).
  { apply Forall_forall. intros id Hid. by apply Hids in Hid as [? _]. }
  rw E1 E2 E3 H1 H2. split_and!; [done| |by exists ids].
  intros n. destruct (decide (n ∈ order)) as [Hn|Hn]; [by apply H3|].
  rw (H4 _ Hn). destruct (plugins r !! n) eqn:E; [|done]. destruct Hn. apply Hall. by eexists.
Qed.
End Proofs.

(** ** The plane before the loop starts *)

Section Start.
Context {R Conn : Type} `{DeploymentRuntime R LaunchSpec}.
Context (newPluginToken : nat -> string).
Implicit Types (specs : list (PluginSpec LaunchSpec)).

(** The [i]-th spec is launched, as this entry of the desired set. *)
Definition launched_as (gwAddr : string) (i : nat) (s : PluginSpec LaunchSpec) (d : Desired LaunchSpec) : Prop :=
  exists l, sp_Launch s = Some l /\
    d = mkDesired (name_of (sp_Manifest s))
          (mkLaunch (ls_Image l) (ls_Isolation l)
             (told_env (ls_Env l) (name_of (sp_Manifest s)) gwAddr (newPluginToken i) (Manifest_PublishPorts (sp_Manifest s)))).

Lemma launch_specs_desired gwAddr i specs ds toks d :
  d ∈ (launch_specs newPluginToken gwAddr i specs ds toks).1 <->
  d ∈ ds \/ exists j s, specs !! j = Some s /\ launched_as gwAddr (i + j) s d.
Proof.
  revert i ds toks. induction specs as [|s specs IH]; intros i ds toks; simpl; [naive_solver|].
  assert (forall P : nat -> PluginSpec LaunchSpec -> Prop, (exists j x, (s :: specs) !! j = Some x /\ P (i + j)%nat x) <->
            P i s \/ exists j x, specs !! j = Some x /\ P (S i + j)%nat x) as Hsplit.
  { intros P. split.
    - intros ([|j] & x & Hx & Hp); simpl in Hx; [injection Hx as <-; left; by rw Nat.add_0_r in Hp|].
      right. exists j, x. by rw Nat.add_succ_r in Hp.
    - intros [Hp|(j & x & Hx & Hp)]; [exists 0%nat, s; by rw Nat.add_0_r|]. exists (S j), x. by rw Nat.add_succ_r. }
  rewrite (Hsplit (fun k x => launched_as gwAddr k x d)). unfold launched_as at 1.
  destruct (sp_Launch s) as [l|]; rw IH; rewrite ?injectLaunchEnv_told.
  - rewrite elem_of_app list_elem_of_singleton. naive_solver.
  - naive_solver.
Qed.

Lemma launch_specs_names gwAddr i specs ds toks :
  exists names, d_Name <$> (launch_specs newPluginToken gwAddr i specs ds toks).1 = (d_Name <$> ds) ++ names /\
    names `sublist_of` ((fun s => name_of (sp_Manifest s)) <$> specs).
Proof.
  revert i ds toks. induction specs as [|s specs IH]; intros i ds toks; simpl; [exists []; by rewrite app_nil_r|].
  destruct (sp_Launch s) as [l|].
  - edestruct IH as (names & -> & Hs). exists (name_of (sp_Manifest s) :: names). rewrite fmap_app -app_assoc. split; [done|]. by constructor.
  - edestruct IH as (names & -> & Hs). exists names. split; [done|]. by constructor.
Qed.

Lemma launch_specs_tokens gwAddr i specs ds toks n t :
  (launch_specs newPluginToken gwAddr i specs ds toks).2 !! n = Some t ->
  toks !! n = Some t \/
  exists j s l, specs !! j = Some s /\ sp_Launch s = Some l /\ name_of (sp_Manifest s) = n /\ t = newPluginToken (i + j).
Proof.
  revert i ds toks. induction specs as [|s specs IH]; intros i ds toks; simpl; [by left|].
  destruct (sp_Launch s) as [l|] eqn:El; intros Hn; apply IH in Hn as [Hn|(j & s' & l' & H1 & H2 & H3 & H4)].
  - apply lookup_insert_Some in Hn as [[<- <-]|[_ Hn]]; [|by left]. right. exists 0%nat, s, l. by rw Nat.add_0_r.
  - right. exists (S j), s', l'. by rw Nat.add_succ_r.
  - by left.
  - right. exists (S j), s', l'. by rw Nat.add_succ_r.
Qed.

Lemma launch_specs_token gwAddr i specs ds toks j s l :
  NoDup ((fun s => name_of (sp_Manifest s)) <$> specs) -> specs !! j = Some s -> sp_Launch s = Some l ->
  (launch_specs newPluginToken gwAddr i specs ds toks).2 !! name_of (sp_Manifest s) = Some (newPluginToken (i + j)).
Proof.
  revert i j ds toks. induction specs as [|x specs IH]; intros i j ds toks; [done|].
  intros [Hx Hnd]%NoDup_cons Hj Hl. destruct j as [|j]; simpl in Hj.
  - injection Hj as ->. simpl. rw Hl Nat.add_0_r. clear IH Hnd.
    assert (forall i ds toks t, toks !! name_of (sp_Manifest s) = Some t ->
      (launch_specs newPluginToken gwAddr i specs ds toks).2 !! name_of (sp_Manifest s) = Some t) as Hkeep.
    { induction specs as [|y specs IH]; intros i' ds' toks' t Ht; [done|]. simpl.
      assert (name_of (sp_Manifest y) <> name_of (sp_Manifest s)) as Hy.
      { intros E. apply Hx. rw E. by left. }
      destruct (sp_Launch y); apply IH; try (by intros E; apply Hx; right); [by rw lookup_insert_ne|done]. }
    apply Hkeep. by rw lookup_insert_eq.
  - rw Nat.add_succ_r. simpl. destruct (sp_Launch x); by apply (IH (S i) j).
Qed.

Lemma set_tokens_fields (g : Gateway (Conn := Conn)) l :
  let g' := fold_left (fun g kv => Gateway_SetPluginToken g kv.2 kv.1) l g in
  reg g' = reg g /\ g_providers g' = g_providers g /\ requireAuth g' = requireAuth g.
Proof. revert g. induction l as [|kv l IH]; intros g; [done|]. apply (IH (Gateway_SetPluginToken g kv.2 kv.1)). Qed.

Lemma set_tokens_lookup (g : Gateway (Conn := Conn)) (l : list (string * string)) t n :
  NoDup l.*2 ->
  pluginTokens (fold_left (fun g kv => Gateway_SetPluginToken g kv.2 kv.1) l g) !! t = Some n <->
  (n, t) ∈ l \/ (t ∉ l.*2 /\ pluginTokens g !! t = Some n).
Proof.
  revert g. induction l as [|[k v] l IH]; intros g; [intros _; simpl; set_solver|].
  rewrite fmap_cons. intros [Hv Hnd]%NoDup_cons. cbn [fold_left]. rw IH //. simpl in *.
  rewrite elem_of_cons not_elem_of_cons lookup_insert_Some. split.
  - intros [Hin|[Ht [[<- <-]|[Hne Hn]]]]; [by left; right|by left; left|right; done].
  - intros [[[= -> ->]|Hin]|[[Hne Ht] Hn]]; [right; split; [done|by left]|by left|right; split; [done|by right]].
Qed.
End Start.

Lemma insert_all_names ms r r' : insert_all r ms = Ok r' ->
  NoDup (name_of <$> ms) /\ Forall (fun m => byName r !! name_of m = None) ms.
Proof.
  revert r. induction ms as [|m ms IH]; intros r; [by split; constructor|]. simpl. intros Hi.
  apply result_bind_Ok in Hi as (r1 & Hr & Hi). unfold Registry_insert in Hr.
  destruct (byName r !! name_of m) eqn:E; [done|]. injection Hr as <-. apply IH in Hi as [Hnd Hf]. simpl in Hf.
  rewrite Forall_forall in Hf.
  split; constructor; try done.
  - intros (x & Hx & Hin)%list_elem_of_fmap. specialize (Hf x Hin). rewrite -Hx lookup_insert_eq in Hf. done.
  - apply Forall_forall. intros x Hx. specialize (Hf x Hx). by apply lookup_insert_None in Hf as [? _].
Qed.

(** ** The boot *)

Section Booting.
Context {R Conn : Type} `{DeploymentRuntime R LaunchSpec}.
Context (grpc_NewClient : nat -> string -> result Conn).
Context (newPluginToken : nat -> string).
Context (cfg : Config) (Hcap : 0 < CrashLoopCap cfg).
Implicit Types (c : Control (R := R) (Conn := Conn)).

Record booting c0 c : Prop := {
  bt_ok : ctl_ok cfg c;
  bt_wired : wired_ok (c_gw c, c_rw c);
  bt_admin : same_admin c0 c;
  bt_auth : requireAuth (c_gw c) = requireAuth (c_gw c0);
  bt_desired : desired (c_rec c) = desired (c_rec c0);
}.

Lemma wire_auth es (w : Gateway (Conn := Conn) * gatewayRewire) :
  requireAuth (wire grpc_NewClient w es).1 = requireAuth w.1.
Proof.
  revert w. induction es as [|e es IH]; intros w; [done|]. simpl. rw IH.
  destruct w as [g rw], e as [n|id|n ep|n]; simpl; try done. by destruct (grpc_NewClient _ _).
Qed.

Lemma drive_wired c r :
  wired_ok (c_gw c, c_rw c) ->
  wired_ok (c_gw (drive grpc_NewClient c r), c_rw (drive grpc_NewClient c r)) /\
  requireAuth (c_gw (drive grpc_NewClient c r)) = requireAuth (c_gw c).
Proof.
  intros Hw. unfold drive. set (new := drop _ _).
  pose proof (wire_ok grpc_NewClient new _ Hw) as H1. pose proof (wire_auth new (c_gw c, c_rw c)) as H2.
  by destruct (wire _ _ _).
Qed.

Lemma passes_booting c0 ts c : booting c0 c -> booting c0 (fold_left (c_Reconcile cfg grpc_NewClient) ts c).
Proof.
  revert c. induction ts as [|t ts IH]; intros c Hb; [done|]. simpl. apply IH. destruct Hb as [H1 H2 H3 H4 H5].
  destruct (c_Reconcile_ok cfg grpc_NewClient c t Hcap H1) as (K1 & K2 & K3).
  destruct (drive_wired c (Reconciler_Reconcile cfg (c_rec c) t) H2) as [K4 K5].
  constructor; [done|done|by eapply same_admin_trans|by rw K5|by rw K3].
Qed.

(** A pass over plugins that hold no instance binds none, and an instance held after it is one
    it launched. *)
Lemma idle_advance (r : Reconciler R LaunchSpec) d ps now r' ps' :
  Reconciler.instanceID ps = "" -> advance cfg r d ps now = (r', ps') ->
  plugins r' = plugins r /\ exists es, events r' = events r ++ es /\ (forall n ep, EBind n ep ∉ es) /\
    (Reconciler.instanceID ps' <> "" -> ELaunch (d_Name d) ∈ es).
Proof.
  intros Hi. unfold advance, Reconciler_status, Reconciler_launch. rw Hi.
  assert (forall r0 es0 psf rf, plugins r0 = plugins r -> events r0 = events r ++ es0 -> (forall n ep, EBind n ep ∉ es0) ->
    Reconciler_fail cfg r0 ps now = (rf, psf) -> plugins rf = plugins r /\ exists es, events rf = events r ++ es /\
      (forall n ep, EBind n ep ∉ es) /\ (Reconciler.instanceID psf <> "" -> ELaunch (d_Name d) ∈ es)) as Hfail.
  { intros r0 es0 psf rf Hp He Hb (E1 & _ & _ & (es & E2 & Hes) & E3 & _)%fail_spec. split; [by rewrite E1|].
    exists (es0 ++ es). split_and!; [by rewrite E2 He app_assoc| |by rewrite E3].
    intros n ep [Hin|Hin]%elem_of_app; [by eapply Hb|]. destruct Hes as [-> | ->]; [by apply not_elem_of_nil in Hin|].
    by apply list_elem_of_singleton in Hin. }
  assert (forall ps0, Reconciler.instanceID ps0 = "" -> plugins r = plugins r /\ exists es, events r = events r ++ es /\
      (forall n ep, EBind n ep ∉ es) /\ (Reconciler.instanceID ps0 <> "" -> ELaunch (d_Name d) ∈ es)) as Hsame.
  { intros ps0 E. split; [done|]. exists []. rewrite app_nil_r. split_and!; [done| |done]. intros n ep. apply not_elem_of_nil. }
  destruct (decide ("" = "")) as [_|Hn]; [|by destruct Hn]. destruct (ps_state ps); [| |intros [= <- <-]; by apply Hsame].
  - destruct (now <? nextRetryAt ps); [intros [= <- <-]; by apply Hsame|].
    assert (forall n ep, EBind n ep ∉ [ELaunch (d_Name d)]) as Hb by by intros n ep Hin%list_elem_of_singleton.
    destruct (rt_Launch _ _ _ _) as [[[id ep]|e] rt]; [|by eapply Hfail].
    intros [= <- <-]. split; [done|]. exists [ELaunch (d_Name d)]. split_and!; [done|done|]. intros _. by left.
  - destruct (decide (UNHEALTHY = HEALTHY)); [done|]. apply (Hfail _ [EUnbind (d_Name d)]); [done|done|]. by intros m ep Hin%list_elem_of_singleton.
Qed.

Lemma idle_pass copy (r : Reconciler R LaunchSpec) now :
  NoDup (d_Name <$> copy) ->
  (forall n ps, plugins r !! n = Some ps -> n ∈ d_Name <$> copy -> Reconciler.instanceID ps = "") ->
  exists es, events (Reconcile_pass cfg r copy now) = events r ++ es /\ (forall n ep, EBind n ep ∉ es) /\
    forall n ps, plugins (Reconcile_pass cfg r copy now) !! n = Some ps -> Reconciler.instanceID ps <> "" ->
      plugins r !! n = Some ps \/ ELaunch n ∈ es.
Proof.
  revert r. induction copy as [|d copy IH]; intros r; cbn [fmap list_fmap Reconcile_pass fold_left].
  { intros _ _. exists []. rewrite app_nil_r. split_and!; [done| |by left]. intros n ep. apply not_elem_of_nil. }
  intros [Hd Hnd]%NoDup_cons Hi. set (r1 := Reconciler_reconcileOne cfg r d now).
  assert (exists es1, events r1 = events r ++ es1 /\ (forall n ep, EBind n ep ∉ es1) /\
    forall n ps, plugins r1 !! n = Some ps -> plugins r !! n = Some ps /\ n <> d_Name d \/
      n = d_Name d /\ (Reconciler.instanceID ps <> "" -> ELaunch n ∈ es1)) as (es1 & E1 & Hb1 & Hp1).
  { unfold r1, Reconciler_reconcileOne. destruct (advance cfg r d _ now) as [r' ps'] eqn:Ea.
    apply idle_advance in Ea as (Ep & es & Ee & Hb & Hl).
    - exists es. split_and!; [done|done|]. intros n ps. cbn [Reconciler_publishLocked set_plugin plugins].
      rewrite lookup_insert_Some. intros [[<- <-]|[Hn Hps]]; [by right|]. left. by rewrite -Ep.
    - destruct (plugins r !! d_Name d) as [ps|] eqn:E; [|done]. by eapply Hi; [|left]. }
  destruct (IH r1 Hnd) as (es2 & E2 & Hb2 & Hp2).
  { intros n ps Hn Hin. destruct (Hp1 n ps Hn) as [[Hr _]|[-> _]]; [by eapply Hi; [|right]|done]. }
  exists (es1 ++ es2). unfold Reconcile_pass in E2, Hp2. split_and!; [by rewrite E2 E1 app_assoc| |].
  - intros n ep [Hin|Hin]%elem_of_app; [by eapply Hb1|by eapply Hb2].
  - intros n ps Hn Hne. rewrite elem_of_app. destruct (Hp2 n ps Hn Hne) as [Hr|Hr]; [|by right; right].
    destruct (Hp1 n ps Hr) as [[? _]|[_ Hl]]; [by left|]. right. left. by apply Hl.
Qed.

(** The plane after the passes that precede the first [k] looks. *)
Section Looks.
Context (c0 : Control (R := R) (Conn := Conn)) (clock : nat -> Z) (passes : nat -> list Z) (timeout : Z).

Fixpoint seen (k : nat) : Control (R := R) (Conn := Conn) :=
  match k with
  | O => c0
  | S k => fold_left (c_Reconcile cfg grpc_NewClient) (passes k) (seen k)
  end.
Definition healthy_at (k : nat) (name : string) : Prop :=
  (Reconciler_Status (c_rec (seen k)) name).1.1 = Healthy.

Lemma seen_booting k : booting c0 c0 -> booting c0 (seen k).
Proof. intros Hb. induction k as [|k IH]; [done|]. by apply passes_booting. Qed.

Lemma await_one_spec fuel j i name c ok i' c' :
  c = seen (j + i) ->
  await_one grpc_NewClient cfg clock passes (clock 0%nat + timeout) fuel j i name c = Some (ok, i', c') ->
  (i <= i')%nat /\ c' = seen (S (j + i')) /\
  if ok then healthy_at (S (j + i')) name
  else ~ healthy_at (S (j + i')) name /\ clock 0%nat + timeout < clock (S i').
Proof.
  revert i c. induction fuel as [|fuel IH]; intros i c Hc; [done|]. simpl. rw Hc.
  change (fold_left _ (passes (j + i)%nat) (seen (j + i))) with (seen (S (j + i))).
  destruct (decide _) as [Hh|Hh]; [by intros [= <- <- <-]|].
  destruct (Z.ltb_spec (clock 0%nat + timeout) (clock (S i))); [by intros [= <- <- <-]|].
  intros Ha. destruct (IH (S i) (seen (S (j + i)))) as (H1 & H2 & H3); [by rw Nat.add_succ_r|done|].
  split_and!; [lia|done|done].
Qed.

Lemma await_one_ends fuel j i name c :
  ticks (50 * milli) clock -> timeout < 50 * milli * Z.of_nat (i + fuel - 1) -> fuel <> 0%nat ->
  is_Some (await_one grpc_NewClient cfg clock passes (clock 0%nat + timeout) fuel j i name c).
Proof.
  intros Hc. revert i c. induction fuel as [|fuel IH]; intros i c Hlt Hne; [done|]. simpl.
  destruct (decide _); [by eexists|].
  destruct (Z.ltb_spec (clock 0%nat + timeout) (clock (S i))); [by eexists|].
  specialize (Hc i). apply IH.
  - by replace (S i + fuel - 1)%nat with (i + S fuel - 1)%nat by lia.
  - intros ->. replace (i + 1 - 1)%nat with i in Hlt by lia. lia.
Qed.

(** The wait for all of them ends; every plugin was found healthy at some look, or the named
    one was not at the last, after the deadline. *)
Lemma await_all_spec j i names :
  0 <= timeout -> ticks (50 * milli) clock ->
  exists missed k,
    await_all grpc_NewClient cfg clock passes (clock 0%nat + timeout) (wait_fuel timeout (50 * milli)) j i names
      (seen (j + i)) = Some (missed, seen k) /\ (j + i <= k)%nat /\
    match missed with
    | None => Forall (fun n => exists k', (k' <= k)%nat /\ healthy_at k' n) names
    | Some n => n ∈ names /\ ~ healthy_at k n /\ exists t, clock 0%nat + timeout < clock t
    end.
Proof.
  intros Ht Hc. revert j i. induction names as [|n names IH]; intros j i; cbn [await_all].
  { exists None, (j + i)%nat. by split_and!. }
  pose proof (wait_fuel_enough timeout (50 * milli) eq_refl Ht) as Hf.
  destruct (await_one_ends (wait_fuel timeout (50 * milli)) j i n (seen (j + i)) Hc) as [[[ok i'] c'] E]; [|done|].
  { unfold milli in *. lia. }
  rw E. cbn [mbind option_bind]. destruct (await_one_spec _ _ _ _ _ _ _ _ eq_refl E) as (Hi & -> & Hok).
  destruct ok.
  - destruct (IH (S j) i') as (missed & k & E' & Hk & Hm). exists missed, k. split_and!; [done|lia|].
    destruct missed as [n'|]; [destruct Hm as (? & ? & ?); split_and!; [by right|done|done]|].
    constructor; [|done]. exists (S (j + i')). split; [lia|done].
  - destruct Hok as [Hh Hd]. exists (Some n), (S (j + i')). split_and!; [done|lia|by left|done|by eexists].
Qed.
End Looks.

(** What the shutdown of [c] leaves: every connection that was opened is closed, each instance
    [c] held has been terminated, and an instance held afterwards is one that a late pass
    launched. *)
Record released (late : option (Z * bool)) c c' : Prop := {
  rl_conns : live (c_rw c') = [] /\ rw_opened (c_rw c') ⊆+ rw_closed (c_rw c');
  rl_instances : forall n ps, plugins (c_rec c') !! n = Some ps -> Reconciler.instanceID ps <> "" ->
    late <> None /\ ELaunch n ∈ drop (length (events (c_rec c))) (events (c_rec c'));
  rl_terminated : forall n ps, plugins (c_rec c) !! n = Some ps -> Reconciler.instanceID ps <> "" ->
    ETerminate (Reconciler.instanceID ps) ∈ drop (length (events (c_rec c))) (events (c_rec c'));
}.

Lemma plane_shutdown_releases order late c :
  (forall (m : gmap string pluginStatus) n, is_Some (m !! n) -> n ∈ order m) ->
  NoDup (Reconciler_DesiredNames (c_rec c)) ->
  wired_ok (c_gw c, c_rw c) -> released late c (plane_shutdown grpc_NewClient cfg order late c).
Proof.
  intros Ho Hnd Hw. unfold plane_shutdown. set (r := Reconciler_Shutdown _ _ _).
  destruct (Shutdown_spec cfg (order (plugins (c_rec c))) (c_rec c)) as (Hd & Hp & ids & He & Hids).
  { intros n. apply Ho. } fold r in Hd, Hp, He.
  assert (forall n ps, plugins (c_rec c) !! n = Some ps -> Reconciler.instanceID ps <> "" -> ETerminate (Reconciler.instanceID ps) ∈ ETerminate <$> ids) as Hterm.
  { intros n ps Hn Hi. apply list_elem_of_fmap. eexists; split; [done|].
    apply Hids. split; [done|]. exists n, ps. split_and!; [apply Ho; by eexists|done|done]. }
  assert (forall n ps, plugins r !! n = Some ps -> Reconciler.instanceID ps = "") as Hidle.
  { intros n ps. rw Hp. intros Hn. apply fmap_Some in Hn as (ps' & _ & ->). done. }
  assert (forall g (rw : gatewayRewire (Conn := Conn)), wired_ok (g, rw) -> live (gatewayRewire_Close rw) = [] /\
    rw_opened (gatewayRewire_Close rw) ⊆+ rw_closed (gatewayRewire_Close rw)) as Hclose.
  { intros g rw [_ Hb]. unfold live. cbn [gatewayRewire_Close rw_conns rw_opened rw_closed] in *. rewrite map_to_list_empty. split; [done|].
    cbn [snd] in Hb. by rewrite Hb. }
  destruct late as [[now before]|].
  2:{ constructor; cbn [plane_close c_rw c_rec]; [by eapply Hclose| |].
      - intros n ps Hn Hi. by destruct Hi, (Hidle n ps Hn).
      - intros n ps Hn Hi. rw He drop_app_length. by eapply Hterm. }
  destruct (idle_pass (desired r) r now) as (es & Ees & Hbind & Hlaunch).
  { unfold Reconciler_DesiredNames in Hnd. by rw Hd. } { intros n ps Hn _. by eapply Hidle. }
  assert (forall n ps, plugins (Reconciler_Reconcile cfg r now) !! n = Some ps -> Reconciler.instanceID ps <> "" ->
    Some (now, before) <> None /\ ELaunch n ∈ drop (length (events (c_rec c))) (events (Reconciler_Reconcile cfg r now))) as Hinst.
  { intros n ps Hn Hi. split; [done|]. unfold Reconciler_Reconcile in *. rw Ees He -app_assoc drop_app_length.
    apply elem_of_app. right. destruct (Hlaunch n ps Hn Hi) as [Hr|Hr]; [|done]. by destruct Hi, (Hidle n ps Hr). }
  assert (forall n ps, plugins (c_rec c) !! n = Some ps -> Reconciler.instanceID ps <> "" -> ETerminate (Reconciler.instanceID ps) ∈
    drop (length (events (c_rec c))) (events (Reconciler_Reconcile cfg r now))) as Hterm'.
  { intros n ps Hn Hi. unfold Reconciler_Reconcile. rw Ees He -app_assoc drop_app_length. apply elem_of_app. left. by eapply Hterm. }
  destruct before; unfold c_Reconcile, drive; cbn [c_gw c_rec c_rw c_wired plane_close].
  - set (new := drop _ _). pose proof (wire_ok grpc_NewClient new _ Hw) as Hw'.
    destruct (wire _ _ _) as [g rw]. constructor; cbn [plane_close c_rw c_rec]; [by eapply Hclose|exact Hinst|exact Hterm'].
  - set (new := drop _ _). assert (new = es) as -> by (unfold new, Reconciler_Reconcile; by rw Ees drop_app_length).
    destruct (wire_unbinds grpc_NewClient es (c_gw c, gatewayRewire_Close (c_rw c)) Hbind) as (Eo & (l & Ec) & Hs).
    destruct (Hclose (c_gw c) (c_rw c) Hw) as [_ Hsub].
    destruct (wire _ _ _) as [g rw]. cbn [snd] in Eo, Ec, Hs. constructor; cbn [c_rw c_rec]; [|exact Hinst|exact Hterm'].
    split.
    + assert (rw_conns rw = ∅) as Ez.
      { apply map_empty. intros n. destruct (rw_conns rw !! n) eqn:E; [|done]. apply Hs in E. by rw lookup_empty in E. }
      unfold live. by rewrite Ez map_to_list_empty.
    + rewrite Eo Ec. by apply submseteq_inserts_r.
Qed.
End Booting.

Section LaunchPlane.
Context {R Conn : Type} `{DeploymentRuntime R LaunchSpec}.
Context (grpc_NewClient : nat -> string -> result Conn).
Context (newPluginToken : nat -> string) (Duration_String : Z -> string).
Implicit Types (c : Control (R := R) (Conn := Conn)).

(** The plane as its specs describe it. *)
Record plane_of (gwAddr : string) (pl : LoadedPlane) c : Prop := {
  po_ok : ctl_ok (launch_cfg (pl_HealthTimeout pl)) c;
  po_wired : wired_ok (c_gw c, c_rw c);
  po_reg : New (sp_Manifest <$> pl_Specs pl) = Ok (c_reg c);
  po_auth : requireAuth (c_gw c) = true;
  po_names : NoDup (Reconciler_DesiredNames (c_rec c));
  po_desired : forall d, d ∈ desired (c_rec c) <->
    exists i s, pl_Specs pl !! i = Some s /\ launched_as newPluginToken gwAddr i s d;
  po_tokens : forall t n, pluginTokens (c_gw c) !! t = Some n <->
    exists i s l, pl_Specs pl !! i = Some s /\ sp_Launch s = Some l /\ name_of (sp_Manifest s) = n /\ t = newPluginToken i;
}.

Lemma plane_start_spec descriptors gwAddr pl rt c :
  Inj (=) (=) newPluginToken ->
  plane_start newPluginToken descriptors gwAddr pl rt = Ok c ->
  plane_of gwAddr pl c /\ booting (launch_cfg (pl_HealthTimeout pl)) c c.
Proof.
  intros Hinj. unfold plane_start. destruct (launch_specs _ _ _ _ _ _) as [ds toks] eqn:El.
  destruct (New _) as [r|] eqn:Er; [|done]. intros [= <-].
  destruct (insert_all_names _ _ _ Er) as [Hnd _]. rewrite -list_fmap_compose in Hnd.
  set (g0 := gateway_New r ∅ descriptors). destruct (set_tokens_fields (g0 : Gateway (Conn := Conn)) (map_to_list toks)) as (E1 & E2 & E3).
  assert (forall n t, toks !! n = Some t -> exists i s l, pl_Specs pl !! i = Some s /\ sp_Launch s = Some l /\
            name_of (sp_Manifest s) = n /\ t = newPluginToken i) as Htok.
  { intros n t Hn. assert (toks = (launch_specs newPluginToken gwAddr 0 (pl_Specs pl) [] ∅).2) as E by by rw El.
    rewrite E in Hn. apply launch_specs_tokens in Hn as [Hn|Hn]; [by rw lookup_empty in Hn|done]. }
  assert (ctl_ok (launch_cfg (pl_HealthTimeout pl)) (mkControl (Gateway_RequirePluginAuth (set_tokens g0 toks) true) true
            (reconciler_New rt ds) newGatewayRewire)) as Hok.
  { constructor; [rw /c_reg /= E1; eapply insert_all_wf; [apply empty_registry_wf|done]|by constructor|].
    intros n. unfold Gateway_provider. simpl. rw E2 lookup_empty. by intros [? ?]. }
  assert (wired_ok (Gateway_RequirePluginAuth (set_tokens g0 toks) true : Gateway (Conn := Conn), newGatewayRewire)) as Hw.
  { constructor; [|done]. intros n. unfold Gateway_provider. simpl. by rw E2 lookup_empty. }
  split; [|by constructor]. constructor; try done.
  - by rw /c_reg /= E1.
  - destruct (launch_specs_names newPluginToken gwAddr 0 (pl_Specs pl) [] ∅) as (names & Hn & Hsub). rw El in Hn.
    unfold Reconciler_DesiredNames. cbn [c_rec reconciler_New desired]. cbn [fst] in Hn. rewrite Hn.
    by eapply sublist_NoDup; [exact Hnd|].
  - intros d. simpl. assert (ds = (launch_specs newPluginToken gwAddr 0 (pl_Specs pl) [] ∅).1) as -> by by rw El.
    rw launch_specs_desired. split; [by intros [?%not_elem_of_nil|?]|by right].
  - intros t n. simpl. unfold set_tokens. rw set_tokens_lookup.
    { rewrite elem_of_map_to_list. simpl. rw lookup_empty. split; [intros [Hn|[_ ?]]; [by apply Htok|done]|].
      intros (i & s & l & Hs & Hl & Hn & ->). left.
      assert (toks = (launch_specs newPluginToken gwAddr 0 (pl_Specs pl) [] ∅).2) as -> by by rw El.
      rw -Hn. by apply (launch_specs_token newPluginToken gwAddr 0 (pl_Specs pl) [] ∅ i s l). }
    apply NoDup_fmap_2_strong; [|apply NoDup_map_to_list].
    intros [n1 t1] [n2 t2] H1%elem_of_map_to_list H2%elem_of_map_to_list. simpl. intros <-. f_equal.
    destruct (Htok _ _ H1) as (i1 & s1 & _ & K1 & _ & <- & K2), (Htok _ _ H2) as (i2 & s2 & _ & K3 & _ & <- & K4).
    rewrite K2 in K4. apply Hinj in K4. congruence.
Qed.

Lemma booting_plane gwAddr pl c0 c :
  plane_of gwAddr pl c0 -> booting (launch_cfg (pl_HealthTimeout pl)) c0 c -> plane_of gwAddr pl c.
Proof.
  intros [H1 H2 H3 H4 Hn H5 H6] [K1 K2 (K3 & K4 & _) K5 K6].
  constructor; [done|done|by rw K3|by rw K5|unfold Reconciler_DesiredNames; by rw K6|by rw K6|by rw K4].
Qed.

(** The three ways a boot ends, and what each leaves behind. *)
Definition boot_outcome (order : gmap string pluginStatus -> list string) (late : option (Z * bool)) (clock : nat -> Z) (passes : nat -> list Z)
    (lease : option error) (descriptors : list FileDesc) (gwAddr : string) (pl : LoadedPlane) (rt : R) (b : booted) : Prop :=
  let cfg := launch_cfg (pl_HealthTimeout pl) in
  match b with
  | Up c => plane_of gwAddr pl c /\ exists c0 k, plane_start newPluginToken descriptors gwAddr pl rt = Ok c0 /\
      c = seen grpc_NewClient cfg c0 passes k /\
      forall n, n ∈ Reconciler_DesiredNames (c_rec c) ->
        exists k', (k' <= k)%nat /\ healthy_at grpc_NewClient cfg c0 passes k' n
  | TornDown e c => exists c1 n, plane_of gwAddr pl c1 /\ c = plane_shutdown grpc_NewClient cfg order late c1 /\ released late c1 c /\
      e = Errorf "plugin %q never became healthy within %s" [n; Duration_String (pl_HealthTimeout pl)] /\
      n ∈ Reconciler_DesiredNames (c_rec c1) /\ (Reconciler_Status (c_rec c1) n).1.1 <> Healthy /\
      exists t, clock 0%nat + (pl_HealthTimeout pl + 5 * (1000 * milli)) < clock t
  | Refused e => lease = Some e \/ is_Ok (New (sp_Manifest <$> pl_Specs pl)) = false
  end.

Lemma launchPlane_outcome order late clock passes lease descriptors callback fallback pl (rt : R) :
  0 <= pl_HealthTimeout pl -> ticks (50 * milli) clock -> Inj (=) (=) newPluginToken ->
  (forall (m : gmap string pluginStatus) n, is_Some (m !! n) -> n ∈ order m) ->
  exists b, launchPlane grpc_NewClient newPluginToken Duration_String order late clock passes lease descriptors
              callback fallback pl rt = Some b /\
    boot_outcome order late clock passes lease descriptors (if decide (callback = "") then fallback else callback) pl rt b.
Proof.
  intros Ht Hclock Hinj Hord. unfold boot_outcome, launchPlane. set (gwAddr := if decide (callback = "") then fallback else callback).
  set (cfg := launch_cfg _).
  destruct (plane_start _ _ _ _ _) as [c0|e] eqn:Es.
  2:{ exists (Refused e). split; [done|]. right. unfold plane_start in Es.
      destruct (launch_specs _ _ _ _ _ _) as [ds toks]. by destruct (New _). }
  destruct lease as [e|]; [exists (Refused e); split; [done|by left]|].
  destruct (plane_start_spec _ _ _ _ _ Hinj Es) as [Hp Hb]. fold cfg in Hb.
  assert (forall k, booting cfg c0 (seen grpc_NewClient cfg c0 passes k)) as Hall by by intros k; apply seen_booting.
  set (timeout := pl_HealthTimeout pl + 5 * (1000 * milli)).
  destruct (await_all_spec grpc_NewClient cfg c0 clock passes timeout 0 0 (Reconciler_DesiredNames (c_rec c0)))
    as (missed & k & E & _ & Hm); [unfold timeout, milli; lia|done|].
  change (seen grpc_NewClient cfg c0 passes (0 + 0)) with c0 in E. rw E. cbn [mbind option_bind].
  assert (plane_of gwAddr pl (seen grpc_NewClient cfg c0 passes k)) as Hpk by by eapply booting_plane.
  assert (Reconciler_DesiredNames (c_rec (seen grpc_NewClient cfg c0 passes k)) = Reconciler_DesiredNames (c_rec c0)) as Hd.
  { unfold Reconciler_DesiredNames. by rw (bt_desired _ _ _ (Hall k)). }
  destruct missed as [n|]; eexists; (split; [done|]).
  - destruct Hm as (Hn & Hh & Hd'). eexists _, n. split_and!; [done|done| |done|by rw Hd|done|done].
    apply plane_shutdown_releases; [done|by eapply po_names|apply Hall].
  - split; [done|]. exists c0, k. split_and!; [done|done|]. intros n. rw Hd. rewrite Forall_forall in Hm. apply Hm.
Qed.


(** No call that a plugin of the plane declares is refused as unauthorized. *)
Definition authorizes (pl : LoadedPlane) (r : Registry) : Prop :=
  forall m cap sel, m ∈ (sp_Manifest <$> pl_Specs pl) -> cap ∈ (Capability <$> Requires m) ->
    exists d, Registry_Select r (md_Name (Meta m)) cap sel = Some d /\ Authorized d = true.

Lemma strict_registry linked probe pl :
  strictPreflight linked probe pl = None ->
  exists r, New (sp_Manifest <$> pl_Specs pl) = Ok r /\ authorizes pl r /\
    NoDup ((fun s => name_of (sp_Manifest s)) <$> pl_Specs pl).
Proof.
  intros Hs. destruct (preflight_authorizes linked probe pl Hs) as (r & Hr & Hauth). exists r. split; [exact Hr|].
  assert (registry_wf r) as Hwf by (eapply insert_all_wf; [apply empty_registry_wf|exact Hr]). split.
  - intros m cap sel Hm Hc. destruct (Select_decides r (name_of m) cap sel Hwf) as (d & Hd & Ha & _). exists d. split; [exact Hd|].
    apply Ha. by apply (Hauth m Hm).
  - destruct (insert_all_names _ _ _ Hr) as [Hnd _]. unfold manifestsOf in Hnd. by rewrite -list_fmap_compose in Hnd.
Qed.

End LaunchPlane.

(** ** What the serving process holds *)

Record process := mkProcess { ph_held : list handle; ph_metrics : bool; ph_published : bool; ph_drained : bool }.

(** The discipline of a daemon: a handle is opened once and closed once; a daemon publishes
    itself only while it listens; it drains only after its listeners are closed, and
    retracts itself only after it has drained. *)
Definition process_step (p : process) (e : effect) : option process :=
  let '(mkProcess held m pub d) := p in
  match e with
  | Opened h => if decide (h ∈ held) then None else Some (mkProcess (h :: held) m pub d)
  | Closed h => if decide (h ∈ held) then Some (mkProcess (filter (fun x => x <> h) held) m pub d) else None
  | MetricsOn => if m then None else Some (mkProcess held true pub d)
  | MetricsOff => if m then Some (mkProcess held false pub d) else None
  | Published => if pub || negb (bool_decide (ControlListener ∈ held)) then None else Some (mkProcess held m true d)
  | Retracted => if pub && d then Some (mkProcess held m false d) else None
  | Drained => if d || bool_decide (ControlListener ∈ held) || bool_decide (CallbackListener ∈ held) then None
               else Some (mkProcess held m pub true)
  end.
Definition replay (p : process) (es : list effect) : option process :=
  fold_left (fun p e => p ← p; process_step p e) es (Some p).

(** However the environment answers and however serving ends, the daemon keeps the discipline
    and leaves nothing behind: at the end it holds no handle, serves no metrics and is not
    published; and whenever it ends without an error the plane has been drained. *)
Theorem serveResolved_releases Getenv Hostname hasProject pl env :
  exists drained,
    replay (mkProcess [] false false false) (serveResolved Getenv Hostname hasProject pl env).2 =
      Some (mkProcess [] false false drained) /\
    ((serveResolved Getenv Hostname hasProject pl env).1 = None -> drained = true).
Proof.
  unfold serveResolved. destruct (sv_runtime env); [by exists false|].
  destruct hasProject; [destruct (sv_audit env); [by exists false|]|].
  all: destruct (sv_listen env); [|by exists false]; destruct (needs_companion _ _); [destruct (sv_callback env)|]; try (by exists false).
  all: destruct (sv_assemble env _); [by exists false|]; exists true; by destruct (sv_end env) as [[]|].
Qed.

(** ** The race of a late pass with the shutdown *)

(** The comment on the shutdown closure says the loop is stopped first, so that no pass races
    the teardown.  Cancelling does not wait for the loop: a pass that starts after the
    statuses were cleared finds a plugin that was still coming up, pending and without an
    instance, and launches it again; nobody is left to terminate it. *)
Theorem late_pass_relaunches `{DeploymentRuntime R LaunchSpec} cfg order (r : Reconciler R LaunchSpec) d now ps :
  (forall n, is_Some (plugins r !! n) -> n ∈ order) ->
  desired r = [d] -> plugins r !! d_Name d = Some ps -> ps_state ps = Pending -> nextRetryAt ps <= now ->
  ELaunch (d_Name d) ∈ drop (length (events (Reconciler_Shutdown cfg r order)))
    (events (Reconciler_Reconcile cfg (Reconciler_Shutdown cfg r order) now)).
Proof.
  intros Ho Hd Hp Hs Hn. destruct (Shutdown_spec cfg order r Ho) as (E1 & E2 & _).
  unfold Reconciler_Reconcile, Reconcile_pass. rw E1 Hd. simpl. unfold Reconciler_reconcileOne.
  set (r1 := Reconciler_Shutdown cfg r order) in *. rw E2 Hp. simpl. unfold advance. simpl. rw Hs.
  destruct (Z.ltb_spec now (nextRetryAt ps)); [lia|]. unfold Reconciler_launch.
  destruct (rt_Launch _ _ _ _) as [[[id ep]|e] rt]; simpl.
  - rw drop_app_length. by left.
  - destruct (Reconciler_fail _ _ _ _) as [r2 ps2] eqn:Ef.
    apply fail_spec in Ef as (_ & _ & _ & (es & He & _) & _). simpl in *. rw He -app_assoc drop_app_length. by left.
Qed.

(** ** At a concrete plane *)

#[local] Instance demo_runtime : DeploymentRuntime (list string) LaunchSpec := {
  rt_Launch rt _ name _ := (Ok (name, name +:+ ":50051"), rt ++ [name]);
  rt_Healthcheck rt _ id := (Ok (if decide (id = "dud") then UNHEALTHY else HEALTHY), rt);
  rt_Terminate rt _ id := filter (fun x => x <> id) rt;
}.
Definition demo_token (i : nat) : string := "tok-" +:+ pretty i.
#[local] Instance demo_token_inj : Inj (=) (=) demo_token.
Proof. intros i j E. unfold demo_token in E. apply str_app_inj_r in E. by apply (inj pretty). Qed.
Definition demo_order (m : gmap string pluginStatus) : list string := (map_to_list m).*1.
Lemma demo_order_all m n : is_Some (m !! n) -> n ∈ demo_order m.
Proof. intros [ps Hn]. apply list_elem_of_fmap. exists (n, ps). split; [done|]. by apply elem_of_map_to_list. Qed.
Definition demo_clock (i : nat) : Z := 50 * milli * Z.of_nat i.
Lemma demo_clock_ticks : ticks (50 * milli) demo_clock.
Proof. intros i. unfold demo_clock, milli. lia. Qed.
Definition demo_passes (i : nat) : list Z := [Z.of_nat i * (1000 * milli)].
Definition demo_boot (name : string) : option (booted (R := list string) (Conn := string)) :=
  launchPlane demo_dial demo_token itoa demo_order None demo_clock demo_passes None [] "rat:7777" ""
    (mkLoadedPlane "lab" "unix:/run/lab.sock" "podman" 10
       [mkSpec (demo_manifest name "state-backend" ["rat://state/v1/get"] []) (Some (mkLaunch "rat/state:1" None [])) ""]) [].
Definition how (b : option (booted (R := list string) (Conn := string))) : string :=
  match b with Some (Up _) => "up" | Some (Refused _) => "refused" | Some (TornDown _ _) => "torn down" | None => "stuck" end.


Definition demo_assemble : option (assembled (R := list string) (Conn := string)) :=
  assemble demo_dial demo_token itoa (fun a => Ok a) (fun _ _ => None) (fun _ i => 100 * milli * Z.of_nat i) demo_order None
    demo_clock demo_passes None [] "rat:7777" "" demo_loaded [].

