(* ===== verification/Running.v ===== *)
(** The running plane (src/core/cmd/rat/main.go over control.go, rewire.go, the reconciler and
    the gateway): what holds from the boot on, through the passes of the reconcile loop and
    the changes made through the control service, and what it means for the call of a plugin. *)
From S2P Require Import Prelude Manifest Registry CallContext Gateway Reconciler DeployRuntime Supervisor Plane Rewire Control Validate Daemon.

Section Running.
Context {R Conn : Type} `{DeploymentRuntime R LaunchSpec}.
Context (grpc_NewClient : nat -> string -> result Conn).
Context (target : Conn -> string).
Context (cfg : Config) (Hcap : 0 < CrashLoopCap cfg).
Context (yaml_Manifest : string -> result Manifest) (gwAddr : string) (readyTO : Z).
Implicit Types (c : Control (R := R) (Conn := Conn)).

(** One change to the running plane: a pass, over any desired set, since it is copied before the
    pass is made; or a request to the control service, during which further passes are made. *)
Inductive plane_step : Control (R := R) (Conn := Conn) -> Control (R := R) (Conn := Conn) -> Prop :=
  | step_pass c copy now : plane_step c (drive grpc_NewClient c (Reconcile_pass cfg (c_rec c) copy now))
  | step_register clock passes cancelled tok req c r c' :
      controlService_RegisterPlugin cfg grpc_NewClient yaml_Manifest gwAddr readyTO clock passes cancelled tok req c = Some (r, c') ->
      plane_step c c'
  | step_deregister name c : plane_step c (controlService_DeregisterPlugin cfg grpc_NewClient c name).2.

(** ** What every change preserves *)

Section Preserved.
Context (I : Control (R := R) (Conn := Conn) -> Prop).

(** Closed under the changes the control service is made of. *)
Record closed : Prop := {
  cl_reg : forall c r, I c -> registry_wf r -> I (with_reg c r);
  cl_gw : forall c toks, I c -> I (with_gw c (with_tokens (c_gw c) toks));
  cl_drive : forall c r es, I c -> reconciler_ok cfg r -> events r = events (c_rec c) ++ es -> I (drive grpc_NewClient c r);
  cl_ok : forall c, I c -> ctl_ok cfg c;
}.
Context (Hcl : closed).

Lemma closed_deregister c name : I c -> I (c_Deregister c name).
Proof. intros Hc. apply (cl_reg Hcl); [done|]. apply Registry_Deregister_wf. apply (ctl_reg cfg _ (cl_ok Hcl _ Hc)). Qed.
Lemma closed_drop c name : I c -> I (controlService_dropToken c name).
Proof. intros Hc. unfold controlService_dropToken. destruct (c_wired c); [by apply (cl_gw Hcl)|done]. Qed.
Lemma closed_set c tok name : I c -> I (setToken c tok name).
Proof. intros Hc. unfold setToken. destruct (c_wired c); [by apply (cl_gw Hcl)|done]. Qed.
Lemma closed_undesire c name : I c -> I (c_RemoveDesired cfg grpc_NewClient c name).
Proof.
  intros Hc. destruct (RemoveDesired_frame cfg (c_rec c) name) as (_ & _ & es & He).
  eapply (cl_drive Hcl); [done| |done]. apply RemoveDesired_ok. apply (cl_ok Hcl _ Hc).
Qed.
Lemma closed_pass c copy now : I c -> I (drive grpc_NewClient c (Reconcile_pass cfg (c_rec c) copy now)).
Proof.
  intros Hc. pose proof (ctl_rec cfg _ (cl_ok Hcl _ Hc)) as Hr. destruct (pass_frame cfg copy (c_rec c) now Hcap Hr) as (_ & es & He).
  eapply (cl_drive Hcl); [done| |done]. by apply Reconcile_pass_ok.
Qed.
Lemma closed_passes ts c : I c -> I (fold_left (c_Reconcile cfg grpc_NewClient) ts c).
Proof. revert c. induction ts as [|t ts IH]; intros c Hc; [done|]. by apply IH, closed_pass. Qed.
Lemma closed_remove c name : I c -> I (remove_plugin cfg grpc_NewClient c name).
Proof. intros Hc. by apply closed_deregister, closed_drop, closed_undesire. Qed.
Lemma closed_desire c d r : I c -> Reconciler_AddDesired (c_rec c) d = Ok r -> I (drive grpc_NewClient c r).
Proof.
  intros Hc Ha. pose proof (ctl_rec cfg _ (cl_ok Hcl _ Hc)) as Hr.
  apply (cl_drive Hcl c r []); [done| |].
  - apply (reconciler_step_ok cfg (c_rec c)); [done..|]. by eapply rstep_add.
  - unfold Reconciler_AddDesired in Ha. destruct (existsb _ _); [done|]. injection Ha as <-. by rw app_nil_r.
Qed.

Lemma closed_await fuel i clock passes cancelled name dl c r c' :
  I c -> await_healthy cfg grpc_NewClient fuel i clock passes cancelled name dl c = Some (r, c') -> I c'.
Proof.
  revert i c. induction fuel as [|fuel IH]; intros i c Hc; [done|]. cbn [await_healthy].
  pose proof (closed_passes (passes i) c Hc) as H1. set (c1 := fold_left _ _ c) in *.
  destruct (decide _); [by intros [= <- <-]|]. destruct (_ || _); [intros [= <- <-]; by apply closed_remove|].
  destruct (cancelled i); [intros [= <- <-]; by apply closed_remove|]. by apply IH.
Qed.

Lemma closed_launch clock passes cancelled tok name m ls c r c' :
  I c -> launch_plugin cfg grpc_NewClient gwAddr readyTO clock passes cancelled tok name m ls c = Some (r, c') -> I c'.
Proof.
  intros Hc. unfold launch_plugin. destruct (isolationProfile _); [|intros [= <- <-]; by apply closed_deregister].
  pose proof (closed_set c tok name Hc) as Hs. destruct (Reconciler_AddDesired _ _) as [r'|] eqn:Ea.
  - apply closed_await. by eapply closed_desire.
  - intros [= <- <-]. by apply closed_deregister, closed_drop.
Qed.

Lemma closed_register clock passes cancelled tok req c r c' :
  I c -> controlService_RegisterPlugin cfg grpc_NewClient yaml_Manifest gwAddr readyTO clock passes cancelled tok req c = Some (r, c') ->
  I c'.
Proof.
  intros Hc. unfold controlService_RegisterPlugin. destruct (decide _); [by intros [= <- <-]|].
  destruct (Parse _ _) as [m|]; [|by intros [= <- <-]]. destruct (decide _); [|by intros [= <- <-]].
  match goal with |- context [match Registry_Plugin (c_reg c) ?n with Some _ => _ | None => _ end] =>
    assert (I (match Registry_Plugin (c_reg c) n with
               | Some _ => c_Deregister (c_RemoveDesired cfg grpc_NewClient c n) n | None => c end)) as H1
      by (destruct (Registry_Plugin (c_reg c) n); [by apply closed_deregister, closed_undesire|done]) end.
  set (c1 := match Registry_Plugin _ _ with Some _ => _ | None => _ end) in *.
  destruct (Registry_Register (c_reg c1) m) as [r1|] eqn:Er; [|by intros [= <- <-]].
  assert (I (with_reg c1 r1)) as H2.
  { apply (cl_reg Hcl); [done|]. eapply Registry_insert_wf; [|done]. apply (ctl_reg cfg _ (cl_ok Hcl _ H1)). }
  destruct (rq_Launch req) as [ls|]; [|by intros [= <- <-]]. destruct (decide _); [by intros [= <- <-]|].
  by apply closed_launch.
Qed.

Lemma closed_step c c' : I c -> plane_step c c' -> I c'.
Proof.
  intros Hc Hs. destruct Hs as [c copy now|clock passes cancelled tok req c r c' E|name c];
    [by apply closed_pass|by eapply closed_register|by apply closed_remove].
Qed.
Lemma closed_steps c c' : I c -> rtc plane_step c c' -> I c'.
Proof. induction 2 as [|c1 c2 c3 Hs _ IH]; [done|]. apply IH. by eapply closed_step. Qed.
End Preserved.

(** ** The invariant *)

Context (descriptors : list FileDesc).

(** The gateway decides over a well-formed registry, routes by the linked descriptors, and is
    connected to the current endpoint of every plugin the reconciler has bound. *)
Record running (c : Control (R := R) (Conn := Conn)) : Prop := {
  run_ok : ctl_ok cfg c;
  run_wired : wired_ok (c_gw c, c_rw c);
  run_routes : routes (c_gw c) = buildRoutes descriptors;
  run_auth : requireAuth (c_gw c) = true;
  run_connected : dials grpc_NewClient target -> connected_as target (c_gw c, c_rw c) (routes_of (events (c_rec c)));
}.

Lemma wire_routes es (w : Gateway (Conn := Conn) * gatewayRewire) : routes (wire grpc_NewClient w es).1 = routes w.1.
Proof.
  revert w. induction es as [|e es IH]; intros w; [done|]. simpl. rw IH.
  destruct w as [g rw], e as [n|id|n ep|n]; simpl; try done. by destruct (grpc_NewClient _ _).
Qed.

Lemma running_closed : closed running.
Proof.
  constructor.
  - intros c r [H1 [H2 H2'] H3 H4 H5] Hr. constructor; [by apply with_reg_ok|by constructor|done|done|exact H5].
  - intros c toks [H1 [H2 H2'] H3 H4 H5]. constructor; [by apply with_gw_ok|by constructor|done|done|exact H5].
  - intros c r es [H1 H2 H3 H4 H5] Hr He. pose proof (drive_ok cfg grpc_NewClient c r es H1 He Hr) as Hok.
    destruct (drive_wired grpc_NewClient c r H2) as [Hw Ha]. constructor; [done|done| |by rw Ha|].
    + unfold drive. pose proof (wire_routes (drop (length (events (c_rec c))) (events r)) (c_gw c, c_rw c)) as E.
      destruct (wire _ _ _). simpl in *. by rw E.
    + intros Hd. pose proof (wire_connected grpc_NewClient target es _ _ Hd (H5 Hd)) as E. rw drive_rec.
      unfold drive. rw He drop_app_length routes_of_app. by destruct (wire _ _ _).
  - by intros c [H1 _ _ _ _].
Qed.

(** ** A call on the running plane *)

Context (unmarshal : string -> option RequestContext) (marshal : RequestContext -> result string).
Context (conn_Invoke : Conn -> Ctx -> string -> string -> result string).

(** The interceptor of the plugin door around the handler. *)
Definition door (c : Control (R := R) (Conn := Conn)) (capability payload : string) (x : Ctx) (w : World (Conn := Conn)) :
    option (result string * World) :=
  PluginAuthUnaryInterceptor (c_gw c) x (Gateway_Invoke unmarshal marshal conn_Invoke (c_gw c) capability payload) w.

(** What the handler is given, and the selector of the call. *)
Definition envelope_of (x : Ctx) : option RequestContext := readCallMeta unmarshal x.
Definition selector_of (x : Ctx) : gmap string string := parseSelector (firstHeader x selectHeader).

(** The call arrives: one allowed record, one call, on a connection to the provider's current
    endpoint, with the plugin as its caller. *)
Definition delivered c caller p capability method payload x (w : World (Conn := Conn)) : Prop :=
  exists conn b w', target conn = Reconciler_Endpoint (c_rec c) p /\
    marshal (restamp (envelope_of x) caller) = Ok b /\
    let octx := bound_deadline (AppendToOutgoingContext (withAuthenticatedCaller x caller) callMetaHeader b)
                  (GetDeadlineUnixMs (envelope_of x)) in
    door c capability payload x w = Some (conn_Invoke conn octx method payload, w') /\
    calls w' = calls w ++ [(conn, octx, method, payload)] /\
    exists rec, audits w' = audits w ++ [rec] /\ a_Allowed rec = true /\ a_Caller rec = caller /\ a_Provider rec = p /\
      a_Capability rec = capability.

Definition refused (code : code) c caller capability payload x (w : World (Conn := Conn)) : Prop :=
  exists m w', door c capability payload x w = Some (Err (reason_status code m), w') /\ calls w' = calls w /\
    exists rec, audits w' = audits w ++ [rec] /\ a_Allowed rec = false /\ a_Caller rec = caller /\ a_Capability rec = capability.

Lemma door_opens c caller tok capability payload x w :
  firstHeader x pluginTokenHeader = tok -> tok <> "" -> pluginTokens (c_gw c) !! tok = Some caller -> caller <> "" ->
  traced unmarshal x = true ->
  door c capability payload x w =
  ('(r, w) ← (d ← Registry_Select (c_reg c) caller capability (selector_of x);
     let w := Record_ (decision_record capability caller (GetCorrelationId (GetTrace (envelope_of x))) d) w in
     Some (if Allowed d then
             (route_call marshal (c_gw c) (withAuthenticatedCaller x caller) (envelope_of x) caller capability (Provider d),
              observe capability "allow" w)
           else if Authorized d then (Err (reason_status FailedPrecondition (Reason d)), observe capability "selection_failed" w)
           else (Err (reason_status PermissionDenied (Reason d)), observe capability "permission_denied" w)));
   Some match r with
        | Err e => (Err e, w)
        | Ok oc => (conn_Invoke (oc_conn oc) (oc_ctx oc) (oc_method oc) payload, called (oc_conn oc) (oc_ctx oc) (oc_method oc) payload w)
        end).
Proof.
  intros Hh Hne Ht Hc Htr. unfold door, PluginAuthUnaryInterceptor, Gateway_authenticatePlugin. rw Hh.
  rw bool_decide_eq_false_2 //= Ht. unfold authenticated_ctx. rw decide_False //.
  unfold Gateway_Invoke, Gateway_openCall. unfold traced in Htr.
  change (readCallMeta unmarshal (withAuthenticatedCaller x caller)) with (envelope_of x). fold (envelope_of x) in Htr. rw Htr /=.
  unfold caller_of, authenticatedCaller. simpl. rw decide_False //.
Qed.

Lemma running_delivers c caller tok p capability method payload x w b :
  running c -> dials grpc_NewClient target ->
  firstHeader x pluginTokenHeader = tok -> tok <> "" -> pluginTokens (c_gw c) !! tok = Some caller -> caller <> "" ->
  traced unmarshal x = true -> marshal (restamp (envelope_of x) caller) = Ok b ->
  authorized (c_reg c) caller capability -> sole_provider (c_reg c) capability (selector_of x) p ->
  (Reconciler_Status (c_rec c) p).1.1 = Healthy -> buildRoutes descriptors !! capability = Some method ->
  delivered c caller p capability method payload x w.
Proof.
  intros [Hok Hw Hr _ Hcon] Hd Hh Hne Ht Hc Htr Hb Hau Hs Hst Hm.
  destruct (Select_decides (c_reg c) caller capability (selector_of x) (ctl_reg cfg _ Hok)) as (d & Hsel & _ & Hal).
  destruct (proj2 (Hal p) (conj Hau Hs)) as [Hallow Hp].
  pose proof (Endpoint_route cfg (c_rec c) p (ctl_rec cfg _ Hok) Hst) as He.
  pose proof (Hcon Hd p) as Hcn. rw He in Hcn. apply fmap_Some in Hcn as (conn & Hprov & Htgt). cbn [fst] in Hprov.
  exists conn, b. eexists. split_and!; [done|done|]. rw (door_opens c caller tok) // Hsel. simpl. rw Hallow.
  unfold route_call. rw Hr Hm Hp Hprov Hb /=. split_and!; [done|done|].
  exists (decision_record capability caller (GetCorrelationId (GetTrace (envelope_of x))) d). by rw /= Hp.
Qed.

Lemma running_refuses c caller tok capability payload x w :
  running c ->
  firstHeader x pluginTokenHeader = tok -> tok <> "" -> pluginTokens (c_gw c) !! tok = Some caller -> caller <> "" ->
  traced unmarshal x = true ->
  (~ authorized (c_reg c) caller capability -> refused PermissionDenied c caller capability payload x w) /\
  (authorized (c_reg c) caller capability -> (forall p, ~ sole_provider (c_reg c) capability (selector_of x) p) ->
     refused FailedPrecondition c caller capability payload x w).
Proof.
  intros [Hok _ _ _ _] Hh Hne Ht Hc Htr.
  destruct (Select_decides (c_reg c) caller capability (selector_of x) (ctl_reg cfg _ Hok)) as (d & Hsel & Ha & Hal).
  split.
  - intros Hau. assert (Authorized d = false) as Hd by by apply not_true_iff_false; rw Ha.
    assert (Allowed d = false) as Hd' by (apply not_true_iff_false; intros E; apply Hau; by apply (Hal (Provider d))).
    eexists (Reason d), _. rw (door_opens c caller tok) // Hsel. simpl. rw Hd' Hd /=. split; [done|]. split; [done|].
    exists (decision_record capability caller (GetCorrelationId (GetTrace (envelope_of x))) d). by rw /= Hd'.
  - intros Hau Hno. assert (Authorized d = true) as Hd by by apply Ha.
    assert (Allowed d = false) as Hd' by (apply not_true_iff_false; intros E; apply (Hno (Provider d)); by apply Hal).
    eexists (Reason d), _. rw (door_opens c caller tok) // Hsel. simpl. rw Hd' Hd /=. split; [done|]. split; [done|].
    exists (decision_record capability caller (GetCorrelationId (GetTrace (envelope_of x))) d). by rw /= Hd'.
Qed.
End Running.

(** ** From the boot on *)

Section Booted.
Context {R Conn : Type} `{DeploymentRuntime R LaunchSpec}.
Context (grpc_NewClient : nat -> string -> result Conn) (target : Conn -> string).
Context (newPluginToken : nat -> string) (Duration_String : Z -> string).

Lemma start_running descriptors gwAddr pl (rt : R) c :
  Inj (=) (=) newPluginToken -> plane_start newPluginToken descriptors gwAddr pl rt = Ok c ->
  running grpc_NewClient target (launch_cfg (pl_HealthTimeout pl)) descriptors c.
Proof.
  intros Hinj Hs. pose proof Hs as Hp. eapply plane_start_spec in Hp as [[H1 H2 _ H4 _ _ _] _]; [|done].
  unfold plane_start in Hs. destruct (launch_specs _ _ _ _ _ _) as [ds toks]. destruct (New _) as [r|]; [|done].
  injection Hs as <-. constructor; [done..| |done|].
  - assert (forall l g, routes (fold_left (fun (g : Gateway (Conn := Conn)) kv => Gateway_SetPluginToken g kv.2 kv.1) l g) = routes g) as E.
    { induction l as [|kv l IH]; intros g; [done|]. by rw /= IH. }
    unfold Gateway_RequirePluginAuth, set_tokens. simpl. by rw E.
  - intros _ n. simpl. destruct (set_tokens_fields (gateway_New r ∅ descriptors : Gateway (Conn := Conn)) (map_to_list toks)) as (_ & E & _).
    unfold Gateway_provider. simpl. unfold set_tokens. rw E. by rw lookup_empty.
Qed.

Lemma booted_running order late clock passes lease descriptors callback fallback pl (rt : R) c :
  0 <= pl_HealthTimeout pl -> ticks (50 * milli) clock -> Inj (=) (=) newPluginToken ->
  (forall (m : gmap string pluginStatus) n, is_Some (m !! n) -> n ∈ order m) ->
  launchPlane grpc_NewClient newPluginToken Duration_String order late clock passes lease descriptors callback fallback pl rt = Some (Up c) ->
  running grpc_NewClient target (launch_cfg (pl_HealthTimeout pl)) descriptors c.
Proof.
  intros Ht Hc Hinj Ho Hup. destruct (launchPlane_outcome grpc_NewClient newPluginToken Duration_String order late clock passes
    lease descriptors callback fallback pl rt Ht Hc Hinj Ho) as (b & E & Hb).
  rw Hup in E. injection E as <-. destruct Hb as (_ & c0 & k & Hs & -> & _). apply start_running in Hs; [|done]. clear Hup.
  induction k as [|k IH]; [done|]. cbn [seen].
  apply (closed_passes grpc_NewClient (launch_cfg (pl_HealthTimeout pl))); [done|apply running_closed|exact IH].
Qed.

End Booted.

(** ** At a concrete plane *)

#[local] Existing Instance Daemon.demo_runtime.
#[local] Existing Instance Daemon.demo_token_inj.

(** A store and a job that reads it; while they run, a viewer is registered and removed. *)
Definition fleet_plane : LoadedPlane :=
  mkLoadedPlane "lab" "unix:/run/lab.sock" "podman" 10
    [mkSpec (Validate.demo_manifest "pg" "state-backend" ["rat://state/v1/get"] []) (Some (mkLaunch "rat/state:1" None [])) "";
     mkSpec (Validate.demo_manifest "etl" "ui" [] ["rat://state/v1/get"]) (Some (mkLaunch "rat/etl:1" None [])) ""].
Definition fleet_files : list FileDesc := [[mkService "rat.state.v1.StateService" [mkMethod "Get" "rat://state/v1/get"]]].
Definition fleet_boot : option (booted (R := list string) (Conn := string)) :=
  launchPlane demo_dial demo_token itoa demo_order None demo_clock demo_passes None fleet_files "rat:7777" "" fleet_plane [].
Definition fleet0 : Control (R := list string) (Conn := string) :=
  match fleet_boot with
  | Some (Up c) => c
  | _ => mkControl (gateway_New empty_registry ∅ []) true (reconciler_New [] []) newGatewayRewire
  end.
Definition viewer_yaml (raw : string) : result Manifest := Ok (Validate.demo_manifest "viewer" "ui" [] ["rat://state/v1/get"]).
Definition fleet1 : Control (R := list string) (Conn := string) :=
  match controlService_RegisterPlugin (launch_cfg 10) demo_dial viewer_yaml "rat:7777" 10 demo_clock demo_passes (fun _ => None)
          "tok-v" (mkRegisterReq "viewer" "viewer" None) fleet0 with
  | Some (Ok _, c) => c
  | _ => fleet0
  end.
Definition fleet : Control (R := list string) (Conn := string) :=
  (controlService_DeregisterPlugin (launch_cfg 10) demo_dial fleet1 "viewer").2.

Definition fleet_envelope : RequestContext :=
  mkRequestContext (Some (mkTrace "00-0af7651916cd43dd8448eb211c80319c-b7ad6b7169203331-01" "" "c1")) None 0.
Definition fleet_unmarshal (b : string) : option RequestContext := if decide (b = "envelope") then Some fleet_envelope else None.
Definition fleet_call (tok : string) : Ctx := mkCtx (Some {[pluginTokenHeader := [tok]; callMetaHeader := ["envelope"]]}) [] None None None.
Definition fleet_provider (conn : string) (_ : Ctx) (method payload : string) : result string := Ok (conn +:+ method +:+ "?" +:+ payload).
Definition asked (capability tok : string) : option (result string * World (Conn := string)) :=
  door fleet_unmarshal (fun _ => Ok "restamped") fleet_provider fleet capability "k" (fleet_call tok) (mkWorld [] [] []).

Lemma fleet_registered n m :
  byName (c_reg fleet) !! n = Some m ->
  (n, m) ∈ [("etl", Validate.demo_manifest "etl" "ui" [] ["rat://state/v1/get"]); ("pg", Validate.demo_manifest "pg" "state-backend" ["rat://state/v1/get"] [])].
Proof.
  intros Hn. apply elem_of_map_to_list in Hn. revert Hn.
  assert (map_to_list (byName (c_reg fleet)) = [("etl", Validate.demo_manifest "etl" "ui" [] ["rat://state/v1/get"]); ("pg", Validate.demo_manifest "pg" "state-backend" ["rat://state/v1/get"] [])]) as -> by evaluated.
  done.
Qed.

Lemma fleet_provides q m c :
  byName (c_reg fleet) !! q = Some m -> c ∈ Manifest_ProvidesCaps m -> q = "pg".
Proof.
  intros Hm%fleet_registered Hc. apply elem_of_cons in Hm as [E|Hm].
  - injection E as -> ->. vm_compute in Hc. by apply elem_of_nil in Hc.
  - apply elem_of_cons in Hm as [E|Hm]; [by injection E as -> _|by apply elem_of_nil in Hm].
Qed.


(** Neither boot nor live registration asks for an attestation: the registry of [NewVerified] refuses
    to be built from this plane's manifests when nothing is attested, whatever the authority;
    the daemon comes up on them all the same, and the call is delivered to the unattested
    provider. *)
Theorem unattested_plane_serves {PublicKey} (ed25519_Verify : PublicKey -> string -> string -> bool) au now :
  (exists e, NewVerified ed25519_Verify (sp_Manifest <$> pl_Specs fleet_plane) ∅ (Some au) now = Err e) /\
  fst <$> asked "rat://state/v1/get" "tok-1" = Some (Ok "pg:50051/rat.state.v1.StateService/Get?k").
Proof. split; [by eexists|evaluated]. Qed.
