(* ===== verification/Directory.v ===== *)
(** What the daemon is to those who use it: a directory of plugins.  The abstract directory holds a
    manifest per name and which plugins were launched; registering, removing, listing and
    calling are single steps of it.  The running plane (registry, reconciler, gateway, token
    table and routes, driven by src/core/cmd/rat/control.go) is shown to implement it. *)
From S2P Require Import Prelude Manifest Registry CallContext Gateway Reconciler DeployRuntime Supervisor Plane Rewire Control Validate Daemon Running.

(** ** The directory *)

Record directory := mkDir { dir_manifests : gmap string Manifest; dir_launched : gset string }.

Definition dir_remove (name : string) (d : directory) : directory :=
  mkDir (delete name (dir_manifests d)) (dir_launched d ∖ {[name]}).
Definition dir_add (name : string) (m : Manifest) (launched : bool) (d : directory) : directory :=
  mkDir (<[name := m]> (dir_manifests d)) (if launched then {[name]} ∪ dir_launched d else dir_launched d ∖ {[name]}).

(** Who may call what, and who serves it. *)
Definition dir_may_call (d : directory) (caller capability : string) : Prop :=
  exists cm, dir_manifests d !! caller = Some cm /\ capability ∈ Manifest_RequiresCaps cm /\
    exists p m, dir_manifests d !! p = Some m /\ capability ∈ Manifest_ProvidesCaps m.
Definition dir_serves (d : directory) (capability : string) (sel : gmap string string) (p : string) : Prop :=
  exists m, dir_manifests d !! p = Some m /\ capability ∈ Manifest_ProvidesCaps m /\
    forall k v, sel !! k = Some v -> default "" (md_Labels (Meta m) !! k) = v.
(** The only one, listing the capability once. *)
Definition dir_sole (d : directory) (capability : string) (sel : gmap string string) (p : string) : Prop :=
  (forall q, dir_serves d capability sel q <-> q = p) /\
  forall m, dir_manifests d !! p = Some m -> occ capability (Manifest_ProvidesCaps m) = 1%nat.

(** What a request for an image is. *)
Definition wants_launch (req : RegisterReq) : bool := negb (bool_decide (from_option lr_Image "" (rq_Launch req) = "")).

(** What the users of the daemon see: a registration and its outcome, a removal and whether there
    was something to remove, a listing, and a call with the decision recorded for it. *)
Inductive observation :=
  | Registered (req : RegisterReq) (r : result RegisterReply)
  | Removed (name : string) (present : bool)
  | Listed (l : list PluginStatus)
  | Called (caller capability : string) (sel : gmap string string) (allowed : bool) (provider : string).

Section Spec.
Context (yaml_Manifest : string -> result Manifest).

(** A request that is refused for what it is. *)
Definition malformed (req : RegisterReq) : Prop :=
  rq_Name req = "" \/ (exists e, Parse yaml_Manifest (rq_Yaml req) = Err e) \/
  exists m, Parse yaml_Manifest (rq_Yaml req) = Ok m /\ name_of m <> rq_Name req.

Definition listing (d : directory) (l : list PluginStatus) : Prop :=
  (fun s => (st_Name s, st_Kind s, st_Provides s)) <$> l =
    (fun m => (name_of m, Kind m, Manifest_ProvidesCaps m)) <$> omap (fun n => dir_manifests d !! n) (sorted_keys (dir_manifests d)) /\
  Forall (fun s => st_Name s ∉ dir_launched d -> st_State s = "registered" /\ st_Endpoint s = "") l.

Inductive dir_step : directory -> observation -> directory -> Prop :=
  | dir_registered d req m reply :
      Parse yaml_Manifest (rq_Yaml req) = Ok m -> name_of m = rq_Name req -> rq_Name req <> "" ->
      rs_Name reply = rq_Name req -> rs_State reply = (if wants_launch req then "Healthy" else "registered") ->
      dir_step d (Registered req (Ok reply)) (dir_add (rq_Name req) m (wants_launch req) d)
  | dir_refused d req e :
      malformed req -> dir_step d (Registered req (Err e)) d
  | dir_failed d req e :
      ~ malformed req -> dir_step d (Registered req (Err e)) (dir_remove (rq_Name req) d)
  | dir_removed d name :
      dir_step d (Removed name (bool_decide (is_Some (dir_manifests d !! name)))) (dir_remove name d)
  | dir_listed d l : listing d l -> dir_step d (Listed l) d
  | dir_called d caller capability sel allowed provider :
      (allowed = false -> provider = "") ->
      (forall p, allowed = true /\ provider = p <-> dir_may_call d caller capability /\ dir_sole d capability sel p) ->
      dir_step d (Called caller capability sel allowed provider) d.

Inductive dir_run : directory -> list observation -> directory -> Prop :=
  | dir_done d : dir_run d [] d
  | dir_next d o d1 os d2 : dir_step d o d1 -> dir_run d1 os d2 -> dir_run d (o :: os) d2.
End Spec.

(** The directory that a plane file describes. *)
Definition dir_of_plane (pl : LoadedPlane) : directory :=
  mkDir (list_to_map ((fun s => (name_of (sp_Manifest s), sp_Manifest s)) <$> pl_Specs pl))
    (list_to_set (omap (fun s => (fun _ => name_of (sp_Manifest s)) <$> sp_Launch s) (pl_Specs pl))).

(** ** The plane as a directory *)

Section Refinement.
Context {R Conn : Type} `{DeploymentRuntime R LaunchSpec}.
Context (grpc_NewClient : nat -> string -> result Conn) (target : Conn -> string).
Context (cfg : Config) (Hcap : 0 < CrashLoopCap cfg).
Context (yaml_Manifest : string -> result Manifest) (gwAddr : string) (readyTO : Z).
Context (descriptors : list FileDesc).
Context (unmarshal : string -> option RequestContext) (marshal : RequestContext -> result string).
Context (conn_Invoke : Conn -> Ctx -> string -> string -> result string).
Implicit Types (c : Control (R := R) (Conn := Conn)).

Definition directory_of c : directory :=
  mkDir (byName (c_reg c)) (list_to_set (Reconciler_DesiredNames (c_rec c))).

(** A step of the plane and what is seen of it; a pass of the reconcile loop is not seen. *)
Inductive observed : Control (R := R) (Conn := Conn) -> option observation -> Control (R := R) (Conn := Conn) -> Prop :=
  | obs_pass c copy now : observed c None (drive grpc_NewClient c (Reconcile_pass cfg (c_rec c) copy now))
  | obs_register clock passes cancelled tok req c r c' :
      controlService_RegisterPlugin cfg grpc_NewClient yaml_Manifest gwAddr readyTO clock passes cancelled tok req c = Some (r, c') ->
      observed c (Some (Registered req r)) c'
  | obs_deregister name c :
      let out := controlService_DeregisterPlugin cfg grpc_NewClient c name in observed c (Some (Removed name out.1)) out.2
  | obs_list c : observed c (Some (Listed (controlService_ListPlugins c))) c
  | obs_call c tok caller capability payload x w r w' rec :
      firstHeader x pluginTokenHeader = tok -> tok <> "" -> pluginTokens (c_gw c) !! tok = Some caller -> caller <> "" ->
      traced unmarshal x = true -> door unmarshal marshal conn_Invoke c capability payload x w = Some (r, w') ->
      audits w' = audits w ++ [rec] ->
      observed c (Some (Called caller capability (selector_of x) (a_Allowed rec) (a_Provider rec))) c.

Inductive observed_run : Control (R := R) (Conn := Conn) -> list observation -> Control (R := R) (Conn := Conn) -> Prop :=
  | run_done c : observed_run c [] c
  | run_next c o c1 os c2 : observed c o c1 -> observed_run c1 os c2 -> observed_run c (option_list o ++ os) c2.

(** Every step is one of the running plane, or leaves it alone. *)
Lemma observed_step c o c' : observed c o c' -> rtc (plane_step grpc_NewClient cfg yaml_Manifest gwAddr readyTO) c c'.
Proof.
  intros [c0 copy now|clock passes cancelled tok req c0 r c1 E|name c0|c0|c0 tok caller capability payload x w r w' rec _ _ _ _ _ _ _].
  - apply rtc_once, step_pass.
  - apply rtc_once. by eapply step_register.
  - apply rtc_once, step_deregister.
  - apply rtc_refl.
  - apply rtc_refl.
Qed.

(** ** What each part of an operation does to the directory *)

Definition dir_undesire (name : string) (d : directory) : directory := mkDir (dir_manifests d) (dir_launched d ∖ {[name]}).
Definition dir_forget (name : string) (d : directory) : directory := mkDir (delete name (dir_manifests d)) (dir_launched d).

Notation is_running := (running grpc_NewClient target cfg descriptors).

Lemma run_closed : closed (R := R) grpc_NewClient cfg is_running.
Proof. apply running_closed. Qed.

(** Only what is registered was launched. *)
Definition dir_wf (d : directory) : Prop := forall n, n ∈ dir_launched d -> is_Some (dir_manifests d !! n).

Lemma dir_drive c r : directory_of (drive grpc_NewClient c r) = mkDir (dir_manifests (directory_of c)) (list_to_set (Reconciler_DesiredNames r)).
Proof. unfold directory_of. destruct (drive_admin grpc_NewClient c r) as (E & _). by rewrite E drive_rec. Qed.

Lemma dir_pass c copy now : is_running c -> directory_of (drive grpc_NewClient c (Reconcile_pass cfg (c_rec c) copy now)) = directory_of c.
Proof.
  intros Hc. rewrite dir_drive. destruct (pass_frame cfg copy (c_rec c) now Hcap (ctl_rec cfg _ (run_ok _ _ _ _ _ Hc))) as (E & _).
  unfold directory_of, Reconciler_DesiredNames. by rewrite E.
Qed.

Lemma dir_RemoveDesired c n : directory_of (c_RemoveDesired cfg grpc_NewClient c n) = dir_undesire n (directory_of c).
Proof.
  unfold c_RemoveDesired. rewrite dir_drive. unfold dir_undesire, directory_of, Reconciler_DesiredNames. simpl. f_equal.
  destruct (RemoveDesired_frame cfg (c_rec c) n) as (-> & _). apply set_eq. intros x.
  rewrite elem_of_difference !elem_of_list_to_set not_elem_of_singleton !list_elem_of_fmap.
  setoid_rewrite list_elem_of_filter. split; [intros (d & -> & ? & ?); eauto|intros ((d & -> & ?) & ?); eauto].
Qed.

Lemma dir_Deregister c n : directory_of (c_Deregister c n) = dir_forget n (directory_of c).
Proof.
  unfold directory_of, dir_forget, c_Deregister. simpl. f_equal. unfold Registry_Deregister.
  destruct (byName (c_reg c) !! n) eqn:E; [done|]. by rewrite delete_id.
Qed.

Lemma dir_dropToken c n : directory_of (controlService_dropToken c n) = directory_of c.
Proof. unfold controlService_dropToken. by destruct (c_wired c). Qed.
Lemma dir_setToken c tok n : directory_of (setToken c tok n) = directory_of c.
Proof. unfold setToken. by destruct (c_wired c). Qed.

Lemma dir_remove_plugin c n : directory_of (remove_plugin cfg grpc_NewClient c n) = dir_remove n (directory_of c).
Proof. unfold remove_plugin. by rewrite dir_Deregister dir_dropToken dir_RemoveDesired. Qed.

Lemma dir_remove_absent n d : dir_wf d -> dir_manifests d !! n = None -> dir_remove n d = d.
Proof.
  intros Hd Hn. destruct d as [ms l]. unfold dir_remove. simpl in *. f_equal; [by apply delete_id|].
  apply set_eq. intros x. rewrite elem_of_difference not_elem_of_singleton. split; [tauto|]. intros Hx. split; [done|].
  intros ->. destruct (Hd n Hx). simpl in *. congruence.
Qed.

Lemma dir_remove_add n m b d : dir_remove n (dir_add n m b d) = dir_remove n d.
Proof.
  unfold dir_remove, dir_add. simpl. f_equal; [by rewrite delete_insert_eq|].
  destruct b; apply set_eq; intros x; set_solver.
Qed.

Lemma dir_wf_remove n d : dir_wf d -> dir_wf (dir_remove n d).
Proof.
  intros Hd x. simpl. rewrite elem_of_difference not_elem_of_singleton. intros [Hx Hne].
  rewrite lookup_delete_ne; [by apply Hd|done].
Qed.
Lemma dir_wf_add n m b d : dir_wf d -> dir_wf (dir_add n m b d).
Proof.
  intros Hd x Hx. simpl in *. destruct (decide (x = n)) as [->|Hne]; [rewrite lookup_insert_eq; eauto|].
  rewrite lookup_insert_ne; [|done]. apply Hd. destruct b; set_solver.
Qed.

(** *** The operations *)

Lemma dir_passes ts c : is_running c ->
  is_running (fold_left (c_Reconcile cfg grpc_NewClient) ts c) /\ directory_of (fold_left (c_Reconcile cfg grpc_NewClient) ts c) = directory_of c.
Proof.
  revert c. induction ts as [|t ts IH]; intros c Hc; [done|]. simpl.
  assert (is_running (c_Reconcile cfg grpc_NewClient c t)) as H1 by exact (closed_pass _ cfg Hcap _ run_closed c _ _ Hc).
  destruct (IH _ H1) as [H2 H3]. split; [done|]. rewrite H3. by apply dir_pass.
Qed.

Lemma await_refines fuel i clock passes cancelled name dl c r c' :
  is_running c -> await_healthy cfg grpc_NewClient fuel i clock passes cancelled name dl c = Some (r, c') ->
  match r with
  | Ok reply => rs_Name reply = name /\ rs_State reply = "Healthy" /\ directory_of c' = directory_of c
  | Err _ => directory_of c' = dir_remove name (directory_of c)
  end.
Proof.
  revert i c. induction fuel as [|fuel IH]; intros i c Hc; [done|]. cbn [await_healthy].
  destruct (dir_passes (passes i) c Hc) as [H1 H2]. set (c1 := fold_left _ _ c) in *. rewrite -H2.
  destruct (decide _) as [Hh|_]; [intros [= <- <-]; by rewrite Hh|].
  destruct (_ || _); [intros [= <- <-]; apply dir_remove_plugin|].
  destruct (cancelled i); [intros [= <- <-]; apply dir_remove_plugin|]. by apply IH.
Qed.

Lemma launch_refines clock passes cancelled tok name m ls c r c' d :
  is_running c -> directory_of c = dir_add name m false d ->
  launch_plugin cfg grpc_NewClient gwAddr readyTO clock passes cancelled tok name m ls c = Some (r, c') ->
  match r with
  | Ok reply => rs_Name reply = name /\ rs_State reply = "Healthy" /\ directory_of c' = dir_add name m true d
  | Err _ => directory_of c' = dir_remove name d
  end.
Proof.
  intros Hc Hd. assert (dir_forget name (directory_of c) = dir_remove name d) as Hf.
  { rewrite Hd. unfold dir_forget, dir_remove, dir_add. simpl. by rewrite delete_insert_eq. }
  unfold launch_plugin. destruct (isolationProfile _); [|intros [= <- <-]; by rewrite dir_Deregister].
  pose proof (closed_set _ cfg _ run_closed c tok name Hc) as Hs.
  destruct (Reconciler_AddDesired _ _) as [r'|e] eqn:Ea.
  - intros Ha. eapply await_refines in Ha; [|exact (closed_desire _ cfg Hcap _ run_closed _ _ _ Hs Ea)].
    assert (directory_of (drive grpc_NewClient (setToken c tok name) r') = dir_add name m true d) as E.
    { rewrite dir_drive dir_setToken Hd. unfold Reconciler_AddDesired in Ea. destruct (existsb _ _); [done|]. injection Ea as <-.
      unfold Reconciler_DesiredNames. simpl. rewrite fmap_app list_to_set_app_L. unfold dir_add. simpl. f_equal.
      assert (list_to_set (d_Name <$> desired (c_rec (setToken c tok name))) = dir_launched (directory_of (setToken c tok name))) as -> by done.
      rewrite dir_setToken Hd. simpl. apply set_eq. intros x. destruct (decide (x = name)); set_solver. }
    rewrite E in Ha. destruct r; [done|]. by rewrite Ha dir_remove_add.
  - intros [= <- <-]. by rewrite dir_Deregister dir_dropToken dir_setToken.
Qed.

Lemma register_refines clock passes cancelled tok req c r c' :
  is_running c -> dir_wf (directory_of c) ->
  controlService_RegisterPlugin cfg grpc_NewClient yaml_Manifest gwAddr readyTO clock passes cancelled tok req c = Some (r, c') ->
  dir_step yaml_Manifest (directory_of c) (Registered req r) (directory_of c').
Proof.
  intros Hc Hwf. unfold controlService_RegisterPlugin.
  case_decide as Hn; [intros [= <- <-]; apply dir_refused; by left|].
  destruct (Parse yaml_Manifest (rq_Yaml req)) as [m|e] eqn:Hp; [|intros [= <- <-]; apply dir_refused; right; left; by exists e].
  destruct (decide (name_of m = rq_Name req)) as [Hm|Hm]; [|intros [= <- <-]; apply dir_refused; right; right; by exists m].
  assert (~ malformed yaml_Manifest req) as Hgood.
  { intros [?|[[e He]|(m' & Hp' & Hm')]]; congruence. }
  set (n := rq_Name req) in *. set (c1 := match Registry_Plugin (c_reg c) n with Some _ => _ | None => _ end).
  assert (is_running c1 /\ directory_of c1 = dir_remove n (directory_of c)) as [H1 Hd1].
  { unfold c1. unfold Registry_Plugin. destruct (byName (c_reg c) !! n) as [old|] eqn:Ho.
    - split; [apply (closed_deregister _ _ _ run_closed); by apply (closed_undesire _ _ _ run_closed)|].
      by rewrite dir_Deregister dir_RemoveDesired.
    - split; [done|]. by rewrite dir_remove_absent. }
  destruct (Registry_Register (c_reg c1) m) as [r1|e] eqn:Er.
  2:{ intros [= <- <-]. rewrite Hd1. by apply dir_failed. }
  assert (is_running (with_reg c1 r1)) as H2.
  { apply (cl_reg _ _ _ run_closed); [done|]. eapply Registry_insert_wf; [|exact Er]. apply (ctl_reg cfg _ (run_ok _ _ _ _ _ H1)). }
  assert (directory_of (with_reg c1 r1) = dir_add n m false (directory_of c)) as Hd2.
  { apply Registry_insert_Ok in Er as [_ ->]. unfold directory_of, dir_remove, dir_add in *. injection Hd1 as Hb Hl. simpl in *.
    rewrite Hb Hl Hm. f_equal. by rewrite insert_delete_eq. }
  assert (wants_launch req = false -> dir_step yaml_Manifest (directory_of c)
    (Registered req (Ok (mkRegisterReply n "registered" ""))) (directory_of (with_reg c1 r1))) as Hplain.
  { intros Hw. rewrite Hd2. pose proof (dir_registered yaml_Manifest (directory_of c) req m (mkRegisterReply n "registered" "")) as Hr.
    rewrite Hw in Hr. by apply Hr. }
  destruct (rq_Launch req) as [ls|] eqn:Hl; [|intros [= <- <-]; apply Hplain; unfold wants_launch; by rewrite Hl].
  case_decide as Hi; [intros [= <- <-]; apply Hplain; unfold wants_launch; rewrite Hl /= Hi; done|].
  intros Ha. apply (launch_refines clock passes cancelled tok n m ls _ r c' (directory_of c) H2 Hd2) in Ha.
  assert (wants_launch req = true) as Hw by (unfold wants_launch; rewrite Hl /=; by rewrite bool_decide_eq_false_2).
  destruct r as [reply|e].
  - destruct Ha as (Hrn & Hrs & ->). pose proof (dir_registered yaml_Manifest (directory_of c) req m reply) as Hr.
    rewrite Hw in Hr. by apply Hr.
  - rewrite Ha. by apply dir_failed.
Qed.

Lemma list_refines c : is_running c -> listing (directory_of c) (controlService_ListPlugins c).
Proof.
  intros Hc. unfold controlService_ListPlugins. fold (Registry_All (c_reg c)). split.
  - rewrite -list_fmap_compose. apply list_fmap_ext. intros i m _. simpl. by case_bool_decide.
  - apply Forall_fmap, Forall_forall. intros m _. simpl. case_bool_decide as E; [|done]. simpl.
    intros Hn. exfalso. apply Hn. by apply elem_of_list_to_set.
Qed.

Lemma call_refines c tok caller capability payload x w r w' rec :
  is_running c -> firstHeader x pluginTokenHeader = tok -> tok <> "" -> pluginTokens (c_gw c) !! tok = Some caller -> caller <> "" ->
  traced unmarshal x = true -> door unmarshal marshal conn_Invoke c capability payload x w = Some (r, w') ->
  audits w' = audits w ++ [rec] ->
  dir_step yaml_Manifest (directory_of c) (Called caller capability (selector_of x) (a_Allowed rec) (a_Provider rec)) (directory_of c).
Proof.
  intros Hc Hh Hne Ht Hcal Htr Hdoor Hau. rewrite (door_opens _ _ _ c caller tok) // in Hdoor.
  destruct (Registry_Select (c_reg c) caller capability (selector_of x)) as [d|] eqn:Hs; [|done]. cbn [mbind option_bind] in Hdoor.
  assert (rec = decision_record capability caller (GetCorrelationId (GetTrace (envelope_of unmarshal x))) d) as ->.
  { assert (audits w' = audits w ++ [decision_record capability caller (GetCorrelationId (GetTrace (envelope_of unmarshal x))) d]) as E.
    { destruct (Allowed d); [destruct (route_call _ _ _ _ _ _ _)|destruct (Authorized d)]; by injection Hdoor as _ <-. }
    rewrite E in Hau. by apply app_inv_head in Hau as [= <-]. }
  simpl. apply dir_called; [by apply (denied_names_nobody _ _ _ _ _ Hs)|]. intros p.
  destruct (Select_decides (c_reg c) caller capability (selector_of x) (ctl_reg cfg _ (run_ok _ _ _ _ _ Hc))) as (d' & Hs' & _ & Hp).
  rewrite Hs in Hs'. injection Hs' as <-. exact (Hp p).
Qed.

Lemma step_refines c o c' :
  is_running c -> dir_wf (directory_of c) ->
  observed c o c' ->
  match o with None => directory_of c' = directory_of c | Some o => dir_step yaml_Manifest (directory_of c) o (directory_of c') end.
Proof.
  intros Hc Hwf Ho. destruct Ho as [c copy now|clock passes cancelled tok req c r c' E|name c out|c|c tok caller capability payload x w r w' rec].
  - by apply dir_pass.
  - by eapply register_refines.
  - unfold out, controlService_DeregisterPlugin. cbn [fst snd]. rewrite dir_remove_plugin. apply dir_removed.
  - by apply dir_listed, list_refines.
  - by eapply call_refines.
Qed.

Lemma dir_step_wf d o d' : dir_step yaml_Manifest d o d' -> dir_wf d -> dir_wf d'.
Proof. intros Hs Hd. destruct Hs; try exact Hd; [by apply dir_wf_add|by apply dir_wf_remove..]. Qed.

Lemma run_refines c os c' :
  is_running c -> dir_wf (directory_of c) ->
  observed_run c os c' ->
  dir_run yaml_Manifest (directory_of c) os (directory_of c').
Proof.
  intros Hc Hwf Hrun. induction Hrun as [c|c o c1 os c2 Ho _ IH]; [constructor|].
  assert (is_running c1) as H1 by (eapply (closed_steps _ cfg Hcap _ _ _ _ run_closed); [exact Hc|by eapply observed_step]).
  pose proof (step_refines c o c1 Hc Hwf Ho) as Hs. destruct o as [o|]; simpl.
  - eapply dir_next; [exact Hs|]. apply IH; [exact H1|by eapply dir_step_wf].
  - rewrite -Hs. apply IH; [exact H1|by rewrite Hs].
Qed.
End Refinement.

(** ** From the boot on *)

Lemma insert_all_byName ms r r' : insert_all r ms = Ok r' ->
  byName r' = list_to_map ((fun m => (name_of m, m)) <$> ms) ∪ byName r.
Proof.
  revert r. induction ms as [|m ms IH]; intros r Hi.
  { injection Hi as <-. by rewrite left_id_L. }
  destruct (insert_all_names _ _ _ Hi) as [Hnd _]. simpl in Hi. apply result_bind_Ok in Hi as (r1 & Hr & Hi).
  apply Registry_insert_Ok in Hr as [_ ->]. rewrite (IH _ Hi). simpl. rewrite -insert_union_r; [by rewrite insert_union_l|].
  apply not_elem_of_list_to_map_1. rewrite -list_fmap_compose. inversion Hnd as [|x l Hx _]. exact Hx.
Qed.

Section Booted.
Context {R Conn : Type} `{DeploymentRuntime R LaunchSpec}.
Context (grpc_NewClient : nat -> string -> result Conn) (target : Conn -> string).
Context (newPluginToken : nat -> string) (Duration_String : Z -> string).

Lemma plane_directory gwAddr pl (c : Control (R := R) (Conn := Conn)) :
  plane_of newPluginToken gwAddr pl c -> directory_of c = dir_of_plane pl.
Proof.
  intros Hp. unfold directory_of, dir_of_plane. f_equal.
  - pose proof (insert_all_byName _ _ _ (po_reg _ _ _ _ Hp)) as ->. rewrite right_id_L. by rewrite -list_fmap_compose.
  - apply set_eq. intros n. rewrite !elem_of_list_to_set list_elem_of_fmap list_elem_of_omap. split.
    + intros (d & -> & (i & s & Hs & l & Hl & Hd)%(po_desired _ _ _ _ Hp)). exists s. split; [by eapply list_elem_of_lookup_2|].
      rewrite Hl. by rewrite Hd.
    + intros (s & [i Hs]%list_elem_of_lookup & Hn). destruct (sp_Launch s) as [l|] eqn:Hl; [|done]. injection Hn as <-.
      eexists. split; [|apply (po_desired _ _ _ _ Hp); exists i, s; split; [done|by exists l; split]]. done.
Qed.

Lemma plane_dir_wf pl : NoDup ((fun s => name_of (sp_Manifest s)) <$> pl_Specs pl) -> dir_wf (dir_of_plane pl).
Proof.
  intros Hnd n. simpl. rewrite elem_of_list_to_set list_elem_of_omap. intros (s & Hs & Hn).
  destruct (sp_Launch s); [|done]. injection Hn as <-. exists (sp_Manifest s). apply elem_of_list_to_map_1.
  - by rewrite -list_fmap_compose.
  - apply list_elem_of_fmap. by exists s.
Qed.

End Booted.

(** ** The fleet, as its users see it *)

#[local] Existing Instance Daemon.demo_runtime.
#[local] Existing Instance Daemon.demo_token_inj.

(** The job calls the store; a viewer comes, the plugins are listed, and it goes. *)
Definition fleet_listing : list PluginStatus :=
  [mkPluginStatus "etl" "ui" [] "Healthy" "etl:50051"; mkPluginStatus "pg" "state-backend" ["rat://state/v1/get"] "Healthy" "pg:50051";
   mkPluginStatus "viewer" "ui" [] "registered" ""].
Definition fleet_seen : list observation :=
  [Called "etl" "rat://state/v1/get" ∅ true "pg";
   Registered (mkRegisterReq "viewer" "viewer" None) (Ok (mkRegisterReply "viewer" "registered" ""));
   Listed fleet_listing;
   Removed "viewer" true].

Lemma fleet_observed :
  observed_run demo_dial (launch_cfg 10) viewer_yaml "rat:7777" 10 fleet_unmarshal (fun _ => Ok "restamped") fleet_provider
    fleet0 fleet_seen fleet.
Proof.
  assert (exists r w' rec, door fleet_unmarshal (fun _ => Ok "restamped") fleet_provider fleet0 "rat://state/v1/get" "k"
      (fleet_call "tok-1") (mkWorld [] [] []) = Some (r, w') /\ audits w' = [rec] /\ a_Allowed rec = true /\ a_Provider rec = "pg")
    as (r & w' & rec & Hd & Hau & Ha & Hp).
  { eexists _, _, _. split; [vm_compute; reflexivity|]. split; [reflexivity|]. split; reflexivity. }
  apply (run_next _ _ _ _ _ _ _ _ _ (Some (Called "etl" "rat://state/v1/get" ∅ true "pg")) fleet0).
  { assert (Called "etl" "rat://state/v1/get" ∅ true "pg" =
      Called "etl" "rat://state/v1/get" (selector_of (fleet_call "tok-1")) (a_Allowed rec) (a_Provider rec)) as -> by by rewrite Ha Hp.
    eapply (obs_call _ _ _ _ _ _ _ _ _ "tok-1" "etl" _ "k" _ (mkWorld [] [] []) r w' rec).
    - reflexivity.
    - discriminate.
    - evaluated.
    - discriminate.
    - evaluated.
    - exact Hd.
    - exact Hau. }
  apply (run_next _ _ _ _ _ _ _ _ _ (Some (Registered (mkRegisterReq "viewer" "viewer" None) (Ok (mkRegisterReply "viewer" "registered" "")))) fleet1).
  { eapply (obs_register _ _ _ _ _ _ _ _ demo_clock demo_passes (fun _ => None) "tok-v"). evaluated. }
  apply (run_next _ _ _ _ _ _ _ _ _ (Some (Listed fleet_listing)) fleet1).
  { assert (fleet_listing = controlService_ListPlugins fleet1) as -> by evaluated. apply obs_list. }
  apply (run_next _ _ _ _ _ _ _ _ _ (Some (Removed "viewer" true)) fleet).
  { assert (true = (controlService_DeregisterPlugin (launch_cfg 10) demo_dial fleet1 "viewer").1) as -> by evaluated. apply obs_deregister. }
  apply run_done.
Qed.

