(* ===== verification/Contexts.v ===== *)
(** Where a command connects (src/core/client/context.go, findProject of
    src/core/cmd/rat/project.go): the enclosing project, found by walking up from the
    working directory, and the named connection profiles. *)
From S2P Require Import Prelude Paths Plane Marketplace Project.

(** ** Walking up to an ancestor *)

(** The loop of [findProject] and [defaultGateway]: [probe] looks at a directory; the walk
    stops where the parent is the directory itself.  [None] is fuel run out. *)
Fixpoint find_up {A} (probe : string -> option A) (fuel : nat) (d : string) : option (option A) :=
  match fuel with
  | O => None
  | S fuel =>
      match probe d with
      | Some a => Some (Some a)
      | None => let parent := Dir d in if decide (parent = d) then Some None else find_up probe fuel parent
      end
  end.

(** One round per component, and one for the root. *)
Definition up_fuel (d : string) : nat := S (length (comps (parse_path d))).

Definition found_project (fs : files) (d : string) : option (string * string) :=
  let p := filepath_Join [d; projectFile] in
  if decide (is_Some (fs !! p)) then Some (p, d) else None.

(** The path of the project file and its directory. *)
Definition findProject (fs : files) (cwd start : string) : option (result (string * string)) :=
  let d := absPath cwd start in
  r ← find_up (found_project fs) (up_fuel d) d;
  Some match r with
       | Some pd => Ok pd
       | None => Err (Errorf "no %s found in %s or any parent (run `rat init`)" [projectFile; start])
       end.

Definition localGateway : string := "127.0.0.1:7777".

(** [cwd] is [None] when the working directory cannot be told. *)
Definition gateway_at (fs : files) (d : string) : option string :=
  if decide (is_Some (fs !! filepath_Join [d; "rat.toml"])) then
    let sock := filepath_Join [d; ".rat"; "daemon.sock"] in
    Some (if decide (is_Some (fs !! sock)) then "unix://" +:+ sock else localGateway)
  else None.
Definition defaultGateway (fs : files) (cwd : option string) : option string :=
  match cwd with
  | None => Some localGateway
  | Some d => r ← find_up (gateway_at fs) (up_fuel d) d; Some (default localGateway r)
  end.

(** ** What the walk finds *)

Section Walk.
Context {A : Type} (probe : string -> option A).

(** The nearest of the directory [cs] and its ancestors, the root included, that answers. *)
Definition nearest (cs : list string) (r : option A) : Prop :=
  match r with
  | Some a => exists k, (k <= length cs)%nat /\ probe (abs_path (take k cs)) = Some a /\
      forall j, (k < j <= length cs)%nat -> probe (abs_path (take j cs)) = None
  | None => forall j, (j <= length cs)%nat -> probe (abs_path (take j cs)) = None
  end.

Lemma nearest_here cs a : probe (abs_path cs) = Some a -> nearest cs (Some a).
Proof. intros Hp. exists (length cs). split_and!; [done|by rw firstn_all|lia]. Qed.

Lemma nearest_above cs c r : probe (abs_path (cs ++ [c])) = None -> nearest cs r -> nearest (cs ++ [c]) r.
Proof.
  intros Hp Hn. assert (forall j, (j <= length cs)%nat -> take j (cs ++ [c]) = take j cs) as Ht.
  { intros j Hj. by rw take_app_le. }
  assert (probe (abs_path (take (S (length cs)) (cs ++ [c]))) = None) as Hlast.
  { rw firstn_all2; [done|]. rw length_app /=. lia. }
  rw /nearest length_app /=. destruct r as [a|].
  - destruct Hn as (k & Hk & Ha & Hj). exists k. split_and!; [lia|by rw Ht|].
    intros j Hjk. destruct (decide (j = S (length cs))) as [->|]; [done|]. rw Ht; [apply Hj|]; lia.
  - intros j Hj. destruct (decide (j = S (length cs))) as [->|]; [done|]. rw Ht; [apply Hn|]; lia.
Qed.

Lemma find_up_nearest cs fuel :
  good_stack true (rev cs) -> (length cs < fuel)%nat ->
  exists r, find_up probe fuel (abs_path cs) = Some r /\ nearest cs r.
Proof.
  revert fuel. induction cs as [|c cs IH] using rev_ind; intros [|fuel] Hg Hf; try lia; cbn [find_up].
  - destruct (probe (abs_path [])) as [a|] eqn:E; [exists (Some a); split; [done|by apply nearest_here]|].
    destruct (decide _) as [_|Hne]; [|by destruct Hne]. exists None. split; [done|]. intros j Hj. by rw take_nil.
  - destruct (probe (abs_path (cs ++ [c]))) as [a|] eqn:E; [exists (Some a); split; [done|by apply nearest_here]|].
    assert (good_stack true (rev cs)) as Hcs by by rewrite rev_unit in Hg; destruct Hg as (_ & _ & ?).
    rw (Dir_abs _ _ Hg). cbv zeta. destruct (decide _) as [H|_].
    { apply abs_path_inj in H; [|done|done]. apply (f_equal length) in H. rewrite length_app in H. simpl in H. lia. }
    rewrite length_app in Hf. simpl in Hf. destruct (IH fuel Hcs) as (r & Hr & Hn); [lia|].
    exists r. split; [done|by apply nearest_above].
Qed.
End Walk.

Lemma absPath_clean cwd start : IsAbs start = true \/ is_rooted cwd = true ->
  exists s, is_rooted s = true /\ absPath cwd start = Clean s.
Proof.
  intros Hs. unfold absPath. destruct (IsAbs start) eqn:Ea; [by exists start|]. destruct Hs as [?|Hc]; [done|].
  exists (cwd +:+ String "/" start). split.
  - apply HasPrefix_true in Hc as [r ->]. unfold is_rooted. rw str_app_assoc. apply HasPrefix_app.
  - unfold filepath_Join. cbn [skip_empty]. destruct (decide (cwd = "")) as [->|]; [done|]. by destruct start.
Qed.

(** The search for the project always ends, at the nearest directory that holds a project
    file: the start or an ancestor of it, with no nearer one; it fails exactly when
    neither the start nor any ancestor up to the root has one. *)
Theorem findProject_nearest fs cwd start :
  IsAbs start = true \/ is_rooted cwd = true ->
  let cs := comps (parse_path (absPath cwd start)) in
  let has j := is_Some (fs !! filepath_Join [abs_path (take j cs); projectFile]) in
  match findProject fs cwd start with
  | Some (Ok (p, d)) => exists k, (k <= length cs)%nat /\ d = abs_path (take k cs) /\
      p = filepath_Join [d; projectFile] /\ has k /\ forall j, (k < j <= length cs)%nat -> ~ has j
  | Some (Err _) => forall j, (j <= length cs)%nat -> ~ has j
  | None => False
  end.
Proof.
  intros Hs cs has. destruct (absPath_clean cwd start Hs) as (s & Hr & Ed).
  assert (absPath cwd start = abs_path cs) as Ea by (unfold cs; by rw Ed Clean_parse Clean_abs).
  assert (good_stack true (rev cs)) as Hg.
  { unfold cs. rw Ed Clean_parse. pose proof (parse_path_good s) as H.
    by assert (rooted (parse_path s) = true) as E by exact Hr; rewrite E in H. }
  assert (forall j, found_project fs (abs_path (take j cs)) = None -> ~ has j) as Hno.
  { intros j. unfold found_project, has. by case_decide. }
  destruct (find_up_nearest (found_project fs) cs (up_fuel (abs_path cs)) Hg) as (r & Hf & Hn).
  { unfold up_fuel. rw comps_abs //. lia. }
  unfold findProject. rw Ea Hf. simpl. destruct r as [[p d]|]; [|intros j Hj; by apply Hno, Hn].
  destruct Hn as (k & Hk & Ha & Hj). exists k. unfold found_project in Ha. case_decide as Hp; [|done]. injection Ha as <- <-.
  split_and!; try done. intros j Hjk. by apply Hno, Hj.
Qed.

(** ** Connection profiles *)

Record RatContext := mkRatContext {
  ctx_Name : string; ctx_Addr : string; ctx_As : string; ctx_Token : string; ctx_Workspace : string;
}.
#[export] Instance RatContext_eq_dec : EqDecision RatContext.
Proof. solve_decision. Defined.

(** The profile file, as it decodes; the empty one when there is none. *)
Record contextFile := mkContexts { Current : string; Contexts : list RatContext }.
Definition no_contexts : contextFile := mkContexts "" [].

(** The profile that is current, the gateway where it names none. *)
Definition CurrentContext (cf : contextFile) (gateway : string) : RatContext :=
  match List.find (fun c => bool_decide (ctx_Name c = Current cf)) (Contexts cf) with
  | Some c => if decide (ctx_Addr c = "")
              then mkRatContext (ctx_Name c) gateway (ctx_As c) (ctx_Token c) (ctx_Workspace c) else c
  | None => mkRatContext "" gateway "" "" ""
  end.

Inductive context_cmd :=
  | CtxAdd (args : list string) (addr as_ token ws : string)
  | CtxUse (args : list string)
  | CtxRemove (args : list string)
  | CtxShow | CtxList | CtxOther (sub : string).

(** The file a command leaves; [saved] tells whether writing it succeeded. *)
Definition saveContexts (saved : option error) (old new : contextFile) : option error * contextFile :=
  match saved with Some e => (Some e, old) | None => (None, new) end.

Definition context_add (name : string) (c : RatContext) (cf : contextFile) : contextFile :=
  let replaced := existsb (fun x => bool_decide (ctx_Name x = name)) (Contexts cf) in
  let l := (fun x => if decide (ctx_Name x = name) then c else x) <$> Contexts cf in
  mkContexts (if decide (Current cf = "") then name else Current cf) (if replaced then l else l ++ [c]).

Definition RunContext (cmd : context_cmd) (saved : option error) (cf : contextFile) : option error * contextFile :=
  match cmd with
  | CtxAdd args addr as_ token ws =>
      let usage := Errorf "usage: rat context add <name> --addr <host:port> [--as <caller>] [--token <t>] [--workspace <w>]" [] in
      match args with
      | [] | "" :: _ | String "-" _ :: _ => (Some usage, cf)
      | name :: _ => saveContexts saved cf (context_add name (mkRatContext name addr as_ token ws) cf)
      end
  | CtxUse [] => (Some (Errorf "usage: rat context use <name>" []), cf)
  | CtxUse (name :: _) =>
      if existsb (fun c => bool_decide (ctx_Name c = name)) (Contexts cf)
      then saveContexts saved cf (mkContexts name (Contexts cf))
      else (Some (Errorf "no context %q (rat context list)" [name]), cf)
  | CtxRemove [] => (Some (Errorf "usage: rat context remove <name>" []), cf)
  | CtxRemove (name :: _) =>
      if existsb (fun c => bool_decide (ctx_Name c = name)) (Contexts cf)
      then saveContexts saved cf
             (mkContexts (if decide (Current cf = name) then "" else Current cf)
                (filter (fun c => ctx_Name c <> name) (Contexts cf)))
      else (Some (Errorf "no context %q" [name]), cf)
  | CtxShow | CtxList => (None, cf)
  | CtxOther sub => (Some (Errorf "unknown `rat context %s` (add | use | list | show | remove)" [sub]), cf)
  end.

(** One profile per name, none without a name, and the current one, if any, exists. *)
Record contexts_ok (cf : contextFile) : Prop := {
  co_names : NoDup (ctx_Name <$> Contexts cf);
  co_named : "" ∉ ctx_Name <$> Contexts cf;
  co_current : Current cf = "" \/ Current cf ∈ ctx_Name <$> Contexts cf;
}.

Lemma add_names name c cf : ctx_Name c = name ->
  ctx_Name <$> Contexts (context_add name c cf) =
  (ctx_Name <$> Contexts cf) ++ (if existsb (fun x => bool_decide (ctx_Name x = name)) (Contexts cf) then [] else [name]).
Proof.
  intros Hc. unfold context_add. simpl.
  assert (forall l : list RatContext, ctx_Name <$> ((fun x => if decide (ctx_Name x = name) then c else x) <$> l) = ctx_Name <$> l) as Hm.
  { induction l as [|x l IH]; [done|]. rw !fmap_cons IH. by case_decide as E; [rw E Hc|]. }
  destruct (existsb _ _); [by rw Hm app_nil_r|]. by rw fmap_app Hm /= Hc.
Qed.

Lemma has_name cf name :
  existsb (fun x => bool_decide (ctx_Name x = name)) (Contexts cf) = bool_decide (name ∈ ctx_Name <$> Contexts cf).
Proof.
  apply eq_true_iff_eq. rw existsb_exists bool_decide_eq_true list_elem_of_fmap. setoid_rewrite list_elem_of_In.
  setoid_rewrite bool_decide_eq_true. split; intros (x & H1 & H2); by exists x.
Qed.

Lemma RunContext_ok cmd saved cf : contexts_ok cf -> contexts_ok (RunContext cmd saved cf).2.
Proof.
  intros Hok. assert (forall new, contexts_ok new -> contexts_ok (saveContexts saved cf new).2) as Hsave.
  { intros new Hn. by destruct saved. }
  destruct Hok as [H1 H2 H3]. destruct cmd as [args addr as_ token ws|args|args| | |sub]; try by constructor.
  - destruct args as [|[|a n] args]; [by constructor..|].
    assert (contexts_ok (saveContexts saved cf (context_add (String a n) (mkRatContext (String a n) addr as_ token ws) cf)).2) as Hadd.
    { apply Hsave. constructor.
      - rw add_names // has_name. case_bool_decide as E; [by rw app_nil_r|].
        apply NoDup_app. split_and!; [done| |apply NoDup_singleton]. intros x Hx ->%list_elem_of_singleton. done.
      - rw add_names //. rewrite elem_of_app. intros [?|H]; [done|]. by destruct (existsb _ _); [apply not_elem_of_nil in H|apply list_elem_of_singleton in H].
      - rw add_names // has_name elem_of_app. right. simpl.
        destruct (decide (Current cf = "")) as [E|E]; [|by left; destruct H3].
        case_bool_decide; [by left|right; by left]. }
    simpl. destruct a as [[] [] [] [] [] [] [] []]; try exact Hadd. by constructor.
  - destruct args as [|n args]; [by constructor|]. simpl. rw has_name. case_bool_decide as E; [|by constructor].
    apply Hsave. constructor; simpl; [done|done|by right].
  - destruct args as [|n args]; [by constructor|]. simpl. rw has_name. case_bool_decide as E; [|by constructor].
    assert (ctx_Name <$> filter (fun c => ctx_Name c <> n) (Contexts cf) = filter (fun x => x <> n) (ctx_Name <$> Contexts cf)) as Hf.
    { clear. induction (Contexts cf) as [|x l IH]; [done|]. rewrite fmap_cons !filter_cons.
      case_decide; [by rw fmap_cons IH|done]. }
    apply Hsave. constructor; simpl; rw Hf; [by apply NoDup_filter|rewrite list_elem_of_filter; tauto|].
    case_decide; [by left|]. rewrite list_elem_of_filter. destruct H3; [by left|by right].
Qed.

(** The profile file keeps one profile per name, none unnamed, and a current one that
    exists, whatever commands are run and whether or not they can be saved.  A command that
    connects therefore gets the profile that was last made current, with its own address
    or the enclosing gateway's, and the bare gateway when none is. *)
Theorem contexts_consistent cmds gateway :
  let cf := fold_left (fun cf c => (RunContext c.1 c.2 cf).2) cmds no_contexts in
  contexts_ok cf /\
  match List.find (fun c => bool_decide (ctx_Name c = Current cf)) (Contexts cf) with
  | Some c => c ∈ Contexts cf /\ ctx_Name (CurrentContext cf gateway) = Current cf /\ Current cf <> "" /\
      ctx_Addr (CurrentContext cf gateway) = (if decide (ctx_Addr c = "") then gateway else ctx_Addr c) /\
      ctx_As (CurrentContext cf gateway) = ctx_As c /\ ctx_Token (CurrentContext cf gateway) = ctx_Token c /\
      forall c', c' ∈ Contexts cf -> ctx_Name c' = Current cf -> c' = c
  | None => Current cf = "" /\ CurrentContext cf gateway = mkRatContext "" gateway "" "" ""
  end.
Proof.
  intros cf. assert (contexts_ok cf) as Hok.
  { unfold cf. assert (contexts_ok no_contexts) as H0 by (constructor; [constructor|apply not_elem_of_nil|by left]).
    revert H0. generalize no_contexts as x. induction cmds as [|c cmds IH]; intros x Hx; [done|]. by apply IH, RunContext_ok. }
  split; [done|]. destruct Hok as [H1 H2 H3]. unfold CurrentContext.
  destruct (List.find _ (Contexts cf)) as [c|] eqn:E.
  - apply find_some in E as [Hin Hc]. bool_to_prop. rewrite -list_elem_of_In in Hin.
    assert (Current cf <> "") as Hne by (intros E; apply H2; rw -E -Hc; by apply list_elem_of_fmap_2).
    split_and!; [done|by case_decide|done|by case_decide|by case_decide|by case_decide|].
    intros c' Hc' Hn. apply list_elem_of_lookup_1 in Hin as [i Hi], Hc' as [j Hj].
    assert (i = j) as ->; [|congruence]. apply (NoDup_lookup _ i j (ctx_Name c) H1); rewrite list_lookup_fmap.
    + by rw Hi.
    + rw Hj /=. by rw Hn Hc.
  - split; [|done]. destruct H3 as [?|Hin]; [done|]. apply list_elem_of_fmap in Hin as (c & Hc & Hin).
    apply list_elem_of_In, (find_none _ _ E) in Hin. by rw bool_decide_true in Hin.
Qed.

(** ** At a concrete tree *)

Definition demo_tree : files := {["/home/me/lab/rat.toml" := ""; "/home/rat.toml" := ""; "/home/me/lab/.rat/daemon.sock" := ""]}.

Example findProject_ex :
  findProject demo_tree "/home/me/lab/sub/dir" "." = Some (Ok ("/home/me/lab/rat.toml", "/home/me/lab")) /\
  findProject demo_tree "/srv" ".." = Some (Err (Errorf "no %s found in %s or any parent (run `rat init`)" ["rat.toml"; ".."])) /\
  defaultGateway demo_tree (Some "/home/me/lab/sub") = Some "unix:///home/me/lab/.rat/daemon.sock" /\
  defaultGateway demo_tree (Some "/home") = Some localGateway /\ defaultGateway demo_tree (Some "/srv") = Some localGateway.
Proof. by vm_compute. Qed.

Lemma findProject_nearest_witness :
  exists k, abs_path (take k ["home"; "me"; "lab"; "sub"]) = "/home/me/lab" /\
    forall j, (k < j <= 4)%nat ->
      ~ is_Some (demo_tree !! filepath_Join [abs_path (take j ["home"; "me"; "lab"; "sub"]); projectFile]).
Proof.
  pose proof (findProject_nearest demo_tree "/home/me/lab/sub" "." (or_intror eq_refl)) as H.
  assert (comps (parse_path (absPath "/home/me/lab/sub" ".")) = ["home"; "me"; "lab"; "sub"]) as Ec by (vm_compute; reflexivity).
  assert (findProject demo_tree "/home/me/lab/sub" "." = Some (Ok ("/home/me/lab/rat.toml", "/home/me/lab"))) as Ef by (vm_compute; reflexivity).
  cbv zeta in H. rewrite Ec Ef in H. destruct H as (k & _ & Hd & _ & _ & Hj).
  exists k. split; [symmetry; exact Hd|exact Hj].
Defined.
