(* ===== verification/Lifecycle.v ===== *)
(** Daemons of one machine (src/core/cmd/rat/lifecycle.go): the pid file of a project, the
    registry of running instances, and the verbs that start and stop a project's daemon. *)
From S2P Require Import Prelude Paths Supervisor Plane Marketplace Project Command Contexts.

(** ** Processes and the registry of instances *)

Record instanceEntry := mkEntryOf { in_Name : string; in_Dir : string; in_Pid : Z; in_Addr : string }.
#[export] Instance instanceEntry_eq_dec : EqDecision instanceEntry.
Proof. solve_decision. Defined.

Section Processes.
(** Whether signal 0 reaches a process, or is refused to us. *)
Context (kill0 : Z -> bool).

Definition pidAlive (pid : Z) : bool := if pid <=? 0 then false else kill0 pid.

Definition pruneRegistry (es : list instanceEntry) : list instanceEntry := filter (fun e => pidAlive (in_Pid e) = true) es.

Definition without (dir : string) (es : list instanceEntry) : list instanceEntry := filter (fun x => in_Dir x <> dir) es.

(** The file of the registry, as it decodes; a save may fail, silently. *)
Definition saveRegistry (saved : bool) (old new : list instanceEntry) : list instanceEntry := if saved then new else old.
Definition upserted (e : instanceEntry) (es : list instanceEntry) : list instanceEntry :=
  without (in_Dir e) (pruneRegistry es) ++ [e].
Definition registryUpsert (saved : bool) (e : instanceEntry) (es : list instanceEntry) : list instanceEntry :=
  saveRegistry saved es (upserted e es).
Definition registryRemove (saved : bool) (dir : string) (es : list instanceEntry) : list instanceEntry :=
  saveRegistry saved es (without dir es).
(** [rat ls] persists the pruning. *)
Definition runLs (saved : bool) (es : list instanceEntry) : list instanceEntry * list instanceEntry :=
  (pruneRegistry es, saveRegistry saved es (pruneRegistry es)).

(** The pid file of a project's daemon. *)
Definition pid_file (runtimeDir : string) : string := filepath_Join [runtimeDir; "daemon.pid"].
Definition runningPid (fs : files) (runtimeDir : string) : Z * bool :=
  match fs !! pid_file runtimeDir with
  | None => (0, false)
  | Some data => match ParseInt (TrimSpace data) 64 with
                 | Err _ => (0, false)
                 | Ok pid => (pid, pidAlive pid)
                 end
  end.

Record machine := mkMachine { m_files : files; m_registry : list instanceEntry }.

(** [wrote] and [saved] tell whether the two files could be written. *)
Definition registerDaemon (wrote saved : bool) (getpid : Z) (runtimeDir : string) (pl : LoadedPlane) (m : machine) : machine :=
  if decide (runtimeDir = "") then m
  else mkMachine (if wrote then <[pid_file runtimeDir := itoa getpid]> (m_files m) else m_files m)
         (registryUpsert saved (mkEntryOf (pl_Instance pl) (Dir runtimeDir) getpid (pl_Addr pl)) (m_registry m)).
Definition deregisterDaemon (saved : bool) (runtimeDir : string) (m : machine) : machine :=
  if decide (runtimeDir = "") then m
  else mkMachine (delete (pid_file runtimeDir) (m_files m)) (registryRemove saved (Dir runtimeDir) (m_registry m)).
End Processes.

(** ** Bounded polling

    The clock is read for the deadline and at the head of every round; [look k] is what the
    [k]-th round sees. *)
Fixpoint poll {A} (fuel k : nat) (clock : nat -> Z) (deadline : Z) (look : nat -> option A) : option (option A) :=
  match fuel with
  | O => None
  | S fuel =>
      if clock (S k) <? deadline then
        match look k with
        | Some a => Some (Some a)
        | None => poll fuel (S k) clock deadline look
        end
      else Some None
  end.

Definition tailString (s : string) (n : nat) : string :=
  if (String.length s <=? n)%nat then s else "…" +:+ str_drop (String.length s - n) s.

Definition drain_window : Z := 20 * (1000 * milli).
Definition poll_fuel : nat := wait_fuel drain_window (200 * milli).

(** [log k] and [alive k] are the daemon's log and whether it lives at the [k]-th round;
    [last] is the log when the time is up. *)
Definition waitReady (clock : nat -> Z) (log : nat -> string) (alive : nat -> bool) (log_after : nat -> string)
    (last : string) : option (option error) :=
  r ← poll poll_fuel 0 clock (clock 0%nat + drain_window)
        (fun k => if Contains (log k) "gateway serving" then Some None
                  else if alive k then None
                  else Some (Some (Errorf "daemon exited during startup; .rat/daemon.log:\n%s" [tailString (log_after k) 1200])));
  Some match r with
       | Some res => res
       | None => Some (Errorf "daemon did not become ready in time; .rat/daemon.log:\n%s" [tailString last 1200])
       end.

(** ** Starting and stopping a project's daemon *)

Section Verbs.
Context (kill0 : Z -> bool) (cwd : string).
Context (LoadProject_ : files -> string -> result LoadedPlane).
Context (strictPreflight_ : LoadedPlane -> option error).

(** What [rat up] goes on to do. *)
Inductive up_action := UpFails (e : error) | SpawnsDetached (dir : string) | Serves (pl : LoadedPlane).

Definition runUp (fs : files) (detach strict : bool) : option up_action :=
  r ← findProject fs cwd ".";
  Some match r with
       | Err e => UpFails e
       | Ok (tomlPath, dir) =>
           let '(pid, alive) := runningPid kill0 fs (filepath_Join [dir; ".rat"]) in
           if alive : bool
           then UpFails (Errorf "a daemon is already running for this project (pid %d) — `rat down` first" [itoa pid])
           else match LoadProject_ fs tomlPath with
                | Err e => UpFails e
                | Ok pl =>
                    match (if strict then strictPreflight_ pl else None) with
                    | Some e => UpFails e
                    | None => if detach then SpawnsDetached dir else Serves pl
                    end
                end
       end.

(** [rat down]: the error, the registry it leaves, and the process it signals. *)
Definition runDown (m : machine) (saved : bool) (kill_err : option error) (clock : nat -> Z) (alive : nat -> bool) :
    option (option error * list instanceEntry * option Z) :=
  r ← findProject (m_files m) cwd ".";
  match r with
  | Err e => Some (Some e, m_registry m, None)
  | Ok (_, dir) =>
      let '(pid, running) := runningPid kill0 (m_files m) (filepath_Join [dir; ".rat"]) in
      if negb running then Some (None, registryRemove saved dir (m_registry m), None)
      else match kill_err with
           | Some e => Some (Some (Wrap "signal pid %d: %w" [itoa pid] e), m_registry m, Some pid)
           | None =>
               r ← poll poll_fuel 0 clock (clock 0%nat + drain_window) (fun k => if alive k then None else Some ());
               Some (match r with
                     | Some _ => None
                     | None => Some (Errorf "daemon (pid %d) did not exit within the drain window" [itoa pid])
                     end, m_registry m, Some pid)
           end
  end.

(** The address of a running daemon's control listener. *)
Definition projectDaemonAddr (fs : files) (tomlPath dir : string) : string * bool :=
  if (runningPid kill0 fs (filepath_Join [dir; ".rat"])).2 then
    match LoadProject_ fs tomlPath with
    | Err _ => ("", false)
    | Ok pl => (pl_Addr pl, true)
    end
  else ("", false).
End Verbs.

(** ** Polling ends *)

Lemma poll_spec {A} step timeout clock (look : nat -> option A) fuel k :
  ticks step clock -> timeout < step * Z.of_nat (k + fuel - 1) -> fuel <> 0%nat ->
  (forall i, (i < k)%nat -> look i = None /\ clock (S i) < clock 0%nat + timeout) ->
  exists r n, poll fuel k clock (clock 0%nat + timeout) look = Some r /\
    (forall i, (i < n)%nat -> look i = None /\ clock (S i) < clock 0%nat + timeout) /\
    match r with
    | Some a => look n = Some a /\ clock (S n) < clock 0%nat + timeout
    | None => clock 0%nat + timeout <= clock (S n)
    end.
Proof.
  intros Hc. revert k. induction fuel as [|fuel IH]; intros k Hlt Hne Hb; [done|]. simpl.
  destruct (Z.ltb_spec (clock (S k)) (clock 0%nat + timeout)) as [Hk|Hk].
  2:{ by exists None, k. }
  destruct (look k) as [a|] eqn:El; [by exists (Some a), k|].
  assert (forall i, (i < S k)%nat -> look i = None /\ clock (S i) < clock 0%nat + timeout) as Hb'.
  { intros i Hi. destruct (decide (i = k)) as [->|]; [done|]. apply Hb. lia. }
  specialize (Hc k). apply IH; [lia| |done].
  intros ->. replace (k + 1 - 1)%nat with k in Hlt by lia. lia.
Qed.

(** Waiting for a background daemon always ends within the window.  It reports readiness
    exactly when, at some round before the deadline, the log says that the gateway is
    serving, and at every earlier round the daemon was alive and had not said so. *)
Theorem waitReady_decides clock log alive log_after last :
  ticks (200 * milli) clock ->
  exists res, waitReady clock log alive log_after last = Some res /\
    (res = None <-> exists n, clock (S n) < clock 0%nat + drain_window /\ Contains (log n) "gateway serving" = true /\
       forall i, (i < n)%nat -> clock (S i) < clock 0%nat + drain_window /\
         Contains (log i) "gateway serving" = false /\ alive i = true).
Proof.
  intros Hc. unfold waitReady. set (look := fun k : nat => _).
  destruct (poll_spec (200 * milli) drain_window clock look poll_fuel 0 Hc) as (r & n & -> & Hb & Hr);
    [by apply wait_fuel_enough|done|lia|].
  simpl. eexists; split; [done|].
  assert (forall i, look i = None -> Contains (log i) "gateway serving" = false /\ alive i = true) as Hnone.
  { intros i. unfold look. destruct (Contains _ _); [done|]. by destruct (alive i). }
  assert (forall m, clock (S m) < clock 0%nat + drain_window -> Contains (log m) "gateway serving" = true ->
    (forall i, (i < m)%nat -> clock (S i) < clock 0%nat + drain_window /\
         Contains (log i) "gateway serving" = false /\ alive i = true) -> r = Some None) as Hex.
  { intros m Hm Hs Hbefore. assert (look m = Some None) as Hl by (unfold look; by rw Hs).
    destruct (lt_eq_lt_dec n m) as [[Hlt|Heq]|Hgt].
    - destruct (Hbefore n Hlt) as (H1 & H2 & H3). destruct r as [a|]; [|lia].
      destruct Hr as [Hr _]. unfold look in Hr. by rw H2 H3 in Hr.
    - subst. destruct r as [a|]; [|lia]. destruct Hr as [Hr _]. congruence.
    - destruct (Hb m Hgt) as [Hx _]. congruence. }
  split.
  - destruct r as [[e|]|]; try done. intros _. destruct Hr as [Hl Hd]. exists n. split_and!; [done| |].
    + unfold look in Hl. destruct (Contains _ _); [done|]. by destruct (alive n).
    + intros i Hi. destruct (Hb i Hi) as [H1 H2]. destruct (Hnone i H1). by split_and!.
  - intros (m & Hm & Hs & Hbefore). by rw (Hex m Hm Hs Hbefore).
Qed.

(** ** The registry of instances *)

Inductive registry_op := OpUpsert (e : instanceEntry) | OpRemove (dir : string) | OpLs.
(** An operation, with the processes as it finds them and whether its save succeeds. *)
Definition registry_apply (o : registry_op * (Z -> bool) * bool) (es : list instanceEntry) : list instanceEntry :=
  let '(op, kill0, saved) := o in
  match op with
  | OpUpsert e => registryUpsert kill0 saved e es
  | OpRemove dir => registryRemove saved dir es
  | OpLs => (runLs kill0 saved es).2
  end.
Definition op_dir (op : registry_op) : option string :=
  match op with OpUpsert e => Some (in_Dir e) | OpRemove dir => Some dir | OpLs => None end.

Definition one_per_dir (es : list instanceEntry) : Prop := NoDup (in_Dir <$> es).

Lemma filter_one_per_dir (P : instanceEntry -> Prop) `{!forall x, base.Decision (P x)} es :
  one_per_dir es -> one_per_dir (filter P es).
Proof. intros Hd. eapply sublist_NoDup; [exact Hd|]. apply fmap_sublist, sublist_filter. Qed.

Lemma registry_apply_distinct o es : one_per_dir es -> one_per_dir (registry_apply o es).
Proof.
  destruct o as [[[e|dir|] kill0] []]; intros Hd; try done; simpl; try by apply filter_one_per_dir.
  unfold registryUpsert, upserted, one_per_dir. simpl. rw fmap_app. apply NoDup_app. split_and!.
  - by do 2 apply filter_one_per_dir.
  - intros d (x & -> & Hx)%list_elem_of_fmap Hin. apply list_elem_of_filter in Hx as [Hx _].
    by apply list_elem_of_singleton in Hin.
  - apply NoDup_singleton.
Qed.

Lemma registry_apply_keeps e o es :
  op_dir o.1.1 <> Some (in_Dir e) -> pidAlive o.1.2 (in_Pid e) = true -> e ∈ es -> e ∈ registry_apply o es.
Proof.
  destruct o as [[op kill0] []]; [|by destruct op]. simpl. intros Ho Hp He.
  assert (e ∈ pruneRegistry kill0 es) as Hpr by by apply list_elem_of_filter.
  destruct op as [x|dir|]; simpl in *; [|apply list_elem_of_filter; split; [congruence|done]|done].
  apply elem_of_app. left. apply list_elem_of_filter. split; [congruence|done].
Qed.

(** A running daemon stays in the machine's registry.  Whatever other daemons come, go,
    prune or fail to save afterwards, as long as its process lives and no operation
    concerns its own project, its entry is there, is the only one of its project, and is
    the one that was published; when it retracts itself, no entry of its project is left. *)
Theorem live_daemon_stays_listed kill0 (e : instanceEntry) ops es :
  one_per_dir es ->
  Forall (fun o => op_dir o.1.1 <> Some (in_Dir e) /\ pidAlive o.1.2 (in_Pid e) = true) ops ->
  let es' := fold_left (fun es o => registry_apply o es) ops (registryUpsert kill0 true e es) in
  one_per_dir es' /\ e ∈ es' /\ (forall x, x ∈ es' -> in_Dir x = in_Dir e -> x = e) /\
  (forall x, x ∈ registryRemove true (in_Dir e) es' -> in_Dir x <> in_Dir e).
Proof.
  intros Hd Hops es'. assert (one_per_dir es' /\ e ∈ es') as [Hd' He].
  { unfold es'. assert (one_per_dir (registryUpsert kill0 true e es)) as H1.
    { by apply (registry_apply_distinct (OpUpsert e, kill0, true)). }
    assert (e ∈ registryUpsert kill0 true e es) as H2 by (apply elem_of_app; right; by left).
    clear es'. revert H1 H2. generalize (registryUpsert kill0 true e es) as r.
    induction Hops as [|o ops [Ho Hp] _ IH]; intros r H1 H2; [done|]. simpl.
    apply IH; [by apply registry_apply_distinct|by apply registry_apply_keeps]. }
  split_and!; [done|done| |].
  - intros x Hx Hdir. apply list_elem_of_lookup_1 in He as [i Hi], Hx as [j Hj].
    assert (i = j) as ->; [|congruence].
    apply (NoDup_lookup _ i j (in_Dir e) Hd'); rw list_lookup_fmap; [by rw Hi|by rw Hj /= Hdir].
  - intros x Hx. by apply list_elem_of_filter in Hx as [? _].
Qed.

(** The registry is read, changed and written without a lock: of two daemons that publish
    themselves at the same time, the one that writes last erases the other. *)
Theorem concurrent_publish_loses kill0 e1 e2 es :
  e1 <> e2 -> e1 ∉ es -> in_Dir e1 <> in_Dir e2 ->
  let first := saveRegistry true es (upserted kill0 e1 es) in
  e1 ∈ first /\ e1 ∉ saveRegistry true first (upserted kill0 e2 es).
Proof.
  intros Hne Hes _. simpl. unfold upserted. split; [apply elem_of_app; right; by left|].
  rewrite elem_of_app. intros [Hin | ->%list_elem_of_singleton]; [|done].
  apply list_elem_of_filter in Hin as [_ Hin]. by apply list_elem_of_filter in Hin as [_ Hin].
Qed.

(** ** One daemon per project *)

Lemma pid_file_not_project d rd : filepath_Join [d; projectFile] <> pid_file rd.
Proof.
  assert (forall d w, ending w -> exists q, filepath_Join [d; w] = q +:+ w) as Hj.
  { intros x w Hw. unfold filepath_Join. cbn [skip_empty].
    assert (w <> "") as Hne by by intros ->; destruct Hw as [_ Hw]; simpl in Hw; lia.
    destruct (decide (x = "")) as [->|].
    - destruct (decide (w = "")); [done|]. apply (Clean_ending w "" Hw).
    - assert (Join [x; w] "/" = (x +:+ "/") +:+ w) as -> by (unfold Join; simpl; by rw str_app_assoc).
      by apply Clean_ending. }
  unfold pid_file. destruct (Hj d projectFile) as [q ->]; [by split; vm_compute; [|lia]|].
  destruct (Hj rd "daemon.pid") as [q' ->]; [by split; vm_compute; [|lia]|].
  intros E. apply (f_equal str_rev) in E. rewrite !str_rev_app_distr in E. done.
Qed.

Lemma find_up_ext {A} (p q : string -> option A) fuel d : (forall d, p d = q d) -> find_up p fuel d = find_up q fuel d.
Proof. intros He. revert d. induction fuel as [|fuel IH]; intros d; [done|]. simpl. rw He. destruct (q d); [done|]. case_decide; [done|apply IH]. Qed.

Lemma findProject_ext fs fs' cwd start :
  (forall d, is_Some (fs' !! filepath_Join [d; projectFile]) <-> is_Some (fs !! filepath_Join [d; projectFile])) ->
  findProject fs' cwd start = findProject fs cwd start.
Proof.
  intros Hfs. unfold findProject. erewrite find_up_ext; [done|]. intros d. unfold found_project.
  specialize (Hfs d). do 2 case_decide; tauto.
Qed.

Lemma findProject_pid fs cwd start rd v :
  findProject (<[pid_file rd := v]> fs) cwd start = findProject fs cwd start /\
  findProject (delete (pid_file rd) fs) cwd start = findProject fs cwd start.
Proof.
  split; apply findProject_ext; intros d; [rw lookup_insert_ne|rw lookup_delete_ne]; try done;
    intros E; by apply (pid_file_not_project d rd).
Qed.

(** One daemon per project.  While a daemon that has published itself lives, [rat up]
    anywhere inside the project is refused with the pid of that daemon, whatever options it
    is given; once it has retracted itself, or has died and left its pid file behind,
    [rat up] goes on to load the project. *)
Theorem second_daemon_refused kill0 kill1 cwd (load : files -> string -> result LoadedPlane)
    (strictCheck : LoadedPlane -> option error) saved saved' pid pl m tomlPath dir detach strict :
  findProject (m_files m) cwd "." = Some (Ok (tomlPath, dir)) ->
  0 < pid < 2 ^ 63 -> filepath_Join [dir; ".rat"] <> "" ->
  let rd := filepath_Join [dir; ".rat"] in
  let m1 := registerDaemon kill0 true saved pid rd pl m in
  let m2 := deregisterDaemon saved' rd m1 in
  let goes_on (fs : files) := match load fs tomlPath with
    | Err e => UpFails e
    | Ok pl => match (if strict : bool then strictCheck pl else None) with
               | Some e => UpFails e
               | None => if detach : bool then SpawnsDetached dir else Serves pl
               end
    end in
  runUp kill1 cwd load strictCheck (m_files m1) detach strict =
    Some (if kill1 pid
          then UpFails (Errorf "a daemon is already running for this project (pid %d) — `rat down` first" [itoa pid])
          else goes_on (m_files m1)) /\
  runUp kill1 cwd load strictCheck (m_files m2) detach strict = Some (goes_on (m_files m2)).
Proof.
  intros Hf Hpid Hrd rd m1 m2 goes_on.
  assert (m_files m1 = <[pid_file rd := itoa pid]> (m_files m)) as E1.
  { unfold m1, registerDaemon. by destruct (decide (rd = "")). }
  assert (m_files m2 = delete (pid_file rd) (m_files m1)) as E2.
  { unfold m2, deregisterDaemon. by destruct (decide (rd = "")). }
  assert (findProject (m_files m1) cwd "." = Some (Ok (tomlPath, dir))) as F1.
  { rw E1. by rw (proj1 (findProject_pid _ _ _ _ _)). }
  assert (findProject (m_files m2) cwd "." = Some (Ok (tomlPath, dir))) as F2.
  { rw E2. by rw (proj2 (findProject_pid _ _ _ _ "")). }
  assert (runningPid kill1 (m_files m1) rd = (pid, kill1 pid)) as R1.
  { unfold runningPid. rw E1 lookup_insert_eq TrimSpace_itoa ParseInt_decimal //. rw decide_True; [|lia].
    unfold pidAlive. destruct (Z.leb_spec pid 0); [lia|done]. }
  assert (runningPid kill1 (m_files m2) rd = (0, false)) as R2 by by unfold runningPid; rw E2 lookup_delete_eq.
  unfold runUp. rw F1 F2. cbn [mbind option_bind]. fold rd. rw R1 R2. split; [by destruct (kill1 pid)|done].
Qed.

(** ** At a concrete machine *)

Definition demo_clock200 (i : nat) : Z := 200 * milli * Z.of_nat i.
Definition demo_log (k : nat) : string := if (k <? 3)%nat then "launching" else "gateway serving".

Lemma waitReady_decides_witness :
  waitReady demo_clock200 demo_log (fun _ => true) demo_log "" = Some None /\
  exists n, Contains (demo_log n) "gateway serving" = true.
Proof.
  assert (waitReady demo_clock200 demo_log (fun _ => true) demo_log "" = Some None) as E by (vm_compute; reflexivity).
  split; [exact E|].
  destruct (waitReady_decides demo_clock200 demo_log (fun _ => true) demo_log "") as (res & Hr & Hi).
  - intros i. unfold demo_clock200, milli. lia.
  - rewrite E in Hr. injection Hr as Hr. destruct (proj1 Hi (eq_sym Hr)) as (n & _ & Hn & _). exists n. exact Hn.
Defined.

Definition demo_e (name : string) (pid : Z) : instanceEntry := mkEntryOf name ("/home/me/" +:+ name) pid "unix:/x".

Lemma live_daemon_stays_listed_witness :
  demo_e "lab" 7 ∈ registry_apply (OpRemove "/home/me/zoo", (fun p => p =? 7), true)
    (registry_apply (OpUpsert (demo_e "zoo" 8), (fun _ => true), true) (registryUpsert (fun _ => true) true (demo_e "lab" 7) [])).
Proof.
  refine (proj1 (proj2 (live_daemon_stays_listed (fun _ => true) (demo_e "lab" 7)
    [(OpUpsert (demo_e "zoo" 8), (fun _ => true), true); (OpRemove "/home/me/zoo", (fun p => p =? 7), true)] [] _ _))).
  - constructor.
  - repeat constructor; vm_compute; congruence.
Defined.

Lemma second_daemon_refused_witness :
  runUp (fun p => p =? 42) "/home/me/lab/sub" (fun _ _ => Err EOF) (fun _ => None)
    (m_files (registerDaemon (fun _ => true) true true 42 "/home/me/lab/.rat"
       (mkLoadedPlane "lab" "unix:/x" "local" 10 []) (mkMachine demo_tree []))) true false =
  Some (UpFails (Errorf "a daemon is already running for this project (pid %d) — `rat down` first" ["42"])).
Proof.
  refine (proj1 (second_daemon_refused (fun _ => true) (fun p => p =? 42) "/home/me/lab/sub" (fun _ _ => Err EOF) (fun _ => None)
    true true 42 (mkLoadedPlane "lab" "unix:/x" "local" 10 []) (mkMachine demo_tree []) "/home/me/lab/rat.toml" "/home/me/lab"
    true false _ _ _)); [vm_compute; reflexivity|lia|vm_compute; discriminate].
Defined.
