(* ===== verification/Hub.v ===== *)
(** The federation hub (src/core/cmd/rat/hub.go): a transparent proxy that authenticates at
    the edge, routes a call to the workspace it names, and relays frames verbatim; and the
    guard on the address it binds. *)
From S2P Require Import Prelude CallContext Gateway Supervisor Plane Daemon Lifecycle Net.

Definition workspaceHeader : string := "rat-workspace".
Definition tokenHeader : string := "rat-token".

(** ** Workspaces *)

Definition workspaceAddr (kill0 : Z -> bool) (registry : list instanceEntry) (name : string) : option string :=
  in_Addr <$> List.find (fun e => bool_decide (in_Name e = name)) (pruneRegistry kill0 registry).
Definition runningWorkspaces (kill0 : Z -> bool) (registry : list instanceEntry) : list string :=
  in_Name <$> pruneRegistry kill0 registry.

(** ** The bind guard *)

Definition isPublicAddr (addr : string) : bool :=
  match SplitHostPort addr with
  | Err _ => false
  | Ok (h, _) =>
      if decide (h = "" \/ h = "0.0.0.0" \/ h = "::") then true
      else if decide (h = "localhost") then false
      else match ParseIP h with Some ip => negb (IP_IsLoopback ip) | None => true end
  end.

Record hubFlags := mkHubFlags {
  hf_addr : string; hf_tlsCert : string; hf_tlsKey : string; hf_identity : string; hf_insecure : bool;
}.
Definition tlsOn (f : hubFlags) : bool := negb (bool_decide (hf_tlsCert f = "")) && negb (bool_decide (hf_tlsKey f = "")).

(** The refusal, if any, before anything listens. *)
Definition hub_guard (f : hubFlags) : option error :=
  if isPublicAddr (hf_addr f) && negb (hf_insecure f) then
    if negb (tlsOn f) then
      Some (Errorf "refusing public bind %s without TLS — pass --tls-cert/--tls-key (and --identity), or --insecure to override (DEV ONLY). See ADR-034 (secure-by-default)." [hf_addr f])
    else if decide (hf_identity f = "") then
      Some (Errorf "refusing public bind %s without an identity provider — pass --identity <addr>, or --insecure to override (DEV ONLY). See ADR-034." [hf_addr f])
    else None
  else None.

(** How the hub serves: whether the transport is TLS and calls are authenticated. *)
Record hub_serving := mkHubServing { hs_tls : bool; hs_identity : string; hs_warned : bool }.

(** [listen] and [load_tls] are the environment's answers. *)
Definition runHub (f : hubFlags) (listen : option error) (load_tls : option error) : result hub_serving :=
  match hub_guard f with
  | Some e => Err e
  | None =>
      match listen with
      | Some e => Err (Wrap "hub listen on %s: %w" [hf_addr f] e)
      | None =>
          match (if tlsOn f then load_tls else None) with
          | Some e => Err (Wrap "load TLS cert/key: %w" [] e)
          | None => Ok (mkHubServing (tlsOn f) (hf_identity f)
                          (isPublicAddr (hf_addr f) && hf_insecure f && (negb (tlsOn f) || bool_decide (hf_identity f = ""))))
          end
      end
  end.

Section Hub.
Context {Conn : Type}.
(** The [n]-th dial; the identity service's answer to a credential; and opening a stream on
    a connection, with a method and metadata, all third-party. *)
Context (grpc_NewClient : nat -> string -> result Conn).
Context (identity_Authenticate : Conn -> Ctx -> string -> result bool).
Context (grpc_NewClientStream : Conn -> string -> option (gmap string (list string)) -> option error).

(** ** Pooled connections

    [pl_opened] and [pl_closed] are ghost. *)
Record connPool := mkPool { pl_conns : gmap string Conn; pl_dials : nat; pl_opened : list Conn; pl_closed : list Conn }.
Definition newConnPool : connPool := mkPool ∅ 0 [] [].

Definition connPool_get (p : connPool) (addr : string) : result Conn * connPool :=
  match pl_conns p !! addr with
  | Some c => (Ok c, p)
  | None =>
      match grpc_NewClient (pl_dials p) addr with
      | Err e => (Err e, mkPool (pl_conns p) (S (pl_dials p)) (pl_opened p) (pl_closed p))
      | Ok c => (Ok c, mkPool (<[addr := c]> (pl_conns p)) (S (pl_dials p)) (pl_opened p ++ [c]) (pl_closed p))
      end
  end.
Definition connPool_closeAll (p : connPool) : connPool :=
  mkPool ∅ (pl_dials p) (pl_opened p) (pl_closed p ++ (map_to_list (pl_conns p)).*2).

(** ** One call *)

Definition hub_authenticate (identityAddr : string) (c : Ctx) (p : connPool) : option error * connPool :=
  let tok := firstHeader c tokenHeader in
  if decide (tok = "") then
    (Some (Status Unauthenticated "missing rat-token — this hub requires authentication (`rat call --token <t>`)" []), p)
  else
    match connPool_get p identityAddr with
    | (Err e, p) => (Some (StatusWrap Unavailable "identity provider %s: %v" [identityAddr] e), p)
    | (Ok conn, p) =>
        match identity_Authenticate conn c tok with
        | Err e => (Some (StatusWrap Unavailable "authenticate: %v" [] e), p)
        | Ok false => (Some (Status Unauthenticated "invalid token" []), p)
        | Ok true => (None, p)
        end
    end.

(** A stream opened to a workspace. *)
Record opened_stream := mkOpenedStream { os_conn : Conn; os_method : string; os_md : option (gmap string (list string)) }.

(** [resolve] looks a workspace up; [running] are the names a refusal lists; [relayed] is
    how the relay of the opened stream ends. *)
Definition proxyStream (identityAddr : string) (resolve : string -> option string) (running : list string)
    (method : option string) (c : Ctx) (relayed : option error) (p : connPool) :
    option error * option opened_stream * connPool :=
  match method with
  | None => (Some (Status Internal "hub: cannot read method from stream" []), None, p)
  | Some fullMethod =>
      let '(auth, p) := if decide (identityAddr = "") then (None, p) else hub_authenticate identityAddr c p in
      match auth with
      | Some e => (Some e, None, p)
      | None =>
          let ws := firstHeader c workspaceHeader in
          if decide (ws = "") then
            (Some (Status InvalidArgument "no rat-workspace (use `rat call --hub <addr> --workspace <name> …`)" []), None, p)
          else
            match resolve ws with
            | None => (Some (Status NotFound "unknown workspace %q (running: %s)" [ws; Join running ", "]), None, p)
            | Some addr =>
                match connPool_get p addr with
                | (Err e, p) => (Some (StatusWrap Unavailable "dial workspace %q at %s: %v" [ws; addr] e), None, p)
                | (Ok conn, p) =>
                    match grpc_NewClientStream conn fullMethod (incoming c) with
                    | Some e => (Some e, None, p)
                    | None => (relayed, Some (mkOpenedStream conn fullMethod (incoming c)), p)
                    end
                end
            end
      end
  end.
End Hub.

(** ** The relay *)

(** One direction: the source's frames and how it ends, and the error, if any, of sending the
    [k]-th frame; what was delivered, and the result reported. *)
Fixpoint forwardFrames (k : nat) (frames : list string) (stop : error) (send_err : nat -> option error) :
    list string * error :=
  match frames with
  | [] => ([], stop)
  | f :: frames =>
      match send_err k with
      | Some e => ([], e)
      | None => let '(d, e) := forwardFrames (S k) frames stop send_err in (f :: d, e)
      end
  end.

(** The two results arrive in some order, each at most once. *)
Inductive arrival := FromCaller (e : error) | FromWorkspace (e : error).
Inductive relay_action := CloseSend | SetTrailer | CancelStream.

(** The select loop; [None] is a relay that is still waiting. *)
Fixpoint relay_select (rounds : nat) (arrivals : list arrival) : option (list relay_action * option error) :=
  match rounds with
  | O => Some ([], Some (Status Internal "hub relay: unreachable" []))
  | S rounds =>
      match arrivals with
      | [] => None
      | FromCaller e :: arrivals =>
          if decide (e = EOF) then
            '(acts, st) ← relay_select rounds arrivals; Some (CloseSend :: acts, st)
          else Some ([CancelStream], Some (StatusWrap Internal "hub relay (request): %v" [] e))
      | FromWorkspace e :: _ => Some ([SetTrailer], if decide (e = EOF) then None else Some e)
      end
  end.
Definition hub_relay (arrivals : list arrival) : option (list relay_action * option error) := relay_select 2 arrivals.

(** ** Secure by default *)

Lemma dotted_plain a b c d : plain (dotted a b c d).
Proof.
  assert (forall x, numeral_byte x = false -> x <> "."%char -> no_byte x (dotted a b c d) = true) as H.
  { intros x Hx Hd. unfold dotted, Join. simpl. rw !no_byte_app !itoa_no_byte //. unfold no_byte. simpl.
    by rw bool_decide_false. }
  split_and!; by apply H.
Qed.

Lemma isPublicAddr_dotted a b c d port :
  is_octet a -> is_octet b -> is_octet c -> is_octet d -> plain port ->
  isPublicAddr (dotted a b c d +:+ String ":" port) = negb (bool_decide (a = 127)).
Proof.
  intros Ha Hb Hc Hd Hp. unfold isPublicAddr. rw SplitHostPort_plain //; [|by apply dotted_plain].
  rw ParseIP_dotted // IsLoopback_dotted. case_decide as Hw.
  - rw bool_decide_false //. intros ->. destruct Hw as [E|[E|E]]; pose proof (f_equal ParseIP E) as E';
      rewrite ParseIP_dotted // in E'; vm_compute in E'; discriminate E'.
  - destruct (decide _) as [E|_]; [|done].
    pose proof (f_equal ParseIP E) as E'. rewrite ParseIP_dotted // in E'.
Qed.

(** The hub listens off the host only with TLS and an identity provider, or when it is told
    to be insecure, and then it warns.  It refuses exactly the public binds that lack one of
    the two, before it listens; what it serves is what its flags asked for.  An IPv4 address
    counts as public exactly when it is outside 127.0.0.0/8. *)
Theorem hub_secure_by_default (f : hubFlags) listen load_tls :
  (hub_guard f = None <-> hf_insecure f = true \/ isPublicAddr (hf_addr f) = false \/ (tlsOn f = true /\ hf_identity f <> "")) /\
  match runHub f listen load_tls with
  | Err e => hub_guard f = Some e \/ (hub_guard f = None /\ (is_Some listen \/ is_Some load_tls))
  | Ok s => hub_guard f = None /\ hs_tls s = tlsOn f /\ hs_identity s = hf_identity f /\
      (isPublicAddr (hf_addr f) = true -> (hs_tls s = true /\ hs_identity s <> "") \/ (hf_insecure f = true /\ hs_warned s = true))
  end /\
  forall a b c d port, is_octet a -> is_octet b -> is_octet c -> is_octet d -> plain port ->
    isPublicAddr (dotted a b c d +:+ String ":" port) = negb (bool_decide (a = 127)).
Proof.
  assert (hub_guard f = None <-> hf_insecure f = true \/ isPublicAddr (hf_addr f) = false \/ (tlsOn f = true /\ hf_identity f <> "")) as Hg.
  { unfold hub_guard. destruct (isPublicAddr _), (hf_insecure f), (tlsOn f), (decide (hf_identity f = "")); simpl; naive_solver. }
  split; [done|]. split; [|by apply isPublicAddr_dotted].
  unfold runHub. destruct (hub_guard f) as [e|] eqn:E; [by left|]. destruct Hg as [Hg _]. specialize (Hg eq_refl).
  destruct listen; [by right; split; [|left]|].
  destruct (if tlsOn f then load_tls else None) as [e|] eqn:El.
  - right. split; [done|]. right. destruct (tlsOn f); [by eexists|done].
  - simpl. split_and!; try done. intros Hp. rw Hp. simpl. destruct Hg as [Hi|[Hi|Hi]]; [|congruence|by left].
    rw Hi. simpl. destruct (tlsOn f) eqn:Et; [|by right]. destruct (decide (hf_identity f = "")) as [Hid|Hid]; [|by left].
    right. by rw bool_decide_true.
Qed.

(** ** What reaches a workspace *)

Section Proxy.
Context {Conn : Type}.
Context (grpc_NewClient : nat -> string -> result Conn).
Context (identity_Authenticate : Conn -> Ctx -> string -> result bool).
Context (grpc_NewClientStream : Conn -> string -> option (gmap string (list string)) -> option error).
(** A connection is to the address that was dialled. *)
Context (target : Conn -> string).
Context (Hdial : forall n addr c, grpc_NewClient n addr = Ok c -> target c = addr).

(** A pooled connection is to its own address, and every connection opened is either pooled
    or closed. *)
Record pool_ok (p : connPool (Conn := Conn)) : Prop := {
  pk_target : forall addr c, pl_conns p !! addr = Some c -> target c = addr;
  pk_balance : pl_opened p ≡ₚ pl_closed p ++ (map_to_list (pl_conns p)).*2;
}.

Lemma connPool_get_ok p addr r p' :
  pool_ok p -> connPool_get grpc_NewClient p addr = (r, p') ->
  pool_ok p' /\ match r with Ok c => target c = addr /\ pl_conns p' !! addr = Some c | Err _ => True end.
Proof.
  intros [Ht Hb]. unfold connPool_get. destruct (pl_conns p !! addr) as [c|] eqn:E.
  { intros [= <- <-]. split; [done|]. split; [by apply Ht|done]. }
  destruct (grpc_NewClient (pl_dials p) addr) as [c|e] eqn:Ed; intros [= <- <-]; [|by split].
  split; [constructor; simpl|split; [by eapply Hdial|by rw lookup_insert_eq]].
  - intros a x. rw lookup_insert_Some. intros [[<- <-]|[_ ?]]; [by eapply Hdial|by apply Ht].
  - rw map_to_list_insert // Hb. simpl. solve_Permutation.
Qed.

Lemma hub_authenticate_ok idAddr c p r p' :
  pool_ok p -> hub_authenticate grpc_NewClient identity_Authenticate idAddr c p = (r, p') ->
  pool_ok p' /\
  match r with
  | None => firstHeader c tokenHeader <> "" /\
      exists conn, target conn = idAddr /\ identity_Authenticate conn c (firstHeader c tokenHeader) = Ok true
  | Some e => status_Code e = Unauthenticated \/ status_Code e = Unavailable
  end.
Proof.
  intros Hp. unfold hub_authenticate. case_decide as Ht; [intros [= <- <-]; split; [done|by left]|].
  destruct (connPool_get _ p idAddr) as [[conn|e] p1] eqn:Eg; destruct (connPool_get_ok _ _ _ _ Hp Eg) as [Hp1 Hc].
  2:{ intros [= <- <-]. split; [done|by right]. }
  destruct (identity_Authenticate conn c _) as [[]|e] eqn:Ea; intros [= <- <-]; (split; [done|]).
  - split; [done|]. exists conn. by destruct Hc.
  - by left.
  - by right.
Qed.

(** C21: What the hub lets through.  A stream is opened to a workspace only for a call that names
    one that is running, on a connection to that workspace's own address, with the called
    method and exactly the caller's metadata; and, when the hub has an identity provider,
    only if that provider, at its own address, has authenticated the token the call
    presents.  Every other call is answered by a status that tells which step refused it,
    without reaching a workspace; and no connection is ever lost track of. *)
Theorem proxyStream_gate idAddr resolve running method c relayed p st o p' :
  pool_ok p ->
  proxyStream grpc_NewClient identity_Authenticate grpc_NewClientStream idAddr resolve running method c relayed p = (st, o, p') ->
  pool_ok p' /\
  match o with
  | Some os => st = relayed /\ method = Some (os_method os) /\ os_md os = incoming c /\
      firstHeader c workspaceHeader <> "" /\
      (exists addr, resolve (firstHeader c workspaceHeader) = Some addr /\ target (os_conn os) = addr) /\
      (idAddr <> "" -> firstHeader c tokenHeader <> "" /\
         exists conn, target conn = idAddr /\ identity_Authenticate conn c (firstHeader c tokenHeader) = Ok true)
  | None => exists e, st = Some e /\
      ((method = None /\ status_Code e = Internal) \/
       (idAddr <> "" /\ (status_Code e = Unauthenticated \/ status_Code e = Unavailable)) \/
       (firstHeader c workspaceHeader = "" /\ status_Code e = InvalidArgument) \/
       (resolve (firstHeader c workspaceHeader) = None /\ status_Code e = NotFound) \/
       status_Code e = Unavailable \/
       exists conn m, grpc_NewClientStream conn m (incoming c) = Some e)
  end.
Proof.
  intros Hp. unfold proxyStream. destruct method as [m|].
  2:{ intros [= <- <- <-]. split; [done|]. eexists; split; [done|by left]. }
  destruct (if decide (idAddr = "") then _ else _) as [auth p1] eqn:Ea.
  assert (pool_ok p1 /\ match auth with
          | None => idAddr <> "" -> firstHeader c tokenHeader <> "" /\ exists conn, target conn = idAddr /\
                      identity_Authenticate conn c (firstHeader c tokenHeader) = Ok true
          | Some e => idAddr <> "" /\ (status_Code e = Unauthenticated \/ status_Code e = Unavailable) end) as [Hp1 Hauth].
  { case_decide as Hi; [by injection Ea as <- <-|].
    destruct (hub_authenticate_ok _ _ _ _ _ Hp Ea) as [? H]. split; [done|]. by destruct auth. }
  clear Ea. destruct auth as [e|].
  { intros [= <- <- <-]. split; [done|]. exists e. split; [done|]. right. by left. }
  case_decide as Hws; [intros [= <- <- <-]; split; [done|]; eexists; split; [done|naive_solver]|].
  destruct (resolve _) as [addr|] eqn:Er; [|intros [= <- <- <-]; split; [done|]; eexists; split; [done|naive_solver]].
  destruct (connPool_get _ p1 addr) as [[conn|e] p2] eqn:Eg; destruct (connPool_get_ok _ _ _ _ Hp1 Eg) as [Hp2 Hc].
  2:{ intros [= <- <- <-]. split; [done|]. eexists; split; [done|naive_solver]. }
  destruct (grpc_NewClientStream conn m (incoming c)) as [e|] eqn:Es; intros [= <- <- <-]; (split; [done|]).
  - exists e. split; [done|]. do 5 right. by exists conn, m.
  - simpl. split_and!; try done. exists addr. by destruct Hc.
Qed.
End Proxy.

(** ** What the relay delivers *)

Lemma forwardFrames_spec k frames stop send_err d e :
  forwardFrames k frames stop send_err = (d, e) ->
  exists rest, frames = d ++ rest /\
    ((rest = [] /\ e = stop) \/ (rest <> [] /\ send_err (k + length d)%nat = Some e)).
Proof.
  revert k d. induction frames as [|f frames IH]; intros k d; simpl; [intros [= <- <-]; exists []; by split; [|left]|].
  destruct (send_err k) as [x|] eqn:Es.
  { intros [= <- <-]. exists (f :: frames). split; [done|]. right. split; [done|]. by rw Nat.add_0_r. }
  destruct (forwardFrames (S k) frames stop send_err) as [d' e'] eqn:Ef. intros [= <- <-].
  destruct (IH _ _ Ef) as (rest & -> & H). exists rest. split; [done|]. simpl. by rw Nat.add_succ_r.
Qed.

(** The orders in which two results can arrive, and what has arrived so far. *)
Inductive arrives (eu ed : error) : list arrival -> Prop :=
  | arr_none : arrives eu ed []
  | arr_caller : arrives eu ed [FromCaller eu]
  | arr_workspace : arrives eu ed [FromWorkspace ed]
  | arr_caller_first : arrives eu ed [FromCaller eu; FromWorkspace ed]
  | arr_workspace_first : arrives eu ed [FromWorkspace ed; FromCaller eu].

(** The relay is verbatim in both directions.  What it delivers is an unchanged initial run
    of the frames each side sent; when sending to the caller does not fail, all of the
    workspace's frames precede its status.  It goes on waiting exactly while the workspace
    has not finished and the caller has finished cleanly at most, and then only half-closes;
    it ends with the workspace's own status, or with an internal error when the caller's
    side broke first; the status it calls unreachable is. *)
Theorem relay_verbatim upf ustop usend downf dstop dsend du eu dd ed arrivals :
  forwardFrames 0 upf ustop usend = (du, eu) -> forwardFrames 0 downf dstop dsend = (dd, ed) -> arrives eu ed arrivals ->
  (exists rest, upf = du ++ rest) /\ (exists rest, downf = dd ++ rest) /\
  ((forall k, dsend k = None) -> dd = downf /\ ed = dstop) /\
  match hub_relay arrivals with
  | None => (forall e, FromWorkspace e ∉ arrivals) /\ (FromCaller eu ∈ arrivals -> eu = EOF)
  | Some (acts, status) =>
      (SetTrailer ∈ acts /\ status = (if decide (ed = EOF) then None else Some ed) /\
        (CloseSend ∈ acts -> eu = EOF)) \/
      (eu <> EOF /\ acts = [CancelStream] /\ status = Some (StatusWrap Internal "hub relay (request): %v" [] eu))
  end /\
  forall acts, hub_relay arrivals <> Some (acts, Some (Status Internal "hub relay: unreachable" [])) \/ ed = Status Internal "hub relay: unreachable" [].
Proof.
  intros Hu Hd Ha. destruct (forwardFrames_spec _ _ _ _ _ _ Hu) as (ru & Eu & _), (forwardFrames_spec _ _ _ _ _ _ Hd) as (rd & Ed & Hrd).
  split_and!; [by exists ru|by exists rd| | |].
  - intros Hs. destruct Hrd as [[-> ->]|[_ Hrd]]; [by rw Ed app_nil_r|]. by rewrite Hs in Hrd.
  - destruct Ha; unfold hub_relay; simpl; repeat case_decide; simpl; try (left; split_and!; try done; set_solver).
    all: try (right; by split_and!).
    all: set_solver.
  - intros acts. destruct (decide (ed = Status Internal "hub relay: unreachable" [])) as [->|Hne]; [by right|left].
    destruct Ha; unfold hub_relay; simpl; repeat case_decide; simpl; congruence.
Qed.

(** ** What falls short *)

(** Two projects of the same name share a workspace name: the hub routes every call for it to
    the daemon that comes first in the registry, and the other is out of reach. *)
Theorem same_name_shadows kill0 e1 e2 :
  in_Name e1 = in_Name e2 -> pidAlive kill0 (in_Pid e1) = true -> pidAlive kill0 (in_Pid e2) = true ->
  workspaceAddr kill0 [e1; e2] (in_Name e2) = Some (in_Addr e1).
Proof.
  intros Hn H1 H2. unfold workspaceAddr, pruneRegistry. rewrite !filter_cons. rw !decide_True //. simpl. by rw bool_decide_true.
Qed.

(** An empty listen address is not counted as public, although listening on it binds every
    interface. *)
Theorem empty_addr_not_public : hub_guard (mkHubFlags "" "" "" "" false) = None.
Proof. reflexivity. Qed.

(** The binding posture asked of the hub is asked of the daemon too, which has no such guard:
    a plane at its default address, which the hub would refuse, is served. *)
Theorem serve_has_no_guard Getenv Hostname inst runtime ht specs env port :
  sv_runtime env = None -> sv_listen env = Ok port -> port <> "" ->
  (forall a, sv_assemble env a = None) -> sv_end env = None ->
  let pl := mkLoadedPlane inst defaultAddr runtime ht specs in
  is_Some (hub_guard (mkHubFlags (pl_Addr pl) "" "" "" false)) /\
  (serveResolved Getenv Hostname false pl env).1 = None /\ Opened CallbackListener ∉ (serveResolved Getenv Hostname false pl env).2.
Proof.
  intros Hr Hl Hp Ha He pl. split; [by eexists|]. unfold serveResolved. rw Hr Hl.
  assert (needs_companion pl port = false) as ->.
  { unfold needs_companion, loopbackTCP. rw !bool_decide_false //. }
  rw Ha He. split; [done|]. simpl. set_solver.
Qed.

(** ** At a concrete hub *)

Lemma hub_secure_by_default_witness :
  isPublicAddr "10.0.0.5:7700" = true /\ isPublicAddr "127.0.0.1:7700" = false.
Proof.
  destruct (hub_secure_by_default (mkHubFlags "" "" "" "" false) None None) as (_ & _ & H).
  split; [exact (H 10 0 0 5 "7700" ltac:(split; lia) ltac:(split; lia) ltac:(split; lia) ltac:(split; lia)
                   ltac:(repeat split; reflexivity))|].
  exact (H 127 0 0 1 "7700" ltac:(split; lia) ltac:(split; lia) ltac:(split; lia) ltac:(split; lia) ltac:(repeat split; reflexivity)).
Defined.

Definition demo_dial_hub (n : nat) (addr : string) : result string := Ok addr.
Definition demo_identity (conn : string) (c : Ctx) (tok : string) : result bool := Ok (bool_decide (tok = "s3cret")).
Definition demo_call : Ctx :=
  mkCtx (Some {["rat-token" := ["s3cret"]; "rat-workspace" := ["lab"]]}) [] None None None.
Definition demo_proxy (c : Ctx) :=
  proxyStream demo_dial_hub demo_identity (fun _ _ _ => None) "id:1" (fun ws => if decide (ws = "lab") then Some "unix:/lab" else None)
    ["lab"] (Some "/rat.core.v1.CapabilityInvokeService/Invoke") c None newConnPool.

Lemma proxyStream_gate_witness :
  exists os p', demo_proxy demo_call = (None, Some os, p') /\ os_conn os = "unix:/lab" /\ os_md os = incoming demo_call.
Proof.
  destruct (demo_proxy demo_call) as [[st o] p'] eqn:E.
  assert (st = None /\ (if o then true else false) = true) as [Hst Ho].
  { assert ((if (demo_proxy demo_call).1.2 then true else false) = true /\ (demo_proxy demo_call).1.1 = None) as [H1 H2] by (vm_compute; split; reflexivity).
    rewrite E in H1, H2. split; [exact H2|exact H1]. }
  destruct (proxyStream_gate demo_dial_hub demo_identity (fun _ _ _ => None) id (fun n a c H => eq_sym (f_equal (fun r => match r with Ok x => x | Err _ => "" end) H))
              "id:1" (fun ws => if decide (ws = "lab") then Some "unix:/lab" else None) ["lab"]
              (Some "/rat.core.v1.CapabilityInvokeService/Invoke") demo_call None newConnPool st o p') as [_ H].
  - constructor; [intros addr c Hc; discriminate Hc|reflexivity].
  - exact E.
  - destruct o as [os|]; [|discriminate Ho]. exists os, p'. destruct H as (_ & _ & Hmd & _ & (addr & Ha & Ht) & _).
    subst st. split; [reflexivity|]. split; [|exact Hmd]. vm_compute in Ha. injection Ha as <-. exact Ht.
Defined.

Lemma relay_verbatim_witness :
  forwardFrames 0 ["a"; "b"] EOF (fun _ => None) = (["a"; "b"], EOF) /\
  hub_relay [FromCaller EOF; FromWorkspace (Status NotFound "no row" [])] =
    Some ([CloseSend; SetTrailer], Some (Status NotFound "no row" [])) /\
  exists rest, ["x"] = ["x"] ++ rest.
Proof.
  split; [reflexivity|]. split; [reflexivity|].
  refine (proj1 (proj2 (relay_verbatim ["a"; "b"] EOF (fun _ => None) ["x"] (Status NotFound "no row" []) (fun _ => None)
    ["a"; "b"] EOF ["x"] (Status NotFound "no row" []) [FromCaller EOF; FromWorkspace (Status NotFound "no row" [])] _ _ _)));
    [reflexivity|reflexivity|constructor].
Defined.
