(* ===== verification/Sdk.v ===== *)
(** The helper library Go plugins are written with
    (src/contracts/sdks/go/ratplugin/plugin.go): settings from the environment, the caller's
    tenant, and calling a capability through the gateway. *)
From S2P Require Import Prelude Manifest Registry CallContext Gateway Reconciler DeployRuntime Supervisor Plane Rewire Control Validate Daemon.

(** ** Settings *)

Definition envOr (Getenv : string -> string) (name def : string) : string :=
  if decide (Getenv name = "") then def else Getenv name.

Definition env_pair (out : gmap string string) (kv : string) : gmap string string :=
  let '(k, v, ok) := Cut "=" kv in if ok : bool then <[TrimSpace k := v]> out else out.
Definition EnvMap (value : string) : gmap string string := fold_left env_pair (Split "," value) ∅.

(** ** The envelope of a call *)

Definition hex_nibble (n : nat) : ascii := if (n <? 10)%nat then byte_of (48 + n) else byte_of (87 + n).
Fixpoint hex_EncodeToString (s : string) : string :=
  match s with
  | "" => ""
  | String a s => String (hex_nibble (nat_of_ascii a / 16)) (String (hex_nibble (nat_of_ascii a mod 16)) (hex_EncodeToString s))
  end.

(** From sixteen and eight random bytes. *)
Definition newTraceparent (trace span : string) : string :=
  "00-" +:+ hex_EncodeToString trace +:+ "-" +:+ hex_EncodeToString span +:+ "-01".

Section Client.
Context (proto_Unmarshal : string -> option RequestContext).
Context (proto_Marshal : RequestContext -> result string).

Definition CallerTenant (c : Ctx) : string := GetTenant (GetIdentity (readCallMeta proto_Unmarshal c)).

(** A client, by the name of its plugin. *)
Definition call_envelope (name trace span : string) (c : Ctx) : RequestContext :=
  let tenant := if decide (CallerTenant c = "") then "default" else CallerTenant c in
  mkRequestContext (Some (mkTrace (newTraceparent trace span) "" name)) (Some (mkIdentity name None tenant)) 0.

(** The context the gateway is called with. *)
Definition call_context (name trace span : string) (c : Ctx) : Ctx :=
  AppendToOutgoingContext c callMetaHeader
    match proto_Marshal (call_envelope name trace span c) with Ok b => b | Err _ => "" end.

(** [invoke] is the remote call; the request is marshalled before and the response
    unmarshalled after it. *)
Definition Client_Call {Resp} (invoke : Ctx -> string -> string -> result string) (unmarshal : string -> result Resp)
    (name trace span : string) (c : Ctx) (capability : string) (payload : result string) : result Resp :=
  let? payload := payload in
  let? out := invoke (call_context name trace span c) capability payload in
  unmarshal out.
End Client.

(** ** Settings read back *)

Definition setting (kv : string * string) : Prop :=
  no_byte "=" kv.1 = true /\ no_byte "," kv.1 = true /\ no_byte "," kv.2 = true /\ TrimSpace kv.1 = kv.1.
Definition write_setting (kv : string * string) : string := kv.1 +:+ "=" +:+ kv.2.

(** Settings written as comma-separated pairs are read back: the last one wins for a key, and
    a value may contain an equals sign. *)
Lemma EnvMap_written (l : list (string * string)) :
  l <> [] -> Forall setting l ->
  EnvMap (Join (write_setting <$> l) ",") = fold_left (fun m kv => <[kv.1 := kv.2]> m) l ∅.
Proof.
  intros Hne Hl. unfold EnvMap. rw Paths.Split_Join.
  2:{ by destruct l. }
  2:{ apply Forall_fmap. apply (Forall_impl _ _ _ Hl). intros kv (_ & H1 & H2 & _). simpl. unfold write_setting.
      rw !no_byte_app H1 H2. done. }
  clear Hne. generalize (∅ : gmap string string) as m. induction Hl as [|kv l (H1 & _ & _ & H2) _ IH]; intros m; [done|].
  rw fmap_cons. cbn [fold_left]. unfold env_pair at 2. unfold write_setting at 1.
  change (kv.1 +:+ "=" +:+ kv.2) with (kv.1 +:+ String "=" kv.2). rw (Cut_app "=" _ _ H1) H2. apply IH.
Qed.

(** ** Calls through the gateway *)

Lemma hex_length s : String.length (hex_EncodeToString s) = (2 * String.length s)%nat.
Proof. induction s as [|a s IH]; simpl; [done|]. rw IH. lia. Qed.

Lemma hex_nibble_no_dash n : (n < 16)%nat -> bool_decide (hex_nibble n = "-"%char) = false.
Proof. intros Hn. do 16 (destruct n as [|n]; [by vm_compute|]). lia. Qed.

Lemma hex_no_dash s : no_byte "-" (hex_EncodeToString s) = true.
Proof.
  induction s as [|a s IH]; [done|]. pose proof (nat_ascii_bounded a) as Ha.
  assert (nat_of_ascii a mod 16 < 16)%nat as H1 by (by apply Nat.mod_upper_bound).
  assert (nat_of_ascii a / 16 < 16)%nat as H2 by (by apply Nat.Div0.div_lt_upper_bound).
  apply hex_nibble_no_dash in H1, H2. cbn [hex_EncodeToString]. unfold no_byte in *. cbn [str_forall].
  by rw H1 H2 IH.
Qed.

Lemma newTraceparent_wf trace span :
  String.length trace = 16%nat -> String.length span = 8%nat -> wellFormedTraceparent (newTraceparent trace span) = true.
Proof.
  intros Ht Hs. unfold wellFormedTraceparent, newTraceparent.
  change ("00-" +:+ hex_EncodeToString trace +:+ "-" +:+ hex_EncodeToString span +:+ "-01")
    with ("00" +:+ String "-" (hex_EncodeToString trace +:+ String "-" (hex_EncodeToString span +:+ String "-" "01"))).
  rw !Split_app; [|apply hex_no_dash..|done]. simpl. unfold len. by rw !hex_length Ht Hs.
Qed.

Section Calls.
Context {Conn : Type}.
Context (unmarshal : string -> option RequestContext) (marshal : RequestContext -> result string).
Context (conn_Invoke : Conn -> Ctx -> string -> string -> result string).
(** The call context as the gateway's handler receives it. *)
Context (transport : Ctx -> Ctx).

(** What is marshalled is unmarshalled to itself (marshalling refuses text that is not UTF-8). *)
Definition encodes (rc : RequestContext) : Prop := exists b, marshal rc = Ok b /\ unmarshal b = Some rc.

(** The gateway's plugin door, as a client reaches it. *)
Definition plugin_door (g : Gateway (Conn := Conn)) (w : World) (c : Ctx) (capability payload : string) :
    option (result string * World) :=
  PluginAuthUnaryInterceptor g (transport c) (Gateway_Invoke unmarshal marshal conn_Invoke g capability payload) w.

Context (Hcarry : carries transport).
Implicit Types (g : Gateway (Conn := Conn)) (w : World (Conn := Conn)).

Lemma call_context_md name trace span c k :
  outgoing c = [] -> exists b, md_Get (transport (call_context unmarshal marshal name trace span c)) k
    = (if decide (k = callMetaHeader) then [b] else []) /\
    (encodes (call_envelope unmarshal name trace span c) -> unmarshal b = Some (call_envelope unmarshal name trace span c)).
Proof.
  intros Ho. unfold call_context. set (v := match marshal _ with Ok b => b | Err _ => "" end). exists v. split.
  - rw (hop_md _ Hcarry) /= Ho; [|by repeat constructor]. rw app_nil_l filter_cons filter_nil /=. by repeat case_decide; subst.
  - intros (b & Hm & Hu). unfold v. by rw Hm.
Qed.

Lemma call_header name trace span c k :
  outgoing c = [] -> k <> callMetaHeader ->
  firstHeader (transport (call_context unmarshal marshal name trace span c)) k = "".
Proof.
  intros Ho Hk. unfold firstHeader. destruct (call_context_md name trace span c k Ho) as (b & -> & _).
  by destruct (decide _).
Qed.

Lemma call_unauthenticated g name trace span c :
  outgoing c = [] ->
  Gateway_authenticatePlugin g (transport (call_context unmarshal marshal name trace span c)) =
  if requireAuth g then Err (Status Unauthenticated "C2: missing rat-plugin-token on the plugin door" []) else Ok "".
Proof. intros Ho. unfold Gateway_authenticatePlugin. by rw (call_header name trace span c pluginTokenHeader). Qed.

(** The envelope is read back, its trace is well formed, and no selector is sent. *)
Lemma call_decided g name trace span c capability :
  outgoing c = [] -> String.length trace = 16%nat -> String.length span = 8%nat ->
  encodes (call_envelope unmarshal name trace span c) ->
  let c' := transport (call_context unmarshal marshal name trace span c) in
  readCallMeta unmarshal c' = Some (call_envelope unmarshal name trace span c) /\
  traced unmarshal c' = true /\
  decision_of unmarshal g c' capability = Registry_Select (reg g) name capability ∅.
Proof.
  intros Ho Ht Hs He c'. assert (readCallMeta unmarshal c' = Some (call_envelope unmarshal name trace span c)) as Hr.
  { unfold readCallMeta, c'. destruct (call_context_md name trace span c callMetaHeader Ho) as (b & -> & Hb). by apply Hb. }
  split_and!; [done| |].
  - unfold traced. rw Hr. by apply newTraceparent_wf.
  - unfold decision_of, caller_of. rw Hr (call_header name trace span c selectHeader); [|done..].
    unfold authenticatedCaller, c'. by rw (hop_caller _ Hcarry).
Qed.

(** Where the gateway requires no token, a call through the Go library is decided as the plugin's
    own: its trace is accepted, the one audit record it leaves names the plugin as the caller
    and as the correlation, the decision is the registry's for that plugin with no selector,
    and a provider is contacted only after an allow. *)
Lemma call_is_the_plugins_own g w name trace span c capability payload r w' :
  outgoing c = [] -> String.length trace = 16%nat -> String.length span = 8%nat -> requireAuth g = false ->
  encodes (call_envelope unmarshal name trace span c) ->
  plugin_door g w (call_context unmarshal marshal name trace span c) capability payload = Some (r, w') ->
  exists d, Registry_Select (reg g) name capability ∅ = Some d /\
    audits w' = audits w ++ [decision_record capability name name d] /\
    (calls w' <> calls w -> Allowed d = true).
Proof.
  intros Ho Ht Hs Hg He. destruct (call_decided g name trace span c capability Ho Ht Hs He) as (Hr & Htr & Hd).
  pose proof (call_unauthenticated g name trace span c Ho) as Ha.
  set (c' := transport _) in *. unfold plugin_door, PluginAuthUnaryInterceptor. fold c'. rw Ha Hg /=.
  change (authenticated_ctx c' "") with c'. unfold Gateway_Invoke.
  destruct (Gateway_openCall _ _ _ _ _ _) as [[r0 w0]|] eqn:Hop; [|done].
  apply openCall_cases in Hop as (Hc & [(E & _)|(_ & d & E & Hau & Hres)]); [by rw Htr in E|].
  rw Hd in E. assert (caller_of c' (readCallMeta unmarshal c') = name) as Hcal.
  { unfold caller_of, authenticatedCaller, c'. rw (hop_caller _ Hcarry) /=. fold c'. by rw Hr. }
  unfold decision_audit in Hau. rw Hcal Hr in Hau.
  intros H. exists d. split; [done|]. destruct r0 as [oc|e]; injection H as <- <-; (split; [exact Hau|]).
  - intros _. by destruct Hres as [? _].
  - by rw Hc.
Qed.

End Calls.

(** ** Witnesses *)

Definition demo_name : string := "tester".
Definition demo_trace : string := "0123456789abcdef".
Definition demo_span : string := "01234567".
Definition demo_incoming : Ctx := mkCtx (Some ∅) [] None None None.
Definition demo_envelope : RequestContext := call_envelope (fun _ => None) demo_name demo_trace demo_span demo_incoming.
Definition demo_unmarshal (b : string) : option RequestContext := if decide (b = "envelope") then Some demo_envelope else None.
Definition demo_marshal (rc : RequestContext) : result string := Ok "envelope".
Lemma call_is_the_plugins_own_witness :
  exists r w', plugin_door demo_unmarshal demo_marshal (fun _ _ _ p => Ok p) plain_hop
      (gateway_New (Registry.demo_registry) ∅ [] : Gateway (Conn := unit)) (mkWorld [] [] [])
      (call_context demo_unmarshal demo_marshal demo_name demo_trace demo_span demo_incoming) "rat://state/v1/get" "q" = Some (r, w') /\
    exists d, map a_Caller (audits w') = [demo_name] /\ map a_Allowed (audits w') = [Allowed d].
Proof.
  eexists _, _. split; [vm_compute; reflexivity|].
  edestruct (call_is_the_plugins_own demo_unmarshal demo_marshal (fun _ _ _ p => Ok p) plain_hop plain_hop_carries
    (gateway_New (Registry.demo_registry) ∅ [] : Gateway (Conn := unit)) (mkWorld [] [] []) demo_name demo_trace demo_span
    demo_incoming "rat://state/v1/get" "q") as (d & _ & Ha & _).
  1-4: vm_compute; reflexivity.
  - exists "envelope". split; vm_compute; reflexivity.
  - vm_compute; reflexivity.
  - exists d. rewrite Ha. split; reflexivity.
Defined.

#[local] Existing Instance Daemon.demo_runtime.
Definition sdk_plane : LoadedPlane :=
  mkLoadedPlane "lab" "unix:/run/lab.sock" "podman" 10
    [mkSpec (Validate.demo_manifest "pg" "state-backend" ["rat://state/v1/get"] []) (Some (mkLaunch "rat/state:1" None [])) ""].

