(* ===== verification/RuntimePlugin.v ===== *)
(** The in-memory runtime plugin (src/plugins/runtime/inmemory-go): a unit of work is run as
    a stream of progress messages that ends in one completion.  Fractions are IEEE double
    precision numbers, as the Standard Library specifies them. *)
From Stdlib Require Import Floats.SpecFloat.
From S2P Require Import Prelude.

Record workSpec := mkWork { Steps : Z; Rows : Z; Indeterminate : bool; FailWith : string }.

Definition errEmptySpec : error := Errorf "work_spec is required" [].

(** ** Double-precision numbers *)

Definition float64 (z : Z) : spec_float := binary_normalize 53 1024 z 0 false.
Definition float_div (x y : spec_float) : spec_float := SFdiv 53 1024 x y.
Definition one64 : spec_float := S754_finite false (2^52) (-52).

(** ** The service *)

Inductive ExecuteResponse :=
  | Progress (fraction : option spec_float) (text : string)
  | Completed (success : bool) (err : string) (rows_affected : option Z).

Section Runtime.
(** The JSON decoder of the work specification. *)
Context (json_Unmarshal : string -> result workSpec).

Definition parseWorkSpec (b : string) : result workSpec :=
  if decide (b = "") then Err errEmptySpec else json_Unmarshal b.

Definition step_progress (spec : workSpec) (i : Z) : ExecuteResponse :=
  Progress (if Indeterminate spec then None else Some (float_div (float64 (i + 1)) (float64 (Steps spec))))
    ("step " +:+ itoa (i + 1) +:+ "/" +:+ itoa (Steps spec)).

(** Sending the [length sent]-th message may fail; what was sent, and the error. *)
Definition send (Send : nat -> option error) (sent : list ExecuteResponse) (m : ExecuteResponse) :
    list ExecuteResponse * option error :=
  match Send (length sent) with Some e => (sent, Some e) | None => (sent ++ [m], None) end.

(** [k] iterations are left, from [i]. *)
Fixpoint progress_loop (Send : nat -> option error) (spec : workSpec) (k : nat) (i : Z) (sent : list ExecuteResponse) :
    list ExecuteResponse * option error :=
  match k with
  | O => (sent, None)
  | S k =>
      match send Send sent (step_progress spec i) with
      | (sent, None) => progress_loop Send spec k (i + 1) sent
      | r => r
      end
  end.

Definition runtimeServer_Execute (Send : nat -> option error) (work_spec : string) : list ExecuteResponse * option error :=
  match parseWorkSpec work_spec with
  | Err e => ([], Some (StatusWrap InvalidArgument "%v" [] e))
  | Ok spec =>
      if negb (bool_decide (FailWith spec = "")) then send Send [] (Completed false (FailWith spec) None)
      else
        match progress_loop Send spec (Z.to_nat (Steps spec)) 0 [] with
        | (sent, None) => send Send sent (Completed true "" (Some (Rows spec)))
        | r => r
        end
  end.

(** ** The stream it promises *)

(** Sending a whole list, up to the first refusal. *)
Fixpoint send_list (Send : nat -> option error) (sent ms : list ExecuteResponse) : list ExecuteResponse * option error :=
  match ms with
  | [] => (sent, None)
  | m :: ms => match send Send sent m with (sent, None) => send_list Send sent ms | r => r end
  end.

Definition full_stream (spec : workSpec) : list ExecuteResponse :=
  if negb (bool_decide (FailWith spec = "")) then [Completed false (FailWith spec) None]
  else (step_progress spec <$> seqZ 0 (Steps spec)) ++ [Completed true "" (Some (Rows spec))].

Lemma send_list_app Send sent ms ms' :
  send_list Send sent (ms ++ ms') =
  match send_list Send sent ms with (sent, None) => send_list Send sent ms' | r => r end.
Proof.
  revert sent. induction ms as [|m ms IH]; intros sent; [done|]. cbn [send_list app].
  destruct (send Send sent m) as [s [e|]]; [done|apply IH].
Qed.

Lemma progress_loop_list Send spec k i sent :
  progress_loop Send spec k i sent = send_list Send sent (step_progress spec <$> seqZ i (Z.of_nat k)).
Proof.
  revert i sent. induction k as [|k IH]; intros i sent; [done|]. rewrite Nat2Z.inj_succ seqZ_cons; [|lia].
  rw Z.pred_succ fmap_cons. cbn [progress_loop send_list].
  destruct (send Send sent _) as [s [e|]]; [done|]. by rw IH.
Qed.

Lemma send_list_spec Send sent ms :
  (forall i, (i < length ms)%nat -> Send (length sent + i)%nat = None) /\ send_list Send sent ms = (sent ++ ms, None) \/
  exists i e, (i < length ms)%nat /\ (forall j, (j < i)%nat -> Send (length sent + j)%nat = None) /\
    Send (length sent + i)%nat = Some e /\ send_list Send sent ms = (sent ++ take i ms, Some e).
Proof.
  revert sent. induction ms as [|m ms IH]; intros sent.
  { left. rw app_nil_r. split; [intros i Hi; simpl in Hi; lia|done]. }
  cbn [send_list]. unfold send at 1 2. destruct (Send (length sent)) as [e|] eqn:E.
  { right. exists 0%nat, e. rw Nat.add_0_r app_nil_r. split_and!; [simpl; lia|intros; lia|done|done]. }
  assert (forall j, length (sent ++ [m]) + j = length sent + S j)%nat as Hl by (intros j; rw length_app /=; lia).
  destruct (IH (sent ++ [m])) as [[H ->]|(i & e & Hi & H & He & ->)]; rw -app_assoc /=.
  - left. split; [|done]. intros [|i] Hi; [by rw Nat.add_0_r|]. rw -Hl. apply H. simpl in Hi. lia.
  - right. exists (S i), e. rw Hl in He. split_and!; [simpl; lia| |done|done].
    intros [|j] Hj; [by rw Nat.add_0_r|]. rw -Hl. apply H. lia.
Qed.

Lemma Execute_stream Send work_spec spec :
  parseWorkSpec work_spec = Ok spec -> runtimeServer_Execute Send work_spec = send_list Send [] (full_stream spec).
Proof.
  intros Hp. unfold runtimeServer_Execute, full_stream. rw Hp.
  assert (forall s m, send_list Send s [m] = send Send s m) as H1.
  { intros s m. simpl. by destruct (send Send s m) as [? [?|]]. }
  destruct (negb _); [by rw H1|]. rw progress_loop_list.
  assert (seqZ 0 (Z.of_nat (Z.to_nat (Steps spec))) = seqZ 0 (Steps spec)) as -> by by rw /seqZ Nat2Z.id.
  rw send_list_app.
  destruct (send_list _ _ _) as [s [e|]]; [done|by rw H1].
Qed.
End Runtime.

(** ** Fractions *)

Lemma Zdigits2_bounds p : 2 ^ (Z.pos (digits2_pos p) - 1) <= Z.pos p < 2 ^ Z.pos (digits2_pos p).
Proof.
  induction p as [p IH|p IH|]; [| |by vm_compute]; cbn [digits2_pos]; rewrite Pos2Z.inj_succ;
    set (d := Z.pos (digits2_pos p)) in *; assert (1 <= d) by lia;
    replace (Z.succ d - 1) with (Z.succ (d - 1)) by lia; rewrite !Z.pow_succ_r; lia.
Qed.

Lemma digits2_iter m k : digits2_pos (Pos.iter xO m k) = (digits2_pos m + k)%positive.
Proof.
  induction k as [|k IH] using Pos.peano_ind; [simpl; lia|]. rewrite Pos.iter_succ. cbn [digits2_pos]. rewrite IH. lia.
Qed.

Lemma round_exact m e :
  fexp 53 1024 (Z.pos (digits2_pos m) + e) = e -> e <= 971 ->
  binary_round_aux 53 1024 false (Z.pos m) e loc_Exact = S754_finite false m e.
Proof.
  intros He Hle. unfold binary_round_aux, shr_fexp. cbn [shr_record_of_loc Zdigits2].
  rewrite He Z.sub_diag. cbn [shr shr_m loc_of_shr_record round_nearest_even Zdigits2 shr_record_of_loc].
  rewrite He Z.sub_diag. cbn [shr shr_m]. by destruct (Z.leb_spec e (1024 - 53)); [|lia].
Qed.

(** Up to [2^53] the conversion is exact: no step count is rounded to zero or infinity. *)
Lemma float64_finite n : 1 <= n <= 2 ^ 53 -> exists m e, float64 n = S754_finite false m e.
Proof.
  intros Hn. destruct n as [|p|p]; [lia| |lia]. unfold float64, binary_normalize, binary_round, shl_align.
  set (d := digits2_pos p). assert (Z.pos d <= 54) as Hd.
  { pose proof (Zdigits2_bounds p) as [H _]. destruct (Z.le_gt_cases (Z.pos (digits2_pos p)) 54); [done|].
    pose proof (Z.pow_le_mono_r 2 54 (Z.pos (digits2_pos p) - 1) ltac:(lia) ltac:(lia)). lia. }
  assert (fexp 53 1024 (Z.pos d + 0) = Z.pos d - 53) as Hf by (unfold fexp, emin; lia).
  destruct (Z.eq_dec (Z.pos d) 54) as [Hd'|Hd'].
  - assert (p = (2^53)%positive) as ->.
    { pose proof (Zdigits2_bounds p) as [H _]. fold d in H. rewrite Hd' in H. lia. }
    vm_compute. by eexists _, _.
  - rewrite Hf Z.sub_0_r. destruct (Z.pos d - 53) as [|k|k] eqn:Ek; [| lia|].
    + rewrite round_exact; [by eexists _, _| |lia]. fold d. rewrite Hf. done.
    + rewrite round_exact; [by eexists _, _| |lia]. rewrite digits2_iter. fold d. unfold fexp, emin. lia.
Qed.

Lemma div_self m e : float_div (S754_finite false m e) (S754_finite false m e) = one64.
Proof.
  assert (Z.div_eucl (Z.pos m * 2 ^ 53) (Z.pos m) = (2 ^ 53, 0)) as Hq.
  { rewrite (surjective_pairing (Z.div_eucl _ _)). f_equal.
    - change (Z.pos m * 2 ^ 53 / Z.pos m = 2 ^ 53). rewrite Z.mul_comm. by apply Z.div_mul.
    - change (Z.pos m * 2 ^ 53 mod Z.pos m = 0). rewrite Z.mul_comm. by apply Z.mod_mul. }
  unfold float_div, SFdiv, SFdiv_core_binary. cbn [xorb Zdigits2]. rewrite !Z.sub_diag.
  replace (0 - Z.min (fexp 53 1024 0) 0) with 53 by done. rewrite Z.shiftl_mul_pow2; [|done]. rewrite Hq.
  assert (new_location (Z.pos m) 0 = loc_Exact) as ->.
  { unfold new_location, new_location_even, new_location_odd. by destruct (Z.even _). }
  by vm_compute.
Qed.

(** What the runtime streams is fixed by the work specification: an empty or undecodable one is an
    invalid argument before any message; otherwise the messages sent are the specified
    stream, or its part before the first message the caller did not take, whose error is
    returned.  That stream is one message per step and then exactly one completion, the
    last message; fractions are absent when the work is indeterminate and otherwise present,
    and the last of up to 2^53 steps reports exactly 1. *)
Theorem Execute_streams json_Unmarshal Send work_spec :
  match parseWorkSpec json_Unmarshal work_spec with
  | Err e => runtimeServer_Execute json_Unmarshal Send work_spec = ([], Some (StatusWrap InvalidArgument "%v" [] e))
  | Ok spec =>
      let full := full_stream spec in
      ((forall i, (i < length full)%nat -> Send i = None) /\ runtimeServer_Execute json_Unmarshal Send work_spec = (full, None) \/
       exists i e, (i < length full)%nat /\ (forall j, (j < i)%nat -> Send j = None) /\ Send i = Some e /\
         runtimeServer_Execute json_Unmarshal Send work_spec = (take i full, Some e)) /\
      exists progress c, full = progress ++ [c] /\
        (exists ok err rows, c = Completed ok err rows /\ (ok = true <-> FailWith spec = "") /\ err = FailWith spec) /\
        length progress = (if decide (FailWith spec = "") then Z.to_nat (Steps spec) else 0%nat) /\
        (forall i m, progress !! i = Some m -> exists f t, m = Progress f t /\ (f = None <-> Indeterminate spec = true)) /\
        (forall m, last progress = Some m -> Indeterminate spec = false -> Steps spec <= 2 ^ 53 ->
           exists t, m = Progress (Some one64) t)
  end.
Proof.
  destruct (parseWorkSpec json_Unmarshal work_spec) as [spec|e] eqn:Ep; [|by rw /runtimeServer_Execute Ep].
  intros full. rw (Execute_stream _ Send _ _ Ep). split.
  { by destruct (send_list_spec Send [] full) as [[H E]|(i & e & Hi & Hj & He & E)]; [left|right; exists i, e]. }
  unfold full, full_stream. destruct (decide (FailWith spec = "")) as [Hf|Hf].
  2:{ rw bool_decide_eq_false_2; [|done]. exists [], (Completed false (FailWith spec) None).
      split_and!; try done. by eexists _, _, _. }
  rw bool_decide_eq_true_2; [|done]. exists (step_progress spec <$> seqZ 0 (Steps spec)), (Completed true "" (Some (Rows spec))).
  split_and!; [done|eexists _, _, _; by rw Hf|by rw length_fmap length_seqZ| |].
  - intros i m Hm. rewrite list_lookup_fmap in Hm. destruct (seqZ _ _ !! i) as [z|]; [|done]. injection Hm as <-.
    unfold step_progress. eexists _, _. split; [done|]. by destruct (Indeterminate spec).
  - intros m Hm Hi Hs. rewrite fmap_last in Hm. destruct (last (seqZ 0 (Steps spec))) as [z|] eqn:Ez; [|done].
    injection Hm as <-. assert (z + 1 = Steps spec /\ 1 <= Steps spec) as [Hz H1].
    { rewrite last_lookup length_seqZ in Ez. apply lookup_seqZ in Ez. lia. }
    unfold step_progress. rw Hi Hz. destruct (float64_finite (Steps spec)) as (mm & ee & ->); [lia|].
    rw div_self. by eexists.
Qed.

Definition demo_json (b : string) : result workSpec :=
  if decide (b = "three") then Ok (mkWork 3 7 false "") else Err (Errorf "unexpected end of JSON input" []).

Example Execute_three :
  runtimeServer_Execute demo_json (fun i => if decide (i = 2%nat) then Some EOF else None) "three" =
  ([Progress (Some (float_div (float64 1) (float64 3))) "step 1/3"; Progress (Some (float_div (float64 2) (float64 3))) "step 2/3"],
   Some EOF).
Proof. by vm_compute. Qed.
