(* ===== verification/InmemoryStorage.v ===== *)
(** The in-memory storage plugin (src/plugins/storage/inmemory-go): credentials that only
    record the scope they were granted for, and how the local file system plugin refines
    them. *)
From S2P Require Import Prelude Paths CallContext StoragePlugin.

Definition credentialTTLms : Z := 900000.

Record scopeReceipt := mkReceipt { Tenant : string; Prefix : string; Mode : string; ExpiresUnixMs : Z }.

Definition modeString (m : AccessMode) : string :=
  match m with
  | MODE_READ => "READ" | MODE_WRITE => "WRITE" | MODE_READ_WRITE => "READ_WRITE" | _ => "UNSPECIFIED"
  end.

Section Storage.
Context (proto_Unmarshal : string -> option RequestContext).

Definition tenantFromContext (c : Ctx) : string := GetTenant (GetIdentity (readCallMeta proto_Unmarshal c)).

(** [s.now() + credentialTTLms] wraps; the receipt is JSON encoded, kept decoded here. *)
Definition storageServer_VendCredentials (now : Z) (c : Ctx) (prefix : string) (mode : AccessMode) :
    result (scopeReceipt * Z) :=
  if decide (prefix = "") then Err (Status InvalidArgument "prefix is required" [])
  else if decide (mode = MODE_UNSPECIFIED) then Err (Status InvalidArgument "mode must be specified" [])
  else
    let expires := wrap64 (now + credentialTTLms) in
    Ok (mkReceipt (tenantFromContext c) prefix (modeString mode) expires, expires).

(** What a receipt of the local file system plugin says of its scope. *)
Definition scope_of (r : StoragePlugin.scopeReceipt) : scopeReceipt :=
  mkReceipt (sr_Tenant r) (sr_Prefix r) (sr_Mode r) (sr_ExpiresUnixMs r).

(** The local file system plugin refines the in-memory one: at a clock that does not overflow, it
    refuses the same malformed requests with the same answer, whatever it grants is what the
    in-memory plugin grants, and the only further refusals are a prefix that leaves the
    tenant's root and a directory that cannot be made.  The tenant of a grant is the one of
    the call's envelope, never one of the request. *)
Theorem localfs_refines_inmemory os_MkdirAll root now c prefix mode :
  0 <= now -> now + credentialTTLms < 2^63 ->
  match storageServer_VendCredentials now c prefix mode,
        StoragePlugin.storageServer_VendCredentials proto_Unmarshal os_MkdirAll root now c prefix mode with
  | Err e, r => r = Err e
  | Ok (g, x), Ok (r, x') => scope_of r = g /\ x' = x /\ Tenant g = tenantFromContext c
  | Ok _, Err e => status_Code e = PermissionDenied \/ status_Code e = Internal
  end.
Proof.
  intros H0 H1. unfold storageServer_VendCredentials, StoragePlugin.storageServer_VendCredentials.
  destruct (decide (prefix = "")); [done|]. destruct (decide (mode = MODE_UNSPECIFIED)); [done|].
  rw wrap64_id; [|unfold in_int64, credentialTTLms in *; lia].
  destruct (store_vend os_MkdirAll root (StoragePlugin.tenantFromContext proto_Unmarshal c) prefix _ _) as [r|e] eqn:Ev; cbn [result_bind].
  - apply vend_inside in Ev as [-> _]. split_and!; [|done|done]. done.
  - unfold store_vend in Ev. repeat case_match; simplify_eq; auto.
Qed.
End Storage.

Lemma localfs_refines_inmemory_witness :
  exists g, storageServer_VendCredentials demo_unmarshal 0 (demo_ctx "acme") "t/x" MODE_WRITE = Ok (g, 900000) /\
    exists r, StoragePlugin.storageServer_VendCredentials demo_unmarshal (fun _ => None) "/srv/rat" 0 (demo_ctx "acme") "t/x" MODE_WRITE
      = Ok (r, 900000) /\ scope_of r = g.
Proof.
  eexists. split; [vm_compute; reflexivity|]. eexists. split; [vm_compute; reflexivity|].
  pose proof (localfs_refines_inmemory demo_unmarshal (fun _ => None) "/srv/rat" 0 (demo_ctx "acme") "t/x" MODE_WRITE
    ltac:(discriminate) ltac:(vm_compute; reflexivity)) as H.
  vm_compute in H. exact (proj1 H).
Defined.
