(* ===== verification/Base64.v ===== *)
(** Standard base64 (encoding/base64, as src/core/cmd/rat uses it for manifests stamped into
    images and for keys and signatures): encoding with padding, and decoding, which ignores
    line breaks and does not look at trailing bits. *)
From S2P Require Import Prelude.

Definition sextet_char (n : nat) : ascii :=
  if (n <? 26)%nat then byte_of (65 + n)
  else if (n <? 52)%nat then byte_of (71 + n)
  else if (n <? 62)%nat then byte_of (n - 4)
  else if (n =? 62)%nat then "+"%char else "/"%char.

Definition char_sextet (a : ascii) : option nat :=
  let n := nat_of_ascii a in
  if ((65 <=? n) && (n <=? 90))%nat then Some (n - 65)%nat
  else if ((97 <=? n) && (n <=? 122))%nat then Some (n - 71)%nat
  else if ((48 <=? n) && (n <=? 57))%nat then Some (n + 4)%nat
  else if decide (a = "+"%char) then Some 62%nat
  else if decide (a = "/"%char) then Some 63%nat
  else None.

Definition pad : ascii := "="%char.
Notation code a := (nat_of_ascii a) (only parsing).

(** The four characters of three bytes. *)
Definition sextets (a b c : nat) : list nat :=
  [(a / 4)%nat; ((a mod 4) * 16 + b / 16)%nat; ((b mod 16) * 4 + c / 64)%nat; (c mod 64)%nat].

Fixpoint EncodeToString (s : string) : string :=
  match s with
  | String a (String b (String c r)) =>
      match sextets (code a) (code b) (code c) with
      | [w; x; y; z] => String (sextet_char w) (String (sextet_char x) (String (sextet_char y) (String (sextet_char z) (EncodeToString r))))
      | _ => ""
      end
  | String a (String b "") =>
      match sextets (code a) (code b) 0 with
      | [w; x; y; _] => String (sextet_char w) (String (sextet_char x) (String (sextet_char y) (String pad "")))
      | _ => ""
      end
  | String a "" =>
      match sextets (code a) 0 0 with
      | [w; x; _; _] => String (sextet_char w) (String (sextet_char x) (String pad (String pad "")))
      | _ => ""
      end
  | "" => ""
  end.

(** The offset an error reports is left out. *)
Definition CorruptInputError : error := Errorf "illegal base64 data at input byte" [].

Definition byte1 (w x : nat) : ascii := byte_of (w * 4 + x / 16).
Definition byte2 (x y : nat) : ascii := byte_of ((x mod 16) * 16 + y / 4).
Definition byte3 (y z : nat) : ascii := byte_of ((y mod 4) * 64 + z).

Fixpoint strip_breaks (s : string) : string :=
  match s with
  | "" => ""
  | String a s => if decide (code a = 10 \/ code a = 13)%nat then strip_breaks s else String a (strip_breaks s)
  end.

Fixpoint decode_quanta (s : string) : result string :=
  match s with
  | "" => Ok ""
  | String w (String x (String y (String z r))) =>
      match char_sextet w, char_sextet x with
      | Some w, Some x =>
          if decide (y = pad) then
            if decide (z = pad /\ r = "") then Ok (String (byte1 w x) "") else Err CorruptInputError
          else match char_sextet y with
               | None => Err CorruptInputError
               | Some y =>
                   if decide (z = pad) then
                     if decide (r = "") then Ok (String (byte1 w x) (String (byte2 x y) "")) else Err CorruptInputError
                   else match char_sextet z with
                        | None => Err CorruptInputError
                        | Some z =>
                            let? out := decode_quanta r in
                            Ok (String (byte1 w x) (String (byte2 x y) (String (byte3 y z) out)))
                        end
               end
      | _, _ => Err CorruptInputError
      end
  | _ => Err CorruptInputError
  end.
Definition DecodeString (s : string) : result string := decode_quanta (strip_breaks s).

(** ** Round trip *)

(** What encoding writes: none of it is white space, a line break or padding. *)
Lemma sextet_char_ok n : (n < 64)%nat ->
  char_sextet (sextet_char n) = Some n /\ sextet_char n <> pad /\ graphic (sextet_char n) = true.
Proof. intros Hn. do 64 (destruct n as [|n]; [by vm_compute|]). lia. Qed.

Lemma sextets_small a b c : (a < 256)%nat -> (b < 256)%nat -> (c < 256)%nat ->
  Forall (fun n => (n < 64)%nat) (sextets a b c).
Proof.
  intros Ha Hb Hc. unfold sextets. pose proof (Nat.Div0.div_mod a 4). pose proof (Nat.mod_upper_bound a 4).
  pose proof (Nat.Div0.div_mod b 16). pose proof (Nat.mod_upper_bound b 16).
  pose proof (Nat.Div0.div_mod c 64). pose proof (Nat.mod_upper_bound c 64).
  rewrite !Forall_cons Forall_nil. split_and!; [lia..|done].
Qed.

Lemma byte_of_code a n : n = code a -> byte_of n = a.
Proof. intros ->. apply ascii_nat_embedding. Qed.

Lemma div_small_add q r k : (r < k)%nat -> ((q * k + r) / k = q /\ (q * k + r) mod k = r)%nat.
Proof.
  intros Hr. split.
  - rewrite Nat.div_add_l; [|lia]. rewrite Nat.div_small; lia.
  - rewrite Nat.add_comm Nat.Div0.mod_add. by apply Nat.mod_small.
Qed.

Lemma bytes_back (a b c : ascii) :
  let n := sextets (code a) (code b) (code c) in
  byte1 (nth 0 n 0%nat) (nth 1 n 0%nat) = a /\ byte2 (nth 1 n 0%nat) (nth 2 n 0%nat) = b /\ byte3 (nth 2 n 0%nat) (nth 3 n 0%nat) = c.
Proof.
  pose proof (nat_ascii_bounded a). pose proof (nat_ascii_bounded b). pose proof (nat_ascii_bounded c).
  cbn [sextets nth]. pose proof (Nat.Div0.div_mod (code a) 4). pose proof (Nat.Div0.div_mod (code b) 16).
  pose proof (Nat.Div0.div_mod (code c) 64). pose proof (Nat.mod_upper_bound (code a) 4).
  destruct (div_small_add (code a mod 4) (code b / 16) 16) as [E1 E2]; [lia|].
  destruct (div_small_add (code b mod 16) (code c / 64) 4) as [E3 E4]; [lia|].
  unfold byte1, byte2, byte3. split_and!; apply byte_of_code; [rewrite E1|rewrite E2 E3|rewrite E4]; lia.
Qed.

(** Strings, three bytes at a time. *)
Lemma string_ind3 (P : string -> Prop) :
  P "" -> (forall a, P (String a "")) -> (forall a b, P (String a (String b ""))) ->
  (forall a b c r, P r -> P (String a (String b (String c r)))) -> forall s, P s.
Proof.
  intros H0 H1 H2 H3. assert (forall n s, (String.length s <= n)%nat -> P s) as H.
  { induction n as [|n IH]; intros [|a [|b [|c r]]] Hl; try done; simpl in Hl; try lia. apply H3, IH. lia. }
  intros s. by apply (H (String.length s)).
Qed.

Lemma codes_small a b c : Forall (fun n => (n < 64)%nat) (sextets (code a) (code b) (code c)).
Proof. apply sextets_small; apply nat_ascii_bounded. Qed.

(** The characters of an encoding. *)
Lemma Encode_forall (P : ascii -> bool) s :
  (forall n, (n < 64)%nat -> P (sextet_char n) = true) -> P pad = true -> str_forall P (EncodeToString s) = true.
Proof.
  intros Hg Hp. induction s as [|a|a b|a b c r IH] using string_ind3; [done|..]; cbn [EncodeToString].
  - pose proof (codes_small a Ascii.zero Ascii.zero) as H. cbn [sextets] in *. rewrite !Forall_cons in H.
    destruct H as (H1 & H2 & _). cbn [str_forall]. change (nat_of_ascii Ascii.zero) with 0%nat in *. by rewrite !Hg // Hp.
  - pose proof (codes_small a b Ascii.zero) as H. cbn [sextets] in *. rewrite !Forall_cons in H.
    destruct H as (H1 & H2 & H3 & _). cbn [str_forall]. change (nat_of_ascii Ascii.zero) with 0%nat in *. by rewrite !Hg // Hp.
  - pose proof (codes_small a b c) as H. cbn [sextets] in *. rewrite !Forall_cons in H.
    destruct H as (H1 & H2 & H3 & H4 & _). cbn [str_forall]. by rewrite !Hg.
Qed.

Lemma Encode_chars s : str_forall (fun a => graphic a) (EncodeToString s) = true.
Proof. apply Encode_forall; [|done]. intros n Hn. by apply sextet_char_ok. Qed.

Lemma Encode_length s : String.length (EncodeToString s) = (4 * ((String.length s + 2) / 3))%nat.
Proof.
  induction s as [|a|a b|a b c r IH] using string_ind3; [done..|]. cbn [EncodeToString sextets String.length].
  rewrite IH. replace (S (S (S (String.length r))) + 2)%nat with (1 * 3 + (String.length r + 2))%nat by lia.
  rewrite Nat.div_add_l; lia.
Qed.

Lemma strip_graphic s : str_forall (fun a => graphic a) s = true -> strip_breaks s = s.
Proof.
  induction s as [|a s IH]; [done|]. simpl. intros [Ha Hs]%andb_true_iff. rewrite IH; [|done].
  destruct (decide _) as [Hd|]; [|done]. unfold graphic in Ha. apply andb_true_iff in Ha as [Ha _].
  apply Nat.leb_le in Ha. lia.
Qed.

Lemma decode_encode_quanta s : decode_quanta (EncodeToString s) = Ok s.
Proof.
  assert (forall n, (n < 64)%nat -> char_sextet (sextet_char n) = Some n) as Hc by (intros n Hn; by apply sextet_char_ok).
  assert (forall n, (n < 64)%nat -> sextet_char n <> pad) as Hp by (intros n Hn; by apply sextet_char_ok).
  induction s as [|a|a b|a b c r IH] using string_ind3; [done|..]; cbn [EncodeToString].
  - pose proof (codes_small a Ascii.zero Ascii.zero) as H. destruct (bytes_back a Ascii.zero Ascii.zero) as (E1 & _ & _).
    cbn [sextets nth] in *. change (nat_of_ascii Ascii.zero) with 0%nat in *. rewrite !Forall_cons in H.
    destruct H as (H1 & H2 & _). cbn [decode_quanta]. by rewrite !Hc // E1.
  - pose proof (codes_small a b Ascii.zero) as H. destruct (bytes_back a b Ascii.zero) as (E1 & E2 & _).
    cbn [sextets nth] in *. change (nat_of_ascii Ascii.zero) with 0%nat in *. rewrite !Forall_cons in H.
    destruct H as (H1 & H2 & H3 & _). cbn [decode_quanta]. rewrite !Hc //. destruct (decide (_ = pad)) as [E|]; [by apply Hp in E|].
    by rewrite E1 E2.
  - pose proof (codes_small a b c) as H. destruct (bytes_back a b c) as (E1 & E2 & E3).
    cbn [sextets nth] in *. rewrite !Forall_cons in H.
    destruct H as (H1 & H2 & H3 & H4 & _). cbn [decode_quanta]. rewrite !Hc //.
    destruct (decide (_ = pad)) as [E|_]; [by apply Hp in E|]. destruct (decide (_ = pad)) as [E|_]; [by apply Hp in E|].
    by rewrite IH /= E1 E2 E3.
Qed.

(** Decoding what was encoded gives it back, whatever the bytes. *)
Theorem Decode_Encode s : DecodeString (EncodeToString s) = Ok s.
Proof. unfold DecodeString. rewrite strip_graphic; [|apply Encode_chars]. apply decode_encode_quanta. Qed.

Lemma Encode_not_empty s : s <> "" -> EncodeToString s <> "".
Proof. intros Hs E. pose proof (Decode_Encode s) as Hd. rewrite E in Hd. by injection Hd as <-. Qed.

Lemma Encode_graphic s : s <> "" ->
  starts graphic (EncodeToString s) = true /\ starts graphic (str_rev (EncodeToString s)) = true.
Proof.
  intros Hne%Encode_not_empty.
  assert (forall u, u <> "" -> str_forall (fun a => graphic a) u = true -> starts graphic u = true) as Hu.
  { intros [|a u] Hn Hf; [done|]. simpl in *. by apply andb_true_iff in Hf as [-> _]. }
  split; apply Hu; [done|apply Encode_chars| |].
  - intros E. apply Hne. by rewrite -(str_rev_involutive (EncodeToString s)) E.
  - by rewrite str_forall_rev Encode_chars.
Qed.

(** An encoding has no space to trim, and survives the line break printed after it. *)
Lemma TrimSpace_Encode s : TrimSpace (EncodeToString s) = EncodeToString s.
Proof. destruct (decide (s = "")) as [->|Hne]; [done|]. by apply TrimSpace_graphic; apply Encode_graphic. Qed.
Lemma TrimSpace_Encode_line s : TrimSpace (EncodeToString s +:+ newline) = EncodeToString s.
Proof. destruct (decide (s = "")) as [->|Hne]; [done|]. by apply TrimSpace_line; apply Encode_graphic. Qed.

Example Encode_ex : EncodeToString "kind: ui" = "a2luZDogdWk=" /\ DecodeString "a2luZDog
dWk=" = Ok "kind: ui" /\ is_Ok (DecodeString "a2luZA=") = false.
Proof. by vm_compute. Qed.
