(* ===== verification/Redeem.v ===== *)
(** Tickets over the state plugin: minters (src/core/arrowticket/arrowticket.go) whose
    single-use store is a key per ticket in the state plugin (statecas/statecas.go over
    src/plugins/state/inmemory-go), reached over a transport that may lose an answer, while
    other clients of the plugin write.  Only the signature and JSON are parameters. *)
From S2P Require Import Prelude Base64 StateLease StatePlugin ArrowTicket Sdk.

(** ** Minters *)

(** A nonce is drawn from the system's random source. *)
Definition newNonce (read : result string) : result string :=
  match read with
  | Err e => Err (Wrap "arrowticket: nonce: %w" [] e)
  | Ok b => Ok (hex_EncodeToString b)
  end.

Record Minter (S : Type) := mkMinter { m_key : string; m_store : S }.
Arguments mkMinter {S}.
Arguments m_key {S}.
Arguments m_store {S}.

Definition NewMinterWithStore {S} (key : string) (store : S) : Minter S := mkMinter key store.
Definition NewMinter (key : string) : Minter MemStore := NewMinterWithStore key NewMemStore.
Definition NewCASStore {B} (cas : B) (keyPrefix : string) : CASStore B := mkCASStore cas keyPrefix.

(** ** The adapter over the plugin

    What becomes of a call: it is answered, or the adapter gives up on it, whether or not
    the plugin took it. *)
Inductive delivery := Delivered | Lost (applied : bool) (e : error).

Definition statecas_PutIfAbsent (b : store * delivery) (key : string) : result bool * (store * delivery) :=
  let '(st, d) := b in
  let '(r, st') := stateServer_CreateIfAbsent st key "1" in
  match d with
  | Delivered => (CAS_response r, (st', d))
  | Lost applied e => (CAS_response (Err e), (if applied then st' else st, d))
  end.

#[local] Instance statecas_CAS : SingleUseCAS (store * delivery) := statecas_PutIfAbsent.

(** What a create leaves: its key, when it succeeded; every key that was there. *)
Lemma create_effect st key r st' :
  stateServer_CreateIfAbsent st key "1" = (r, st') ->
  dom (st_data st) ⊆ dom (st_data st') /\
  (CAS_response r = Ok true -> key ∉ dom (st_data st) /\ key ∈ dom (st_data st')) /\
  (validateKey key false = None -> key ∉ dom (st_data st) -> CAS_response r = Ok true).
Proof.
  unfold stateServer_CreateIfAbsent. destruct (validateKey key false) as [e|] eqn:Hv.
  { intros [= <- <-]. split; [done|split; [|done]]. cbn [CAS_response]. by case_decide. }
  unfold store_createIfAbsent. destruct (st_data st !! key) as [en|] eqn:Hk; intros [= <- <-].
  - split; [done|split; [done|]]. intros _ Hn. apply not_elem_of_dom in Hn. by rewrite Hk in Hn.
  - apply not_elem_of_dom in Hk. unfold commit. cbn [st_data]. rewrite dom_insert_L. split; [set_solver|split; [|done]].
    intros _. split; [done|set_solver].
Qed.

Lemma state_step_keeps st st' : state_step st st' -> dom (st_data st) ⊆ dom (st_data st').
Proof.
  intros [->|(k & v & ->)]%step_cases; [done|]. unfold commit. cbn [st_data]. rewrite dom_insert_L. set_solver.
Qed.

(** ** The key of a ticket *)

Lemma Split_at_byte c u v : Split c (u +:+ String c v) = Split c u ++ Split c v.
Proof.
  induction u as [|a u IH]; simpl; [by case_decide|].
  rewrite IH. case_decide; [done|]. pose proof (Split_not_nil c u). by destruct (Split c u).
Qed.

Lemma ValidString_ascii s : str_forall (byte_in 0 127) s = true -> ValidString s = true.
Proof. induction s as [|a s IH]; [done|]. cbn [str_forall ValidString]. intros [-> Hs]%andb_true_iff. by apply IH. Qed.

Lemma ValidString_app u v : ValidString u = true -> ValidString v = true -> ValidString (u +:+ v) = true.
Proof.
  intros Hu Hv. revert Hu. assert (forall n u, (String.length u <= n)%nat -> ValidString u = true -> ValidString (u +:+ v) = true) as H.
  { induction n as [|n IH]; intros [|a u1] Hl; [done|simpl in Hl; lia|done|].
    assert (forall w, (String.length w <= n)%nat -> ValidString w = true -> ValidString (w +:+ v) = true) as IHw by exact IH.
    simpl in *. destruct (byte_in 0 127 a); [apply IHw; lia|]. destruct u1 as [|b u2]; [done|]. simpl in *.
    destruct (byte_in 194 223 a); [intros [-> ?]%andb_true_iff; apply IHw; [lia|done]|].
    destruct u2 as [|c u3]; [done|]. simpl in *. destruct (byte_in 224 239 a).
    { intros [[-> ->]%andb_true_iff ?]%andb_true_iff. apply IHw; [lia|done]. }
    destruct u3 as [|d u4]; [done|]. simpl in *.
    intros [[[[-> ->]%andb_true_iff ->]%andb_true_iff ->]%andb_true_iff ?]%andb_true_iff. apply IHw; [lia|done]. }
  intros Hu. by apply (H (String.length u)).
Qed.

(** No traversal starts in a text without dots, or at the slash before it. *)
Lemma Contains_cons a s sub : Contains (String a s) sub = HasPrefix (String a s) sub || Contains s sub.
Proof. done. Qed.

Lemma append_nil (u : string) : "" +:+ u = u.
Proof. done. Qed.

Lemma Contains_no_dot t s : no_byte "."%char s = true -> Contains s (String "." t) = false.
Proof.
  induction s as [|a s IH]; [done|]. unfold no_byte. cbn [str_forall]. intros [Ha%negb_true_iff Hs]%andb_true_iff.
  rewrite Contains_cons HasPrefix_cons Ha. by apply IH.
Qed.

Lemma Contains_after_slash t q s : no_byte "."%char s = true ->
  Contains (q +:+ String "/" "") (String "." (String "." (String t ""))) = false ->
  Contains (q +:+ String "/" s) (String "." (String "." (String t ""))) = false.
Proof.
  intros Hs. pose proof (Contains_no_dot (String "." (String t "")) s Hs) as H0.
  induction q as [|a q IH].
  - intros _. by rewrite append_nil Contains_cons HasPrefix_cons H0.
  - rewrite !str_app_cons !Contains_cons. intros [Hp Hc]%orb_false_iff.
    rewrite (IH Hc) orb_false_r. etrans; [|exact Hp]. rewrite !HasPrefix_cons. f_equal.
    destruct q as [|b q]; [reflexivity|]. rewrite !str_app_cons !HasPrefix_cons. f_equal.
    destruct q as [|c q]; [rewrite !append_nil !HasPrefix_cons|rewrite !str_app_cons !HasPrefix_cons]; f_equal; [by destruct s|].
    unfold HasPrefix. by destruct (q +:+ _), (q +:+ _).
Qed.

(** The dots of a path component. *)
Definition dots (comp : string) : bool := bool_decide (comp = "." \/ comp = "..").

Lemma Split_no_dots c s : no_byte "."%char s = true -> existsb dots (Split c s) = false.
Proof.
  intros Hs. assert (Forall (fun x => no_byte "."%char x = true) (Split c s)) as Hf.
  { induction s as [|a s IH]; [by repeat constructor|]. unfold no_byte in Hs. cbn [str_forall] in Hs. apply andb_true_iff in Hs as [Ha Hs].
    specialize (IH Hs). cbn [Split]. destruct (decide (a = c)); [by constructor|].
    destruct (Split c s) as [|x xs]; [by repeat constructor; unfold no_byte; simpl; rewrite Ha|].
    apply Forall_cons in IH as [Hx Hxs]. constructor; [unfold no_byte; simpl; by rewrite Ha|done]. }
  induction Hf as [|x l Hx _ IH]; [done|]. cbn [existsb]. rewrite IH orb_false_r. apply bool_decide_eq_false_2. intros [->| ->]; done.
Qed.

(** A key space: a valid key that ends with a slash. *)
Definition key_space (keyPrefix : string) : Prop :=
  validateKey keyPrefix false = None /\ exists q, keyPrefix = q +:+ String "/" "".

Definition plain_text (s : string) : Prop :=
  str_forall (fun a => byte_in 32 127 a && negb (bool_decide (a = "."%char))) s = true.

Lemma str_forall_impl (P Q : ascii -> bool) s : (forall a, P a = true -> Q a = true) -> str_forall P s = true -> str_forall Q s = true.
Proof. intros H. induction s as [|a s IH]; [done|]. cbn [str_forall]. intros [Ha Hs]%andb_true_iff. by rewrite (H a Ha) IH. Qed.

(** What is appended to a key space is a key, unless it is too long. *)
Lemma key_space_keys keyPrefix s : key_space keyPrefix -> plain_text s ->
  len (keyPrefix +:+ s) <= maxKeyBytes -> validateKey (keyPrefix +:+ s) false = None.
Proof.
  intros [Hv [q ->]] Hs Hl. unfold validateKey in *. assert (forall u : string, q +:+ u = "" -> u = "") as He by by destruct q.
  destruct (decide (q +:+ String "/" "" = "")) as [E|_]; [by apply He in E|].
  rewrite str_app_assoc in Hl |- *. rewrite str_app_cons append_nil in Hl |- *.
  destruct (decide (q +:+ String "/" s = "")) as [E|_]; [by apply He in E|].
  destruct (maxKeyBytes <? len (q +:+ String "/" "")); [done|]. rewrite (proj2 (Z.ltb_ge _ _) Hl).
  destruct (ValidString (q +:+ String "/" "")) eqn:Hu; [|done]. cbn [negb] in Hv.
  destruct (str_forall _ (q +:+ String "/" "")) eqn:Hc; [|done]. cbn [negb] in Hv.
  destruct (Contains (q +:+ String "/" "") "../") eqn:Ht1; [done|].
  destruct (Contains (q +:+ String "/" "") backslash_dots) eqn:Ht2; [done|]. cbn [orb] in Hv.
  destruct (existsb _ (Split "/" (q +:+ String "/" ""))) eqn:Hd; [done|].
  assert (no_byte "."%char s = true) as Hn by (eapply str_forall_impl, Hs; intros a; by intros [_ ->]%andb_true_iff).
  assert (q +:+ String "/" s = (q +:+ String "/" "") +:+ s) as Ek by by rewrite str_app_assoc.
  assert (ValidString (q +:+ String "/" s) = true) as ->.
  { rewrite Ek. apply ValidString_app; [exact Hu|]. apply ValidString_ascii. eapply str_forall_impl, Hs. unfold byte_in.
    intros a Ha. bool_to_prop. apply andb_true_iff. split; apply Nat.leb_le; [lia|by apply Nat.leb_le]. }
  assert (str_forall (fun c => negb (nat_of_ascii c <? 32)%nat) (q +:+ String "/" s) = true) as ->.
  { rewrite Ek str_forall_app Hc. eapply str_forall_impl, Hs. unfold byte_in. intros a Ha. bool_to_prop.
    apply negb_true_iff, Nat.ltb_ge. by apply Nat.leb_le. }
  assert (backslash_dots = String "." (String "." (String (byte_of 92) ""))) as Eb by reflexivity. rewrite Eb in Ht2 |- *.
  assert (Contains (q +:+ String "/" s) "../" = false) as -> by by apply (Contains_after_slash "/"%char).
  rewrite (Contains_after_slash (byte_of 92) q s Hn Ht2). cbn [negb orb].
  rewrite Split_at_byte existsb_app. rewrite Split_at_byte existsb_app in Hd. apply orb_false_iff in Hd as [Hd _].
  change (fun comp => bool_decide (comp = "." \/ comp = "..")) with dots in *. by rewrite Hd Split_no_dots.
Qed.

Lemma Encode_plain s : plain_text (EncodeToString s).
Proof. apply Encode_forall; [|done]. intros n Hn. do 64 (destruct n as [|n]; [by vm_compute|]). lia. Qed.

Lemma ticket_key_valid keyPrefix sig : key_space keyPrefix -> len keyPrefix <= 400 -> len sig = 32 ->
  validateKey (keyPrefix +:+ EncodeToString sig) false = None.
Proof.
  intros Hk Hp Hs. apply key_space_keys; [done|apply Encode_plain|]. unfold len, maxKeyBytes in *. rewrite str_length_app Encode_length.
  replace (String.length sig) with 32%nat by lia. rewrite Nat2Z.inj_add. change (Z.of_nat (4 * ((32 + 2) / 3))) with 44. lia.
Qed.

(** ** Producers that share the plugin

    A producer holds the key and nothing else: it may restart, and there may be many. *)
Section Redeem.
Context {Bytes : Type}.
Context (json_Marshal : wireTicket -> Bytes) (json_Unmarshal : Bytes -> result wireTicket).
Context (hmac_sha256 : string -> string -> string).

Definition m_Mint {S} (m : Minter S) (now : Z) (read : result string) (streamID caller tenant : string) (ttl : Z) : result Bytes :=
  Minter_Mint json_Marshal hmac_sha256 (m_key m) now (newNonce read) streamID caller tenant ttl.

Definition m_Validate {S} `{SingleUseStore S} (m : Minter S) (a : attempt (Bytes := Bytes)) : option error * Minter S :=
  let '(e, s) := Minter_Validate json_Unmarshal hmac_sha256 EncodeToString (m_key m) (at_now a) (m_store m)
                   (at_ticket a) (at_stream a) (at_caller a) (at_tenant a) in
  (e, NewMinterWithStore (m_key m) s).

Context (key keyPrefix : string).

Definition producer (st : store) (d : delivery) : Minter (CASStore (store * delivery)) :=
  NewMinterWithStore key (NewCASStore (st, d) keyPrefix).
Definition store_behind (m : Minter (CASStore (store * delivery))) : store := (cas (m_store m)).1.

Record redemptions := mkRedemptions { rd_store : store; rd_log : list (attempt (Bytes := Bytes) * option error) }.

Inductive redeem_step : redemptions -> redemptions -> Prop :=
  | redeem_try w a d e m :
      m_Validate (producer (rd_store w) d) a = (e, m) ->
      redeem_step w (mkRedemptions (store_behind m) (rd_log w ++ [(a, e)]))
  | redeem_other w st :
      state_step (rd_store w) st -> redeem_step w (mkRedemptions st (rd_log w)).

(** The ticket of an attempt that was accepted. *)
Definition redeemed (en : attempt (Bytes := Bytes) * option error) : option wireTicket :=
  match en.2, json_Unmarshal (at_ticket en.1) with None, Ok wt => Some wt | _, _ => None end.

Definition genuine (en : attempt (Bytes := Bytes) * option error) : Prop :=
  en.2 = None -> exists wt, json_Unmarshal (at_ticket en.1) = Ok wt /\ Sig wt = Minter_sign hmac_sha256 key (Claims wt) /\
    toUnixMilli (at_now en.1) <= c_ExpiresUnixMs (Claims wt) /\
    c_StreamID (Claims wt) = at_stream en.1 /\ c_CallerPlugin (Claims wt) = at_caller en.1 /\ c_Tenant (Claims wt) = at_tenant en.1.

Definition ticket_key (wt : wireTicket) : string := keyPrefix +:+ EncodeToString (Sig wt).

Lemma Consume_effect st d id r s' :
  Consume (NewCASStore (st, d) keyPrefix) id = (r, s') ->
  dom (st_data st) ⊆ dom (st_data (cas s').1) /\
  (r = Ok true -> keyPrefix +:+ id ∉ dom (st_data st) /\ keyPrefix +:+ id ∈ dom (st_data (cas s').1)) /\
  (d = Delivered -> validateKey (keyPrefix +:+ id) false = None -> keyPrefix +:+ id ∉ dom (st_data st) -> r = Ok true).
Proof.
  unfold Consume, CASStore_SingleUse, CASStore_Consume, NewCASStore, PutIfAbsent, statecas_CAS, statecas_PutIfAbsent. cbn [cas ArrowTicket.keyPrefix].
  destruct (stateServer_CreateIfAbsent st _ "1") as [o st'] eqn:Hc. apply create_effect in Hc as (Hd & Ht & Hv).
  destruct d as [|applied e]; intros [= <- <-]; cbn [cas fst]; [by split_and!|].
  split; [by destruct applied|split; [|done]]. cbn [CAS_response]. by case_decide.
Qed.

Lemma Validate_effect st d a e m :
  m_Validate (producer st d) a = (e, m) ->
  dom (st_data st) ⊆ dom (st_data (store_behind m)) /\ genuine (a, e) /\
  forall wt, redeemed (a, e) = Some wt -> ticket_key wt ∉ dom (st_data st) /\ ticket_key wt ∈ dom (st_data (store_behind m)).
Proof.
  unfold m_Validate, producer. cbn [m_key m_store NewMinterWithStore].
  pose proof (Validate_store json_Unmarshal hmac_sha256 EncodeToString key (at_now a) (NewCASStore (st, d) keyPrefix)
    (at_ticket a) (at_stream a) (at_caller a) (at_tenant a)) as Hs.
  pose proof (Validate_accepts json_Unmarshal hmac_sha256 EncodeToString key (at_now a) (NewCASStore (st, d) keyPrefix)
    (at_ticket a) (at_stream a) (at_caller a) (at_tenant a)) as Ha.
  destruct (Minter_Validate _ _ _ _ _ _ _ _ _ _) as [e' s]. cbn [fst snd] in *. intros [= <- <-]. unfold store_behind. cbn [m_store].
  split; [|split].
  - destruct Hs as [->|[id Hs]]; [done|]. destruct (Consume (NewCASStore _ _) id) as [r s1] eqn:Hc. cbn in Hs. subst s1.
    by apply Consume_effect in Hc as (Hd & _).
  - intros He. cbn in He. destruct (Ha He) as (wt & ? & ? & ? & ? & ? & ? & _). exists wt. by split_and!.
  - unfold redeemed. cbn [fst snd]. intros wt. destruct e' as [er|]; [done|]. destruct (Ha eq_refl) as (wt' & -> & _ & _ & _ & _ & _ & Hr & Hs').
    intros [= <-]. destruct (Consume (NewCASStore _ _) _) as [r s1] eqn:Hc. cbn in Hr, Hs'. subst r s1.
    apply Consume_effect in Hc as (_ & Ht & _). by apply Ht.
Qed.

(** Every ticket that was redeemed has its key in the plugin. *)
Definition redeem_ok (w : redemptions) : Prop :=
  Forall genuine (rd_log w) /\ NoDup (ticket_key <$> omap redeemed (rd_log w)) /\
  Forall (fun wt => ticket_key wt ∈ dom (st_data (rd_store w))) (omap redeemed (rd_log w)).

Lemma redeem_step_ok w w' : redeem_step w w' -> redeem_ok w -> redeem_ok w'.
Proof.
  intros [w1 a d e m Hv|w1 st Hs] (Hg & Hn & Hf); unfold redeem_ok; cbn [rd_store rd_log].
  - apply Validate_effect in Hv as (Hd & Hge & Hr). assert (Forall (fun wt => ticket_key wt ∈ dom (st_data (store_behind m))) (omap redeemed (rd_log w1))) as Hf'.
    { eapply Forall_impl; [exact Hf|]. intros wt. apply Hd. }
    rewrite omap_app. split; [apply Forall_app; by repeat constructor|]. cbn [omap list_omap].
    destruct (redeemed (a, e)) as [wt|] eqn:He; [|by rewrite app_nil_r]. destruct (Hr wt eq_refl) as [Hout Hin]. split.
    + rewrite fmap_app. apply NoDup_app. split; [done|split; [|apply NoDup_singleton]].
      intros k (wt' & -> & Hwt)%list_elem_of_fmap Hk%list_elem_of_singleton. apply Hout. rewrite -Hk. rewrite Forall_forall in Hf. by apply Hf.
    + apply Forall_app. split; [done|by repeat constructor].
  - split; [done|split; [done|]]. eapply Forall_impl; [exact Hf|]. intros wt. by apply state_step_keeps.
Qed.

Lemma redeem_steps_keep w w' : rtc redeem_step w w' -> dom (st_data (rd_store w)) ⊆ dom (st_data (rd_store w')).
Proof.
  induction 1 as [|w1 w2 w3 Hs _ IH]; [done|]. etrans; [|exact IH].
  destruct Hs as [w a d e m Hv|w st Hs]; [by apply Validate_effect in Hv as (Hd & _)|by apply state_step_keeps].
Qed.

Lemma redeemed_once w : redeem_ok w ->
  NoDup (Sig <$> omap redeemed (rd_log w)) /\ NoDup (Claims <$> omap redeemed (rd_log w)).
Proof.
  intros (Hg & Hn & _). split.
  - apply (NoDup_fmap_1 (fun sig => keyPrefix +:+ EncodeToString sig)). by rewrite -list_fmap_compose.
  - apply (NoDup_fmap_1 (fun c => keyPrefix +:+ EncodeToString (Minter_sign hmac_sha256 key c))). rewrite -list_fmap_compose.
    erewrite list_fmap_ext; [exact Hn|]. intros i wt Hi. unfold ticket_key. cbn.
    assert (wt ∈ omap redeemed (rd_log w)) as (en & Hen & Hr)%list_elem_of_omap by by eapply list_elem_of_lookup_2.
    rewrite Forall_forall in Hg. unfold redeemed in Hr. destruct en as [a [er|]]; [done|]. destruct (Hg _ Hen eq_refl) as (wt' & Hwt & Hs & _).
    cbn in Hr, Hwt. rewrite Hwt in Hr. injection Hr as <-. by rewrite Hs.
Qed.

(** A ticket of the key space whose key is not in the plugin is accepted, when it is good. *)
Lemma good_ticket_accepted st a wt :
  json_Unmarshal (at_ticket a) = Ok wt -> Sig wt = Minter_sign hmac_sha256 key (Claims wt) ->
  toUnixMilli (at_now a) <= c_ExpiresUnixMs (Claims wt) ->
  c_StreamID (Claims wt) = at_stream a -> c_CallerPlugin (Claims wt) = at_caller a -> c_Tenant (Claims wt) = at_tenant a ->
  validateKey (ticket_key wt) false = None -> ticket_key wt ∉ dom (st_data st) ->
  exists m, m_Validate (producer st Delivered) a = (None, m).
Proof.
  intros Hj Hs Ht H1 H2 H3 Hv Hn. unfold m_Validate, Minter_Validate, producer. cbn [m_key m_store NewMinterWithStore].
  rewrite Hj Hs bool_decide_eq_true_2 // (proj2 (Z.ltb_ge _ _) Ht) !bool_decide_eq_true_2 //. cbn [negb orb]. rewrite -Hs.
  destruct (Consume (NewCASStore (st, Delivered) keyPrefix) (EncodeToString (Sig wt))) as [r s] eqn:Hc.
  pose proof (Consume_effect _ _ _ _ _ Hc) as (_ & _ & Hr). rewrite (Hr eq_refl Hv Hn). by eexists.
Qed.

(** C9: Tickets over the state plugin.  Any number of producers that share a key and a key space of
    the plugin validate tickets, calls and answers get lost, producers restart, and other
    clients write what they like: no two accepted attempts present the same claims or the same
    signature, in whatever bytes, and each accepted ticket was signed under the key, had not expired and was
    redeemed for the stream, the caller and the tenant that it is bound to.  And tickets work:
    one that is minted now and whose key is not in the plugin is accepted, within its
    lifetime, by the first producer whose call is answered, and then by none. *)
Theorem ticket_redeemed_once (w0 w : redemptions) :
  rd_log w0 = [] -> rtc redeem_step w0 w ->
  NoDup (Sig <$> omap redeemed (rd_log w)) /\ NoDup (Claims <$> omap redeemed (rd_log w)) /\ Forall genuine (rd_log w) /\
  forall read now ttl streamID caller tenant tk a,
    m_Mint (producer (rd_store w) Delivered) now (Ok read) streamID caller tenant ttl = Ok tk ->
    let wt := mkTicket (mkClaims streamID caller tenant (toUnixMilli (now + ttl)) (hex_EncodeToString read))
                (hmac_sha256 key (sign_payload (mkClaims streamID caller tenant (toUnixMilli (now + ttl)) (hex_EncodeToString read)))) in
    json_Unmarshal (json_Marshal wt) = Ok wt -> len (Sig wt) = 32 -> key_space keyPrefix -> len keyPrefix <= 400 ->
    ticket_key wt ∉ dom (st_data (rd_store w)) ->
    at_ticket a = tk -> at_stream a = streamID -> at_caller a = caller -> at_tenant a = tenant -> toUnixMilli (at_now a) <= toUnixMilli (now + ttl) ->
    exists m, m_Validate (producer (rd_store w) Delivered) a = (None, m) /\
      forall w', rtc redeem_step (mkRedemptions (store_behind m) (rd_log w ++ [(a, None)])) w' ->
        forall a' d e m', at_ticket a' = tk -> m_Validate (producer (rd_store w') d) a' = (e, m') -> e <> None.
Proof.
  intros H0 Hrun. assert (redeem_ok w) as Hok.
  { assert (redeem_ok w0) as Hi by (unfold redeem_ok; rewrite H0; split_and!; constructor).
    clear H0. induction Hrun as [|w1 w2 w3 Hs _ IH]; [done|]. by eapply IH, redeem_step_ok. }
  destruct (redeemed_once w Hok) as [HnS HnC]. destruct Hok as (Hg & _ & _). split_and!; [done..|].
  intros read now ttl streamID caller tenant tk a [= <-] wt Hj Hl Hks Hkl Hout Ha <- <- <- Ht.
  assert (json_Unmarshal (at_ticket a) = Ok wt) as Hja by by rewrite Ha.
  destruct (good_ticket_accepted (rd_store w) a wt) as [m Hm]; [done..|by apply ticket_key_valid|done|].
  exists m. split; [done|]. intros w' Hrun' a' d e m' Ha' Hv' ->.
  pose proof (Validate_effect _ _ _ _ _ Hm) as (_ & _ & Hin). pose proof (Validate_effect _ _ _ _ _ Hv') as (_ & _ & Hno).
  assert (redeemed (a', None) = Some wt) as Hr' by (unfold redeemed; cbn; by rewrite Ha' -Ha Hja).
  assert (redeemed (a, None) = Some wt) as Hr by (unfold redeemed; cbn; by rewrite Hja).
  apply (Hno wt Hr'). apply (redeem_steps_keep _ _ Hrun'). by apply (Hin wt Hr).
Qed.

(** An executable run: attempts, each with the fate of its call. *)
Fixpoint redeem_all (w : redemptions) (l : list (attempt (Bytes := Bytes) * delivery)) : redemptions :=
  match l with
  | [] => w
  | (a, d) :: l =>
      let '(e, m) := m_Validate (producer (rd_store w) d) a in
      redeem_all (mkRedemptions (store_behind m) (rd_log w ++ [(a, e)])) l
  end.

Lemma redeem_all_steps w l : rtc redeem_step w (redeem_all w l).
Proof.
  revert w. induction l as [|[a d] l IH]; intros w; [done|]. cbn [redeem_all].
  destruct (m_Validate _ a) as [e m] eqn:Hv. eapply rtc_l; [by eapply redeem_try|apply IH].
Qed.
End Redeem.

(** ** A replay after a restart

    A producer whose store is its own memory accepts a ticket again when it restarts; with
    the plugin behind it, it does not. *)
Definition toy_mac (key msg : string) : string := String.substring 0 32 (key +:+ msg +:+ "0123456789abcdef0123456789abcdef").
Definition toy_ticket (read : string) : wireTicket :=
  let c := mkClaims "stream" "cli" "acme" 6 (hex_EncodeToString read) in mkTicket c (Minter_sign toy_mac "key" c).
Definition toy_attempt (read : string) (now : Z) : attempt := mkAttempt now (toy_ticket read) "stream" "cli" "acme".
Definition toy_Validate {S} `{SingleUseStore S} : Minter S -> attempt -> option error * Minter S := m_Validate Ok toy_mac.

Theorem memory_forgets :
  (toy_Validate (NewMinter "key") (toy_attempt "a" 1)).1 = None /\
  (toy_Validate (toy_Validate (NewMinter "key") (toy_attempt "a" 1)).2 (toy_attempt "a" 2)).1 = Some ErrReplay /\
  (toy_Validate (NewMinter "key") (toy_attempt "a" 2)).1 = None.
Proof. split_and!; evaluated. Qed.

Definition unanswered : error := Status DeadlineExceeded "context deadline exceeded" [].
Definition toy_run : redemptions :=
  redeem_all Ok toy_mac "key" "tickets/" (mkRedemptions newStore [])
    [(toy_attempt "a" 1, Lost false unanswered); (toy_attempt "a" 2, Delivered); (toy_attempt "a" 3, Delivered);
     (toy_attempt "b" 4, Lost true unanswered); (toy_attempt "b" 5, Delivered)].

(** The ticket whose call was lost on the way back is spent: nobody was let in with it. *)
Example toy_run_outcomes : snd <$> rd_log toy_run =
  [Some (Wrap "arrowticket: single-use store: %w" [] unanswered); None; Some ErrReplay;
   Some (Wrap "arrowticket: single-use store: %w" [] unanswered); Some ErrReplay].
Proof. evaluated. Qed.

Lemma ticket_redeemed_once_witness :
  length (omap (redeemed Ok) (rd_log toy_run)) = 1%nat /\ NoDup (Sig <$> omap (redeemed Ok) (rd_log toy_run)) /\
  exists m, m_Validate Ok toy_mac (producer "key" "tickets/" (rd_store toy_run) Delivered) (toy_attempt "c" 6) = (None, m).
Proof.
  destruct (ticket_redeemed_once id Ok toy_mac "key" "tickets/" (mkRedemptions newStore []) toy_run eq_refl
    (redeem_all_steps _ _ _ _ _ _)) as (HS & _ & _ & Hlive).
  split; [evaluated|split; [exact HS|]].
  destruct (Hlive "c" 1000000 5000000 "stream" "cli" "acme" (toy_ticket "c") (toy_attempt "c" 6)) as (m & Hm & _).
  - evaluated.
  - evaluated.
  - evaluated.
  - split; [evaluated|]. exists "tickets". reflexivity.
  - vm_compute; discriminate.
  - apply not_elem_of_dom. evaluated.
  - reflexivity.
  - reflexivity.
  - reflexivity.
  - reflexivity.
  - vm_compute; discriminate.
  - exists m. exact Hm.
Defined.
