(* ===== verification/PluginTool.v ===== *)
(** Testing, packing and publishing plugins (src/core/cmd/rat/plugin.go): the launch gate, the
    manifest stamped into an image, and what is sent to a registry.  Podman is the host of DeployRuntime; printing is left out. *)
From S2P Require Import Prelude Paths Manifest Reconciler DeployRuntime Supervisor Plane Validate Base64 Lifecycle.

(** ** The launch gate *)

Section Gate.
Context (linked : list Rpc).
(** Dialling an endpoint, and one call of a method on it. *)
Context (grpc_NewClient : string -> option error).
Context (conn_Invoke : string -> string -> option error).

Definition probe_window : Z := 30 * (1000 * milli).
Definition probe_step : Z := 300 * milli.

Fixpoint probe_loop (fuel k : nat) (clock : nat -> Z) (deadline : Z) (rt : Podman) (id : string) : option (bool * Podman) :=
  match fuel with
  | O => None
  | S fuel =>
      if clock (S k) <? deadline then
        match Podman_Healthcheck rt id with
        | (Ok HEALTHY, rt) => Some (true, rt)
        | (_, rt) => probe_loop fuel (S k) clock deadline rt id
        end
      else Some (false, rt)
  end.

(** A capability no linked axis declares is skipped; only an unimplemented method fails. *)
Definition unserved (ep cap : string) : bool :=
  match resolveMethod linked cap with
  | Err _ => false
  | Ok rpc => match conn_Invoke ep (rpc_Path rpc) with
              | Some e => bool_decide (status_Code e = Unimplemented)
              | None => false
              end
  end.

Definition serves_all (m : Manifest) (ep : string) : option error :=
  first_error ((fun cap => if unserved ep cap
                           then Some (Errorf "✗ %s declares %s but does NOT serve it (Unimplemented)" [name_of m; cap])
                           else None) <$> Manifest_ProvidesCaps m).

Definition i9_spec (img : string) : LaunchSpec :=
  mkLaunch img (match isolationProfile "i9" with Ok i => Some i | Err _ => None end) [].

(** The instance is terminated whatever the outcome. *)
Definition launchAndProbe (clock : nat -> Z) (h : Host) (img : string) (m : Manifest) : option (option error * Host) :=
  let '(lr, rt) := Podman_Launch (NewPodman h) (name_of m) (i9_spec img) in
  match lr with
  | Err e => Some (Some (Wrap "launch under I9: %w" [] e), host rt)
  | Ok (id, ep) =>
      '(healthy, rt) ← probe_loop (wait_fuel probe_window probe_step) 0 clock (clock 0%nat + probe_window) rt id;
      let res :=
        if negb healthy then Some (Errorf "✗ %s never became healthy under the I9 profile" [name_of m])
        else match grpc_NewClient ep with
             | Some e => Some e
             | None => serves_all m ep
             end in
      Some (res, host (Podman_Terminate rt id).2)
  end.

(** ** Manifests stamped into images *)

Definition manifestLabel : string := "dev.rat.manifest.v1.b64".
Definition inspect_label (image : string) : list string :=
  ["inspect"; "--format"; "{{ index .Config.Labels " +:+ dq +:+ manifestLabel +:+ dq +:+ " }}"; image].

Context (yaml_Unmarshal : string -> result Manifest).
Context (os_ReadFile : string -> result string).
(** Making a temporary directory, and writing a file with its content. *)
Context (mkdirTemp : result string) (writeFile : string -> string -> option error).

(** Loading a file just written. *)
Definition load_written (p raw : string) : result Manifest := Load yaml_Unmarshal (fun _ => Ok raw) p.

Definition readStampedManifest (h : Host) (image : string) : result (Manifest * string) * Host :=
  let '((got, err), h) := podman h (inspect_label image) in
  (match err with
   | Some e => Err (Wrap "inspect %s: %w" [image] e)
   | None =>
       let b64 := TrimSpace got in
       if bool_decide (b64 = "") || bool_decide (b64 = "<no value>") then
         Err (Errorf "%s has no stamped manifest — run `rat plugin pack` first, or pass --manifest" [image])
       else match DecodeString b64 with
            | Err e => Err (Wrap "decode manifest label: %w" [] e)
            | Ok raw =>
                let? td := mkdirTemp in
                let p := filepath_Join [td; "manifest.yaml"] in
                match writeFile p raw with
                | Some e => Err e
                | None => let? m := load_written p raw in Ok (m, raw)
                end
            end
   end, h).

Definition manifestName (path : string) : result string :=
  let? m := Load yaml_Unmarshal os_ReadFile path in Ok (name_of m).

(** ** Registries *)

Definition isLocalRegistry (reg : string) : bool := HasPrefix reg "localhost" || HasPrefix reg "127.0.0.1".

Definition ensureImagePresent (h : Host) (ref : string) : option error * Host :=
  let '((_, err), h) := podman h ["image"; "exists"; ref] in
  match err with
  | None => (None, h)
  | Some _ =>
      let '((b, err), h) := podman h (["pull"] ++ (if isLocalRegistry ref then ["--tls-verify=false"] else []) ++ [ref]) in
      ((fun e => Wrap "pull %s: %v\n%s" [ref; tailString b 500] e) <$> err, h)
  end.

Definition push_args (remote : string) (tls : bool) : list string :=
  ["push"] ++ (if tls then [] else ["--tls-verify=false"]) ++ [remote].

Definition pushImage (h : Host) (local remote : string) (tls : bool) : option error * Host :=
  let '((b, err), h) := podman h ["tag"; local; remote] in
  match err with
  | Some e => (Some (Wrap "tag %s %s: %v\n%s" [local; remote; b] e), h)
  | None =>
      let '((b, err), h) := podman h (push_args remote tls) in
      ((fun e => Wrap "push %s: %v\n%s" [remote; tailString b 800] e) <$> err, h)
  end.

(** ** The verbs, after their flags *)

Definition usage_publish : error :=
  Errorf "usage: rat plugin publish --image <verified image> --registry <ghcr.io/owner|localhost:5000> [--latest] [--manifest <path>]" [].

Definition remote_ref (registry : string) (m : Manifest) (tag : string) : string :=
  TrimSuffix registry "/" +:+ "/" +:+ name_of m +:+ ":" +:+ tag.

Definition runPluginPublish (clock : nat -> Z) (h : Host) (image registry manifestPath : string) (latest insecure : bool) :
    option (option error * Host) :=
  if bool_decide (image = "") || bool_decide (registry = "") then Some (Some usage_publish, h)
  else
    let '(mr, h) := if decide (manifestPath = "") then let '(r, h) := readStampedManifest h image in (let? mr := r in Ok mr.1, h)
                    else (Load yaml_Unmarshal os_ReadFile manifestPath, h) in
    match mr with
    | Err e => Some (Some e, h)
    | Ok m =>
        '(probed, h) ← launchAndProbe clock h image m;
        match probed with
        | Some e => Some (Some e, h)
        | None =>
            let tls := negb insecure && negb (isLocalRegistry (TrimSuffix registry "/")) in
            match pushImage h image (remote_ref registry m (md_Version (Meta m))) tls with
            | (Some e, h) => Some (Some e, h)
            | (None, h) => Some (if latest then pushImage h image (remote_ref registry m "latest") tls else (None, h))
            end
        end
    end.

(** A Dockerfile that adds the manifest to an existing image. *)
Definition stamp_dockerfile (from b64 : string) : string :=
  "FROM " +:+ from +:+ newline +:+ "LABEL " +:+ manifestLabel +:+ "=" +:+ b64 +:+ newline.

(** The build of [rat plugin pack]: from an existing image, in a temporary directory, or from
    the plugin's own directory. *)
Definition build_stamped (h : Host) (from finalTag dir b64 : string) : option error * Host :=
  let built h args :=
    let '((b, err), h) := podman h args in
    ((fun e => Wrap "podman build: %v\n%s" [tailString b 1500] e) <$> err, h) in
  if decide (from = "") then built h ["build"; "--label"; manifestLabel +:+ "=" +:+ b64; "-t"; finalTag; dir]
  else match mkdirTemp with
       | Err e => (Some e, h)
       | Ok td => match writeFile (filepath_Join [td; "Dockerfile"]) (stamp_dockerfile from b64) with
                  | Some e => (Some e, h)
                  | None => built h ["build"; "-t"; finalTag; td]
                  end
       end.

Definition final_tag (tag : string) (m : Manifest) : string :=
  if decide (tag = "") then "localhost/rat/" +:+ name_of m +:+ ":" +:+ md_Version (Meta m) else tag.

Definition runPluginPack (clock : nat -> Z) (h : Host) (from manifestPath tag dir : string) : option (option error * Host) :=
  let mp := if decide (manifestPath = "") then filepath_Join [dir; "manifest.yaml"] else manifestPath in
  match Load yaml_Unmarshal os_ReadFile mp with
  | Err e => Some (Some e, h)
  | Ok m =>
      if decide (Kind m ∈ knownKinds) then
        match validateAuthored m with
        | Some e => Some (Some e, h)
        | None =>
            match os_ReadFile mp with
            | Err e => Some (Some e, h)
            | Ok raw =>
                let finalTag := final_tag tag m in
                let b64 := EncodeToString raw in
                match build_stamped h from finalTag dir b64 with
                | (Some e, h) => Some (Some e, h)
                | (None, h) =>
                    '(probed, h) ← launchAndProbe clock h finalTag m;
                    match probed with
                    | Some e => Some (Some e, h)
                    | None =>
                        let '((got, err), h) := podman h (inspect_label finalTag) in
                        Some (match err with
                              | Some _ => Some (Errorf "pack: manifest label not readable back from %s" [finalTag])
                              | None => if decide (TrimSpace got = b64) then None
                                        else Some (Errorf "pack: manifest label not readable back from %s" [finalTag])
                              end, h)
                    end
                end
            end
        end
      else Some (Some (Errorf "pack: unknown kind %q" [Kind m]), h)
  end.

Definition runPluginTest (clock : nat -> Z) (h : Host) (image manifestPath dir : string) : option (option error * Host) :=
  let mp := if decide (manifestPath = "") then filepath_Join [dir; "manifest.yaml"] else manifestPath in
  match Load yaml_Unmarshal os_ReadFile mp with
  | Err e => Some (Some e, h)
  | Ok m =>
      let img := if decide (image = "") then "localhost/rat-plugin-test/" +:+ name_of m +:+ ":test" else image in
      let '(built, h) :=
        if decide (image = "") then
          let '((b, err), h) := podman h ["build"; "-t"; img; dir] in
          ((fun e => Wrap "podman build: %v\n%s" [tailString b 1500] e) <$> err, h)
        else (None, h) in
      match built with
      | Some e => Some (Some e, h)
      | None => launchAndProbe clock h img m
      end
  end.

(** ** The gate holds *)

Lemma probe_loop_ends clock rt id fuel k :
  ticks probe_step clock -> probe_window < probe_step * Z.of_nat (k + fuel - 1) -> fuel <> 0%nat ->
  is_Some (probe_loop fuel k clock (clock 0%nat + probe_window) rt id).
Proof.
  intros Hc. revert k rt. induction fuel as [|fuel IH]; intros k rt Hlt Hne; [done|]. cbn [probe_loop].
  destruct (Z.ltb_spec (clock (S k)) (clock 0%nat + probe_window)) as [Hk|Hk]; [|by eexists].
  assert (forall rt1, is_Some (probe_loop fuel (S k) clock (clock 0%nat + probe_window) rt1 id)) as Hnext.
  { intros rt1. specialize (Hc k). apply IH; [lia|]. intros ->. replace (k + 1 - 1)%nat with k in Hlt by lia.
    unfold probe_step, milli in *. lia. }
  destruct (Podman_Healthcheck rt id) as [[[]|e] rt1]; try apply Hnext. by eexists.
Qed.

(** Asking podman anything changes neither what it answers nor whether an endpoint accepts. *)
Definition same_answers (h h' : Host) : Prop := cli h' = cli h /\ accepts h' = accepts h.

Lemma podman_same h args : same_answers h (podman h args).2.
Proof. done. Qed.

Lemma healthcheck_same r id :
  let r' := (Podman_Healthcheck r id).2 in
  same_answers (host r) (host r') /\ instances r' = instances r /\ host_le "" (host r) (host r').
Proof.
  unfold Podman_Healthcheck. destruct (instances r !! id) as [inst|]; [|by split_and!].
  unfold Podman_containerRunning, podman, endpointAccepts. cbn [fst snd].
  assert (host_le "" (host r) (podman (host r) ["inspect"; "--format"; "{{.State.Running}}"; containerID inst]).2) as Hle.
  { apply podman_le, inspect_cmd. }
  destruct (cli _ _ _) as [out [e|]]; cbn [fst snd]; [by split_and!|]. by destruct (bool_decide _); split_and!.
Qed.

(** A container is up: podman said it runs, and its endpoint accepted a connection. *)
Definition up_at (h : Host) (j : nat) (cid ep : string) : Prop :=
  exists t n, cli h j ["inspect"; "--format"; "{{.State.Running}}"; cid] = (t, None) /\ TrimSpace t = "true" /\
    accepts h n ep = true.

Lemma healthcheck_up r id inst r' :
  instances r !! id = Some inst -> Podman_Healthcheck r id = (Ok HEALTHY, r') ->
  up_at (host r) (length (cli_log (host r))) (containerID inst) (pi_endpoint inst) /\
  cli_log (host r') = cli_log (host r) ++ [["inspect"; "--format"; "{{.State.Running}}"; containerID inst]].
Proof.
  unfold Podman_Healthcheck. intros ->. unfold Podman_containerRunning, podman, endpointAccepts. cbn [fst snd].
  destruct (cli _ _ _) as [out [e|]] eqn:Ec; cbn [fst snd]; [done|].
  destruct (bool_decide (TrimSpace out = "true")) eqn:Et; [|done]. apply bool_decide_eq_true in Et.
  cbn [accepts probes]. destruct (accepts (host r) _ _) eqn:Ea; [|done]. intros [= <-].
  split; [|done]. by exists out, (probes (host r)).
Qed.

(** A window that ends healthy has seen the container up. *)
Lemma probe_loop_healthy clock dl id inst fuel : forall k rt rt',
  instances rt !! id = Some inst -> probe_loop fuel k clock dl rt id = Some (true, rt') ->
  exists j, (length (cli_log (host rt)) <= j)%nat /\
    cli_log (host rt') !! j = Some ["inspect"; "--format"; "{{.State.Running}}"; containerID inst] /\
    up_at (host rt) j (containerID inst) (pi_endpoint inst).
Proof.
  induction fuel as [|fuel IH]; intros k rt rt' Hi; cbn [probe_loop]; [done|]. case_match; [|done].
  destruct (healthcheck_same rt id) as ([Hc Ha] & Hin & (added & Hl & _)).
  destruct (Podman_Healthcheck rt id) as [st rt1] eqn:Eh. cbn [snd] in *.
  assert (probe_loop fuel (S k) clock dl rt1 id = Some (true, rt') ->
    exists j, (length (cli_log (host rt)) <= j)%nat /\
      cli_log (host rt') !! j = Some ["inspect"; "--format"; "{{.State.Running}}"; containerID inst] /\
      up_at (host rt) j (containerID inst) (pi_endpoint inst)) as Hnext.
  { intros E. apply IH in E as (j & Hj & Hlog & t & n & E1 & E2 & E3); [|by rewrite Hin].
    exists j. split; [rewrite Hl length_app in Hj; lia|]. split; [done|]. exists t, n. by rewrite -Hc -Ha. }
  destruct st as [[]|e]; try exact Hnext. intros [= <-]. destruct (healthcheck_up _ _ _ _ Hi Eh) as [Hu Hlog].
  exists (length (cli_log (host rt))). split; [lia|]. split; [|done]. rewrite Hlog. by apply list_lookup_middle.
Qed.

Lemma probe_loop_frame clock dl id fuel : forall k rt b rt',
  probe_loop fuel k clock dl rt id = Some (b, rt') ->
  same_answers (host rt) (host rt') /\ instances rt' = instances rt /\ host_le "" (host rt) (host rt').
Proof.
  induction fuel as [|fuel IH]; intros k rt b rt'; cbn [probe_loop]; [done|]. case_match; [|by intros [= _ <-]].
  destruct (healthcheck_same rt id) as ([Hc Ha] & Hin & Hl).
  destruct (Podman_Healthcheck rt id) as [st rt1]. cbn [snd] in *.
  assert (probe_loop fuel (S k) clock dl rt1 id = Some (b, rt') ->
    same_answers (host rt) (host rt') /\ instances rt' = instances rt /\ host_le "" (host rt) (host rt')) as Hnext.
  { intros E. apply IH in E as ([Hc' Ha'] & Hin' & Hl'). split_and!; [|by rewrite Hin'|by etrans].
    split; [by rewrite Hc'|by rewrite Ha']. }
  destruct st as [[]|e]; try exact Hnext. by intros [= _ <-].
Qed.

(** A launch under the profile: one isolated run of the image, and the question of its port. *)
Definition launched (h : Host) (img cid ep : string) (args : list string) : Prop :=
  exists out port, head args = Some "run" /\ isolated "" args /\ last args = Some img /\
    cli h (length (cli_log h)) args = (out, None) /\ cid = TrimSpace out /\
    cli h (S (length (cli_log h))) ["inspect"; "--format"; port_format "50051"; cid] = (port, None) /\
    ep = "127.0.0.1:" +:+ TrimSpace port.

Lemma log_ports_none r cid : log_ports r cid [] = r.
Proof. unfold log_ports. case_decide; [by destruct r|done]. Qed.

Lemma launch_i9 h pid img :
  exists e r', Podman_Launch (NewPodman h) pid (i9_spec img) = (e, r') /\
    same_answers h (host r') /\ host_le "" h (host r') /\
    forall id ep, e = Ok (id, ep) -> exists args inst, launched h img (containerID inst) ep args /\
      instances r' !! id = Some inst /\ pi_endpoint inst = ep /\
      cli_log (host r') = cli_log h ++ [args; ["inspect"; "--format"; port_format "50051"; containerID inst]].
Proof.
  pose proof (podman_step_le _ _ (pstep_launch (NewPodman h) pid (i9_spec img))) as [_ Hle]. cbn [NewPodman Network host] in Hle.
  destruct (Podman_Launch (NewPodman h) pid (i9_spec img)) as [e r'] eqn:E. cbn [snd] in Hle. exists e, r'. split; [done|].
  cut (same_answers h (host r') /\ forall id ep, e = Ok (id, ep) -> exists args inst, launched h img (containerID inst) ep args /\
      instances r' !! id = Some inst /\ pi_endpoint inst = ep /\
      cli_log (host r') = cli_log h ++ [args; ["inspect"; "--format"; port_format "50051"; containerID inst]]).
  { intros [Hs He]. by split_and!. }
  clear Hle. unfold Podman_Launch in E. destruct (checkI9Minimum (i9_spec img)) eqn:E9; [by injection E as <- <-|].
  apply checkI9Minimum_None in E9 as [Himg _].
  cbn [NewPodman with_seq DataRoot Network NamePrefix seq instances host] in E. cbv zeta in E.
  destruct (decide ("" = "")) as [_|Hn]; [|by destruct Hn].
  set (args := run_args _ _ _ _) in E. unfold podman in E. cbn [fst snd] in E.
  destruct (cli h (length (cli_log h)) args) as [out [er|]] eqn:Ec; [by injection E as <- <-|].
  change (publishPorts (i9_spec img)) with (@nil string) in E. rewrite log_ports_none in E.
  unfold resolve_endpoint in E. cbn [with_host with_seq Network NewPodman] in E.
  destruct (decide ("" = "")) as [_|Hn]; [|by destruct Hn].
  unfold Podman_publishedEndpoint, Podman_publishedHostPort, podman in E. cbn [fst snd with_host host cli cli_log] in E.
  rewrite length_app Nat.add_1_r in E. change podmanContainerPort with "50051" in E.
  destruct (cli h (S (length (cli_log h))) _) as [port [er|]] eqn:Ep; [by injection E as <- <-|].
  destruct (decide (TrimSpace port = "" \/ TrimSpace port = "<no value>")); [by injection E as <- <-|].
  injection E as <- <-. split; [done|]. intros id ep [= <- <-]. exists args. eexists. split_and!; [|apply lookup_insert_eq|done|].
  2:{ cbn [host with_instances with_host cli_log containerID]. by rewrite -app_assoc. }
  exists out, port. split_and!; [done| | |done|done|done|done].
  - by apply (isolated_run_args (with_seq (NewPodman h) 1)).
  - unfold args, run_args. by rewrite !app_assoc last_snoc.
Qed.

(** Every linked capability of the manifest was called on the endpoint, and none answered that
    it is not implemented. *)
Definition answers (m : Manifest) (ep : string) : Prop :=
  forall p pre rpc post, p ∈ Provides m -> linked = pre ++ rpc :: post -> rpc_Capability rpc = Capability p ->
    Forall (fun q => rpc_Capability q <> Capability p) pre ->
    match conn_Invoke ep (rpc_Path rpc) with Some e => status_Code e <> Unimplemented | None => True end.

Lemma find_first {A} (f : A -> bool) pre x post :
  Forall (fun y => f y = false) pre -> f x = true -> List.find f (pre ++ x :: post) = Some x.
Proof. intros Hp Hx. induction Hp as [|y pre Hy _ IH]; simpl; [by rewrite Hx|by rewrite Hy]. Qed.

Lemma served_answers m ep : serves_all m ep = None -> answers m ep.
Proof.
  unfold serves_all. intros H p pre rpc post Hp El Hc Hpre. apply first_error_None in H.
  rewrite Forall_fmap Forall_forall in H. specialize (H (Capability p)). cbn [compose] in H.
  assert (Capability p ∈ Manifest_ProvidesCaps m) as Hin by (apply list_elem_of_fmap; by exists p). specialize (H Hin).
  unfold unserved, resolveMethod in H. rewrite El in H. rewrite (find_first _ pre rpc post) in H; [| |by apply bool_decide_eq_true].
  2:{ eapply Forall_impl; [exact Hpre|]. intros q Hq. by apply bool_decide_eq_false. }
  destruct (conn_Invoke ep (rpc_Path rpc)) as [e|]; [|done]. intros E. by rewrite E in H.
Qed.

(** The gate, by what podman was asked and answered: the image was run under the whole
    profile, its container was later found running with its endpoint accepting a connection,
    the endpoint was dialled, and every linked capability it declares was answered. *)
Definition gate_passed (h : Host) (gate : list (list string)) (image : string) (m : Manifest) : Prop :=
  exists k j args cid ep out port t n,
    gate !! k = Some args /\ head args = Some "run" /\ isolated "" args /\ last args = Some image /\
    cli h (length (cli_log h) + k) args = (out, None) /\ cid = TrimSpace out /\
    gate !! S k = Some ["inspect"; "--format"; port_format "50051"; cid] /\
    cli h (length (cli_log h) + S k) ["inspect"; "--format"; port_format "50051"; cid] = (port, None) /\
    ep = "127.0.0.1:" +:+ TrimSpace port /\
    (S k < j)%nat /\ gate !! j = Some ["inspect"; "--format"; "{{.State.Running}}"; cid] /\
    cli h (length (cli_log h) + j) ["inspect"; "--format"; "{{.State.Running}}"; cid] = (t, None) /\ TrimSpace t = "true" /\
    accepts h n ep = true /\ grpc_NewClient ep = None /\ answers m ep.

Lemma gate_passed_later h h' g0 gate image m :
  same_answers h h' -> cli_log h' = cli_log h ++ g0 -> gate_passed h' gate image m -> gate_passed h (g0 ++ gate) image m.
Proof.
  intros [Hc Ha] Hl (k & j & args & cid & ep & out & port & t & n & H). rewrite Hc Ha Hl length_app in H.
  exists (length g0 + k)%nat, (length g0 + j)%nat, args, cid, ep, out, port, t, n.
  assert (forall i, length (cli_log h) + length g0 + i = length (cli_log h) + (length g0 + i))%nat as Hadd by lia.
  rewrite -plus_n_Sm !Hadd plus_n_Sm in H. rewrite plus_n_Sm !lookup_app_r; [|lia..].
  replace (length g0 + k - length g0)%nat with k by lia. replace (length g0 + S k - length g0)%nat with (S k) by lia.
  replace (length g0 + j - length g0)%nat with j by lia. destruct H as (? & ? & ? & ? & ? & ? & ? & ? & ? & ? & ? & ? & ? & ? & ? & ?).
  split_and!; try done; [by rewrite -plus_n_Sm|lia].
Qed.

(** How a container is removed. *)
Definition removal (cid : string) : list string := ["rm"; "-f"; "-t"; "0"; cid].

Lemma launchAndProbe_spec clock h img m :
  ticks probe_step clock ->
  exists e h' gate, launchAndProbe clock h img m = Some (e, h') /\ same_answers h h' /\
    cli_log h' = cli_log h ++ gate /\ Forall (runtime_cmd "") gate /\
    (is_Ok (Podman_Launch (NewPodman h) (name_of m) (i9_spec img)).1 = true -> exists cid, last (cli_log h') = Some (removal cid)) /\
    (e = None -> gate_passed h gate img m).
Proof.
  intros Hc. unfold launchAndProbe. destruct (launch_i9 h (name_of m) img) as (lr & rt & -> & Hs & (g & Eg & Hg) & Hl).
  cbn [fst]. destruct lr as [[id ep]|e].
  2:{ eexists _, _, g. by split_and!. }
  destruct (Hl id ep eq_refl) as (args & inst & Hla & Hi & Hep & Elog). clear Hl.
  destruct (probe_loop_ends clock rt id (wait_fuel probe_window probe_step) 0 Hc) as [[b rt'] Ew];
    [by apply wait_fuel_enough|done|]. rewrite Ew. cbn [mbind option_bind].
  destruct (probe_loop_frame _ _ _ _ _ _ _ _ Ew) as (Hs' & Hi' & (g' & Eg' & Hg')).
  assert (host (Podman_Terminate rt' id).2 = (podman (host rt') (removal (containerID inst))).2) as Et.
  { unfold Podman_Terminate. rewrite Hi' Hi. by destruct (podman _ _) as [[out err] h'] eqn:Ep; cbn in Ep; injection Ep as _ <-. }
  destruct Hs as [Hs1 Hs2], Hs' as [Hs3 Hs4].
  eexists _, _, (g ++ g' ++ [removal (containerID inst)]). split; [reflexivity|]. rewrite Et. cbn [podman snd cli accepts cli_log].
  split_and!.
  - split; [by cbn; rewrite Hs3|by cbn; rewrite Hs4].
  - by rewrite Eg' Eg -!app_assoc.
  - rewrite !Forall_app. split_and!; [done..|]. constructor; [apply rm_cmd|constructor].
  - intros _. exists (containerID inst). by rewrite last_snoc.
  - intros He. destruct b; [|done]. cbn [negb] in He. destruct (grpc_NewClient ep) eqn:Ed; [done|]. apply served_answers in He.
    destruct (probe_loop_healthy _ _ _ inst _ _ _ _ Hi Ew) as (j & Hj & Hlog & t & n & Eu & Et' & Eacc).
    destruct Hla as (out & port & H1 & H2 & H3 & H4 & H5 & H6 & H7). rewrite Elog length_app in Hj. cbn [length] in Hj.
    rewrite Eg' Elog -app_assoc in Hlog. rewrite lookup_app_r in Hlog; [|lia].
    assert (g = [args; ["inspect"; "--format"; port_format "50051"; containerID inst]]) as ->.
    { rewrite Eg in Elog. by apply app_inv_head in Elog. }
    exists 0%nat, (j - length (cli_log h))%nat, args, (containerID inst), ep, out, port, t, n.
    rewrite Hs1 in Eu. rewrite Hs2 Hep in Eacc.
    split_and!; try done; try (by rewrite Nat.add_0_r); try (by rewrite Nat.add_1_r); [lia| |].
    + rewrite app_assoc. by apply lookup_app_l_Some.
    + by replace (length (cli_log h) + (j - length (cli_log h)))%nat with j by lia.
Qed.

(** ** Publishing *)

(** What reaches the registry for one image. *)
Definition published (image remote : string) (tls : bool) : list (list string) :=
  [["tag"; image; remote]; if tls then ["push"; remote] else ["push"; "--tls-verify=false"; remote]].
Lemma push_args_eq remote (tls : bool) : push_args remote tls = if tls then ["push"; remote] else ["push"; "--tls-verify=false"; remote].
Proof. by destruct tls. Qed.

Lemma pushImage_spec h image remote tls :
  exists e h' done, pushImage h image remote tls = (e, h') /\ cli_log h' = cli_log h ++ done /\
    done `prefix_of` published image remote tls /\ (e = None -> done = published image remote tls).
Proof.
  unfold pushImage, podman, published. rewrite -push_args_eq. cbn [fst snd]. destruct (cli _ _ ["tag"; image; remote]) as [b [e|]].
  { eexists _, _, [_]. split_and!; [done|done| |done]. by exists [push_args remote tls]. }
  destruct (cli _ _ (push_args remote tls)) as [b' err]. eexists _, _, _. split_and!; [done| |done|done].
  cbn [cli_log]. by rw -app_assoc.
Qed.

(** The manifest a publish uses: the given file, or the bytes the image's label encodes,
    loaded from a file they are written to. *)
Definition publish_manifest (h : Host) (image manifestPath : string) (m : Manifest) : Prop :=
  manifestPath <> "" /\ Load yaml_Unmarshal os_ReadFile manifestPath = Ok m \/
  manifestPath = "" /\ exists out raw td,
    cli h (length (cli_log h)) ["inspect"; "--format"; "{{ index .Config.Labels " +:+ dq +:+ "dev.rat.manifest.v1.b64" +:+ dq +:+ " }}"; image] =
      (out, None) /\ DecodeString (TrimSpace out) = Ok raw /\ mkdirTemp = Ok td /\
    writeFile (filepath_Join [td; "manifest.yaml"]) raw = None /\
    Load yaml_Unmarshal (fun _ => Ok raw) (filepath_Join [td; "manifest.yaml"]) = Ok m.

Lemma readStamped_spec h image r h' :
  readStampedManifest h image = (r, h') ->
  same_answers h h' /\ cli_log h' = cli_log h ++ [inspect_label image] /\
  forall m raw, r = Ok (m, raw) -> publish_manifest h image "" m.
Proof.
  unfold readStampedManifest, podman. destruct (cli h _ (inspect_label image)) as [got err] eqn:Ec. cbn [fst snd].
  intros [= <- <-]. split; [done|]. split; [done|]. intros m raw. destruct err as [e|]; [done|].
  destruct (_ || _); [done|]. destruct (DecodeString _) as [raw'|e] eqn:Ed; [|done].
  destruct mkdirTemp as [td|] eqn:Et; [|done]. cbn [result_bind]. destruct (writeFile _ raw') eqn:Ew; [done|].
  destruct (load_written _ raw') as [m'|e] eqn:El; [|done]. intros [= -> ->]. right. split; [done|].
  exists got, raw, td. by split_and!.
Qed.

(** Everything a publish of an image sends. *)
Definition all_pushes (image registry : string) (m : Manifest) (latest insecure : bool) : list (list string) :=
  let tls := negb insecure && negb (isLocalRegistry (TrimSuffix registry "/")) in
  let under tag := TrimSuffix registry "/" +:+ "/" +:+ md_Name (Meta m) +:+ ":" +:+ tag in
  published image (under (md_Version (Meta m))) tls ++ (if latest then published image (under "latest") tls else []).

Lemma push_all_spec h image registry m (latest insecure : bool) :
  let tls := negb insecure && negb (isLocalRegistry (TrimSuffix registry "/")) in
  exists e h' out, match pushImage h image (remote_ref registry m (md_Version (Meta m))) tls with
    | (Some e, h) => Some (Some e, h)
    | (None, h) => Some (if latest then pushImage h image (remote_ref registry m "latest") tls else (None, h))
    end = Some (e, h') /\ cli_log h' = cli_log h ++ out /\
    out `prefix_of` all_pushes image registry m latest insecure /\
    (e = None -> out = all_pushes image registry m latest insecure).
Proof.
  intros tls. unfold all_pushes. fold tls. change (md_Name (Meta m)) with (name_of m). cbv zeta.
  fold (remote_ref registry m (md_Version (Meta m))) (remote_ref registry m "latest").
  destruct (pushImage_spec h image (remote_ref registry m (md_Version (Meta m))) tls) as (e & h2 & d & -> & Ed & Hp & Hd).
  destruct e as [e|]; [|rewrite -(Hd eq_refl); destruct latest].
  - eexists _, _, d. split_and!; [done|done|by apply prefix_app_r|done].
  - destruct (pushImage_spec h2 image (remote_ref registry m "latest") tls) as (e & h3 & d' & -> & Ed' & Hp' & Hd').
    eexists _, _, (d ++ d'). split_and!; [done|by rw Ed' Ed app_assoc|by apply prefix_app|]. intros He. by rw (Hd' He).
  - eexists _, _, d. by rw app_nil_r.
Qed.

(** C14: Nothing reaches a registry unchecked.  Publishing always ends; besides what the launch
    gate asks of podman it only tags and pushes the image it was given, under the registry,
    name and version of its manifest (the given file, or the label of the image), and, when
    asked, the latest tag.  It does so only after that very image was run under the whole
    isolation profile, its container was found running, its endpoint accepted a connection,
    and no linked capability its manifest declares was answered as unimplemented; and it
    reports success only when all of it was pushed. *)
Theorem publish_gated clock h image registry manifestPath latest insecure :
  ticks probe_step clock ->
  exists e h' gate out, runPluginPublish clock h image registry manifestPath latest insecure = Some (e, h') /\
    cli_log h' = cli_log h ++ gate ++ out /\ Forall (runtime_cmd "") gate /\
    (out <> [] \/ e = None -> exists m, publish_manifest h image manifestPath m /\ gate_passed h gate image m /\
       out `prefix_of` all_pushes image registry m latest insecure /\
       (e = None -> out = all_pushes image registry m latest insecure)).
Proof.
  intros Hc. unfold runPluginPublish.
  assert (forall (e : error) h' g, cli_log h' = cli_log h ++ g -> Forall (runtime_cmd "") g ->
    exists e' h'' gate out, Some (Some e, h') = Some (e', h'') /\
    cli_log h'' = cli_log h ++ gate ++ out /\ Forall (runtime_cmd "") gate /\
    (out <> [] \/ e' = None -> exists m, publish_manifest h image manifestPath m /\ gate_passed h gate image m /\
       out `prefix_of` all_pushes image registry m latest insecure /\
       (e' = None -> out = all_pushes image registry m latest insecure))) as Hfail.
  { intros e h' g E Hg. exists (Some e), h', g, []. rewrite app_nil_r. split_and!; [done..|]. by intros [?|?]. }
  destruct (_ || _). { apply (Hfail _ _ []); [by rewrite app_nil_r|done]. }
  assert (exists mr h0 g0, (if decide (manifestPath = "")
            then let '(r, h) := readStampedManifest h image in (let? mr := r in Ok mr.1, h)
            else (Load yaml_Unmarshal os_ReadFile manifestPath, h)) = (mr, h0) /\ same_answers h h0 /\
            cli_log h0 = cli_log h ++ g0 /\ Forall (runtime_cmd "") g0 /\
            forall m, mr = Ok m -> publish_manifest h image manifestPath m) as (mr & h0 & g0 & -> & Hs & E0 & Hg0 & Hm).
  { destruct (decide (manifestPath = "")) as [->|Hp].
    - destruct (readStampedManifest h image) as [r h1] eqn:Er. apply readStamped_spec in Er as (Hs & El & Hm).
      eexists _, h1, [inspect_label image]. split; [reflexivity|]. split_and!; [done..| |].
      + constructor; [apply inspect_cmd|constructor].
      + intros m. destruct r as [[m' raw]|e]; [|done]. intros [= <-]. by eapply Hm.
    - eexists _, h, []. split; [reflexivity|]. split_and!; [done|by rewrite app_nil_r|done|]. intros m Hl. by left. }
  destruct mr as [m|e]; [|by apply (Hfail _ _ g0)]. specialize (Hm m eq_refl).
  destruct (launchAndProbe_spec clock h0 image m Hc) as (e & h1 & g1 & -> & Hs1 & E1 & Hg1 & _ & Hgate). cbn [mbind option_bind].
  assert (cli_log h1 = cli_log h ++ g0 ++ g1) as El by by rewrite E1 E0 app_assoc.
  assert (Forall (runtime_cmd "") (g0 ++ g1)) as Hg by by apply Forall_app.
  destruct e as [e|]; [by apply (Hfail _ _ (g0 ++ g1))|]. specialize (Hgate eq_refl).
  destruct (push_all_spec h1 image registry m latest insecure) as (e & h2 & out & -> & E & Hp & Hd).
  exists e, h2, (g0 ++ g1), out. rewrite E El -!app_assoc. split_and!; [done..|]. intros _. exists m.
  split_and!; [done| |done..]. by eapply gate_passed_later.
Qed.

(** ** Packing *)

Ltac refused := eexists _, _; split; [reflexivity|discriminate].

Lemma podman_log h args : cli_log (podman h args).2 = cli_log h ++ [args].
Proof. done. Qed.

(** The command that builds the stamped image carries the tag. *)
Definition builds (args : list string) (finalTag : string) : Prop :=
  head args = Some "build" /\ exists pre post, args = pre ++ ["-t"; finalTag] ++ post.

Lemma build_stamped_ok h from finalTag dir b64 h' :
  build_stamped h from finalTag dir b64 = (None, h') ->
  exists args, builds args finalTag /\ cli_log h' = cli_log h ++ [args].
Proof.
  unfold build_stamped, podman. destruct (decide (from = "")).
  - destruct (cli _ _ _) as [b [e1|]]; [done|]. intros [= <-]. eexists. split; [|done]. split; [done|].
    by exists ["build"; "--label"; manifestLabel +:+ "=" +:+ b64], [dir].
  - destruct mkdirTemp as [td|e]; [|done]. destruct (writeFile _ _); [done|]. destruct (cli _ _ _) as [b [e1|]]; [done|].
    intros [= <-]. eexists. split; [|done]. split; [done|]. by exists ["build"], [td].
Qed.

(** What a label answer is read as. *)
Lemma readStamped_stamped h image raw td :
  TrimSpace (cli h (length (cli_log h)) (inspect_label image)).1 = EncodeToString raw ->
  (cli h (length (cli_log h)) (inspect_label image)).2 = None ->
  raw <> "" -> mkdirTemp = Ok td -> writeFile (filepath_Join [td; "manifest.yaml"]) raw = None ->
  (readStampedManifest h image).1 =
  let? m := load_written (filepath_Join [td; "manifest.yaml"]) raw in Ok (m, raw).
Proof.
  intros Hg He Hne Ht Hw. unfold readStampedManifest, podman. destruct (cli _ _ _) as [got err]. simpl in Hg, He. subst err.
  cbn [fst]. rw Hg. rw bool_decide_eq_false_2; last first.
  { intros E. pose proof (decode_encode_quanta raw) as Hd. rw E in Hd. by injection Hd as <-. }
  rw bool_decide_eq_false_2; last first.
  { intros E. pose proof (decode_encode_quanta raw) as Hd. by rw E in Hd. }
  simpl. rw Decode_Encode Ht /=. by rw Hw.
Qed.

(** What is packed is what is added.  Packing always ends.  When it succeeds the manifest file
    loads, is of a known kind and passes the authoring gate, and the tagged image was built
    with it, came up healthy, and answered every linked capability it declares; and on any
    host where the label of that image still reads as it did then, reading the stamped
    manifest gives the same manifest and the same bytes. *)
Theorem pack_then_read clock h from manifestPath tag dir :
  ticks probe_step clock ->
  let mp := if decide (manifestPath = "") then filepath_Join [dir; "manifest.yaml"] else manifestPath in
  exists e h', runPluginPack clock h from manifestPath tag dir = Some (e, h') /\
    (e = None -> exists m raw, Load yaml_Unmarshal os_ReadFile mp = Ok m /\ os_ReadFile mp = Ok raw /\
       Kind m ∈ knownKinds /\ validateAuthored m = None /\
       (exists args h1 gate, builds args (final_tag tag m) /\ cli_log h1 = cli_log h ++ [args] /\ gate_passed h1 gate (final_tag tag m) m) /\
       exists n, (cli h' n (inspect_label (final_tag tag m))).2 = None /\
       forall h2 td, (cli h2 (length (cli_log h2)) (inspect_label (final_tag tag m))) = cli h' n (inspect_label (final_tag tag m)) ->
         raw <> "" -> mkdirTemp = Ok td -> writeFile (filepath_Join [td; "manifest.yaml"]) raw = None ->
         (readStampedManifest h2 (final_tag tag m)).1 = Ok (set_Path (filepath_Join [td; "manifest.yaml"]) m, raw)).
Proof.
  intros Hc mp. unfold runPluginPack. fold mp. destruct (Load yaml_Unmarshal os_ReadFile mp) as [m|e] eqn:El; [|refused].
  destruct (decide (Kind m ∈ knownKinds)) as [Hk|]; [|refused].
  destruct (validateAuthored m) as [e|] eqn:Ev; [refused|].
  destruct (os_ReadFile mp) as [raw|e] eqn:Er; [|refused].
  destruct (build_stamped h from (final_tag tag m) dir (EncodeToString raw)) as [[e|] h1] eqn:Eb; [refused|].
  apply build_stamped_ok in Eb as (args & Hb & E1).
  destruct (launchAndProbe_spec clock h1 (final_tag tag m) m Hc) as (e & h2 & g & -> & _ & _ & _ & _ & Hgate). simpl.
  destruct e as [e|]; [refused|]. specialize (Hgate eq_refl).
  set (n := length (cli_log h2)). unfold podman. fold n.
  destruct (cli h2 n (inspect_label (final_tag tag m))) as [got [e|]] eqn:Ec; [refused|].
  destruct (decide (TrimSpace got = EncodeToString raw)) as [Hg|]; [|refused].
  eexists _, _. split; [done|]. intros _. exists m, raw. split_and!; [done..| |].
  { exists args, h1, g. by split_and!. }
  exists n. cbn [cli]. rw Ec. split; [done|]. intros h3 td Eh Hne Ht Hw.
  rw (readStamped_stamped h3 _ raw td); [|by rw Eh|by rw Eh|done..].
  unfold load_written, Load in *. rw Er in El. destruct (Parse yaml_Unmarshal raw) as [m0|]; [|done]. by injection El as <-.
Qed.

(** The image is tagged before it is verified: a pack that the launch gate fails leaves the
    image it built under its final tag, with the manifest stamped in. *)
Theorem failed_pack_stays_tagged clock h h1 from manifestPath tag dir m raw e :
  let mp := if decide (manifestPath = "") then filepath_Join [dir; "manifest.yaml"] else manifestPath in
  ticks probe_step clock -> Load yaml_Unmarshal os_ReadFile mp = Ok m -> os_ReadFile mp = Ok raw ->
  Kind m ∈ knownKinds -> validateAuthored m = None ->
  build_stamped h from (final_tag tag m) dir (EncodeToString raw) = (None, h1) ->
  fst <$> launchAndProbe clock h1 (final_tag tag m) m = Some (Some e) ->
  exists h' args gate, runPluginPack clock h from manifestPath tag dir = Some (Some e, h') /\
    cli_log h' = cli_log h ++ args :: gate /\ builds args (final_tag tag m) /\ Forall (runtime_cmd "") gate.
Proof.
  intros mp Hc El Er Hk Ev Eb Hp. unfold runPluginPack. fold mp. rw El Er Ev.
  destruct (decide (Kind m ∈ knownKinds)) as [_|Hn]; [clear Hk|destruct (Hn Hk)]. rw Eb.
  destruct (launchAndProbe_spec clock h1 (final_tag tag m) m Hc) as (e' & h2 & gate & E & _ & Eg & Hg & _).
  rw E in Hp. injection Hp as ->. rw E /=. apply build_stamped_ok in Eb as (args & Hb & E1).
  exists h2, args, gate. rw Eg E1 -app_assoc. done.
Qed.
End Gate.

(** ** At concrete plugins *)

Definition demo_plugin (version : string) (cmds : list Command) : Manifest :=
  mkManifest "rat/1" "state-backend" (mkMetadata "pg" version ∅) [] [mkRef "rat://state/v1/get"] [] []
    (mkResources (mkQuantities "50m" "64Mi") (mkQuantities "" "")) [] (mkContributes cmds) "".
Definition demo_yaml (m : Manifest) (raw : string) : result Manifest :=
  if decide (raw = "kind: state-backend") then Ok m else Err (Errorf "yaml" []).
Definition demo_read (path : string) : result string := Ok "kind: state-backend".
Definition demo_rpcs : list Rpc := [mkRpc "rat://state/v1/get" "/rat.state.v1.StateService/Get" "GetRequest" "GetResponse"].

(** A podman that starts containers, finds them running, and prints the label. *)
Definition demo_cli (_ : nat) (args : list string) : string * option error :=
  match args with
  | "run" :: _ => ("c1", None)
  | ["inspect"; _; f; _] => (if decide (f = "{{.State.Running}}") then "true"
                             else if HasPrefix f "{{ index .Config" then EncodeToString "kind: state-backend" +:+ newline
                             else "40001", None)
  | _ => ("", None)
  end.
Definition tool_host : Host := mkHost demo_cli (fun _ _ => true) (fun _ => None) (fun _ => None) [] 0.
Definition tool_clock (k : nat) : Z := probe_step * Z.of_nat k.
Lemma tool_clock_ticks : ticks probe_step tool_clock.
Proof. intros i. unfold tool_clock, probe_step, milli. lia. Qed.

Definition demo_publish (invoke : string -> string -> option error) (registry : string) : option (option error * Host) :=
  runPluginPublish demo_rpcs (fun _ => None) invoke (demo_yaml (demo_plugin "0.1.0" [])) demo_read (Ok "/tmp/mf")
    (fun _ _ => None) tool_clock tool_host "rat/pg:dev" registry "" false false.
Definition no_method : option error := Some (Status Unimplemented "unknown service" []).
Definition commands_of (r : option (option error * Host)) (v : string) : list (list string) :=
  match r with Some (_, h) => filter (fun a => head a = Some v) (cli_log h) | None => [] end.

Lemma publish_gated_witness :
  commands_of (demo_publish (fun _ _ => None) "ghcr.io/acme/") "push" = [["push"; "ghcr.io/acme/pg:0.1.0"]] /\
  commands_of (demo_publish (fun _ _ => no_method) "ghcr.io/acme/") "push" = [] /\
  exists gate m, gate_passed demo_rpcs (fun _ => None) (fun _ _ => None) tool_host gate "rat/pg:dev" m.
Proof.
  split; [vm_compute; reflexivity|]. split; [vm_compute; reflexivity|].
  destruct (publish_gated demo_rpcs (fun _ => None) (fun _ _ => None) (demo_yaml (demo_plugin "0.1.0" [])) demo_read (Ok "/tmp/mf")
    (fun _ _ => None) tool_clock tool_host "rat/pg:dev" "ghcr.io/acme/" "" false false tool_clock_ticks)
    as (e & h' & g & out & E & _ & _ & Hp).
  destruct (Hp ltac:(right; vm_compute in E; injection E as <- _; reflexivity)) as (m & _ & Hg & _). exists g, m. exact Hg.
Defined.

Definition demo_pack (m : Manifest) (invoke : string -> string -> option error) : option (option error * Host) :=
  runPluginPack demo_rpcs (fun _ => None) invoke (demo_yaml m) demo_read (Ok "/tmp/mf") (fun _ _ => None)
    tool_clock tool_host "" "" "" ".".

Lemma pack_then_read_witness :
  exists h', demo_pack (demo_plugin "0.1.0" []) (fun _ _ => None) = Some (None, h') /\
    (readStampedManifest (demo_yaml (demo_plugin "0.1.0" [])) (Ok "/tmp/mf") (fun _ _ => None) tool_host "localhost/rat/pg:0.1.0").1 =
    Ok (set_Path "/tmp/mf/manifest.yaml" (set_Path "manifest.yaml" (demo_plugin "0.1.0" [])), "kind: state-backend").
Proof.
  destruct (pack_then_read demo_rpcs (fun _ => None) (fun _ _ => None) (demo_yaml (demo_plugin "0.1.0" [])) demo_read (Ok "/tmp/mf")
    (fun _ _ => None) tool_clock tool_host "" "" "" "." tool_clock_ticks) as (e & h' & E & Hp).
  assert (e = None) as -> by (vm_compute in E; injection E as <- _; reflexivity).
  exists h'. split; [exact E|]. destruct (Hp eq_refl) as (m & raw & Hm & Hr & _ & _ & _ & n & He & Hread).
  vm_compute in Hm. injection Hm as <-. vm_compute in Hr. injection Hr as <-.
  apply (Hread tool_host "/tmp/mf").
  - assert (cli h' = demo_cli) as -> by (vm_compute in E; injection E as <-; reflexivity). reflexivity.
  - discriminate.
  - reflexivity.
  - reflexivity.
Defined.

Lemma failed_pack_stays_tagged_witness :
  exists h' args gate, demo_pack (demo_plugin "0.1.0" []) (fun _ _ => no_method) =
      Some (Some (Errorf "✗ %s declares %s but does NOT serve it (Unimplemented)" ["pg"; "rat://state/v1/get"]), h') /\
    cli_log h' = args :: gate /\ builds args "localhost/rat/pg:0.1.0".
Proof.
  destruct (failed_pack_stays_tagged demo_rpcs (fun _ => None) (fun _ _ => no_method) (demo_yaml (demo_plugin "0.1.0" []))
    demo_read (Ok "/tmp/mf") (fun _ _ => None) tool_clock tool_host
    (podman tool_host ["build"; "--label"; "dev.rat.manifest.v1.b64=" +:+ EncodeToString "kind: state-backend"; "-t"; "localhost/rat/pg:0.1.0"; "."]).2
    "" "" "" "." (set_Path "manifest.yaml" (demo_plugin "0.1.0" [])) "kind: state-backend"
    (Errorf "✗ %s declares %s but does NOT serve it (Unimplemented)" ["pg"; "rat://state/v1/get"]) tool_clock_ticks)
    as (h' & args & gate & E & El & Hb & _).
  1, 2, 4, 5, 6: vm_compute; reflexivity.
  - vm_compute; reflexivity.
  - exists h', args, gate. split; [exact E|]. split; [exact El|exact Hb].
Defined.

(** The static gate of pack is weaker than [rat plugin check]: it accepts a manifest without a
    version and one whose command shadows a built-in verb, which check refuses. *)
Definition shadowing : Command := mkCommand "up" "rat://state/v1/get" "" [].
Theorem pack_skips_check :
  (exists h', demo_pack (demo_plugin "0.1.0" [shadowing]) (fun _ _ => None) = Some (None, h')) /\
  runPluginCheck demo_rpcs (fun _ => []) (demo_plugin "0.1.0" [shadowing]) =
    Some (Some (Errorf "check failed: %s command %q shadows the built-in verb %q" ["pg"; "up"; "up"])) /\
  (exists h', demo_pack (demo_plugin "" []) (fun _ _ => None) = Some (None, h')) /\
  runPluginCheck demo_rpcs (fun _ => []) (demo_plugin "" []) = Some (Some (Errorf "check failed: missing metadata.version" [])).
Proof. split_and!; [eexists| |eexists|]; vm_compute; reflexivity. Qed.

(** Any registry whose name begins with localhost is taken as local: TLS is not verified. *)
Theorem local_lookalike_unverified :
  commands_of (demo_publish (fun _ _ => None) "localhost.example.com/acme") "push" =
  [["push"; "--tls-verify=false"; "localhost.example.com/acme/pg:0.1.0"]].
Proof. vm_compute. reflexivity. Qed.
