(* ===== verification/Axes.v ===== *)
(** The axes a rat links (src/core/cmd/rat/descriptors.go and the service definitions of
    src/contracts/proto), the listing of their capabilities (capabilities.go), and the
    agreement of the two lookups over them: the gateway's route table and the check of the
    authoring tools. *)
From S2P Require Import Prelude Manifest Gateway Validate.

(** ** Service descriptors *)

Record RpcDesc := mkRpcDesc {
  rd_Name : string; rd_Capability : string; rd_In : string; rd_Out : string;
  rd_ServerStream : bool; rd_ClientStream : bool;
}.
Record AxisService := mkServiceDesc { as_Package : string; as_Name : string; as_Methods : list RpcDesc }.
Definition AxisFile := list AxisService.

Definition FullName (s : AxisService) : string := as_Package s +:+ "." +:+ as_Name s.
Definition rpc_path (s : AxisService) (m : RpcDesc) : string := "/" +:+ FullName s +:+ "/" +:+ rd_Name m.

(** What the gateway reads of a file, and what the tools range over. *)
Definition gateway_file (f : AxisFile) : FileDesc :=
  (fun s => mkService (FullName s) ((fun m => mkMethod (rd_Name m) (rd_Capability m)) <$> as_Methods s)) <$> f.
Definition service_rpcs (s : AxisService) : list Rpc :=
  (fun m => mkRpc (rd_Capability m) (rpc_path s m) (as_Package s +:+ "." +:+ rd_In m) (as_Package s +:+ "." +:+ rd_Out m))
    <$> as_Methods s.
Definition file_rpcs (f : AxisFile) : list Rpc := mjoin (service_rpcs <$> f).
Definition linked_rpcs (fs : list AxisFile) : list Rpc := mjoin (file_rpcs <$> fs).

Definition routableDescriptors : list AxisFile :=
  [[mkServiceDesc "rat.state.v1" "StateService"
      [mkRpcDesc "Get" "rat://state/v1/get" "GetRequest" "GetResponse" false false;
       mkRpcDesc "Put" "rat://state/v1/put" "PutRequest" "PutResponse" false false;
       mkRpcDesc "List" "rat://state/v1/list" "ListRequest" "ListResponse" false false;
       mkRpcDesc "Delete" "rat://state/v1/delete" "DeleteRequest" "DeleteResponse" false false;
       mkRpcDesc "CreateIfAbsent" "rat://state/v1/create-if-absent" "CreateIfAbsentRequest" "CreateIfAbsentResponse" false false;
       mkRpcDesc "Watch" "rat://state/v1/watch" "WatchRequest" "WatchResponse" true false]];
   [mkServiceDesc "rat.catalog.v1" "CatalogService"
      [mkRpcDesc "GetTable" "rat://catalog/v1/get-table" "GetTableRequest" "GetTableResponse" false false;
       mkRpcDesc "CreateBranch" "rat://catalog/v1/create-branch" "CreateBranchRequest" "CreateBranchResponse" false false;
       mkRpcDesc "MergeBranch" "rat://catalog/v1/merge-branch" "MergeBranchRequest" "MergeBranchResponse" false false;
       mkRpcDesc "RegisterTable" "rat://catalog/v1/register-table" "RegisterTableRequest" "RegisterTableResponse" false false;
       mkRpcDesc "CommitTable" "rat://catalog/v1/commit-table" "CommitTableRequest" "CommitTableResponse" false false]];
   [mkServiceDesc "rat.engine.v1" "EngineService"
      [mkRpcDesc "Execute" "rat://engine/v1/execute" "ExecuteRequest" "ExecuteResponse" false false;
       mkRpcDesc "Query" "rat://engine/v1/query" "QueryRequest" "QueryResponse" false false;
       mkRpcDesc "Preview" "rat://engine/v1/preview" "PreviewRequest" "PreviewResponse" false false]];
   [mkServiceDesc "rat.format.v1" "FormatService"
      [mkRpcDesc "Resolve" "rat://format/v1/scan" "ResolveRequest" "ResolveResponse" false false;
       mkRpcDesc "Append" "rat://format/v1/append" "AppendRequest" "AppendResponse" false false;
       mkRpcDesc "Merge" "rat://format/v1/merge" "MergeRequest" "MergeResponse" false false;
       mkRpcDesc "Overwrite" "rat://format/v1/overwrite" "OverwriteRequest" "OverwriteResponse" false false;
       mkRpcDesc "Maintain" "rat://format/v1/maintain" "MaintainRequest" "MaintainResponse" false false]];
   [mkServiceDesc "rat.storage.v1" "StorageService"
      [mkRpcDesc "VendCredentials" "rat://storage/v1/vend-credentials" "VendCredentialsRequest" "VendCredentialsResponse" false false;
       mkRpcDesc "VendReadCredentials" "rat://storage/v1/vend-credentials-read" "VendReadCredentialsRequest" "VendReadCredentialsResponse" false false;
       mkRpcDesc "VendWriteCredentials" "rat://storage/v1/vend-credentials-write" "VendWriteCredentialsRequest" "VendWriteCredentialsResponse" false false]];
   [mkServiceDesc "rat.strategy.v1" "StrategyService"
      [mkRpcDesc "Apply" "rat://strategy/v1/apply" "ApplyRequest" "ApplyResponse" false false]];
   [mkServiceDesc "rat.runtime.v1" "RuntimeService"
      [mkRpcDesc "Execute" "rat://runtime/v1/execute" "ExecuteRequest" "ExecuteResponse" true false]];
   [mkServiceDesc "rat.deploymentruntime.v1" "DeploymentRuntimeService"
      [mkRpcDesc "Launch" "rat://deployment-runtime/v1/launch" "LaunchRequest" "LaunchResponse" false false;
       mkRpcDesc "Terminate" "rat://deployment-runtime/v1/terminate" "TerminateRequest" "TerminateResponse" false false;
       mkRpcDesc "Healthcheck" "rat://deployment-runtime/v1/healthcheck" "HealthcheckRequest" "HealthcheckResponse" false false]];
   [mkServiceDesc "rat.secret.v1" "SecretService"
      [mkRpcDesc "Resolve" "rat://secret/v1/resolve" "ResolveRequest" "ResolveResponse" false false]];
   [mkServiceDesc "rat.identity.v1" "IdentityService"
      [mkRpcDesc "Authenticate" "rat://identity/v1/authenticate" "AuthenticateRequest" "AuthenticateResponse" false false;
       mkRpcDesc "Authorize" "rat://identity/v1/authorize" "AuthorizeRequest" "AuthorizeResponse" false false]];
   [mkServiceDesc "rat.scheduler.v1" "SchedulerService"
      [mkRpcDesc "Schedule" "rat://scheduler/v1/schedule" "ScheduleRequest" "ScheduleResponse" false false;
       mkRpcDesc "Cancel" "rat://scheduler/v1/cancel" "CancelRequest" "CancelResponse" false false;
       mkRpcDesc "WatchDue" "rat://scheduler/v1/watch-due" "WatchDueRequest" "WatchDueResponse" true false]];
   [mkServiceDesc "rat.tenancy.v1" "TenancyService"
      [mkRpcDesc "Decide" "rat://tenancy/v1/decide" "DecideRequest" "DecideResponse" false false]];
   [mkServiceDesc "rat.billing.v1" "BillingService"
      [mkRpcDesc "Record" "rat://billing/v1/record" "RecordRequest" "RecordResponse" false false]];
   [mkServiceDesc "rat.observability.v1" "ObservabilityService"
      [mkRpcDesc "Ingest" "rat://observability/v1/ingest" "IngestRequest" "IngestResponse" true true]];
   [mkServiceDesc "rat.auditlog.v1" "AuditLogService"
      [mkRpcDesc "Append" "rat://auditlog/v1/append" "AppendRequest" "AppendResponse" false false]];
   [mkServiceDesc "rat.ui.v1" "UiService"
      [mkRpcDesc "Describe" "rat://ui/v1/describe" "DescribeRequest" "DescribeResponse" false false;
       mkRpcDesc "RenderSlot" "rat://ui/v1/render-slot" "RenderSlotRequest" "RenderSlotResponse" false false]];
   [mkServiceDesc "rat.notifications.v1" "NotificationsService"
      [mkRpcDesc "Send" "rat://notifications/v1/send" "SendRequest" "SendResponse" false false]];
   [mkServiceDesc "rat.marketplace.v1" "MarketplaceService"
      [mkRpcDesc "Search" "rat://marketplace/v1/search" "SearchRequest" "SearchResponse" false false;
       mkRpcDesc "Get" "rat://marketplace/v1/get" "GetRequest" "GetResponse" false false]]].

(** ** The listing *)

Record capInfo := mkCapInfo {
  ci_URI : string; ci_Axis : string; ci_Method : string; ci_In : string; ci_Out : string; ci_Cardinality : string;
}.

Definition cardinality (m : RpcDesc) : string :=
  if rd_ServerStream m && rd_ClientStream m then "bidi-stream"
  else if rd_ServerStream m then "server-stream"
  else if rd_ClientStream m then "client-stream" else "unary".

Definition cap_info (m : RpcDesc) : capInfo :=
  mkCapInfo (rd_Capability m) (capAxisOf (rd_Capability m)) (rd_Name m) (rd_In m) (rd_Out m) (cardinality m).

Definition annotated (fs : list AxisFile) : list RpcDesc :=
  List.filter (fun m => negb (bool_decide (rd_Capability m = ""))) (mjoin ((fun f => mjoin (as_Methods <$> f)) <$> fs)).

Definition uri_le (a b : capInfo) : Prop := String.le (ci_URI a) (ci_URI b).
#[export] Instance uri_le_dec a b : Decision (uri_le a b).
Proof. unfold uri_le. apply _. Defined.

(** [sort.Slice] is not stable; the order of equal URIs is left open by the source. *)
Definition allCapabilities (fs : list AxisFile) : list capInfo := merge_sort uri_le (cap_info <$> annotated fs).

Definition axisOfKind (kind : string) : string := default kind (kindToAxis !! kind).

(** The map of kinds is ranged over in any order: the answer is one of these. *)
Definition axisKinds (axis : string) : list string :=
  filter (fun kind => kind = axis \/ axisOfKind kind = axis) (elements knownKinds).

Definition of_axis (caps : list capInfo) (axis : string) : list capInfo :=
  List.filter (fun c => bool_decide (ci_Axis c = axis)) caps.
Definition axes_of (caps : list capInfo) : list string := sort_strings (remove_dups (ci_Axis <$> caps)).

(** The axis a filter, an axis or a kind, asks for. *)
Definition axis_filter (caps : list capInfo) (filter : string) : string :=
  if bool_decide (filter <> "") && bool_decide (filter ∈ knownKinds) then
    match of_axis caps (axisOfKind filter) with [] => filter | _ => axisOfKind filter end
  else filter.

(** What is printed: per axis, its capabilities. *)
Definition runCapabilities (fs : list AxisFile) (filter : string) : result (list (string * list capInfo)) :=
  let caps := allCapabilities fs in
  let axis := axis_filter caps filter in
  if decide (axis = "") then Ok ((fun a => (a, of_axis caps a)) <$> axes_of caps)
  else match of_axis caps axis with
       | [] => Err (Errorf "no axis %q linked into this rat — axes: %s (a kind like %q works too)"
                      [axis; Join (axes_of caps) " "; "state-backend"])
       | l => Ok [(axis, l)]
       end.

Definition pluralEs (n : nat) : string := if (n =? 1)%nat then "is" else "es".

(** The line under the listing. *)
Definition capabilities_total (shown : list (string * list capInfo)) : string * list string :=
  let total := length (mjoin shown.*2) in
  ("%d capabilit%s across %d ax%s (the registry compiled into this rat — what `rat plugin check` and the gateway enforce)",
   [itoa (Z.of_nat total); plural total; itoa (Z.of_nat (length shown)); pluralEs (length shown)]).

(** ** The two lookups agree *)

(** The annotated methods, as the pairs the route table is built from. *)
Definition capability_paths (rpcs : list Rpc) : list (string * string) :=
  (fun r => (rpc_Capability r, rpc_Path r)) <$> List.filter (fun r => negb (bool_decide (rpc_Capability r = ""))) rpcs.
Definition insert_pair (rs : gmap string string) (kv : string * string) : gmap string string := <[kv.1 := kv.2]> rs.

Lemma fold_methods fn (f : gmap string string -> MethodDesc -> gmap string string) ms :
  (forall rs m, f rs m = if decide (method_Capability m = "") then rs else <[method_Capability m := "/" +:+ fn +:+ "/" +:+ method_Name m]> rs) ->
  forall rs, fold_left f ms rs = fold_left insert_pair
    ((fun m => (method_Capability m, "/" +:+ fn +:+ "/" +:+ method_Name m)) <$>
       List.filter (fun m => negb (bool_decide (method_Capability m = ""))) ms) rs.
Proof.
  intros Hf. induction ms as [|m ms IH]; intros rs; [done|]. cbn [fold_left List.filter]. rw Hf.
  destruct (decide (method_Capability m = "")) as [E|E].
  - rw bool_decide_eq_true_2; [apply IH|done].
  - rw bool_decide_eq_false_2; [|done]. cbn [negb fmap list_fmap fold_left]. by rw IH.
Qed.

Lemma capability_paths_app a b : capability_paths (a ++ b) = capability_paths a ++ capability_paths b.
Proof. unfold capability_paths. by rewrite List.filter_app fmap_app. Qed.

Lemma service_fold s rs :
  svc_routes (mkService (FullName s) ((fun m => mkMethod (rd_Name m) (rd_Capability m)) <$> as_Methods s)) rs =
  fold_left insert_pair (capability_paths (service_rpcs s)) rs.
Proof.
  unfold svc_routes. cbn [svc_Methods svc_FullName]. rewrite (fold_methods (FullName s)); [|done]. f_equal.
  unfold capability_paths, service_rpcs, rpc_path. induction (as_Methods s) as [|m ms IH]; [done|].
  rewrite !fmap_cons. cbn [List.filter method_Capability rpc_Capability].
  destruct (negb _); [|exact IH]. rewrite !fmap_cons. by f_equal.
Qed.

Lemma buildRoutes_pairs fs :
  buildRoutes (gateway_file <$> fs) = fold_left insert_pair (capability_paths (linked_rpcs fs)) ∅.
Proof.
  unfold buildRoutes, linked_rpcs. generalize (∅ : gmap string string). induction fs as [|f fs IH]; intros rs; [done|].
  rewrite !fmap_cons. cbn [fold_left mjoin list_join]. rewrite capability_paths_app fold_left_app IH. f_equal. clear IH fs.
  unfold gateway_file, file_rpcs. revert rs. induction f as [|s f IH]; intros rs; [done|].
  rewrite !fmap_cons. cbn [fold_left mjoin list_join]. by rewrite capability_paths_app fold_left_app service_fold IH.
Qed.

Lemma fold_insert_pairs l rs :
  NoDup l.*1 -> fold_left insert_pair l rs = list_to_map l ∪ rs.
Proof.
  revert rs. induction l as [|[k v] l IH]; intros rs Hn; [by rewrite left_id_L|]. apply NoDup_cons in Hn as [Hk Hn].
  cbn [fold_left]. rewrite IH //. unfold insert_pair. simpl. rewrite -insert_union_r; [by rewrite insert_union_l|].
  by apply not_elem_of_list_to_map_1.
Qed.

Lemma capability_paths_elem rpcs c p :
  (c, p) ∈ capability_paths rpcs <-> c <> "" /\ exists r, r ∈ rpcs /\ rpc_Capability r = c /\ rpc_Path r = p.
Proof.
  unfold capability_paths. rewrite list_elem_of_fmap. setoid_rewrite list_elem_of_In. setoid_rewrite filter_In. split.
  - intros (r & [= -> ->] & Hr & Hc). apply negb_true_iff, bool_decide_eq_false in Hc. split; [done|]. by exists r.
  - intros (Hc & r & Hr & <- & <-). exists r. split_and!; [done|done|]. by apply negb_true_iff, bool_decide_eq_false.
Qed.

Lemma resolveMethod_elem rpcs c :
  match resolveMethod rpcs c with
  | Ok r => r ∈ rpcs /\ rpc_Capability r = c
  | Err _ => forall r, r ∈ rpcs -> rpc_Capability r <> c
  end.
Proof.
  unfold resolveMethod. destruct (List.find _ rpcs) as [r|] eqn:E.
  - apply find_some in E as [Hr Hc%bool_decide_eq_true]. by rewrite list_elem_of_In.
  - intros r Hr Hc. rewrite list_elem_of_In in Hr. apply (find_none _ _ E) in Hr. by apply bool_decide_eq_false in Hr.
Qed.

(** No capability is declared twice. *)
Definition unambiguous (fs : list AxisFile) : Prop := NoDup (capability_paths (linked_rpcs fs)).*1.
#[export] Instance unambiguous_dec fs : base.Decision (unambiguous fs) := NoDup_dec _.

Lemma capability_paths_perm a b : a ≡ₚ b -> capability_paths a ≡ₚ capability_paths b.
Proof.
  intros Hp. unfold capability_paths. f_equiv. induction Hp as [|x a b _ IH|x y a|a b c _ IH1 _ IH2]; cbn [List.filter].
  - done.
  - destruct (negb _); [by f_equiv|done].
  - destruct (negb _), (negb _); by try constructor.
  - by etrans.
Qed.

Definition route (fs : list AxisFile) (c : string) : option string := buildRoutes (gateway_file <$> fs) !! c.
Definition resolved (fs : list AxisFile) (c : string) : option string :=
  match resolveMethod (linked_rpcs fs) c with Ok r => Some (rpc_Path r) | Err _ => None end.

(** Both lookups are membership among the annotated methods. *)
Lemma route_elem fs c p : unambiguous fs -> route fs c = Some p <-> (c, p) ∈ capability_paths (linked_rpcs fs).
Proof.
  intros Hu. unfold route. rewrite buildRoutes_pairs fold_insert_pairs // right_id_L. by rewrite -elem_of_list_to_map.
Qed.
Lemma resolved_elem fs c p :
  unambiguous fs -> c <> "" -> resolved fs c = Some p <-> (c, p) ∈ capability_paths (linked_rpcs fs).
Proof.
  intros Hu Hc. unfold resolved. pose proof (resolveMethod_elem (linked_rpcs fs) c) as Hr.
  destruct (resolveMethod (linked_rpcs fs) c) as [r|].
  - destruct Hr as [Hr Hrc]. assert ((c, rpc_Path r) ∈ capability_paths (linked_rpcs fs)) as Hin.
    { apply capability_paths_elem. split; [done|]. by exists r. }
    split; [by intros [= <-]|]. intros Hp. f_equal.
    assert (list_to_map (M := gmap string string) (capability_paths (linked_rpcs fs)) !! c = Some (rpc_Path r)) as E1 by by apply elem_of_list_to_map.
    assert (list_to_map (M := gmap string string) (capability_paths (linked_rpcs fs)) !! c = Some p) as E2 by by apply elem_of_list_to_map.
    congruence.
  - split; [done|]. intros (_ & r & H1 & H2 & _)%capability_paths_elem. by destruct (Hr r H1).
Qed.

(** The gateway routes a capability exactly when the authoring tools resolve it, and to the
    method they resolve it to: over descriptors that declare no capability twice, looking a
    capability up in the route table, where the last declaration wins, and searching the
    descriptors, where the first one wins, give the same method, in whatever order the files
    are ranged over. *)
Theorem routes_are_resolution (fs fs' : list AxisFile) (c : string) :
  unambiguous fs -> fs ≡ₚ fs' -> c <> "" ->
  route fs' c = resolved fs' c /\ route fs' c = route fs c /\ resolved fs' c = resolved fs c.
Proof.
  intros Hu Hp Hc. assert (capability_paths (linked_rpcs fs) ≡ₚ capability_paths (linked_rpcs fs')) as Hl.
  { apply capability_paths_perm. unfold linked_rpcs. by rewrite Hp. }
  assert (unambiguous fs') as Hu' by (unfold unambiguous in *; by rewrite -Hl).
  split_and!; apply option_eq; intros p; rewrite ?route_elem ?resolved_elem //; by rewrite Hl.
Qed.

(** Over the axes a rat links: no capability is declared twice, every one is a well-formed
    URI, and each known kind serves at least one capability of its axis, except the
    deployment runtime, whose axis is looked up under another name. *)
Lemma routable_unambiguous : unambiguous routableDescriptors.
Proof. apply (bool_decide_eq_true_1 (unambiguous routableDescriptors)). vm_compute. reflexivity. Qed.

Lemma routable_wf : Forall (fun m => ValidCapabilityURI (rd_Capability m) = true) (annotated routableDescriptors).
Proof. apply Forall_forall. intros m Hm. vm_compute in Hm. apply list_elem_of_In in Hm. simpl in Hm. by repeat destruct Hm as [<-|Hm]. Qed.

Lemma routes_are_resolution_witness :
  route (reverse routableDescriptors) "rat://format/v1/scan" = Some "/rat.format.v1.FormatService/Resolve" /\
  resolved (reverse routableDescriptors) "rat://format/v1/scan" = Some "/rat.format.v1.FormatService/Resolve".
Proof.
  destruct (routes_are_resolution routableDescriptors (reverse routableDescriptors) "rat://format/v1/scan")
    as (E1 & E2 & E3); [apply routable_unambiguous|symmetry; apply reverse_Permutation|discriminate|].
  rewrite E2 E3. split; vm_compute; reflexivity.
Defined.
