(* ===== verification/Authoring.v ===== *)
(** Scaffolding a plugin and watching its directory (src/core/cmd/rat/plugin.go and
    plugindev.go).  The texts of the scaffold other than the manifest, which are those of
    Scaffold, and the YAML decoder are parameters. *)
From S2P Require Import Prelude Paths Manifest Registry Plane Marketplace Project Validate Axes.

(** ** Scaffolding *)

(** On ASCII names. *)
Definition canonicalLang (s : string) : option string :=
  let l := str_map lower_byte s in
  if decide (l = "py" \/ l = "python") then Some "python"
  else if decide (l = "go" \/ l = "golang") then Some "go"
  else if decide (l = "ts" \/ l = "typescript") then Some "typescript"
  else if decide (l = "rs" \/ l = "rust") then Some "rust"
  else None.

(** The capabilities of the axis a kind is scaffolded for. *)
Definition axis_caps (linked : list Rpc) (axis : string) : list string :=
  rpc_Capability <$> List.filter (fun m => negb (bool_decide (rpc_Capability m = "")) &&
                                          bool_decide (capAxisOf (rpc_Capability m) = axis)) linked.

Definition provides_lines (caps : list string) : list string :=
  match caps with
  | [] => ["provides: []   # this axis is a driver shape, or its proto isn't linked into rat"]
  | _ => "provides:   # the axis's capabilities — delete any you don't implement (a driver keeps none)"
           :: ((fun c => "  - capability: " +:+ c) <$> caps)
  end.

Definition q (s : string) : string := dq +:+ s +:+ dq.

Definition manifest_lines (name kind lang : string) (caps : list string) : list string :=
  ["# " +:+ name +:+ " — a rat " +:+ kind +:+ " plugin (" +:+ lang +:+ "). Scaffolded by `rat plugin init` (ADR-026).";
   "api_version: rat/1"; "kind: " +:+ kind; "metadata:"; "  name: " +:+ name; "  version: 0.1.0";
   "compatible_core: [" +:+ q "rat/1" +:+ "]"] ++ provides_lines caps ++
  ["resources:"; "  requests:"; "    cpu: " +:+ q "50m"; "    memory: " +:+ q "64Mi";
   "  limits:"; "    cpu: " +:+ q "500m"; "    memory: " +:+ q "256Mi"].

Definition lang_files (lang : string) : list string :=
  if decide (lang = "go") then ["main.go"; "go.mod"; "Dockerfile"; ".gitignore"]
  else if decide (lang = "typescript") then ["main.ts"; "package.json"; "tsconfig.json"; "Dockerfile"; ".gitignore"]
  else if decide (lang = "rust") then ["src/main.rs"; "Cargo.toml"; "Dockerfile"; ".gitignore"]
  else ["server.py"; "main.py"; "requirements.txt"; "Dockerfile"; ".gitignore"].

Section Init.
Context (linked : list Rpc).
(** The text of every other file, by its path. *)
Context (text : string -> string -> string -> string -> string).

Definition scaffold (name kind lang : string) : list (string * string) :=
  ("manifest.yaml", unlines (manifest_lines name kind lang (axis_caps linked (axisForKind kind)))) ::
  ((fun rel => (rel, text name kind lang rel)) <$>
     (["README.md"; "ci.sh"; ".github/workflows/plugin.yml"] ++ lang_files lang)).

Definition write_scaffold (target : string) (fs : files) (f : string * string) : files :=
  <[filepath_Join [target; f.1] := f.2]> fs.

(** After its flags; an empty directory stands for the name. *)
Definition runPluginInit (fs : files) (name kind lang dir : string) : result files :=
  if bool_decide (name = "") || bool_decide (kind = "") then
    Err (Errorf "usage: rat plugin init <name> --kind <kind> [--lang python|go|typescript|rust] [--dir <path>]" [])
  else if decide (kind ∈ knownKinds) then
    match canonicalLang lang with
    | None => Err (Errorf "--lang %q not supported (use: python | go | typescript | rust)" [lang])
    | Some canonLang =>
        let target := if decide (dir = "") then name else dir in
        match fs !! filepath_Join [target; "manifest.yaml"] with
        | Some _ => Err (Errorf "%s/manifest.yaml already exists" [target])
        | None => Ok (fold_left (write_scaffold target) (scaffold name kind canonLang) fs)
        end
    end
  else Err (Errorf "unknown kind %q (must be one of the 18 axes — see plugin-architecture.md)" [kind]).
End Init.

(** ** The static gate as a command *)
Section Check.
Context (linked : list Rpc) (fields_of : string -> list FieldDescriptor).
Context (yaml_Unmarshal : string -> result Manifest) (filepath_Glob : string -> result (list string)).

Definition check_path (fs : files) (dir : string) : result string :=
  let path := filepath_Join [dir; "manifest.yaml"] in
  match fs !! path with
  | Some _ => Ok path
  | None => match filepath_Glob (filepath_Join [dir; "*.plugin.yaml"]) with
            | Ok (m :: _) => Ok m
            | _ => Err (Errorf "no manifest.yaml (or *.plugin.yaml) in %s" [dir])
            end
  end.

(** The capabilities the gate could not look up. *)
Definition unverified (m : Manifest) : nat :=
  length (List.filter (fun c => negb (linkedAxes linked (capAxisOf c))) (Manifest_ProvidesCaps m ++ Manifest_RequiresCaps m)).

Definition check_report (m : Manifest) : message :=
  let u := unverified m in
  let note := if (0 <? u)%nat
              then " (" +:+ itoa (Z.of_nat u) +:+ " capabilit" +:+ plural u +:+ " unverified — their axis isn't compiled into this rat)"
              else "" in
  ("✓ %s (%s) — manifest + deps valid: %d provides, %d requires%s",
   [name_of m; Kind m; itoa (Z.of_nat (length (Provides m))); itoa (Z.of_nat (length (Requires m))); note]).

(** [rat plugin check [dir]]: the error it ends with, or what it prints. *)
Definition plugin_check (fs : files) (args : list string) : option (result message) :=
  let dir := match args with a :: _ => if HasPrefix a "-" then "." else a | [] => "." end in
  match (let? path := check_path fs dir in Load yaml_Unmarshal (os_ReadFile fs) path) with
  | Err e => Some (Err e)
  | Ok m =>
      r ← runPluginCheck linked fields_of m;
      Some (match r with Some e => Err e | None => Ok (check_report m) end)
  end.
End Check.

(** The manifest the text spells. *)
Definition scaffolded (name kind : string) (caps : list string) : Manifest :=
  mkManifest "rat/1" kind (mkMetadata name "0.1.0" ∅) ["rat/1"] (mkRef <$> caps) [] []
    (mkResources (mkQuantities "50m" "64Mi") (mkQuantities "500m" "256Mi")) [] (mkContributes []) "".

(** ** The watch loop *)

(** A watched directory: files with their size and modification time. *)
Inductive wnode := WDir (entries : list (string * wnode)) | WFile (size mtime : Z).

Definition devSkipDirs : list string := [".git"; ".rat"; "__pycache__"; "node_modules"; "bin"; "dist"; ".venv"].

Definition file_line (path : string) (size mtime : Z) : string :=
  path +:+ "|" +:+ itoa size +:+ "|" +:+ itoa mtime +:+ String nl "".

(** What is hashed for an entry of a directory. *)
Fixpoint watched (path name : string) (n : wnode) : string :=
  match n with
  | WDir es =>
      if bool_decide (name ∈ devSkipDirs) then ""
      else (fix go es := match es with
                         | [] => ""
                         | (name, n) :: es => watched (filepath_Join [path; name]) name n +:+ go es
                         end) es
  | WFile size mtime => if HasSuffix path ".pyc" then "" else file_line path size mtime
  end.

(** FNV-1a on 64 bits. *)
Definition fnv_byte (h : Z) (a : ascii) : Z := (Z.lxor h (Z.of_nat (nat_of_ascii a)) * 1099511628211) mod 2^64.
Fixpoint fnv64a (h : Z) (s : string) : Z := match s with "" => h | String a s => fnv64a (fnv_byte h a) s end.

(** The root itself is never skipped. *)
Definition dirDigest (dir : string) (entries : list (string * wnode)) : Z :=
  fnv64a 14695981039346656037 (watched dir "" (WDir entries)).

Example dirDigest_skips :
  dirDigest "p" [(".git", WDir [("HEAD", WFile 3 9)]); ("main.py", WFile 10 5); ("x.pyc", WFile 1 1)] = dirDigest "p" [("main.py", WFile 10 5)] /\
  dirDigest "p" [("main.py", WFile 10 6)] <> dirDigest "p" [("main.py", WFile 10 5)].
Proof. split; [by vm_compute|]. vm_compute. discriminate. Qed.

(** One round: the digest read at its head, and the one read again after the gates.  Returns
    the digest remembered, and whether the gates ran. *)
Definition dev_round (dir : string) (last : Z) (d d2 : result Z) : result (Z * bool) :=
  match d with
  | Err e => Err (Wrap "watch %s: %w" [dir] e)
  | Ok d => if d =? last then Ok (last, false)
            else Ok (match d2 with Ok d2 => d2 | Err _ => d end, true)
  end.

(** The rounds of a watch; the digests the gates ran on. *)
Fixpoint dev_rounds (dir : string) (last : Z) (rounds : list (result Z * result Z)) : result (list (option Z)) :=
  match rounds with
  | [] => Ok []
  | (d, d2) :: rounds =>
      let? lr := dev_round dir last d d2 in
      let? rest := dev_rounds dir lr.1 rounds in
      Ok ((if lr.2 : bool then match d with Ok d => Some d | Err _ => None end else None) :: rest)
  end.
Definition runPluginDev (dir : string) (rounds : list (result Z * result Z)) : result (list (option Z)) :=
  dev_rounds dir 0 rounds.

(** ** What init leaves *)

Definition scaffold_rels (lang : string) : list string :=
  "manifest.yaml" :: ["README.md"; "ci.sh"; ".github/workflows/plugin.yml"] ++ lang_files lang.

Lemma scaffold_names linked text name kind lang : (scaffold linked text name kind lang).*1 = scaffold_rels lang.
Proof. unfold scaffold. cbn [fmap list_fmap fst]. unfold scaffold_rels. f_equal. rewrite -list_fmap_compose. by rewrite list_fmap_id. Qed.

Lemma scaffold_rels_plain lang : Forall (fun rel => forallb plain_comp (Split "/" rel) = true) (scaffold_rels lang).
Proof. unfold scaffold_rels, lang_files. repeat case_decide; repeat constructor. Qed.
Lemma scaffold_rels_distinct lang : NoDup (Split "/" <$> scaffold_rels lang).
Proof.
  unfold scaffold_rels, lang_files. repeat case_decide;
    apply (bool_decide_eq_true_1 (NoDup _)); vm_compute; reflexivity.
Qed.

Lemma write_other target fs l p :
  (forall f, f ∈ l -> filepath_Join [target; f.1] <> p) -> fold_left (write_scaffold target) l fs !! p = fs !! p.
Proof.
  revert fs. induction l as [|f l IH]; intros fs Hl; [done|]. cbn [fold_left]. rewrite IH.
  - unfold write_scaffold. rewrite lookup_insert_ne; [done|]. apply Hl. left.
  - intros g Hg. apply Hl. by right.
Qed.

Lemma write_first target fs rel txt l :
  target <> "" -> Forall (fun r => forallb plain_comp (Split "/" r) = true) (rel :: l.*1) ->
  NoDup (Split "/" <$> rel :: l.*1) ->
  fold_left (write_scaffold target) ((rel, txt) :: l) fs !! filepath_Join [target; rel] = Some txt.
Proof.
  intros Ht Hp Hn. cbn [fold_left]. rewrite write_other.
  - unfold write_scaffold. cbn [fst snd]. by rewrite lookup_insert_eq.
  - intros f Hf E. apply Forall_cons in Hp as [Hp1 Hp]. rewrite fmap_cons in Hn. apply NoDup_cons in Hn as [Hn _].
    apply Hn. assert (f.1 ∈ l.*1) as Hin by by apply list_elem_of_fmap_2. rewrite Forall_forall in Hp.
    apply Join_rel_inj in E; [|done|by apply Hp|done]. rewrite -E. by apply list_elem_of_fmap_2.
Qed.

(** The scaffold of every kind but one passes the static gate. *)
Lemma scaffolded_checks fields_of name kind p :
  kind ∈ knownKinds ->
  let m := scaffolded name kind (axis_caps (linked_rpcs routableDescriptors) (axisForKind kind)) in
  runPluginCheck (linked_rpcs routableDescriptors) fields_of (set_Path p m) =
  Some (if decide (kind = "deployment-runtime")
        then Some (Errorf "check failed: %s declares neither `provides` nor `requires` — a plugin must do something (a provider provides capabilities; a driver requires them; see ADR-039)" [name])
        else None).
Proof.
  unfold knownKinds. rewrite elem_of_list_to_set. intros H.
  repeat (apply elem_of_cons in H as [->|H]; [vm_compute; reflexivity|]). by apply elem_of_nil in H.
Qed.

Lemma scaffolded_valid name kind :
  name <> "" -> kind ∈ knownKinds ->
  Manifest_Validate (scaffolded name kind (axis_caps (linked_rpcs routableDescriptors) (axisForKind kind))) = None.
Proof.
  intros Hn. unfold knownKinds. rewrite elem_of_list_to_set. intros H.
  unfold Manifest_Validate. cbn [Kind Meta md_Name scaffolded]. rewrite (decide_False (P := name = "")) //.
  repeat (apply elem_of_cons in H as [->|H]; [vm_compute; reflexivity|]). by apply elem_of_nil in H.
Qed.

Lemma scaffolded_verified name kind p : kind ∈ knownKinds ->
  unverified (linked_rpcs routableDescriptors)
    (set_Path p (scaffolded name kind (axis_caps (linked_rpcs routableDescriptors) (axisForKind kind)))) = 0%nat.
Proof.
  unfold knownKinds. rewrite elem_of_list_to_set. intros H.
  repeat (apply elem_of_cons in H as [->|H]; [vm_compute; reflexivity|]). by apply elem_of_nil in H.
Qed.

Lemma scaffolded_report linked name kind caps p :
  unverified linked (set_Path p (scaffolded name kind caps)) = 0%nat ->
  check_report linked (set_Path p (scaffolded name kind caps)) =
  ("✓ %s (%s) — manifest + deps valid: %d provides, %d requires%s", [name; kind; itoa (Z.of_nat (length caps)); "0"; ""]).
Proof. intros H. unfold check_report. rewrite H. simpl. by rewrite length_fmap. Qed.

(** A scaffolded plugin is ready to build.  When init succeeds the directory held no manifest,
    only the files of the scaffold are written, and the manifest written loads and passes
    the static gate, over the axes a rat links, for every known kind but one: a deployment
    runtime is scaffolded without the capabilities of its axis, and the gate refuses it. *)
Theorem init_then_check text yaml_Unmarshal fields_of fs name kind lang dir fs' :
  runPluginInit (linked_rpcs routableDescriptors) text fs name kind lang dir = Ok fs' ->
  (forall l, let caps := axis_caps (linked_rpcs routableDescriptors) (axisForKind kind) in
     yaml_Unmarshal (unlines (manifest_lines name kind l caps)) = Ok (scaffolded name kind caps)) ->
  let target := if decide (dir = "") then name else dir in
  let p := filepath_Join [target; "manifest.yaml"] in
  kind ∈ knownKinds /\ fs !! p = None /\
  (exists l, canonicalLang lang = Some l /\
     forall other, (forall rel, rel ∈ scaffold_rels l -> filepath_Join [target; rel] <> other) -> fs' !! other = fs !! other) /\
  let m := set_Path p (scaffolded name kind (axis_caps (linked_rpcs routableDescriptors) (axisForKind kind))) in
  Load yaml_Unmarshal (os_ReadFile fs') p = Ok m /\
    runPluginCheck (linked_rpcs routableDescriptors) fields_of m =
    Some (if decide (kind = "deployment-runtime")
          then Some (Errorf "check failed: %s declares neither `provides` nor `requires` — a plugin must do something (a provider provides capabilities; a driver requires them; see ADR-039)" [name])
          else None).
Proof.
  intros Hi Hy target p. unfold runPluginInit in Hi. destruct (_ || _) eqn:E0; [done|].
  apply orb_false_iff in E0 as [Hn%bool_decide_eq_false Hk0%bool_decide_eq_false].
  destruct (decide (kind ∈ knownKinds)) as [Hk|]; [|done]. destruct (canonicalLang lang) as [l|] eqn:El; [|done].
  fold target p in Hi. destruct (fs !! p) eqn:Ep; [done|].
  remember (fold_left _ _ fs) as out eqn:Eo in Hi. injection Hi as <-. subst out. split_and!; [exact Hk|done| |].
  - exists l. split; [done|]. intros other Ho. apply write_other. intros f Hf. apply Ho.
    rewrite -(scaffold_names (linked_rpcs routableDescriptors) text name kind). by apply list_elem_of_fmap_2.
  - split; [|by apply scaffolded_checks]. unfold Load, os_ReadFile. unfold p at 1.
    assert (target <> "") as Ht by (unfold target; by case_decide).
    pose proof (scaffold_names (linked_rpcs routableDescriptors) text name kind l) as Hs.
    pose proof (scaffold_rels_plain l) as Hp. pose proof (scaffold_rels_distinct l) as Hd. rewrite -Hs in Hp Hd.
    unfold scaffold in *. rewrite write_first //. unfold Parse. rewrite Hy scaffolded_valid //.
Qed.

(** The author's first two commands: init in an empty place, then check of what it wrote,
    which reports every capability of the axis as provided and none as unverified. *)
Theorem init_then_plugin_check text yaml_Unmarshal fields_of glob fs name kind lang dir fs' :
  let caps := axis_caps (linked_rpcs routableDescriptors) (axisForKind kind) in
  let target := if decide (dir = "") then name else dir in
  runPluginInit (linked_rpcs routableDescriptors) text fs name kind lang dir = Ok fs' ->
  (forall l, yaml_Unmarshal (unlines (manifest_lines name kind l caps)) = Ok (scaffolded name kind caps)) ->
  kind <> "deployment-runtime" -> HasPrefix target "-" = false ->
  plugin_check (linked_rpcs routableDescriptors) fields_of yaml_Unmarshal glob fs' [target] =
  Some (Ok ("✓ %s (%s) — manifest + deps valid: %d provides, %d requires%s",
            [name; kind; itoa (Z.of_nat (length caps)); "0"; ""])).
Proof.
  intros caps target Hi Hy Hk Ht. destruct (init_then_check text yaml_Unmarshal fields_of fs name kind lang dir fs' Hi Hy)
    as (Hkn & _ & _ & Hl & Hc). cbv zeta in Hl, Hc. fold caps target in Hl, Hc. rewrite decide_False // in Hc. unfold plugin_check. rewrite Ht.
  assert (fs' !! filepath_Join [target; "manifest.yaml"] <> None) as Hf.
  { intros E. unfold Load, os_ReadFile in Hl. by rewrite E in Hl. }
  unfold check_path. destruct (fs' !! filepath_Join _) eqn:E; [|done]. cbn [result_bind]. rewrite Hl Hc. cbn [mbind option_bind].
  do 2 f_equal. apply scaffolded_report. by apply scaffolded_verified.
Qed.

(** ** What the watch loop checks *)

(** When nothing changes while the gates run, they run exactly on the looks that differ from
    the one before: what is on disk at a look is what was last checked. *)
Lemma dev_quiet dir last ds :
  dev_rounds dir last ((fun d => (Ok d, Ok d)) <$> ds) =
  Ok (zip_with (fun prev d => if decide (d = prev) then None else Some d) (last :: ds) ds).
Proof.
  revert last. induction ds as [|d ds IH]; intros last; [done|]. rewrite fmap_cons. cbn [dev_rounds dev_round].
  destruct (Z.eqb_spec d last) as [->|Hd]; cbn [result_bind fst snd zip_with]; rewrite IH; cbn [result_bind].
  - by rewrite decide_True.
  - by rewrite decide_False.
Qed.

(** An edit saved while the gates run is never checked: the digest is read again after them,
    and the edited content, unless it changes again, never triggers another run. *)
Theorem dev_misses_edit dir before edited n :
  before <> 0 -> before <> edited ->
  runPluginDev dir ((Ok before, Ok edited) :: repeat (Ok edited, Ok edited) n) = Ok (Some before :: repeat None n).
Proof.
  intros H0 Hne. unfold runPluginDev. cbn [dev_rounds dev_round].
  destruct (Z.eqb_spec before 0) as [|_]; [done|]. cbn [result_bind fst snd].
  assert (dev_rounds dir edited (repeat (Ok edited, Ok edited) n) = Ok (repeat None n)) as ->; [|done].
  induction n as [|n IH]; [done|]. cbn [repeat dev_rounds dev_round]. rewrite Z.eqb_refl. cbn [result_bind fst snd].
  by rewrite IH.
Qed.

Definition demo_init (kind dir : string) (fs : files) : result files :=
  runPluginInit (linked_rpcs routableDescriptors) (fun _ _ _ rel => rel) fs "demo" kind "Py" dir.
Definition demo_decode (kind raw : string) : result Manifest :=
  Ok (scaffolded "demo" kind (axis_caps (linked_rpcs routableDescriptors) (axisForKind kind))).

Lemma init_then_check_witness :
  (exists fs' m, demo_init "state-backend" "" ∅ = Ok fs' /\ length (elements (dom fs')) = 9%nat /\
     Load (demo_decode "state-backend") (os_ReadFile fs') "demo/manifest.yaml" = Ok m /\
     runPluginCheck (linked_rpcs routableDescriptors) (fun _ => []) m = Some None) /\
  (exists fs' m e, demo_init "deployment-runtime" "rt" ∅ = Ok fs' /\
     Load (demo_decode "deployment-runtime") (os_ReadFile fs') "rt/manifest.yaml" = Ok m /\
     runPluginCheck (linked_rpcs routableDescriptors) (fun _ => []) m = Some (Some e)).
Proof.
  assert (forall kind dir, is_Ok (demo_init kind dir ∅) = true -> exists fs', demo_init kind dir ∅ = Ok fs') as Hok.
  { intros kind dir H. destruct (demo_init kind dir ∅) as [fs'|e]; [exists fs'; reflexivity|discriminate H]. }
  split.
  - destruct (Hok "state-backend" "") as [fs' E]; [vm_compute; reflexivity|].
    destruct (init_then_check (fun _ _ _ rel => rel) (demo_decode "state-backend") (fun _ => []) ∅ "demo" "state-backend" "Py" "" fs' E)
      as (_ & _ & _ & Hl & Hc); [intros l; reflexivity|].
    exists fs'. eexists. split; [exact E|]. split; [|split; [exact Hl|exact Hc]].
    assert (length (elements (dom (match demo_init "state-backend" "" ∅ with Ok f => f | Err _ => ∅ end))) = 9%nat) as Hn
      by (vm_compute; reflexivity).
    rewrite E in Hn. exact Hn.
  - destruct (Hok "deployment-runtime" "rt") as [fs' E]; [vm_compute; reflexivity|].
    destruct (init_then_check (fun _ _ _ rel => rel) (demo_decode "deployment-runtime") (fun _ => []) ∅ "demo" "deployment-runtime" "Py" "rt" fs' E)
      as (_ & _ & _ & Hl & Hc); [intros l; reflexivity|].
    exists fs'. eexists. eexists. split; [exact E|]. split; [exact Hl|exact Hc].
Defined.

Lemma init_then_plugin_check_witness : exists fs',
  demo_init "state-backend" "" ∅ = Ok fs' /\
  plugin_check (linked_rpcs routableDescriptors) (fun _ => []) (demo_decode "state-backend") (fun _ => Ok []) fs' ["demo"] =
  Some (Ok ("✓ %s (%s) — manifest + deps valid: %d provides, %d requires%s", ["demo"; "state-backend"; "6"; "0"; ""])).
Proof.
  assert (exists fs', demo_init "state-backend" "" ∅ = Ok fs') as [fs' E].
  { destruct (demo_init "state-backend" "" ∅) as [fs'|e] eqn:E; [by exists fs'|].
    assert (is_Ok (demo_init "state-backend" "" ∅) = true) as H by (vm_compute; reflexivity). rewrite E in H. discriminate H. }
  exists fs'. split; [exact E|].
  assert (itoa (Z.of_nat (length (axis_caps (linked_rpcs routableDescriptors) (axisForKind "state-backend")))) = "6") as En by evaluated.
  pose proof (init_then_plugin_check (fun _ _ _ rel => rel) (demo_decode "state-backend") (fun _ => []) (fun _ => Ok []) ∅ "demo" "state-backend" "Py" "" fs' E
    (fun _ => eq_refl) ltac:(discriminate) eq_refl) as H.
  cbv zeta in H. rewrite En in H. exact H.
Defined.

Lemma dev_misses_edit_witness :
  runPluginDev "." ((Ok 7, Ok 8) :: repeat (Ok 8, Ok 8) 3) = Ok [Some 7; None; None; None].
Proof. apply (dev_misses_edit "." 7 8 3); discriminate. Defined.
