(* ===== verification/Scaffold.v ===== *)
(** The sources that rat plugin init scaffolds beside the manifest (src/core/cmd/rat/plugin.go), a
    text per file and language, as Authoring writes them.  [proto_Path] is the path of the
    proto file that declares a service. *)
From S2P Require Import Prelude Paths Manifest Gateway Plane Marketplace Project Validate Axes Authoring.

(** ** Templates *)

(** [fill]: the replacer tries both placeholders at every byte, the name's first; [skip] is
    what is left of a placeholder that was replaced. *)
Fixpoint fill_from (name kind : string) (skip : nat) (tmpl : string) : string :=
  match tmpl with
  | "" => ""
  | String a s =>
      match skip with
      | S skip => fill_from name kind skip s
      | O => if HasPrefix tmpl "__NAME__" || HasPrefix tmpl "__KIND__"
             then (if HasPrefix tmpl "__NAME__" then name else kind) +:+ fill_from name kind 7 s
             else String a (fill_from name kind 0 s)
      end
  end.
Definition fill (tmpl name kind : string) : string := fill_from name kind 0 tmpl.

Definition tab : string := bytes [9]%nat.

Definition ci_text : string :=
  unlines
   ["#!/bin/sh";
    "# ci.sh — the portable plugin CI/CD steps (ADR-026). The logic lives in rat verbs, so this";
    "# runs unchanged on GitHub Actions, GitLab CI, or anywhere that can install rat + run shell.";
    "set -eu";
    "curl -fsSL https://github.com/squat-collective/rat-v3/releases/latest/download/install.sh | sh";
    "./rat plugin check";
    "./rat plugin pack";
    "# CD (on a tag): ./rat plugin publish"].

Definition workflow_text : string :=
  unlines
   ["# Plugin CI/CD (ADR-026) — a thin wrapper over the portable rat verbs (see ci.sh).";
    "name: plugin";
    "on:";
    "  push:";
    "    branches: [main]";
    "    tags: ['v*']";
    "  pull_request:";
    "jobs:";
    "  ci:";
    "    runs-on: ubuntu-latest";
    "    steps:";
    "      - uses: actions/checkout@v4";
    "      - name: install rat";
    "        run: curl -fsSL https://github.com/squat-collective/rat-v3/releases/latest/download/install.sh | sh";
    "      - name: check + pack";
    "        run: ./rat plugin check && ./rat plugin pack";
    "      - name: publish (tag → ghcr.io)            # CD: only on a version tag";
    "        if: startsWith(github.ref, 'refs/tags/v')";
    "        run: ./rat plugin publish --registry ghcr.io/${{ github.repository_owner }}"].

Definition py_dockerfile : string :=
  unlines
   ["# __NAME__ plugin image — FROM the published rat python base (the rat SDK + grpc baked in,";
    "# ADR-026/ADR-052). Your repo carries only its OWN code; no rat clone, no make. Pin the base";
    "# to a release tag (e.g. :6.21) for reproducible builds — :latest rides the newest SDK.";
    "# SDK hackers: a clone's `make plugin-base-py` builds localhost/rat/plugin-base-py:dev instead.";
    "FROM ghcr.io/squat-collective/rat-v3-plugin-base-py:latest";
    "WORKDIR /plugin";
    "COPY . /plugin/";
    "# your plugin's OWN extra deps (duckdb, boto3, …) go in requirements.txt; the rat SDK is already present.";
    "RUN pip install --no-cache-dir -r requirements.txt";
    "CMD [" +:+ dq +:+ "python" +:+ dq +:+ ", " +:+ dq +:+ "main.py" +:+ dq +:+ "]"].

Definition go_main : string :=
  unlines
   ["// __NAME__ — a rat __KIND__ plugin (Go). Implement your servicer + register it in Serve.";
    "// The rat SDK (gen stubs + the ratplugin runtime) is at /sdk via the build base; ships a tiny";
    "// static binary on scratch (the SDK is compiled in). See ADR-029 for ratplugin.";
    "package main";
    "";
    "import (";
    tab +:+ dq +:+ "github.com/squat-collective/rat-v3/contracts/sdks/go/ratplugin" +:+ dq;
    tab +:+ dq +:+ "google.golang.org/grpc" +:+ dq;
    tab +:+ "// TODO: import your axis stubs, e.g. secretv1 " +:+ dq +:+ "github.com/squat-collective/rat-v3/contracts/sdks/go/rat/secret/v1" +:+ dq;
    ")";
    "";
    "func main() {";
    tab +:+ "ratplugin.Serve(func(s grpc.ServiceRegistrar) {";
    tab +:+ tab +:+ "// TODO: register your servicer, e.g.";
    tab +:+ tab +:+ "//   secretv1.RegisterSecretServiceServer(s, &keyring{})";
    tab +:+ "})";
    "}"].

Definition go_dockerfile : string :=
  unlines
   ["# __NAME__ plugin image (Go) — built FROM the published rat Go SDK base (the gen SDK at /sdk,";
    "# replace'd in go.mod); ships a static binary on scratch (ADR-052: no rat clone, no make).";
    "# Pin the base to a release tag for reproducible builds — :latest rides the newest SDK.";
    "# (Or skip the base entirely: the SDK is also `go get`-able — see the authoring guide.)";
    "# SDK hackers: a clone's `make plugin-base-go` builds localhost/rat/plugin-base-go:dev instead.";
    "FROM ghcr.io/squat-collective/rat-v3-plugin-base-go:latest AS build";
    "ENV CGO_ENABLED=0 GOFLAGS=-mod=mod GOTOOLCHAIN=local";
    "WORKDIR /src";
    "COPY . .";
    "RUN go mod tidy && go build -trimpath -o /plugin .";
    "FROM scratch";
    "ENV RAT_PLUGIN_ADDR=0.0.0.0:50051";
    "COPY --from=build /plugin /plugin";
    "ENTRYPOINT [" +:+ dq +:+ "/plugin" +:+ dq +:+ "]"].

Definition go_mod : string :=
  unlines
   ["module __NAME__";
    "";
    "go 1.25";
    "";
    "require google.golang.org/grpc v1.81.1";
    "";
    "// the rat Go SDK — provided at /sdk by the plugin-base-go build image. Import the axis stubs";
    "// you need, e.g. secretv1 " +:+ dq +:+ "github.com/squat-collective/rat-v3/contracts/sdks/go/rat/secret/v1" +:+ dq +:+ "; `rat plugin pack` resolves it.";
    "replace github.com/squat-collective/rat-v3/contracts/sdks/go => /sdk"].

Definition ts_main : string :=
  unlines
   ["// __NAME__ — a rat __KIND__ plugin (TypeScript). Implement the servicer for your kind's";
    "// capabilities; see plugins/ for a reference of the same kind.";
    "import * as grpc from " +:+ dq +:+ "@grpc/grpc-js" +:+ dq +:+ ";";
    "";
    "const addr = process.env.RAT_PLUGIN_ADDR ?? " +:+ dq +:+ "0.0.0.0:50051" +:+ dq +:+ ";";
    "const server = new grpc.Server();";
    "// TODO: server.addService(<service>Definition, new MyServicer());";
    "server.bindAsync(addr, grpc.ServerCredentials.createInsecure(), (err) => {";
    "  if (err) throw err;";
    "  console.log(" +:+ dq +:+ "__NAME__ listening on " +:+ dq +:+ " + addr);";
    "});"].

Definition ts_package : string :=
  unlines
   ["{";
    "  " +:+ dq +:+ "name" +:+ dq +:+ ": " +:+ dq +:+ "__NAME__" +:+ dq +:+ ",";
    "  " +:+ dq +:+ "version" +:+ dq +:+ ": " +:+ dq +:+ "0.1.0" +:+ dq +:+ ",";
    "  " +:+ dq +:+ "private" +:+ dq +:+ ": true,";
    "  " +:+ dq +:+ "type" +:+ dq +:+ ": " +:+ dq +:+ "module" +:+ dq +:+ ",";
    "  " +:+ dq +:+ "scripts" +:+ dq +:+ ": { " +:+ dq +:+ "build" +:+ dq +:+ ": " +:+ dq +:+ "tsc" +:+ dq +:+ " },";
    "  " +:+ dq +:+ "dependencies" +:+ dq +:+ ": { " +:+ dq +:+ "@grpc/grpc-js" +:+ dq +:+ ": " +:+ dq +:+ "^1.12.0" +:+ dq +:+ " },";
    "  " +:+ dq +:+ "devDependencies" +:+ dq +:+ ": { " +:+ dq +:+ "typescript" +:+ dq +:+ ": " +:+ dq +:+ "^5.6.0" +:+ dq +:+ ", " +:+ dq +:+ "@types/node" +:+ dq +:+ ": " +:+ dq +:+ "^22.0.0" +:+ dq +:+ " }";
    "}"].

Definition ts_config : string :=
  unlines
   ["{";
    "  " +:+ dq +:+ "compilerOptions" +:+ dq +:+ ": {";
    "    " +:+ dq +:+ "target" +:+ dq +:+ ": " +:+ dq +:+ "ES2022" +:+ dq +:+ ",";
    "    " +:+ dq +:+ "module" +:+ dq +:+ ": " +:+ dq +:+ "NodeNext" +:+ dq +:+ ",";
    "    " +:+ dq +:+ "moduleResolution" +:+ dq +:+ ": " +:+ dq +:+ "NodeNext" +:+ dq +:+ ",";
    "    " +:+ dq +:+ "outDir" +:+ dq +:+ ": " +:+ dq +:+ "dist" +:+ dq +:+ ",";
    "    " +:+ dq +:+ "strict" +:+ dq +:+ ": true,";
    "    " +:+ dq +:+ "esModuleInterop" +:+ dq +:+ ": true,";
    "    " +:+ dq +:+ "skipLibCheck" +:+ dq +:+ ": true";
    "  },";
    "  " +:+ dq +:+ "include" +:+ dq +:+ ": [" +:+ dq +:+ "*.ts" +:+ dq +:+ "]";
    "}"].

Definition ts_dockerfile : string :=
  unlines
   ["# __NAME__ plugin image (TypeScript) — Node + @grpc/grpc-js. rat launches it under the I9 profile.";
    "FROM docker.io/library/node:22-slim";
    "ENV RAT_PLUGIN_ADDR=0.0.0.0:50051";
    "WORKDIR /plugin";
    "COPY package.json tsconfig.json ./";
    "RUN npm install";
    "COPY . .";
    "RUN npm run build";
    "CMD [" +:+ dq +:+ "node" +:+ dq +:+ ", " +:+ dq +:+ "dist/main.js" +:+ dq +:+ "]"].

Definition rust_main : string :=
  unlines
   ["// __NAME__ — a rat __KIND__ plugin (Rust, tonic). Implement the servicer for your kind's";
    "// capabilities; see plugins/ for a reference. The stub serves a health service so it launches";
    "// HEALTHY; add your axis service below.";
    "use std::env;";
    "";
    "use tonic::transport::Server;";
    "use tonic_health::server::health_reporter;";
    "";
    "#[tokio::main]";
    "async fn main() -> Result<(), Box<dyn std::error::Error>> {";
    "    let addr = env::var(" +:+ dq +:+ "RAT_PLUGIN_ADDR" +:+ dq +:+ ").unwrap_or_else(|_| " +:+ dq +:+ "0.0.0.0:50051" +:+ dq +:+ ".into());";
    "    let (_reporter, health_service) = health_reporter();";
    "    println!(" +:+ dq +:+ "__NAME__ listening on {addr}" +:+ dq +:+ ");";
    "    Server::builder()";
    "        // TODO: .add_service(<Axis>Server::new(MyServicer::default()))";
    "        .add_service(health_service)";
    "        .serve(addr.parse()?)";
    "        .await?;";
    "    Ok(())";
    "}"].

Definition rust_cargo : string :=
  unlines
   ["[package]";
    "name = " +:+ dq +:+ "__NAME__" +:+ dq;
    "version = " +:+ dq +:+ "0.1.0" +:+ dq;
    "edition = " +:+ dq +:+ "2021" +:+ dq;
    "";
    "[[bin]]";
    "name = " +:+ dq +:+ "plugin" +:+ dq;
    "path = " +:+ dq +:+ "src/main.rs" +:+ dq;
    "";
    "[dependencies]";
    "tonic = " +:+ dq +:+ "0.12" +:+ dq;
    "tonic-health = " +:+ dq +:+ "0.12" +:+ dq;
    "tokio = { version = " +:+ dq +:+ "1" +:+ dq +:+ ", features = [" +:+ dq +:+ "macros" +:+ dq +:+ ", " +:+ dq +:+ "rt-multi-thread" +:+ dq +:+ "] }"].

Definition rust_dockerfile : string :=
  unlines
   ["# __NAME__ plugin image (Rust) — tonic on distroless/cc. rat launches it under the I9 profile.";
    "FROM docker.io/library/rust:1-slim AS build";
    "WORKDIR /src";
    "COPY . .";
    "RUN cargo build --release";
    "FROM gcr.io/distroless/cc-debian12";
    "ENV RAT_PLUGIN_ADDR=0.0.0.0:50051";
    "COPY --from=build /src/target/release/plugin /plugin";
    "ENTRYPOINT [" +:+ dq +:+ "/plugin" +:+ dq +:+ "]"].


(** ** The axis service *)

Record axisCap := mkAxisCap { ac_cap : string; ac_method : string }.

Definition service_caps (axis : string) (s : AxisService) : list axisCap :=
  (fun m => mkAxisCap (rd_Capability m) (rd_Name m)) <$>
    List.filter (fun m => negb (bool_decide (rd_Capability m = "")) && bool_decide (capAxisOf (rd_Capability m) = axis)) (as_Methods s).

(** The last service that hosts a capability of the axis, and every capability hosted. *)
Definition axisServiceFromDescriptors (files : list AxisFile) (axis : string) : option AxisService * list axisCap :=
  fold_left (fun r s => match service_caps axis s with [] => r | caps => (Some s, r.2 ++ caps) end) (mjoin files) (None, []).

(** ** Python *)

(** [filepath.Dir] keeps the directory of a path that ends in a file. *)
Definition pyImportPath (protoPath : string) : string * string :=
  (ReplaceByte "/" "." (Dir protoPath), TrimSuffix (Base protoPath) ".proto").

(** Trailing newlines, dropped. *)
Fixpoint drop_newlines (s : string) : string :=
  match s with String a s' => if decide (a = nl) then drop_newlines s' else s | "" => "" end.
Definition TrimRight_newlines (s : string) : string := str_rev (drop_newlines (str_rev s)).

Definition quotes3 : string := dq +:+ dq +:+ dq.
Definition py_serve : list string :=
  [""; ""; "def serve():"; "    plugin.serve(register)"; ""; ""; "if __name__ == " +:+ q "__main__" +:+ ":"; "    serve()"].

Definition py_driver (name kind : string) : string :=
  unlines
   ([quotes3 +:+ name +:+ " — a rat " +:+ kind +:+ " plugin (Python). A DRIVER: it serves no capability (or its axis";
     "isn't linked into rat). Drive other capabilities via plugin.Gateway() and declare them in the";
     "manifest's `requires`. The rat SDK is provided by the plugin-base-py image (ADR-029)." +:+ quotes3;
     ""; "from rat import plugin"; ""; ""; "def register(server):";
     "    pass  # a driver serves nothing; its work runs in a background loop (see docs/guides/04)"] ++ py_serve).

Section Python.
Context (quote_unicode : string -> string).

Definition py_method (c : axisCap) : string :=
  unlines ["    def " +:+ ac_method c +:+ "(self, request, context):"; "        # " +:+ ac_cap c;
           "        raise NotImplementedError(" +:+ Quote quote_unicode (ac_method c) +:+ ")"; ""].
Definition py_methods (caps : list axisCap) : string := foldr (fun c s => py_method c +:+ s) "" caps.

Definition py_head (name kind protoPath svcName : string) : string :=
  let '(pkg, base) := pyImportPath protoPath in
  unlines
   [quotes3 +:+ name +:+ " — a rat " +:+ kind +:+ " plugin (Python). Scaffolded kind-aware by `rat plugin init`.";
    "Contract: " +:+ protoPath +:+ " (see its CONTRACT.md). Fill in each method below, then `rat plugin pack`.";
    "The rat SDK is provided by the plugin-base-py image (ADR-029)." +:+ quotes3;
    ""; "from rat import plugin";
    "from " +:+ pkg +:+ " import " +:+ base +:+ "_pb2, " +:+ base +:+ "_pb2_grpc  # noqa: F401 — " +:+ base +:+ "_pb2 holds the request/response types";
    ""; ""; "class My" +:+ svcName +:+ "(" +:+ base +:+ "_pb2_grpc." +:+ svcName +:+ "Servicer):"].
Definition py_tail (protoPath svcName : string) : string :=
  let base := (pyImportPath protoPath).2 in
  unlines (["def register(server):"; "    " +:+ base +:+ "_pb2_grpc.add_" +:+ svcName +:+ "Servicer_to_server(My" +:+ svcName +:+ "(), server)"] ++ py_serve).

Definition pyServerStub (proto_Path : AxisService -> string) (name kind : string) (svc : option AxisService) (caps : list axisCap) : string :=
  match svc, caps with
  | Some s, _ :: _ => py_head name kind (proto_Path s) (as_Name s) +:+
      TrimRight_newlines (py_methods caps) +:+ newline +:+ newline +:+ py_tail (proto_Path s) (as_Name s)
  | _, _ => py_driver name kind
  end.

Definition pyFiles (proto_Path : AxisService -> string) (name kind : string) (svc : option AxisService) (caps : list axisCap) : list (string * string) :=
  [("server.py", pyServerStub proto_Path name kind svc caps);
   ("main.py", unlines ["from server import serve"; ""; "if __name__ == " +:+ q "__main__" +:+ ":"; "    serve()"]);
   ("requirements.txt", unlines ["# your plugin's own Python deps (the rat SDK + grpc come from the base image)"]);
   ("Dockerfile", fill py_dockerfile name kind); (".gitignore", unlines ["__pycache__/"; "*.pyc"])].
End Python.

(** ** The other languages *)

Definition goFiles (name kind : string) : list (string * string) :=
  [("main.go", fill go_main name kind); ("go.mod", fill go_mod name kind); ("Dockerfile", fill go_dockerfile name kind);
   (".gitignore", unlines ["/plugin"])].
Definition tsFiles (name kind : string) : list (string * string) :=
  [("main.ts", fill ts_main name kind); ("package.json", fill ts_package name kind); ("tsconfig.json", ts_config);
   ("Dockerfile", fill ts_dockerfile name kind); (".gitignore", unlines ["node_modules/"; "dist/"])].
Definition rustFiles (name kind : string) : list (string * string) :=
  [("src/main.rs", fill rust_main name kind); ("Cargo.toml", fill rust_cargo name kind); ("Dockerfile", fill rust_dockerfile name kind);
   (".gitignore", unlines ["/target"])].

Definition langFiles (quote_unicode : string -> string) (proto_Path : AxisService -> string) (name kind lang : string)
    (svc : option AxisService) (caps : list axisCap) : list (string * string) :=
  if decide (lang = "go") then goFiles name kind
  else if decide (lang = "typescript") then tsFiles name kind
  else if decide (lang = "rust") then rustFiles name kind
  else pyFiles quote_unicode proto_Path name kind svc caps.

Definition readme_text (name kind lang axis : string) (caps : list axisCap) : string :=
  unlines ["# " +:+ name; ""; "A rat **" +:+ kind +:+ "** plugin in **" +:+ lang +:+ "** (scaffolded by `rat plugin init`, ADR-026)."; "";
           "```sh"; "rat plugin check     # validate the manifest (static gate)";
           "rat plugin pack      # build + verify (launches under I9, must SERVE its declared capability)";
           "rat plugin publish   # push to ghcr.io"; "```"; ""; "## Implement"; "";
           "This axis lives at `contracts/proto/rat/" +:+ axis +:+ "/v1/` (see its `CONTRACT.md`). Capabilities:"; ""] +:+
  (match caps with
   | [] => unlines ["(this axis serves no capability — it's a driver: declare `requires` in the manifest)"]
   | _ => unlines ((fun c => "- `" +:+ ac_cap c +:+ "`") <$> caps)
   end) +:+
  unlines [""; "The scaffolded server stub already imports the right axis stubs and lists each method — fill them in, then `rat plugin pack`."].

(** The files that do not depend on the language, the manifest apart, and then those that do; this
    is the text that Authoring's scaffold writes. *)
Section Text.
Context (quote_unicode : string -> string) (proto_Path : AxisService -> string) (files : list AxisFile).

Definition source_files (name kind lang : string) : list (string * string) :=
  let axis := axisForKind kind in
  let '(svc, caps) := axisServiceFromDescriptors files axis in
  [("README.md", readme_text name kind lang axis caps); ("ci.sh", ci_text); (".github/workflows/plugin.yml", workflow_text)] ++
  langFiles quote_unicode proto_Path name kind lang svc caps.

Definition scaffold_text (name kind lang rel : string) : string :=
  default "" (snd <$> List.find (fun f => bool_decide (f.1 = rel)) (source_files name kind lang)).
End Text.

(** ** The scaffold is what Authoring writes *)

Lemma scaffold_sources linked quote_unicode proto_Path files name kind lang :
  lang ∈ ["python"; "go"; "typescript"; "rust"] ->
  scaffold linked (scaffold_text quote_unicode proto_Path files) name kind lang =
  ("manifest.yaml", unlines (manifest_lines name kind lang (axis_caps linked (axisForKind kind)))) ::
  source_files quote_unicode proto_Path files name kind lang.
Proof.
  intros Hl. unfold scaffold. f_equal. unfold scaffold_text, source_files.
  destruct (axisServiceFromDescriptors files (axisForKind kind)) as [svc caps].
  repeat (apply elem_of_cons in Hl as [-> |Hl]; [reflexivity|]). by apply elem_of_nil in Hl.
Qed.

(** ** The stub and the manifest name the same capabilities *)

Lemma service_caps_manifest axis s :
  ac_cap <$> service_caps axis s = axis_caps (service_rpcs s) axis.
Proof.
  unfold service_caps, axis_caps, service_rpcs. induction (as_Methods s) as [|m ms IH]; [done|]. simpl.
  destruct (negb _ && _); [apply (f_equal (cons _)); exact IH|exact IH].
Qed.

Lemma axis_caps_app l1 l2 axis : axis_caps (l1 ++ l2) axis = axis_caps l1 axis ++ axis_caps l2 axis.
Proof. unfold axis_caps. by rw List.filter_app fmap_app. Qed.

Lemma linked_rpcs_services files : linked_rpcs files = mjoin (service_rpcs <$> mjoin files).
Proof.
  unfold linked_rpcs, file_rpcs. induction files as [|f files IH]; [done|]. simpl. rw IH.
  rw fmap_app join_app. done.
Qed.

Lemma stub_caps_manifest files axis :
  ac_cap <$> (axisServiceFromDescriptors files axis).2 = axis_caps (linked_rpcs files) axis.
Proof.
  rw linked_rpcs_services. unfold axisServiceFromDescriptors.
  assert (forall ss r, ac_cap <$> (fold_left (fun r s => match service_caps axis s with [] => r | caps => (Some s, r.2 ++ caps) end) ss r).2 =
            (ac_cap <$> r.2) ++ axis_caps (mjoin (service_rpcs <$> ss)) axis) as H; [|by rw H].
  induction ss as [|s ss IH]; intros r; [by rw app_nil_r|]. cbn [fold_left]. rw fmap_cons. cbn [mjoin list_join].
  rw IH axis_caps_app -service_caps_manifest app_assoc. f_equal. destruct (service_caps axis s); [by rw app_nil_r|].
  cbn [snd]. by rw fmap_app.
Qed.

Lemma Contains_app a sub b : Contains (a +:+ sub +:+ b) sub = true.
Proof.
  assert (forall s, HasPrefix (sub +:+ s) sub = true) as Hp by apply HasPrefix_app.
  induction a as [|x a IH].
  - rewrite str_app_nil. specialize (Hp b). destruct (sub +:+ b); cbn [Contains]; by rewrite Hp.
  - rw str_app_cons. simpl. by rw IH orb_true_r.
Qed.

Lemma Contains_inside a s b sub : Contains s sub = true -> Contains (a +:+ s +:+ b) sub = true.
Proof.
  intros Hs. assert (exists u v, s = u +:+ (sub +:+ v)) as (u & v & ->).
  { induction s as [|x s IH]; cbn [Contains] in Hs.
    - rewrite orb_false_r in Hs. apply HasPrefix_true in Hs as [r E]. by exists "", r.
    - apply orb_true_iff in Hs as [Hs|Hs]; [apply HasPrefix_true in Hs as [r E]; by exists "", r|].
      destruct (IH Hs) as (u & v & ->). by exists (String x u), v. }
  rewrite !str_app_assoc -(str_app_assoc a u). apply Contains_app.
Qed.

Lemma Contains_right a s sub : Contains s sub = true -> Contains (a +:+ s) sub = true.
Proof. intros H. pose proof (Contains_inside a s "" sub H) as E. by rewrite str_app_nil_r in E. Qed.

Lemma Contains_line ls l sub : l ∈ ls -> Contains l sub = true -> Contains (unlines ls) sub = true.
Proof.
  intros Hl Hs. induction ls as [|x ls IH]; [by apply elem_of_nil in Hl|]. cbn [unlines].
  apply elem_of_cons in Hl as [->|Hl]; [exact (Contains_inside "" x _ sub Hs)|].
  pose proof (Contains_right (x +:+ String nl "") _ _ (IH Hl)) as H. by rewrite str_app_assoc in H.
Qed.
Lemma Contains_self s : Contains s s = true.
Proof. pose proof (Contains_app "" s "") as H. by rewrite str_app_nil_r in H. Qed.

Lemma TrimRight_call u : TrimRight_newlines (u +:+ ")" +:+ newline +:+ newline) = u +:+ ")".
Proof.
  unfold TrimRight_newlines. rewrite !str_rev_app_distr.
  change (drop_newlines (((str_rev newline +:+ str_rev newline) +:+ str_rev ")") +:+ str_rev u)) with (String ")" (str_rev u)).
  change (String ")" (str_rev u)) with (str_rev ")" +:+ str_rev u). by rewrite -str_rev_app_distr str_rev_involutive.
Qed.

Section Stub.
Context (quote_unicode : string -> string).

Definition def_line (method : string) : string := "    def " +:+ method +:+ "(self, request, context):".

Lemma py_methods_shape c caps : exists u, py_methods quote_unicode (c :: caps) = u +:+ ")" +:+ newline +:+ newline /\
  forall c', c' ∈ c :: caps -> Contains u (def_line (ac_method c')) = true.
Proof.
  assert (forall c, exists v, py_method quote_unicode c = (def_line (ac_method c) +:+ v) +:+ ")" +:+ newline +:+ newline) as Hone.
  { intros x. exists (newline +:+ ("        # " +:+ ac_cap x) +:+ newline +:+ "        raise NotImplementedError(" +:+ Quote quote_unicode (ac_method x)).
    unfold py_method, def_line, unlines. rewrite !str_app_assoc. reflexivity. }
  revert c. induction caps as [|c2 caps IH]; intros c; destruct (Hone c) as [v E].
  - exists (def_line (ac_method c) +:+ v). split; [by cbn [py_methods foldr]; rewrite str_app_nil_r|].
    intros c' ->%list_elem_of_singleton. apply (Contains_app "" (def_line (ac_method c)) v).
  - destruct (IH c2) as (u & Hu & Hin). exists (py_method quote_unicode c +:+ u). split.
    + change (py_methods quote_unicode (c :: c2 :: caps)) with (py_method quote_unicode c +:+ py_methods quote_unicode (c2 :: caps)).
      by rewrite Hu str_app_assoc.
    + intros c' [->|Hc']%elem_of_cons.
      * apply (Contains_inside "" (py_method quote_unicode c) u). rewrite E.
        apply (Contains_inside "" (def_line (ac_method c) +:+ v)). apply (Contains_app "" (def_line (ac_method c)) v).
      * specialize (Hin c' Hc'). pose proof (Contains_inside (py_method quote_unicode c) u "" _ Hin) as H. by rewrite str_app_nil_r in H.
Qed.

(** The Python stub serves what the manifest declares.  For a kind whose axis is linked, each
    capability that the scaffolded manifest provides is declared by a method of a linked
    service, the stub defines that method, its class extends the servicer of the axis's
    service, and the class is registered with the server. *)
Theorem python_stub_serves_manifest proto_Path files name kind cap :
  cap ∈ axis_caps (linked_rpcs files) (axisForKind kind) ->
  let stub := scaffold_text quote_unicode proto_Path files name kind "python" "server.py" in
  exists s c, (axisServiceFromDescriptors files (axisForKind kind)).1 = Some s /\ ac_cap c = cap /\
    c ∈ (axisServiceFromDescriptors files (axisForKind kind)).2 /\
    Contains stub (def_line (ac_method c)) = true /\
    let base := (pyImportPath (proto_Path s)).2 in
    Contains stub ("class My" +:+ as_Name s +:+ "(" +:+ base +:+ "_pb2_grpc." +:+ as_Name s +:+ "Servicer):") = true /\
    Contains stub (base +:+ "_pb2_grpc.add_" +:+ as_Name s +:+ "Servicer_to_server(My" +:+ as_Name s +:+ "(), server)") = true.
Proof.
  rewrite -stub_caps_manifest. intros (c & -> & Hc)%list_elem_of_fmap stub.
  assert (stub = let '(svc, caps) := axisServiceFromDescriptors files (axisForKind kind) in pyServerStub quote_unicode proto_Path name kind svc caps) as ->.
  { unfold stub, scaffold_text, source_files. by destruct (axisServiceFromDescriptors _ _). }
  assert (forall ss r, (r.1 = None -> r.2 = []) -> let r' := fold_left (fun (r : option AxisService * list axisCap) s =>
     match service_caps (axisForKind kind) s with [] => r | caps => (Some s, r.2 ++ caps) end) ss r in r'.1 = None -> r'.2 = []) as Hsvc.
  { induction ss as [|s ss IH]; intros r Hr; [done|]. apply IH. by destruct (service_caps _ s). }
  specialize (Hsvc (mjoin files) (None, []) (fun _ => eq_refl)). fold (axisServiceFromDescriptors files (axisForKind kind)) in Hsvc.
  destruct (axisServiceFromDescriptors files (axisForKind kind)) as [[s|] caps]; simpl in Hc, Hsvc; [|rewrite Hsvc // in Hc; by apply elem_of_nil in Hc].
  destruct caps as [|c0 caps]; [by apply elem_of_nil in Hc|].
  exists s, c. split_and!; [done|done|exact Hc| |intros base; split].
  - cbv beta iota zeta delta [pyServerStub]. destruct (py_methods_shape c0 caps) as (u & -> & Hu). rewrite TrimRight_call. apply Contains_inside.
    apply (Contains_inside "" u ")"). by apply Hu.
  - cbv beta iota zeta delta [pyServerStub]. apply (Contains_inside ""). unfold base, py_head. destruct (pyImportPath (proto_Path s)) as [pkg b].
    eapply Contains_line; [|apply Contains_self]. do 8 right. left.
  - cbv beta iota zeta delta [pyServerStub]. do 4 apply Contains_right. unfold base, py_tail.
    eapply Contains_line; [right; left|]. apply Contains_right, Contains_self.
Qed.
End Stub.

(** ** At concrete plugins *)

Definition demo_proto (s : AxisService) : string := "rat/state/v1/state.proto".
Definition demo_text (kind lang rel : string) : string :=
  scaffold_text (fun s => s) demo_proto routableDescriptors "kv" kind lang rel.

Example placeholders_filled :
  existsb (fun f => Contains f.2 "__NAME__" || Contains f.2 "__KIND__")
    (mjoin ((fun lang => source_files (fun s => s) demo_proto routableDescriptors "kv" "state-backend" lang)
      <$> ["python"; "go"; "typescript"; "rust"])) = false.
Proof. evaluated. Qed.

Example python_stub_of_state :
  Contains (demo_text "state-backend" "python" "server.py") "from rat.state.v1 import state_pb2, state_pb2_grpc" = true /\
  Contains (demo_text "state-backend" "python" "server.py") (def_line "CreateIfAbsent") = true /\
  Contains (scaffold_text (fun s => s) demo_proto [] "kv" "ui" "python" "server.py") "A DRIVER" = true.
Proof. split_and!; evaluated. Qed.

(** The README says of every language what only the Python stub does: the Go stub imports no stubs
    of the axis and has no method. *)
Theorem readme_overclaims :
  Contains (demo_text "state-backend" "go" "README.md")
    "The scaffolded server stub already imports the right axis stubs and lists each method" = true /\
  forallb (fun c => negb (Contains (demo_text "state-backend" "go" "main.go") (ac_method c)))
    (axisServiceFromDescriptors routableDescriptors "state").2 = true /\
  length (axisServiceFromDescriptors routableDescriptors "state").2 = 6%nat.
Proof. split_and!; evaluated. Qed.
