(* ===== verification/Flags.v ===== *)
(** Command-line flags: the parser of Go's flag package over a declared set of flags, and
    lifting one positional out of the flags (src/core/client/client.go,
    [parseWithPositional]). *)
From S2P Require Import Prelude Command.

(** A declared flag: a boolean one may stand alone, any other takes a value, which its type
    accepts or not. *)
Record FlagSpec := mkFlag { fl_bool : bool; fl_check : string -> option error }.
Definition FlagSet := gmap string FlagSpec.

Definition string_flag : FlagSpec := mkFlag false (fun _ => None).
Definition bool_flag : FlagSpec :=
  mkFlag true (fun s => match ParseBool s with Ok _ => None | Err _ => Some (Errorf "parse error" []) end).

(** The raw values given so far, by flag. *)
Definition Given := gmap string string.

(** One argument seen by the parser. *)
Inductive token :=
  | TStop                              (** not a flag: parsing ends before it *)
  | TTerminator                        (** [--]: parsing ends after it *)
  | TBad (e : error)
  | TFlag (name : string) (value : option string).

(** The value after the first equals sign, which is not the first byte. *)
Definition flag_token (s name : string) : token :=
  match name with
  | "" => TBad (Errorf "bad flag syntax: %s" [s])
  | String a rest =>
      if decide (a = "-"%char \/ a = "="%char) then TBad (Errorf "bad flag syntax: %s" [s])
      else let '(n, v, ok) := Cut "=" rest in
           if ok : bool then TFlag (String a n) (Some v) else TFlag name None
  end.

Definition lex (s : string) : token :=
  match s with
  | String "-" "-" => TTerminator
  | String "-" (String "-" name) => flag_token s name
  | String "-" (String a name) => flag_token s (String a name)
  | _ => TStop
  end.

Definition errHelp : error := Sentinel "flag.ErrHelp".

Section Parse.
Context (fs : FlagSet).

(** One flag: what it sets, and whether it took the next argument. *)
Definition take_flag (name : string) (value : option string) (next : option string) : result (string * bool) :=
  match fs !! name with
  | None => Err (if decide (name = "help" \/ name = "h") then errHelp
                 else Errorf "flag provided but not defined: -%s" [name])
  | Some f =>
      if fl_bool f then
        match value with
        | None => Ok ("true", false)
        | Some v => match fl_check f v with
                    | None => Ok (v, false)
                    | Some e => Err (Wrap "invalid boolean value %q for -%s: %v" [v; name] e)
                    end
        end
      else
        match value, next with
        | None, None => Err (Errorf "flag needs an argument: -%s" [name])
        | Some v, _ => match fl_check f v with
                       | None => Ok (v, false)
                       | Some e => Err (Wrap "invalid value %q for flag -%s: %v" [v; name] e)
                       end
        | None, Some v => match fl_check f v with
                          | None => Ok (v, true)
                          | Some e => Err (Wrap "invalid value %q for flag -%s: %v" [v; name] e)
                          end
        end
  end.

(** [FlagSet.Parse]: the values set and the arguments left. *)
Fixpoint Parse (args : list string) (given : Given) : result (Given * list string) :=
  match args with
  | [] => Ok (given, [])
  | s :: rest =>
      match lex s with
      | TStop => Ok (given, args)
      | TTerminator => Ok (given, rest)
      | TBad e => Err e
      | TFlag name value =>
          let? vt := take_flag name value (head rest) in
          match rest with
          | v :: rest' => if vt.2 : bool then Parse rest' (<[name := vt.1]> given) else Parse rest (<[name := vt.1]> given)
          | [] => Ok (<[name := vt.1]> given, [])
          end
      end
  end.

(** Parse, lift the first positional out, and parse on: one round per positional. *)
Fixpoint positional_rounds (fuel : nat) (args : list string) (given : Given) (positional : string) :
    option (result (Given * string)) :=
  match fuel with
  | O => None
  | S fuel =>
      match Parse args given with
      | Err e => Some (Err e)
      | Ok (given, []) => Some (Ok (given, positional))
      | Ok (given, p :: rest) =>
          if decide (positional = "") then positional_rounds fuel rest given p
          else Some (Err (Errorf "unexpected extra argument %q (exactly one capability expected)" [p]))
      end
  end.
Definition parseWithPositional (args : list string) : option (result (Given * string)) :=
  positional_rounds (S (length args)) args ∅ "".

(** ** The parse ends *)

Lemma Parse_shorter args given given' rest : Parse args given = Ok (given', rest) -> (length rest <= length args)%nat.
Proof.
  assert (forall n args given given' rest, (length args <= n)%nat -> Parse args given = Ok (given', rest) ->
            (length rest <= length args)%nat) as H; [|by apply (H (length args))].
  clear. induction n as [|n IH]; intros [|s rest] given given' rest' Hn; simpl in *; try lia; [by intros [= <- <-]..|].
  destruct (lex s) as [| |e|name value]; [by intros [= <- <-]|intros [= <- <-]; simpl; lia|done|].
  destruct (take_flag name value (head rest)) as [[v took]|e]; [|done]. simpl.
  destruct rest as [|v' rest]; [intros [= <- <-]; simpl; lia|].
  destruct took; intros Hp; apply IH in Hp; simpl in *; lia.
Qed.

Lemma parseWithPositional_ends args : is_Some (parseWithPositional args).
Proof.
  unfold parseWithPositional. assert (forall fuel args given pos, (length args < fuel)%nat -> is_Some (positional_rounds fuel args given pos)) as H.
  { induction fuel as [|fuel IH]; intros as_ given pos Hl; [lia|]. cbn [positional_rounds].
    destruct (Parse as_ given) as [[given' [|p rest]]|e] eqn:Ep; [by eexists| |by eexists].
    destruct (decide (pos = "")); [|by eexists]. apply IH. apply Parse_shorter in Ep. simpl in Ep. lia. }
  apply H. lia.
Qed.

(** ** Flags may stand on either side *)

(** A run of complete flags, and what it sets. *)
Inductive flags : list string -> Given -> Given -> Prop :=
  | flags_nil given : flags [] given given
  | flags_alone s name value v rest given given' :
      lex s = TFlag name value -> take_flag name value None = Ok (v, false) ->
      flags rest (<[name := v]> given) given' -> flags (s :: rest) given given'
  | flags_valued s name v v' rest given given' :
      lex s = TFlag name None -> take_flag name None (Some v') = Ok (v, true) ->
      flags rest (<[name := v]> given) given' -> flags (s :: v' :: rest) given given'.

Lemma take_flag_alone name value v next :
  take_flag name value None = Ok (v, false) -> take_flag name value next = Ok (v, false).
Proof.
  unfold take_flag. destruct (fs !! name) as [f|]; [|done]. destruct (fl_bool f); [done|].
  by destruct value as [v'|].
Qed.

Lemma Parse_flags args given given' rest :
  flags args given given' -> Parse (args ++ rest) given = Parse rest given'.
Proof.
  intros Hf. induction Hf as [given|s name value v as_ given given' Hl Ht _ IH|s name v v' as_ given given' Hl Ht _ IH]; [done|..].
  - cbn [app Parse]. rewrite Hl (take_flag_alone _ _ _ _ Ht). cbn [result_bind fst snd]. rewrite -IH.
    by destruct (as_ ++ rest).
  - cbn [app Parse]. by rewrite Hl /= Ht.
Qed.

Lemma flags_app a b g1 g2 g3 : flags a g1 g2 -> flags b g2 g3 -> flags (a ++ b) g1 g3.
Proof. intros Ha Hb. induction Ha; [done|by eapply flags_alone; [..|apply IHHa]|by eapply flags_valued; [..|apply IHHa]]. Qed.

(** One round, up to a positional. *)
Lemma round_flags fuel args rest given given' pos :
  flags args given given' ->
  positional_rounds (S fuel) (args ++ rest) given pos = positional_rounds (S fuel) rest given' pos.
Proof. intros Hf. cbn [positional_rounds]. by rewrite (Parse_flags _ _ _ _ Hf). Qed.

Lemma round_positional fuel p rest given :
  lex p = TStop -> positional_rounds (S fuel) (p :: rest) given "" = positional_rounds fuel rest given p.
Proof. intros Hp. cbn [positional_rounds Parse]. by rewrite Hp. Qed.

(** Flags may come before or after the positional argument.  Parsing always ends; runs of complete
    flags around one positional are read as the same flags written all after it, or all
    before it, with the same positional; and a second positional is refused. *)
Theorem flags_either_side pre post p g1 g2 :
  flags pre ∅ g1 -> flags post g1 g2 -> lex p = TStop -> p <> "" ->
  parseWithPositional (pre ++ p :: post) = Some (Ok (g2, p)) /\
  parseWithPositional (p :: pre ++ post) = Some (Ok (g2, p)) /\
  parseWithPositional (pre ++ post ++ [p]) = Some (Ok (g2, p)) /\
  (forall p', lex p' = TStop ->
     parseWithPositional (pre ++ p :: post ++ [p']) = Some (Err (Errorf "unexpected extra argument %q (exactly one capability expected)" [p']))).
Proof.
  intros Hpre Hpost Hp Hne. unfold parseWithPositional.
  assert (forall fuel args given given', flags args given given' -> positional_rounds (S fuel) args given p = Some (Ok (given', p))) as Hend.
  { intros fuel args given given' Hf. rewrite -(app_nil_r args) (round_flags _ _ _ _ _ _ Hf). done. }
  assert (forall a b, exists n, length (a ++ p :: b) = S n) as Hlen by (intros a b; rewrite length_app /=; exists (length a + length b)%nat; lia).
  split_and!.
  - destruct (Hlen pre post) as [n ->]. by rewrite (round_flags _ _ _ _ _ _ Hpre) round_positional // (Hend n post g1 g2).
  - cbn [length]. by rewrite round_positional // (Hend _ _ ∅ g2 (flags_app _ _ _ _ _ Hpre Hpost)).
  - rewrite app_assoc. destruct (Hlen (pre ++ post) []) as [n ->].
    by rewrite (round_flags _ _ _ _ _ _ (flags_app _ _ _ _ _ Hpre Hpost)) round_positional.
  - intros p' Hp'. destruct (Hlen pre (post ++ [p'])) as [n ->].
    rewrite (round_flags _ _ _ _ _ _ Hpre) round_positional // (round_flags _ _ _ _ _ _ Hpost).
    cbn [positional_rounds Parse]. rewrite Hp'. by rewrite decide_False.
Qed.
End Parse.

(** The flags of [rat call]. *)
Definition demo_flags : FlagSet :=
  {["addr" := string_flag; "as" := string_flag; "data" := string_flag; "tls-skip-verify" := bool_flag]}.

Lemma flags_either_side_witness :
  parseWithPositional demo_flags ["--as"; "dev"; "rat://state/v1/get"; "-data={}"; "--tls-skip-verify"] =
  parseWithPositional demo_flags ["rat://state/v1/get"; "--as"; "dev"; "-data={}"; "--tls-skip-verify"] /\
  is_Some (parseWithPositional demo_flags ["--as"; "dev"; "rat://state/v1/get"; "-data={}"; "--tls-skip-verify"]).
Proof.
  destruct (flags_either_side demo_flags ["--as"; "dev"] ["-data={}"; "--tls-skip-verify"] "rat://state/v1/get"
    {["as" := "dev"]} {["as" := "dev"; "data" := "{}"; "tls-skip-verify" := "true"]}) as (E1 & E2 & _).
  - eapply flags_valued; [vm_compute; reflexivity|vm_compute; reflexivity|]. apply flags_nil.
  - eapply flags_alone; [vm_compute; reflexivity|vm_compute; reflexivity|].
    eapply flags_alone; [vm_compute; reflexivity|vm_compute; reflexivity|].
    match goal with |- flags _ _ ?a ?b => replace b with a; [apply flags_nil|vm_compute; reflexivity] end.
  - reflexivity.
  - discriminate.
  - change (["--as"; "dev"; "rat://state/v1/get"; "-data={}"; "--tls-skip-verify"])
      with (["--as"; "dev"] ++ "rat://state/v1/get" :: ["-data={}"; "--tls-skip-verify"]).
    change (["rat://state/v1/get"; "--as"; "dev"; "-data={}"; "--tls-skip-verify"])
      with ("rat://state/v1/get" :: ["--as"; "dev"] ++ ["-data={}"; "--tls-skip-verify"]).
    rewrite E1 E2. split; [reflexivity|eexists; reflexivity].
Defined.
