(* ===== verification/Client.v ===== *)
(** The gateway client (src/core/client/client.go and ui.go): issuing one capability call,
    shipping a project directory, and the command-line surface of contributed components.
    Flags are parsed by Flags; protobuf, JSON, TLS and the archive formats are parameters. *)
From S2P Require Import Prelude Paths Registry CallContext Gateway Validate Command Contexts Flags Sdk.

(** ** The envelope and the metadata of a call *)

(** From the random bytes of the trace, the span and the correlation id. *)
Record entropy := mkEntropy { e_trace : string; e_span : string; e_corr : string }.
Definition entropy_ok (e : entropy) : Prop :=
  String.length (e_trace e) = 16%nat /\ String.length (e_span e) = 8%nat /\ String.length (e_corr e) = 4%nat.

Definition call_rc (e : entropy) (caller tenant : string) : RequestContext :=
  mkRequestContext (Some (mkTrace (newTraceparent (e_trace e) (e_span e)) "" ("ratctl-" +:+ hex_EncodeToString (e_corr e))))
    (Some (mkIdentity caller None tenant)) 0.

Definition workspaceKey : string := "rat-workspace".
Definition tokenKey : string := "rat-token".

(** [context.Background] under a timeout that does not change what is sent. *)
Definition background : Ctx := mkCtx None [] None None None.

Inductive creds := Insecure | TLS (skip_verify : bool) (roots : option string).

(** A call made on a connection: address, credentials, context, capability, payload. *)
Record Call := mkCall { k_addr : string; k_creds : creds; k_ctx : Ctx; k_cap : string; k_payload : string }.

Record callFlags := mkCallFlags {
  cf_addr : string; cf_as : string; cf_tenant : string; cf_data : string; cf_workspace : string;
  cf_token : string; cf_cacert : string; cf_tlsSkip : bool;
}.

Section Client.
Context (linked : list Rpc) (registered : string -> bool).
Context (proto_MarshalCtx : RequestContext -> result string).
(** Messages by type name: from JSON text to wire bytes, and from wire bytes to JSON text. *)
Context {Msg : Type} (protojson_Unmarshal : string -> string -> result Msg) (proto_Marshal : Msg -> result string).
Context (proto_Unmarshal : string -> string -> result Msg) (protojson_Marshal : Msg -> result string).
Context (os_ReadFile : string -> result string) (AppendCertsFromPEM : string -> bool).
Context (ParseDuration : string -> option error).
(** The gateway's answer to a call, and dialling. *)
Context (grpc_NewClient : string -> option error) (Invoke : Call -> result string).

Definition callMeta (e : entropy) (caller tenant : string) : string :=
  match proto_MarshalCtx (call_rc e caller tenant) with Ok b => b | Err _ => "" end.

Definition AppendIf (c : Ctx) (k v : string) : Ctx := if decide (v = "") then c else AppendToOutgoingContext c k v.
Definition call_ctx (e : entropy) (f : callFlags) : Ctx :=
  AppendIf (AppendIf (AppendToOutgoingContext background callMetaHeader (callMeta e (cf_as f) (cf_tenant f)))
              workspaceKey (cf_workspace f)) tokenKey (cf_token f).

Definition dial_creds (f : callFlags) : result creds :=
  if bool_decide (cf_cacert f = "") && negb (cf_tlsSkip f) then Ok Insecure
  else if decide (cf_cacert f = "") then Ok (TLS (cf_tlsSkip f) None)
  else match os_ReadFile (cf_cacert f) with
       | Err e => Err (Wrap "read --cacert %s: %w" [cf_cacert f] e)
       | Ok pem => if AppendCertsFromPEM pem then Ok (TLS (cf_tlsSkip f) (Some pem))
                   else Err (Errorf "--cacert %s: no PEM certificates found" [cf_cacert f])
       end.

Definition usage_call : error :=
  Errorf "usage: rat call <capability> --as <caller> [--data '<protojson>'] [--addr host:port]" [].

Definition call_flag_set : FlagSet :=
  {["addr" := string_flag; "as" := string_flag; "tenant" := string_flag; "data" := string_flag;
    "workspace" := string_flag; "token" := string_flag; "cacert" := string_flag;
    "tls-skip-verify" := bool_flag; "timeout" := mkFlag false ParseDuration]}.

Definition is_true (s : string) : bool := match ParseBool s with Ok b => b | Err _ => false end.

(** Flag values over the defaults of the current profile. *)
Definition call_flags (c0 : RatContext) (given : Given) : callFlags :=
  let get k d := default d (given !! k) in
  mkCallFlags (get "addr" (ctx_Addr c0)) (get "as" (ctx_As c0)) (get "tenant" "") (get "data" "{}")
    (get "workspace" (ctx_Workspace c0)) (get "token" (ctx_Token c0)) (get "cacert" "") (is_true (get "tls-skip-verify" "false")).

(** The message type must be registered. *)
Definition newMessage (name : string) : option error :=
  if registered name then None else Some (Wrap "message type %s not registered: %w" [name] (Sentinel "protoregistry.NotFound")).

(** What is printed, and the call made, if any. *)
Definition issue_call (e : entropy) (f : callFlags) (capURI : string) : result string * option Call :=
  if decide (cf_as f = "") then
    (Err (Errorf "--as <caller> is required (the gateway authorizes the command against the caller's declared `requires`)" []), None)
  else
    match resolveCapability linked capURI with
    | Err e => (Err e, None)
    | Ok (inName, outName) =>
      match newMessage inName with
      | Some e => (Err e, None)
      | None =>
        match protojson_Unmarshal inName (cf_data f) with
        | Err e => (Err (Wrap "--data is not valid protojson for %s: %w" [inName] e), None)
        | Ok reqMsg =>
          match proto_Marshal reqMsg with
          | Err e => (Err (Wrap "marshal request: %w" [] e), None)
          | Ok payload =>
            match dial_creds f with
            | Err e => (Err e, None)
            | Ok cr =>
              match grpc_NewClient (cf_addr f) with
              | Some e => (Err (Wrap "dial %s: %w" [cf_addr f] e), None)
              | None =>
                let call := mkCall (cf_addr f) cr (call_ctx e f) capURI payload in
                (let? resp := Invoke call in
                 match newMessage outName with
                 | Some e => Err e
                 | None =>
                     match proto_Unmarshal outName resp with
                     | Err e => Err (Wrap "unmarshal response into %s: %w" [outName] e)
                     | Ok m => match protojson_Marshal m with
                               | Err e => Err (Wrap "render response: %w" [] e)
                               | Ok out => Ok out
                               end
                     end
                 end, Some call)
              end
            end
          end
        end
      end
    end.

(** [None] only if parsing did not end, which [parseWithPositional_ends] excludes. *)
Definition runCall (e : entropy) (c0 : RatContext) (argv : list string) : option (result string * option Call) :=
  match argv with
  | "call" :: ((_ :: _) as args) =>
      r ← parseWithPositional call_flag_set args;
      Some match r with
           | Err e => (Err e, None)
           | Ok (given, capURI) =>
               if decide (capURI = "") then (Err usage_call, None) else issue_call e (call_flags c0 given) capURI
           end
  | _ => Some (Err usage_call, None)
  end.

(** ** What a call carries *)

Context (unmarshalCtx : string -> option RequestContext) (transport : Ctx -> Ctx) (Hcarry : carries transport).

Lemma md_one (k' v k : string) :
  (filter (fun kv : string * string => kv.1 = k) (if decide (v = "") then [] else [(k', v)])).*2 =
  if decide (k = k' /\ v <> "") then [v] else [].
Proof.
  destruct (decide (v = "")) as [Hv|Hv].
  - destruct (decide (k = k' /\ v <> "")) as [[_ ?]|]; [by destruct (Hv)|done].
  - rewrite filter_cons filter_nil. cbn [fst]. destruct (decide (k' = k)) as [->|Hk].
    + destruct (decide (k = k /\ v <> "")) as [|Hn]; [done|]. by destruct Hn.
    + destruct (decide (k = k' /\ v <> "")) as [[-> _]|]; [by destruct (Hk)|done].
Qed.

Lemma call_ctx_md e f k :
  md_Get (transport (call_ctx e f)) k =
  (if decide (k = callMetaHeader) then [callMeta e (cf_as f) (cf_tenant f)] else []) ++
  (if decide (k = workspaceKey /\ cf_workspace f <> "") then [cf_workspace f] else []) ++
  (if decide (k = tokenKey /\ cf_token f <> "") then [cf_token f] else []).
Proof.
  assert (forall c k v, outgoing (AppendIf c k v) = outgoing c ++ (if decide (v = "") then [] else [(k, v)])) as Ho.
  { intros c k' v. unfold AppendIf. case_decide; [by rewrite app_nil_r|done]. }
  assert (outgoing (call_ctx e f) = [(callMetaHeader, callMeta e (cf_as f) (cf_tenant f))] ++
    (if decide (cf_workspace f = "") then [] else [(workspaceKey, cf_workspace f)]) ++
    (if decide (cf_token f = "") then [] else [(tokenKey, cf_token f)])) as E.
  { unfold call_ctx. rewrite !Ho. cbn [background AppendToOutgoingContext outgoing]. by rewrite app_nil_l -app_assoc. }
  rewrite (hop_md _ Hcarry); last first.
  { rewrite E. repeat case_decide; repeat constructor. }
  rewrite E !filter_app !fmap_app. f_equal; [|f_equal].
  - rewrite filter_cons filter_nil. cbn [fst]. by repeat case_decide; subst.
  - apply md_one.
  - apply md_one.
Qed.

(** The envelope is marshalled and read back. *)
Definition envelope_encodes (e : entropy) (f : callFlags) : Prop :=
  exists b, proto_MarshalCtx (call_rc e (cf_as f) (cf_tenant f)) = Ok b /\ unmarshalCtx b = Some (call_rc e (cf_as f) (cf_tenant f)).

Lemma call_read_back e f :
  envelope_encodes e f -> readCallMeta unmarshalCtx (transport (call_ctx e f)) = Some (call_rc e (cf_as f) (cf_tenant f)).
Proof.
  intros (b & Hm & Hu). unfold readCallMeta. rewrite call_ctx_md.
  destruct (decide (callMetaHeader = callMetaHeader)) as [_|Hn]; [|by destruct Hn]. cbn [app]. unfold callMeta. by rewrite Hm.
Qed.

Lemma runCall_header e f k : k <> callMetaHeader -> k <> workspaceKey -> k <> tokenKey -> firstHeader (transport (call_ctx e f)) k = "".
Proof. intros H1 H2 H3. 
  unfold firstHeader. rewrite call_ctx_md. destruct (decide (k = callMetaHeader)); [done|].
  destruct (decide (k = workspaceKey /\ _)) as [[? _]|_]; [done|]. by destruct (decide (k = tokenKey /\ _)) as [[? _]|_].
Qed.

Lemma call_workspace e f : firstHeader (transport (call_ctx e f)) workspaceKey = cf_workspace f.
Proof.
  unfold firstHeader. rewrite call_ctx_md. destruct (decide (workspaceKey = callMetaHeader)) as [E|_]; [discriminate E|].
  destruct (decide (workspaceKey = tokenKey /\ _)) as [[E _]|_]; [discriminate E|].
  destruct (decide (workspaceKey = workspaceKey /\ _)) as [_|Hn]; [done|].
  destruct (decide (cf_workspace f = "")) as [->|]; [done|by destruct Hn].
Qed.
Lemma call_token e f : firstHeader (transport (call_ctx e f)) tokenKey = cf_token f.
Proof.
  unfold firstHeader. rewrite call_ctx_md. destruct (decide (tokenKey = callMetaHeader)) as [E|_]; [discriminate E|].
  destruct (decide (tokenKey = workspaceKey /\ _)) as [[E _]|_]; [discriminate E|].
  destruct (decide (tokenKey = tokenKey /\ _)) as [_|Hn]; [done|].
  destruct (decide (cf_token f = "")) as [->|]; [done|by destruct Hn].
Qed.

(** How a connection is dialled: in the clear only when neither a certificate nor TLS was asked
    for, and with the certificates of the file that was named. *)
Definition dialled (cacert : string) (skip : bool) (cr : creds) : Prop :=
  cacert = "" /\ skip = false /\ cr = Insecure \/
  cacert = "" /\ skip = true /\ cr = TLS true None \/
  cacert <> "" /\ exists pem, os_ReadFile cacert = Ok pem /\ AppendCertsFromPEM pem = true /\ cr = TLS skip (Some pem).

Lemma dial_creds_dialled f cr : dial_creds f = Ok cr -> dialled (cf_cacert f) (cf_tlsSkip f) cr.
Proof.
  unfold dial_creds, dialled. destruct (decide (cf_cacert f = "")) as [Hc|Hc].
  - rewrite bool_decide_eq_true_2 //. destruct (cf_tlsSkip f); cbn [andb negb]; intros [= <-]; [by right; left|by left].
  - rewrite bool_decide_eq_false_2 //. cbn [andb]. destruct (os_ReadFile _) as [pem|e] eqn:Er; [|done].
    destruct (AppendCertsFromPEM pem) eqn:Ea; [|done]. intros [= <-]. right. right. split; [done|]. by exists pem.
Qed.

(** C15: A call is made as the caller it names.  Nothing is sent without a caller, a capability a linked
    axis declares, a body that reads as its request type, and, where a certificate file is
    named, certificates read from it; TLS is never given up for plaintext when either it or a
    certificate was asked for.  The one call that is made carries the message the body was
    read as, and goes to the address of the flags or else of the current profile; the gateway
    reads back the caller and tenant, accepts the trace, and decides as the registry does for
    that caller with no selector (the envelope marshals and reads back); a hub reads the
    workspace and the credential; no other header is sent; a refusal of the gateway is
    returned unchanged, and a response is rendered as its message. *)
Theorem runCall_sends {Conn : Type} (g : Gateway (Conn := Conn)) e c0 argv r call :
  entropy_ok e -> runCall e c0 argv = Some (r, Some call) ->
  exists given cap inName outName msg, parseWithPositional call_flag_set (tail argv) = Some (Ok (given, cap)) /\
  let flag k d := default d (given !! k) in
  let caller := flag "as" (ctx_As c0) in
  let rc := mkRequestContext (Some (mkTrace (newTraceparent (e_trace e) (e_span e)) "" ("ratctl-" +:+ hex_EncodeToString (e_corr e))))
              (Some (mkIdentity caller None (flag "tenant" ""))) 0 in
  caller <> "" /\ k_cap call = cap /\ resolveCapability linked cap = Ok (inName, outName) /\
  protojson_Unmarshal inName (flag "data" "{}") = Ok msg /\ proto_Marshal msg = Ok (k_payload call) /\
  k_addr call = flag "addr" (ctx_Addr c0) /\
  dialled (flag "cacert" "") (is_true (flag "tls-skip-verify" "false")) (k_creds call) /\
  (forall err, Invoke call = Err err -> r = Err err) /\
  (forall resp m out, Invoke call = Ok resp -> registered outName = true -> proto_Unmarshal outName resp = Ok m ->
     protojson_Marshal m = Ok out -> r = Ok out) /\
  let c' := transport (k_ctx call) in
  firstHeader c' "rat-workspace" = flag "workspace" (ctx_Workspace c0) /\ firstHeader c' "rat-token" = flag "token" (ctx_Token c0) /\
  (forall k, k <> "rat-callmeta-bin" -> k <> "rat-workspace" -> k <> "rat-token" -> firstHeader c' k = "") /\
  ((exists b, proto_MarshalCtx rc = Ok b /\ unmarshalCtx b = Some rc) -> readCallMeta unmarshalCtx c' = Some rc /\
     traced unmarshalCtx c' = true /\
     decision_of unmarshalCtx g c' cap = Registry_Select (reg g) caller cap ∅).
Proof.
  intros (He1 & He2 & _) H. unfold runCall in H. destruct argv as [|a [|b argv]]; [done|by repeat case_match|].
  destruct (decide (a = "call")) as [->|Ha]; [|by repeat (case_match; try done)]. cbn [tail] in *.
  destruct (parseWithPositional call_flag_set (b :: argv)) as [[[given cap]|err]|]; simpl in H; [|done..].
  destruct (decide (cap = "")); [done|]. set (f := call_flags c0 given) in *.
  assert (r = (issue_call e f cap).1 /\ Some call = (issue_call e f cap).2) as [Hr Hc] by (by injection H as ->).
  clear H. unfold issue_call in Hr, Hc. destruct (decide (cf_as f = "")) as [|Has]; [done|].
  destruct (resolveCapability linked cap) as [[inName outName]|err] eqn:Er; [|done].
  destruct (newMessage inName); [done|]. destruct (protojson_Unmarshal _ _) as [msg|] eqn:Em; [|done].
  destruct (proto_Marshal _) as [pl|] eqn:Ep; [|done].
  destruct (dial_creds f) as [cr|] eqn:Ed; [|done]. destruct (grpc_NewClient _); [done|]. injection Hc as ->.
  apply dial_creds_dialled in Ed. exists given, cap, inName, outName, msg.
  cbn [fst k_addr k_cap k_ctx k_creds k_payload] in *. cbv zeta. split_and!; try done.
  - intros err E. rewrite E in Hr. by rewrite Hr.
  - intros resp m out E Hn Hu Hj. rewrite E in Hr. cbn [result_bind] in Hr. unfold newMessage in Hr. rewrite Hn Hu Hj in Hr. done.
  - apply (call_workspace e f).
  - apply (call_token e f).
  - intros k. apply (runCall_header e f).
  - intros Henc. pose proof (call_read_back e f Henc) as Hrb. split_and!; [done| |].
    + unfold traced. rewrite Hrb. by apply newTraceparent_wf.
    + unfold decision_of, caller_of. rewrite Hrb (runCall_header e f selectHeader) //.
      unfold authenticatedCaller. by rewrite (hop_caller _ Hcarry).
Qed.
End Client.

(** ** At a concrete call *)

Definition demo_entropy : entropy := mkEntropy "0123456789abcdef" "01234567" "0123".
Definition demo_profile : RatContext := mkRatContext "lab" "127.0.0.1:7777" "" "tok" "lab".
Definition demo_rc : RequestContext := call_rc demo_entropy "dev" "".
Definition demo_wire (b : string) : option RequestContext := if decide (b = "rc") then Some demo_rc else None.
Definition demo_answer (k : Call) : result string :=
  if decide (k_cap k = "rat://state/v1/get") then Ok "value" else Err (Status PermissionDenied "denied" []).
Definition demo_call (argv : list string) : option (result string * option Call) :=
  runCall Validate.demo_linked (fun _ => true) (fun _ => Ok "rc") (fun _ s => Ok s) (fun m => Ok m) (fun _ s => Ok s) (fun m => Ok m)
    (fun _ => Err EOF) (fun _ => true) (fun _ => None) (fun _ => None) demo_answer demo_entropy demo_profile argv.

Lemma runCall_sends_witness :
  demo_call ["call"; "rat://state/v1/get"] =
    Some (Err (Errorf "--as <caller> is required (the gateway authorizes the command against the caller's declared `requires`)" []), None) /\
  exists call, demo_call ["call"; "--as"; "dev"; "rat://state/v1/put"; "--data"; "{}"] =
      Some (Err (Status PermissionDenied "denied" []), Some call) /\
    firstHeader (plain_hop (k_ctx call)) "rat-workspace" = "lab" /\
    decision_of demo_wire (gateway_New Registry.demo_registry ∅ [] : Gateway (Conn := unit)) (plain_hop (k_ctx call)) "rat://state/v1/put" =
      Registry_Select Registry.demo_registry "dev" "rat://state/v1/put" ∅.
Proof.
  split; [vm_compute; reflexivity|].
  destruct (demo_call ["call"; "--as"; "dev"; "rat://state/v1/put"; "--data"; "{}"]) as [[r [call|]]|] eqn:E;
    [|vm_compute in E; discriminate..].
  exists call. destruct (runCall_sends Validate.demo_linked (fun _ => true) (fun _ => Ok "rc") (fun _ s => Ok s) (fun m => Ok m)
      (fun _ s => Ok s) (fun m => Ok m) (fun _ => Err EOF) (fun _ => true) (fun _ => None) (fun _ => None) demo_answer
      demo_wire plain_hop plain_hop_carries (gateway_New Registry.demo_registry ∅ [] : Gateway (Conn := unit)) demo_entropy demo_profile
      ["call"; "--as"; "dev"; "rat://state/v1/put"; "--data"; "{}"] r call)
    as (given & cap & inName & outName & msg & Hp & _ & Hc & _ & _ & _ & _ & _ & Hr & _ & Hw & _ & _ & Henc).
  - repeat split.
  - exact E.
  - assert (exists given0 : Given, given0 = {["data" := "{}"; "as" := "dev"]}) as [given0 Eg] by by eexists.
    assert (parseWithPositional (call_flag_set (fun _ => None)) (tail ["call"; "--as"; "dev"; "rat://state/v1/put"; "--data"; "{}"]) =
            Some (Ok (given0, "rat://state/v1/put"))) as Hq by (rewrite Eg; evaluated).
    rewrite Hq in Hp. injection Hp as <- <-. rewrite Eg in Hw, Henc.
    split; [|split; [exact Hw|]].
    + rewrite (Hr (Status PermissionDenied "denied" [])); [reflexivity|]. unfold demo_answer. rewrite Hc. reflexivity.
    + apply Henc. exists "rc". split; [reflexivity|]. vm_compute. reflexivity.
Defined.
