(* ===== verification/Apply.v ===== *)
(** Shipping a project directory (src/core/client/client.go): what [rat apply] packs into the
    archive and where it stores it.  The tar and gzip encodings are parameters. *)
From S2P Require Import Prelude Paths Registry CallContext Contexts Client.

(** ** The directory *)

(** The entries of a directory are listed in lexical order; a regular file can fail to be
    read; anything else is a link, a device or a socket. *)
Inductive fnode :=
  | FDir (entries : list (string * fnode))
  | FRegular (content : result string)
  | FOther.

Record tarEntry := mkEntry { te_Name : string; te_Dir : bool; te_Body : string }.

Definition skipProjectPath (base : string) : bool :=
  contains [".git"; "target"; "logs"; "dbt_packages"; "__pycache__"; ".gitignore"; ".DS_Store"] base
  || HasSuffix base ".duckdb" || HasSuffix base ".duckdb.wal" || HasSuffix base ".pyc".

(** The archive name of an entry, from its components. *)
Definition rel_name (comps : list string) : string := Join comps "/".

(** The entries written for a node, at [comps] below the root, whose last component is
    [base]: nothing when it is skipped. *)
Fixpoint walk (comps : list string) (base : string) (n : fnode) : result (list tarEntry) :=
  if skipProjectPath base then Ok []
  else match n with
       | FOther => Ok []
       | FRegular (Err e) => Err e
       | FRegular (Ok body) => Ok [mkEntry (rel_name (comps ++ [base])) false body]
       | FDir es =>
           let fix walk_all es :=
             match es with
             | [] => Ok []
             | (name, n) :: es =>
                 let? here := walk (comps ++ [base]) name n in
                 let? rest := walk_all es in
                 Ok (here ++ rest)
             end in
           let? below := walk_all es in
           Ok (mkEntry (rel_name (comps ++ [base])) true "" :: below)
       end.

Fixpoint walk_entries (comps : list string) (es : list (string * fnode)) : result (list tarEntry) :=
  match es with
  | [] => Ok []
  | (name, n) :: es =>
      let? here := walk comps name n in
      let? rest := walk_entries comps es in
      Ok (here ++ rest)
  end.

Definition file_count (l : list tarEntry) : nat := length (List.filter (fun e => negb (te_Dir e)) l).

Section Apply.
(** The archive of a list of entries. *)
Context (tar_gz : list tarEntry -> string).

(** [os_Stat] is the root of the tree, or an error. *)
Definition tarProject (dir : string) (root : result fnode) : result (string * nat) :=
  let? n := root in
  match n with
  | FDir es => let? l := walk_entries [] es in Ok (tar_gz l, file_count l)
  | _ => Err (Errorf "%s is not a directory" [dir])
  end.

(** ** Storing it *)

Context (proto_MarshalCtx : RequestContext -> result string).
(** A state put of a value under a key, the call that carries it, and the revision of its
    answer. *)
Context (PutRequest : string -> string -> result string) (PutResponse : string -> result Z).
Context (grpc_NewClient : string -> option error) (Invoke : Call -> result string).

Definition apply_caller (c0 : RatContext) : string := if decide (ctx_As c0 = "") then "platform-runner" else ctx_As c0.

(** After its flags, whose defaults are the current profile's: the files, bytes and revision
    reported. *)
Definition runApply (e : entropy) (addr caller tenant project name : string) (root : result fnode) :
    result (nat * Z * Z) * option Call :=
  if bool_decide (project = "") || bool_decide (name = "") then
    (Err (Errorf "usage: rat apply --project <dir> --name <name> [--as <caller>] [--addr host:port]" []), None)
  else
    match tarProject project root with
    | Err err => (Err (Wrap "package project %s: %w" [project] err), None)
    | Ok (tarball, n) =>
        match PutRequest ("projects/" +:+ name) tarball with
        | Err err => (Err (Wrap "marshal put: %w" [] err), None)
        | Ok payload =>
            match grpc_NewClient addr with
            | Some err => (Err (Wrap "dial %s: %w" [addr] err), None)
            | None =>
                let call := mkCall addr Insecure
                  (AppendToOutgoingContext background callMetaHeader (callMeta proto_MarshalCtx e caller tenant))
                  "rat://state/v1/put" payload in
                (let? resp := Invoke call in
                 match PutResponse resp with
                 | Err err => Err (Wrap "unmarshal put response: %w" [] err)
                 | Ok rev => Ok (n, len tarball, rev)
                 end, Some call)
            end
        end
    end.
End Apply.

(** ** What is shipped *)

(** A node below a directory, along components that are not skipped. *)
Inductive shipped : list (string * fnode) -> list string -> fnode -> Prop :=
  | shipped_here es name n : (name, n) ∈ es -> skipProjectPath name = false -> shipped es [name] n
  | shipped_below es name below comps n :
      (name, FDir below) ∈ es -> skipProjectPath name = false -> shipped below comps n -> shipped es (name :: comps) n.

(** The archive entry of a node, if it has one. *)
Definition entry_of (comps : list string) (n : fnode) : option tarEntry :=
  match n with
  | FDir _ => Some (mkEntry (rel_name comps) true "")
  | FRegular (Ok body) => Some (mkEntry (rel_name comps) false body)
  | _ => None
  end.

Lemma walk_dir comps base es :
  walk comps base (FDir es) =
  if skipProjectPath base then Ok []
  else let? below := walk_entries (comps ++ [base]) es in Ok (mkEntry (rel_name (comps ++ [base])) true "" :: below).
Proof.
  cbn [walk]. destruct (skipProjectPath base); [done|]. f_equal.
  induction es as [|[name n] es IH]; [done|]. cbn [walk_entries]. destruct (walk _ name n); [|done]. cbn [result_bind]. by rewrite IH.
Qed.

Lemma fnode_nested_ind (P : fnode -> Prop) :
  (forall es, Forall (fun x => P x.2) es -> P (FDir es)) -> (forall c, P (FRegular c)) -> P FOther -> forall n, P n.
Proof.
  intros HD HR HO. fix IH 1. intros [es|c|]; [|apply HR|apply HO]. apply HD.
  induction es as [|[name n] es IHes]; constructor; [apply IH|exact IHes].
Qed.

(** What a walk writes for one node. *)
Definition walked (pre : list string) (base : string) (n : fnode) (e : tarEntry) : Prop :=
  skipProjectPath base = false /\
  (entry_of (pre ++ [base]) n = Some e \/
   exists es comps n', n = FDir es /\ shipped es comps n' /\ entry_of (pre ++ base :: comps) n' = Some e).

Lemma shipped_cons name n es comps n' :
  shipped ((name, n) :: es) comps n' <->
  (skipProjectPath name = false /\ (comps = [name] /\ n' = n \/
     exists below rest, n = FDir below /\ comps = name :: rest /\ shipped below rest n')) \/ shipped es comps n'.
Proof.
  split.
  - intros H. inversion H as [es' name' n1 Hin Hs|es' name' below comps' n1 Hin Hs Hb]; subst.
    + apply elem_of_cons in Hin as [[= -> ->]|Hin]; [left; split; [done|by left]|right; by constructor].
    + apply elem_of_cons in Hin as [[= <- <-]|Hin]; [left; split; [done|right; by eexists _, _]|right; by econstructor].
  - intros [(Hs & [[-> ->]|(below & rest & -> & -> & Hb)])|H].
    + constructor; [left|done].
    + econstructor; [left|done|done].
    + inversion H; subst; [constructor|econstructor]; try done; by right.
Qed.

Lemma walk_entries_spec pre es l :
  Forall (fun x => forall pre base l, walk pre base x.2 = Ok l -> forall e, e ∈ l <-> walked pre base x.2 e) es ->
  walk_entries pre es = Ok l ->
  forall e, e ∈ l <-> exists comps n, shipped es comps n /\ entry_of (pre ++ comps) n = Some e.
Proof.
  intros Hes. revert l. induction Hes as [|[name n] es Hn _ IH]; intros l; cbn [walk_entries].
  { intros [= <-] e. split; [by intros ?%not_elem_of_nil|]. intros (comps & n & H & _). by inversion H; match goal with H : _ ∈ [] |- _ => apply not_elem_of_nil in H end. }
  rewrite result_bind_Ok. intros (here & Hh & H). apply result_bind_Ok in H as (rest & Hr & [= <-]). intros e.
  rewrite elem_of_app (Hn _ _ _ Hh) (IH _ Hr). setoid_rewrite shipped_cons. unfold walked. cbn [snd]. split.
  - intros [(Hs & [He|(bs & comps & n' & -> & Hb & He)])|(comps & n' & Hsh & He)].
    + exists [name], n. split; [|done]. left. split; [done|by left].
    + exists (name :: comps), n'. split; [|done]. left. split; [done|]. right. by eexists _, _.
    + exists comps, n'. split; [by right|done].
  - intros (comps & n' & [(Hs & [[-> ->]|(below & rest' & -> & -> & Hb)])|Hsh] & He).
    + left. split; [done|by left].
    + left. split; [done|]. right. by eexists _, _, _.
    + right. by eexists _, _.
Qed.

Lemma walk_spec n : forall pre base l, walk pre base n = Ok l -> forall e, e ∈ l <-> walked pre base n e.
Proof.
  induction n as [es IH|c|] using fnode_nested_ind; intros pre base l; unfold walked.
  - rewrite walk_dir. destruct (skipProjectPath base) eqn:Es.
    { intros [= <-] e. split; [by intros ?%not_elem_of_nil|by intros [? _]]. }
    rewrite result_bind_Ok. intros (below & Hb & [= <-]) e. rewrite elem_of_cons (walk_entries_spec _ _ _ IH Hb). split.
    + intros [->|(comps & n & Hs & He)]; (split; [done|]); [by left|]. right. exists es, comps, n. rewrite -app_assoc in He. done.
    + intros [_ [[= <-]|(es' & comps & n' & [= <-] & Hs & He)]]; [by left|]. right. exists comps, n'. by rewrite -app_assoc.
  - cbn [walk]. destruct (skipProjectPath base) eqn:Es.
    { intros [= <-] e. split; [by intros ?%not_elem_of_nil|by intros [? _]]. }
    destruct c as [body|err]; [|done]. intros [= <-] e. cbn [entry_of]. rewrite list_elem_of_singleton. split.
    + intros ->. split; [done|by left].
    + intros [_ [[= <-]|(? & ? & ? & [=] & _)]]. done.
  - cbn [walk]. destruct (skipProjectPath base) eqn:Es; intros [= <-] e.
    + split; [by intros ?%not_elem_of_nil|by intros [? _]].
    + split; [by intros ?%not_elem_of_nil|]. by intros [_ [[=]|(? & ? & ? & [=] & _)]].
Qed.

(** What is shipped is exactly the source of the project.  The archive has an entry, under its
    relative path, for every directory and every readable regular file that neither is
    skipped itself nor lies below a skipped directory, and for nothing else: no link, no
    device, nothing below a directory of generated files; and a file that cannot be read
    fails the packing unless it is skipped. *)
Theorem tar_is_the_source tar_gz dir es tarball n :
  tarProject tar_gz dir (Ok (FDir es)) = Ok (tarball, n) ->
  exists l, tarball = tar_gz l /\ n = file_count l /\
    (forall e, e ∈ l <-> exists comps node, shipped es comps node /\ entry_of comps node = Some e) /\
    (forall comps node err, shipped es comps node -> node <> FRegular (Err err)).
Proof.
  cbn [tarProject result_bind]. rewrite result_bind_Ok. intros (l & Hl & [= <- <-]). exists l. split_and!; [done..| |].
  - apply (walk_entries_spec [] es l); [|done]. apply Forall_forall. intros x _. apply walk_spec.
  - intros comps node err Hs ->. assert (forall pre l, walk_entries pre es <> Ok l) as Hn; [|by apply (Hn [] l)].
    clear Hl l. remember (FRegular (Err err)) as node eqn:En.
    induction Hs as [es name n Hin Hsk|es name below comps n Hin Hsk Hb IH]; subst;
      (induction es as [|[name' n'] es IHes]; [by apply not_elem_of_nil in Hin|]; intros pre l; cbn [walk_entries];
       apply elem_of_cons in Hin as [[= <- <-]|Hin];
       [|rewrite result_bind_Ok; intros (here & _ & H2); apply result_bind_Ok in H2 as (rest & Hr & _); by eapply IHes]).
    + cbn [walk]. by rewrite Hsk.
    + rewrite walk_dir Hsk. destruct (walk_entries (pre ++ [name]) below) as [b|] eqn:Eb; [|done].
      by apply (IH eq_refl) in Eb.
Qed.

(** ** At a concrete project *)

Definition demo_project : list (string * fnode) :=
  [(".git", FDir [("HEAD", FRegular (Ok "ref"))]); ("dbt_project.yml", FRegular (Ok "name: p"));
   ("logs", FDir [("secret.log", FRegular (Err EOF))]); ("models", FDir [("a.sql", FRegular (Ok "select 1")); ("x.pyc", FRegular (Ok "..")); ("ln", FOther)])].
Definition demo_tar (l : list tarEntry) : string := Join (te_Name <$> l) " ".

Lemma tar_is_the_source_witness :
  exists l, tarProject demo_tar "p" (Ok (FDir demo_project)) = Ok ("dbt_project.yml models models/a.sql", 2%nat) /\
    demo_tar l = "dbt_project.yml models models/a.sql" /\ mkEntry "models/a.sql" false "select 1" ∈ l.
Proof.
  destruct (tar_is_the_source demo_tar "p" demo_project "dbt_project.yml models models/a.sql" 2) as (l & Hl & _ & Hin & _);
    [vm_compute; reflexivity|].
  exists l. split; [vm_compute; reflexivity|]. split; [symmetry; exact Hl|]. apply Hin.
  exists ["models"; "a.sql"], (FRegular (Ok "select 1")). split; [|reflexivity].
  eapply shipped_below; [right; right; right; left|vm_compute; reflexivity|].
  apply shipped_here; [left|vm_compute; reflexivity].
Defined.
