(* ===== verification/Surface.v ===== *)
(** Contributed user-interface components on the command line (src/core/client/ui.go): their
    listing, the surface they apply to and the capability they may call. *)
From S2P Require Import Prelude Paths Registry CallContext Validate Command Contexts Client.

(** ** Components *)

Record uiComponent := mkComponent {
  ui_Slot : string; ui_Surface : string; ui_ID : string; ui_Title : string; ui_Capability : string; ui_Args : string;
  ui_source : string;
}.
Definition set_source (s : string) (c : uiComponent) : uiComponent :=
  mkComponent (ui_Slot c) (ui_Surface c) (ui_ID c) (ui_Title c) (ui_Capability c) (ui_Args c) s.

Definition matchesSurface (c : uiComponent) (surface : string) : bool :=
  contains [surface; ""; "*"; "generic"] (ui_Surface c).

Section Surface.
(** The gateway's answer to a capability and a payload; the codecs. *)
Context (Invoke : string -> string -> result string).
Context (ListRequest GetRequest : string -> string).
Context (ListResponse : string -> result (list string)) (GetResponse : string -> result (option string)).
Context (json_Unmarshal : string -> result uiComponent).
Context (linked : list Rpc) (registered : string -> bool).
Context {Msg : Type} (protojson_Unmarshal : string -> string -> result Msg) (proto_Marshal : Msg -> result string).
Context (proto_Unmarshal : string -> string -> result Msg) (protojson_Marshal : Msg -> string).

(** A key that cannot be read, is absent or does not decode is skipped. *)
Definition read_component (key : string) : option uiComponent :=
  match Invoke "rat://state/v1/get" (GetRequest key) with
  | Err _ => None
  | Ok res =>
      match GetResponse res with
      | Ok (Some value) =>
          match json_Unmarshal value with
          | Ok c => Some (match Split "/" key with _ :: _ :: p :: _ => set_source p c | _ => c end)
          | Err _ => None
          end
      | _ => None
      end
  end.

Definition readContributions : result (list uiComponent) :=
  match Invoke "rat://state/v1/list" (ListRequest "ui/components/") with
  | Err e => Err (Wrap "list contributions: %w" [] e)
  | Ok res => let? keys := ListResponse res in Ok (omap read_component keys)
  end.

(** The components by slot, the slots sorted; nothing when there is no component. *)
Definition renderList (comps : list uiComponent) : list (string * list uiComponent) :=
  (fun slot => (slot, List.filter (fun c => bool_decide (ui_Slot c = slot)) comps))
    <$> sort_strings (remove_dups (ui_Slot <$> comps)).

Definition find_command (comps : list uiComponent) (id : string) : option uiComponent :=
  List.find (fun c => bool_decide (ui_ID c = id) && bool_decide (ui_Slot c = "command")) comps.

(** What is printed, and the capability and payload invoked, if any. *)
Definition runComponent (comps : list uiComponent) (id : string) : result string * option (string * string) :=
  match find_command comps id with
  | None => (Err (Errorf "no command %q on this surface" [id]), None)
  | Some c =>
    match resolveCapability linked (ui_Capability c) with
    | Err e => (Err e, None)
    | Ok (inName, outName) =>
      match newMessage registered inName with
      | Some e => (Err e, None)
      | None =>
        match protojson_Unmarshal inName (if decide (ui_Args c = "") then "{}" else ui_Args c) with
        | Err e => (Err (Wrap "command %q args: %w" [id] e), None)
        | Ok reqMsg =>
          match proto_Marshal reqMsg with
          | Err e => (Err e, None)
          | Ok payload =>
              (let? resp := Invoke (ui_Capability c) payload in
               match newMessage registered outName with
               | Some e => Err e
               | None => let? m := proto_Unmarshal outName resp in Ok (protojson_Marshal m)
               end, Some (ui_Capability c, payload))
          end
        end
      end
    end
  end.

Inductive ui_cmd := UiList | UiRun (id : string).

(** The subcommand and the arguments its flags are parsed from. *)
Definition ui_command (argv : list string) : result (ui_cmd * list string) :=
  match argv with
  | ["run"] => Err (Errorf "usage: rat ui run <id>" [])
  | "run" :: id :: rest => Ok (UiRun id, rest)
  | "list" :: rest => Ok (UiList, rest)
  | _ => Ok (UiList, argv)
  end.

(** After dialling; [inl] is a listing, [inr] the outcome of a run. *)
Definition RunUI (cmd : ui_cmd) (surface : string) :
    result (list (string * list uiComponent) + result string * option (string * string)) :=
  let? comps := readContributions in
  let shown := List.filter (fun c => matchesSurface c surface) comps in
  Ok match cmd with
     | UiRun id => inr (runComponent shown id)
     | UiList => inl (renderList shown)
     end.

(** ** Only this surface *)

Lemma find_command_spec comps id c :
  find_command comps id = Some c -> c ∈ comps /\ ui_ID c = id /\ ui_Slot c = "command".
Proof. unfold find_command. intros [Hin H]%find_some. bool_to_prop. by rewrite list_elem_of_In. Qed.

Lemma renderList_exact comps slot c :
  (exists l, (slot, l) ∈ renderList comps /\ c ∈ l) <-> c ∈ comps /\ ui_Slot c = slot.
Proof.
  unfold renderList, sort_strings. setoid_rewrite list_elem_of_fmap. split.
  - intros (l & (s & [= -> ->] & _) & Hc). apply list_elem_of_In, filter_In in Hc as [Hc Hs%bool_decide_eq_true].
    by rewrite list_elem_of_In.
  - intros [Hc <-]. eexists. split.
    + exists (ui_Slot c). split; [done|]. rewrite merge_sort_Permutation. apply elem_of_remove_dups. by apply list_elem_of_fmap_2.
    + apply list_elem_of_In, filter_In. rewrite -list_elem_of_In. split; [done|]. by apply bool_decide_eq_true.
Qed.

(** A surface shows and runs only what targets it.  A listing has, under each slot, exactly the
    components published and readable that target the surface or none in particular; and
    running an identifier invokes a capability only for a command component that is listed,
    with that component's capability, so a component of another surface is never invoked
    whatever its identifier. *)
Theorem surface_confined cmd surface out :
  RunUI cmd surface = Ok out ->
  exists comps, readContributions = Ok comps /\
  match out with
  | inl listing => cmd = UiList /\
      forall slot c, (exists l, (slot, l) ∈ listing /\ c ∈ l) <-> c ∈ comps /\ ui_Slot c = slot /\ matchesSurface c surface = true
  | inr (_, Some (cap, _)) => exists id c, cmd = UiRun id /\ c ∈ comps /\ ui_ID c = id /\ ui_Slot c = "command" /\
      matchesSurface c surface = true /\ ui_Capability c = cap /\ is_Ok (resolveCapability linked cap) = true
  | inr (r, None) => is_Ok r = false
  end.
Proof.
  unfold RunUI. rewrite result_bind_Ok. intros (comps & Hc & [= <-]). exists comps. split; [done|].
  destruct cmd as [|id].
  - split; [done|]. intros slot c. rewrite renderList_exact !list_elem_of_In filter_In. naive_solver.
  - unfold runComponent. destruct (find_command _ id) as [c|] eqn:Ef; [|done].
    destruct (resolveCapability linked (ui_Capability c)) as [[i o]|] eqn:Er; [|done].
    destruct (newMessage registered i); [done|]. destruct (protojson_Unmarshal _ _); [|done]. destruct (proto_Marshal _); [|done].
    apply find_command_spec in Ef as (Hin & Hid & Hs). apply list_elem_of_In, filter_In in Hin as [Hin Hm].
    exists id, c. rewrite list_elem_of_In. by rewrite Er.
Qed.
End Surface.

(** ** At concrete components *)

Definition demo_invoke (cap payload : string) : result string :=
  if decide (cap = "rat://state/v1/list") then Ok "keys"
  else if decide (cap = "rat://state/v1/get" /\ payload <> "run") then Ok payload else Ok "done".
Definition demo_keys (_ : string) : result (list string) := Ok ["ui/components/board/refresh"; "ui/components/board/panel"; "ui/components/x/gone"].
Definition demo_value (r : string) : result (option string) := Ok (if decide (r = "ui/components/x/gone") then None else Some r).
Definition demo_component (v : string) : result uiComponent :=
  Ok (if decide (v = "ui/components/board/refresh") then mkComponent "command" "cli" "refresh" "Refresh" "rat://state/v1/get" "" ""
      else mkComponent "command" "webapp" "panel" "Panel" "rat://state/v1/put" "" "").
Definition demo_ui (cmd : ui_cmd) : result (list (string * list uiComponent) + result string * option (string * string)) :=
  RunUI demo_invoke (fun p => p) (fun k => k) demo_keys demo_value demo_component Validate.demo_linked (fun _ => true)
    (fun _ _ => Ok "run") (fun m => Ok m) (fun _ s => Ok s) (fun m => m) cmd "cli".

Lemma surface_confined_witness :
  demo_ui (UiRun "panel") = Ok (inr (Err (Errorf "no command %q on this surface" ["panel"]), None)) /\
  exists c, demo_ui (UiRun "refresh") = Ok (inr (Ok "done", Some ("rat://state/v1/get", "run"))) /\
    ui_ID c = "refresh" /\ ui_Capability c = "rat://state/v1/get".
Proof.
  split; [vm_compute; reflexivity|].
  destruct (surface_confined demo_invoke (fun p => p) (fun k => k) demo_keys demo_value demo_component Validate.demo_linked
    (fun _ => true) (fun _ _ => Ok "run") (fun m => Ok m) (fun _ s => Ok s) (fun m => m) (UiRun "refresh") "cli"
    (inr (Ok "done", Some ("rat://state/v1/get", "run")))) as (comps & _ & id & c & E & _ & Hid & _ & _ & Hcap & _);
    [vm_compute; reflexivity|].
  injection E as <-. exists c. split; [vm_compute; reflexivity|]. split; [exact Hid|exact Hcap].
Defined.
