(* ===== verification/ControlClient.v ===== *)
(** The client side of live control (src/core/cmd/rat/control_client.go) and the listener it
    reaches (main.go, [listen]): after an edit of rat.toml, the running daemon is told. *)
From S2P Require Import Prelude Paths Lifecycle Plane DeployRuntime.

Section Live.
(** [filepath.Abs]; reading a file; and the control service's two answers. *)
Context (Abs : string -> result string) (os_ReadFile : string -> result string).

Definition socket_path (path : string) : string :=
  let path := TrimPrefix path "//" in match Abs path with Ok abs => abs | Err _ => path end.

(** What the daemon binds: a network and an address. *)
Definition listen (addr : string) : string * string :=
  let '(path, ok) := CutPrefix addr "unix:" in
  if ok : bool then ("unix", socket_path path) else ("tcp", addr).

(** What the client dials. *)
Definition control_target (addr : string) : string :=
  let '(path, ok) := CutPrefix addr "unix:" in
  if ok : bool then "unix://" +:+ socket_path path else addr.

(** A registration: name, manifest bytes, and the launch, if any. *)
Record RegisterRequest := mkRegister {
  rr_Name : string; rr_Manifest : string; rr_Launch : option (string * string * gmap string string);
}.

Definition env_of (envs : list string) : gmap string string :=
  fold_left (fun m kv => let '(k, v, ok) := Cut "=" kv in if ok : bool then <[k := v]> m else m) envs ∅.

Context (dial : string -> option error).
Context (RegisterPlugin : string -> RegisterRequest -> result (string * string)).
Context (DeregisterPlugin : string -> string -> result bool).
(** The manifest path as rat.toml gives it, resolved against the project. *)
Context (resolve : string -> string -> string).

(** The request sent, if any, and the state and endpoint of the answer. *)
Definition materializeAdd (addr dir name manifestRel image isolation : string) (envs : list string) :
    result (string * string) * option (string * RegisterRequest) :=
  match os_ReadFile (resolve dir manifestRel) with
  | Err e => (Err (Wrap "read manifest: %w" [] e), None)
  | Ok bytes =>
      let launch := if decide (image = "") then None else Some (image, isolation, env_of envs) in
      let target := control_target addr in
      match dial target with
      | Some e => (Err e, None)
      | None => let req := mkRegister name bytes launch in (RegisterPlugin target req, Some (target, req))
      end
  end.

Definition materializeRemove (addr name : string) : result bool * option (string * string) :=
  let target := control_target addr in
  match dial target with
  | Some e => (Err e, None)
  | None => (DeregisterPlugin target name, Some (target, name))
  end.

(** The client reaches the socket the daemon binds, however the address is spelt. *)
Theorem live_reaches_listener addr :
  match listen addr with
  | (net, a) => control_target addr = if decide (net = "unix") then "unix://" +:+ a else a
  end.
Proof.
  unfold listen, control_target. destruct (CutPrefix addr "unix:") as [path [|]]; [done|].
  by destruct (decide ("tcp" = "unix")).
Qed.
End Live.
