(* ===== verification/MarketPublish.v ===== *)
(** The marketplace commands (src/core/cmd/rat/marketplace.go, signing.go): managing the
    configured sources, making keys and signing an index, searching, and suggesting a plugin
    for an unsatisfied requirement.  The ed25519 primitives, the JSON codec and the network
    are parameters; base64 is that of Base64. *)
From S2P Require Import Prelude Paths Manifest Registry Plane Marketplace Project Validate Command Contexts Base64 Flags.

(** ** Searching and listing *)

Section Search.
(** [strings.ToLower], by the case tables of Unicode. *)
Context (ToLower : string -> string).

Definition matchesQuery (e : marketEntry) (q : string) : bool :=
  Contains (ToLower (e_Name e)) q || Contains (ToLower (e_Kind e)) q || Contains (ToLower (e_Description e)) q
  || existsb (fun c => Contains (ToLower c) q) (e_Provides e ++ e_Requires e).

Definition search_query (args : list string) : string :=
  match args with a :: _ => if HasPrefix a "-" then "" else ToLower a | [] => "" end.

(** The rows printed, from all entries. *)
Definition runSearch (entries : list marketEntry) (args : list string) : list marketEntry :=
  let query := search_query args in
  List.filter (fun e => bool_decide (query = "") || matchesQuery e query) entries.
End Search.

(** The plugins of the enclosing project, by name and image. *)
Definition runList (toml_Unmarshal : string -> result ratToml) (fs : files) (cwd : string) : option (result (list (string * string))) :=
  found ← findProject fs cwd ".";
  Some (let? pd := found in
        let? rt := parseProject toml_Unmarshal fs pd.1 in
        Ok ((fun p => (tp_Name p, if decide (tp_Image p = "") then "(driver)" else tp_Image p)) <$> rt_Plugins rt)).

(** For each missing requirement, the plugin to add or else the axis to look for. *)
Definition reportUnsatisfiedSuggesting (entries : list marketEntry) (miss : list missingDep) : list (missingDep * (marketEntry + string)) :=
  (fun d => (d, match providerFor entries (dep_Capability d) with
                | Some e => inl e
                | None => inr (capAxisOf (dep_Capability d))
                end)) <$> miss.

Section Publish.
Context (GenerateKey : result (string * string)) (Sign : string -> string -> string).
Context (ed25519_Verify : string -> string -> string -> bool).
(** The configuration as JSON; decoding leaves whatever it could read. *)
Context (json_MarshalConfig : marketConfig -> string) (json_UnmarshalConfig : string -> marketConfig).
Context (http_Get : string -> result string).
Context (writable : string -> bool).
Context (userCacheDir userConfigDir : string).

(** ** Keys and signatures *)

Definition genKeypair : result (string * string) :=
  let? ps := GenerateKey in Ok (EncodeToString ps.1, EncodeToString ps.2).

Definition signBytes (privB64 data : string) : result string :=
  match DecodeString (TrimSpace privB64) with
  | Err e => Err (Wrap "decode private key: %w" [] e)
  | Ok raw =>
      if decide (len raw = 64) then Ok (EncodeToString (Sign raw data))
      else Err (Errorf "private key must be %d bytes, got %d" ["64"; itoa (len raw)])
  end.

(** ** The configured sources *)

Definition marketConfigPath : string := filepath_Join [userConfigDir; "rat"; "marketplaces.json"].
Definition loadMarketConfig (fs : files) : marketConfig :=
  match fs !! marketConfigPath with Some d => json_UnmarshalConfig d | None => mkConfig [] end.
Definition saveMarketConfig (fs : files) (cfg : marketConfig) : result files :=
  os_WriteFile writable fs marketConfigPath (json_MarshalConfig cfg).

(** ** The verbs: the error reported, and the files left *)

(** The arguments before the first flag, and the rest. *)
Fixpoint leadingPositionals (args : list string) : list string * list string :=
  match args with
  | a :: rest => if HasPrefix a "-" then ([], args) else let '(pos, rest) := leadingPositionals rest in (a :: pos, rest)
  | [] => ([], [])
  end.

Definition one_flag (name : string) : FlagSet := {[name := string_flag]}.

(** A write that fails ends the verb. *)
Definition then_write (r : option error * files) (p d : string) : option error * files :=
  match r with
  | (Some e, fs) => (Some e, fs)
  | (None, fs) => match os_WriteFile writable fs p d with Err e => (Some e, fs) | Ok fs => (None, fs) end
  end.

Definition marketAdd (fs : files) (args : list string) : option error * files :=
  let '(pos, rest) := leadingPositionals args in
  match Parse (one_flag "pubkey") rest ∅ with
  | Err e => (Some e, fs)
  | Ok (given, _) =>
      match pos with
      | [] => (Some (Errorf "usage: rat marketplace add <name> [<path-or-url>] [--pubkey <key>]" []), fs)
      | name :: more =>
          let path := match more with
                      | p :: _ => Some p
                      | [] => let u := default "" (wellKnownMarketplaces !! name) in
                              if decide (u = "") then None else Some u
                      end in
          match path with
          | None => (Some (Errorf "usage: rat marketplace add %s <path-or-url>  (or a built-in: %s)"
                             [name; Join wellKnownNames ", "]), fs)
          | Some path =>
              let key := resolveKeyArg fs (default "" (given !! "pubkey")) in
              let cfg := loadMarketConfig fs in
              if existsb (fun s => bool_decide (ms_Name s = name)) (Marketplaces cfg)
              then (Some (Errorf "marketplace %q already added" [name]), fs)
              else match saveMarketConfig fs (mkConfig (Marketplaces cfg ++ [mkSource name path key])) with
                   | Err e => (Some e, fs)
                   | Ok fs => (None, fs)
                   end
          end
      end
  end.

(** Each configured source with its kind, path and whether a key is enforced, and the
    built-in ones not yet added. *)
Definition marketList (fs : files) : list (string * string * string * bool) * list string :=
  let cfg := loadMarketConfig fs in
  ((fun s => (ms_Name s, if isURL (ms_Path s) then "(remote)" else "(file)", ms_Path s, negb (bool_decide (PubKey s = ""))))
     <$> Marketplaces cfg,
   List.filter (fun n => negb (contains (ms_Name <$> Marketplaces cfg) n)) wellKnownNames).

Definition marketKeygen (fs : files) (args : list string) : option error * files :=
  match Parse (one_flag "out") args ∅ with
  | Err e => (Some e, fs)
  | Ok (given, _) =>
      let prefix := default "rat-marketplace" (given !! "out") in
      match genKeypair with
      | Err e => (Some e, fs)
      | Ok (pub, priv) =>
          then_write (then_write (None, fs) (prefix +:+ ".key") (priv +:+ newline)) (prefix +:+ ".pub") (pub +:+ newline)
      end
  end.

Definition marketSign (fs : files) (args : list string) : option error * files :=
  let '(pos, rest) := leadingPositionals args in
  match Parse (one_flag "key") rest ∅ with
  | Err e => (Some e, fs)
  | Ok (given, _) =>
      let keyArg := default "" (given !! "key") in
      match pos with
      | index :: _ =>
          if decide (keyArg = "") then (Some (Errorf "usage: rat marketplace sign <index.json> --key <priv-path-or-b64>" []), fs)
          else
            match os_ReadFile fs index with
            | Err e => (Some e, fs)
            | Ok data =>
                match signBytes (resolveKeyArg fs keyArg) data with
                | Err e => (Some e, fs)
                | Ok sig => then_write (None, fs) (index +:+ ".sig") (sig +:+ newline)
                end
            end
      | [] => (Some (Errorf "usage: rat marketplace sign <index.json> --key <priv-path-or-b64>" []), fs)
      end
  end.

Definition fetch (src : marketSource) (fs : files) : result sourceLoad * files :=
  fetchSource DecodeString ed25519_Verify http_Get writable userCacheDir src fs.

Definition marketVerify (fs : files) (args : list string) : option error * files :=
  match args with
  | [] => (Some (Errorf "usage: rat marketplace verify <name>" []), fs)
  | name :: _ =>
      match List.find (fun s => bool_decide (ms_Name s = name)) (Marketplaces (loadMarketConfig fs)) with
      | None => (Some (Errorf "marketplace %q not found (`rat marketplace list`)" [name]), fs)
      | Some s =>
          if decide (PubKey s = "")
          then (Some (Errorf "marketplace %q has no pinned key (re-add with --pubkey to enforce signatures)" [name]), fs)
          else match fetch s fs with
               | (Err e, fs) => (Some e, fs)
               | (Ok _, fs) => (None, fs)
               end
      end
  end.

Definition runMarketplace (fs : files) (args : list string) : option error * files :=
  match args with
  | [] => (None, fs)
  | sub :: rest =>
      if decide (sub = "add") then marketAdd fs rest
      else if decide (sub = "list") then (None, fs)
      else if decide (sub = "keygen") then marketKeygen fs rest
      else if decide (sub = "sign") then marketSign fs rest
      else if decide (sub = "verify") then marketVerify fs rest
      else (Some (Errorf "usage: rat marketplace <add|list|keygen|sign|verify>" []), fs)
  end.

(** ** What a publisher signs, a consumer trusts *)

Lemma Parse_one name v : name ∈ ["pubkey"; "out"; "key"] -> Parse (one_flag name) ["--" +:+ name; v] ∅ = Ok ({[name := v]}, []).
Proof. intros Hn. repeat (apply elem_of_cons in Hn as [->|Hn]; [reflexivity|]). by apply elem_of_nil in Hn. Qed.

Lemma leading_flag a rest : HasPrefix a "-" = true -> leadingPositionals (a :: rest) = ([], a :: rest).
Proof. intros E. simpl. by rewrite E. Qed.

(** Paths with endings that differ in their last byte differ. *)
Lemma ends_differ u v x y a b x' y' :
  str_rev x = String a x' -> str_rev y = String b y' -> a <> b -> u +:+ x <> v +:+ y.
Proof. intros Hx Hy Hab E. apply (f_equal str_rev) in E. rewrite !str_rev_app_distr Hx Hy in E. by injection E. Qed.

Lemma marketConfigPath_json : exists q, marketConfigPath = q +:+ ".json".
Proof.
  unfold marketConfigPath, filepath_Join. cbn [skip_empty].
  destruct (decide (userConfigDir = "")); [eexists "rat/marketplaces"; vm_compute; reflexivity|].
  change (Join [userConfigDir; "rat"; "marketplaces.json"] "/") with (userConfigDir +:+ ("/rat/marketplaces" +:+ ".json")).
  rewrite -str_app_assoc. apply Clean_ending. split; [done|simpl; lia].
Qed.

Lemma url_positional s : isURL s = true -> HasPrefix s "-" = false.
Proof. destruct s as [|[[] [] [] [] [] [] [] []] q]; unfold isURL, HasPrefix; simpl; done. Qed.

Lemma sig_not_config p : p +:+ ".sig" <> marketConfigPath.
Proof. destruct marketConfigPath_json as [q ->]. by eapply ends_differ. Qed.

Lemma longer p w : w <> "" -> p +:+ w <> p.
Proof. intros Hw E. apply (f_equal String.length) in E. rewrite str_length_app in E. destruct w; simpl in E; [done|lia]. Qed.

Lemma then_write_ok r p d fs' : then_write r p d = (None, fs') -> exists fs, r = (None, fs) /\ fs' = <[p := d]> fs.
Proof. destruct r as [[e|] fs]; [done|]. simpl. unfold os_WriteFile. destruct (writable p); [|done]. intros [= <-]. by exists fs. Qed.

Lemma keygen_writes p s fs prefix fs1 :
  GenerateKey = Ok (p, s) -> runMarketplace fs ["keygen"; "--out"; prefix] = (None, fs1) ->
  fs1 = <[prefix +:+ ".pub" := EncodeToString p +:+ newline]> (<[prefix +:+ ".key" := EncodeToString s +:+ newline]> fs).
Proof.
  intros Hg. change (runMarketplace fs ["keygen"; "--out"; prefix]) with (marketKeygen fs ["--" +:+ "out"; prefix]).
  unfold marketKeygen, genKeypair. rewrite Parse_one; [|set_solver]. rewrite Hg lookup_singleton_eq. cbn [result_bind default fst snd].
  by intros (fs' & (fs0 & [= <-] & ->)%then_write_ok & ->)%then_write_ok.
Qed.

(** A key kept in a file is read back from it. *)
Lemma resolve_file fs k x : k <> "" -> fs !! k = Some (EncodeToString x +:+ newline) -> resolveKeyArg fs k = EncodeToString x.
Proof. intros Hk Hf. unfold resolveKeyArg. rewrite decide_False // Hf. apply TrimSpace_Encode_line. Qed.

Lemma sign_writes s fs1 index k fs2 :
  k <> "" -> len s = 64 -> fs1 !! k = Some (EncodeToString s +:+ newline) ->
  runMarketplace fs1 ["sign"; index; "--key"; k] = (None, fs2) ->
  HasPrefix index "-" = false /\ exists d, fs1 !! index = Some d /\
    fs2 = <[index +:+ ".sig" := EncodeToString (Sign s d) +:+ newline]> fs1.
Proof.
  intros Hk Hs Hf. change (runMarketplace fs1 ["sign"; index; "--key"; k]) with (marketSign fs1 [index; "--" +:+ "key"; k]).
  unfold marketSign. destruct (HasPrefix index "-") eqn:Hp.
  { rewrite (leading_flag _ _ Hp). by destruct (Parse _ _ _) as [[? ?]|]. }
  cbn [leadingPositionals]. rewrite Hp. change (HasPrefix ("--" +:+ "key") "-") with true. cbv iota.
  rewrite Parse_one; [|set_solver]. rewrite lookup_singleton_eq. cbn [default]. rewrite decide_False //.
  unfold os_ReadFile. destruct (fs1 !! index) as [d|]; [|done]. rewrite (resolve_file _ _ s) //.
  unfold signBytes. rewrite TrimSpace_Encode Decode_Encode decide_True //.
  intros (fs & [= <-] & ->)%then_write_ok. split; [done|]. by exists d.
Qed.

Lemma add_writes p fs2 name path k fs3 :
  k <> "" -> HasPrefix path "-" = false -> fs2 !! k = Some (EncodeToString p +:+ newline) ->
  runMarketplace fs2 ["add"; name; path; "--pubkey"; k] = (None, fs3) ->
  let ms := Marketplaces (loadMarketConfig fs2) in
  Forall (fun s => ms_Name s <> name) ms /\
  fs3 = <[marketConfigPath := json_MarshalConfig (mkConfig (ms ++ [mkSource name path (EncodeToString p)]))]> fs2.
Proof.
  intros Hk Hp Hf. change (runMarketplace fs2 ["add"; name; path; "--pubkey"; k]) with (marketAdd fs2 [name; path; "--" +:+ "pubkey"; k]).
  unfold marketAdd. destruct (HasPrefix name "-") eqn:Hn.
  { rewrite (leading_flag _ _ Hn). by destruct (Parse _ _ _) as [[? ?]|]. }
  cbn [leadingPositionals]. rewrite Hn Hp. change (HasPrefix ("--" +:+ "pubkey") "-") with true. cbv iota.
  rewrite Parse_one; [|set_solver]. rewrite lookup_singleton_eq. cbn [default]. rewrite (resolve_file _ _ p) //.
  destruct (existsb _ _) eqn:Ex; [done|]. unfold saveMarketConfig, os_WriteFile. destruct (writable _); [|done].
  intros [= <-]. split; [|done]. apply Forall_forall. intros s Hs E. apply not_true_iff_false in Ex. apply Ex.
  apply existsb_exists. exists s. split; [by apply list_elem_of_In|by apply bool_decide_eq_true].
Qed.

Lemma find_new name src ms :
  Forall (fun s => ms_Name s <> name) ms -> ms_Name src = name ->
  List.find (fun s => bool_decide (ms_Name s = name)) (ms ++ [src]) = Some src.
Proof.
  intros Hms Hn. induction Hms as [|s0 l Hs0 _ IH]; simpl; [by rewrite (bool_decide_eq_true_2 _ Hn)|].
  by rewrite (bool_decide_eq_false_2 _ Hs0).
Qed.

Lemma fetch_trusted p s src fs d fs' :
  len p = 32 -> ed25519_Verify p d (Sign s d) = true -> Sign s d <> "" -> p <> "" -> PubKey src = EncodeToString p ->
  fetch_index http_Get writable userCacheDir src fs = (Ok (d, EncodeToString (Sign s d), None), fs') ->
  fetch src fs = (Ok (mkLoad d None true), fs').
Proof.
  intros Hl Hv Hne Hp Hk Hi. unfold fetch, fetchSource. rewrite Hi Hk.
  rewrite decide_False; [|by apply Encode_not_empty]. rewrite decide_False; [|by apply Encode_not_empty].
  unfold verifyBytes. by rewrite !TrimSpace_Encode !Decode_Encode decide_True // Hv.
Qed.
(** The index reaches the consumer: as the file itself, or fetched from where it and its
    signature were uploaded. *)
Definition served (fs : files) (index path : string) : Prop :=
  (path = index /\ isURL path = false /\ index <> marketConfigPath) \/
  (isURL path = true /\ exists d sg, fs !! index = Some d /\ fs !! (index +:+ ".sig") = Some sg /\
     http_Get path = Ok d /\ http_Get (path +:+ ".sig") = Ok sg).

(** C33: A key pair, an index signed with it and a source that pins its public key fit together.
    After making the keys, signing an index with the private key's file and adding the index,
    in place or from the URL that serves it and its signature, under the public key's file,
    the configuration ends in that source, with the key made; fetching it gives the bytes that
    were signed, marked verified; and checking the source succeeds. *)
Theorem signed_index_is_trusted p s fs prefix index path name fs1 fs2 fs3 :
  GenerateKey = Ok (p, s) -> len p = 32 -> len s = 64 ->
  (forall d, ed25519_Verify p d (Sign s d) = true /\ Sign s d <> "") ->
  (let c := mkConfig (Marketplaces (loadMarketConfig fs2) ++ [mkSource name path (EncodeToString p)]) in
   json_UnmarshalConfig (json_MarshalConfig c) = c) ->
  runMarketplace fs ["keygen"; "--out"; prefix] = (None, fs1) ->
  runMarketplace fs1 ["sign"; index; "--key"; prefix +:+ ".key"] = (None, fs2) ->
  served fs2 index path ->
  runMarketplace fs2 ["add"; name; path; "--pubkey"; prefix +:+ ".pub"] = (None, fs3) ->
  exists d src, fs1 !! index = Some d /\
    Marketplaces (loadMarketConfig fs3) = Marketplaces (loadMarketConfig fs2) ++ [src] /\
    ms_Name src = name /\ ms_Path src = path /\ PubKey src = EncodeToString p /\
    (fetch src fs3).1 = Ok (mkLoad d None true) /\ (runMarketplace fs3 ["verify"; name]).1 = None.
Proof.
  intros Hg Hp Hs Hv Hj ->%(keygen_writes p s) Hsign Hpub Hadd; [|done].
  set (pub := prefix +:+ ".pub") in *. set (key := prefix +:+ ".key") in *.
  assert (pub <> key /\ pub <> "" /\ key <> "") as (Hpk & Hpub0 & Hkey0).
  { unfold pub, key. split_and!; [by intros E%str_app_inj_r|by destruct prefix..]. }
  apply (sign_writes s) in Hsign as (Hi & d & Hd & E2); [|done..|by rewrite lookup_insert_ne // lookup_insert_eq].
  assert (index +:+ ".sig" <> pub) as Hsp by by eapply ends_differ.
  assert (HasPrefix path "-" = false) as Hpath.
  { destruct Hpub as [(-> & _)|(Hu & _)]; [done|by apply url_positional]. }
  apply (add_writes p) in Hadd as [Hnew E3]; [|done..|by rewrite E2 lookup_insert_ne // lookup_insert_eq].
  set (src := mkSource name path (EncodeToString p)) in *. exists d, src.
  assert (Marketplaces (loadMarketConfig fs3) = Marketplaces (loadMarketConfig fs2) ++ [src]) as Em.
  { unfold loadMarketConfig at 1. by rewrite E3 lookup_insert_eq Hj. }
  assert (exists fs', fetch src fs3 = (Ok (mkLoad d None true), fs')) as [fs' Hf].
  { destruct (Hv d) as [Hvd Hne].
    assert (p <> "") as Hp0 by by intros ->.
    assert (exists fs', fetch_index http_Get writable userCacheDir src fs3 = (Ok (d, EncodeToString (Sign s d), None), fs')) as [fs' Hx];
      [|by eexists; eapply fetch_trusted].
    assert (fs2 !! index = Some d /\ fs2 !! (index +:+ ".sig") = Some (EncodeToString (Sign s d) +:+ newline)) as [Hd2 Hs2].
    { rewrite E2 lookup_insert_eq lookup_insert_ne //. by apply longer. }
    unfold fetch_index. cbn [ms_Path PubKey ms_Name src].
    destruct Hpub as [(-> & Hu & Hc)|(Hu & d' & sg & Hd' & Hsg & H1 & H2)]; rewrite Hu.
    - unfold os_ReadFile. rewrite E3 lookup_insert_ne // Hd2 lookup_insert_ne; [|apply not_eq_sym, sig_not_config].
      rewrite Hs2. cbn [from_option]. rewrite TrimSpace_Encode_line. by eexists.
    - rewrite Hd' in Hd2. rewrite Hsg in Hs2. injection Hd2 as ->. injection Hs2 as ->. unfold getCached. rewrite H1 H2.
      rewrite decide_False; [|by apply Encode_not_empty]. rewrite TrimSpace_Encode_line. by eexists. }
  split_and!; [done..|by rewrite Hf|].
  change (runMarketplace fs3 ["verify"; name]) with (marketVerify fs3 [name]). unfold marketVerify. rewrite Em.
  rewrite find_new //.
  rewrite decide_False; [|apply Encode_not_empty; by intros ->]. by rewrite Hf.
Qed.

(** What was good is lost: the cache takes a fetched index before its signature is checked.
    When one fetch brings an index that the pinned key does not verify, it is refused, and
    from then on the source is refused off line too, although the cached copy it replaced
    verified.  [up] and [down] are the network during the two commands. *)
Theorem bad_fetch_loses_last_good (up : string -> result string) src fs good sig bad (e : error) :
  let down := fun _ : string => Err e : result string in
  let cache := filepath_Join [marketCacheDir userCacheDir; ms_Name src +:+ ".json"] in
  let at_ := fetchSource DecodeString ed25519_Verify in
  isURL (ms_Path src) = true -> PubKey src <> "" -> writable cache = true ->
  fs !! cache = Some good -> fs !! (cache +:+ ".sig") = Some sig -> TrimSpace sig <> "" ->
  verifyBytes DecodeString ed25519_Verify (PubKey src) good (TrimSpace sig) = None ->
  up (ms_Path src) = Ok bad -> up (ms_Path src +:+ ".sig") = Err e ->
  verifyBytes DecodeString ed25519_Verify (PubKey src) bad (TrimSpace sig) <> None ->
  (exists n, (at_ down writable userCacheDir src fs).1 = Ok (mkLoad good (Some n) true)) /\
  exists e1 fs1 e2, at_ up writable userCacheDir src fs = (Err e1, fs1) /\
    (at_ down writable userCacheDir src fs1).1 = Err e2.
Proof.
  intros down cache at_ Hu Hk Hw Hg Hs Hne Hok H1 H2 Hbad.
  assert (cache +:+ ".sig" <> cache) as Hc by by apply longer.
  destruct (verifyBytes _ _ (PubKey src) bad _) as [err|] eqn:Eb; [|done].
  unfold at_, fetchSource, fetch_index, getCached, down. fold cache. rewrite Hu H1 H2 Hw Hg Hs /=. split.
  - repeat (rewrite decide_False; [|done]). rewrite Hok. by eexists.
  - rewrite (lookup_insert_ne _ cache) // Hs. repeat (rewrite decide_False; [|done]). rewrite Eb. eexists _, _, _. split; [done|].
    rewrite lookup_insert_eq lookup_insert_ne // Hs. repeat (rewrite decide_False; [|done]). by rewrite Eb.
Qed.
End Publish.

(** ** At a concrete publisher *)

(** A toy codec, and signatures that only name their text. *)
Definition toy_marshal (c : marketConfig) : string :=
  Join ((fun s => Join [ms_Name s; ms_Path s; PubKey s] ",") <$> Marketplaces c) ";".
Definition toy_unmarshal (d : string) : marketConfig :=
  mkConfig (omap (fun l => match Split "," l with [n; p; k] => Some (mkSource n p k) | _ => None end) (Split ";" d)).
Definition toy_public : string := "0123456789abcdef0123456789abcdef".
Definition toy_private : string := toy_public +:+ toy_public.
Definition toy_sign (s d : string) : string := "signed " +:+ d.
Definition toy_verify (p d sig : string) : bool := bool_decide (sig = "signed " +:+ d).
Definition toy_host (url : string) : result string :=
  if decide (url = "https://acme/index.json") then Ok "index"
  else if decide (url = "https://acme/index.json.sig") then Ok (EncodeToString "signed index" +:+ newline)
  else Err EOF.
Definition toy_market (fs : files) (args : list string) : option error * files :=
  runMarketplace (Ok (toy_public, toy_private)) toy_sign toy_verify toy_marshal toy_unmarshal toy_host (fun _ => true) "/cache" "/config" fs args.
Definition fs0 : files := {["index.json" := "index"]}.
Definition fs_keys : files :=
  {["acme.pub" := EncodeToString toy_public +:+ newline; "acme.key" := EncodeToString toy_private +:+ newline; "index.json" := "index"]}.
Definition fs_signed : files := <["index.json.sig" := EncodeToString "signed index" +:+ newline]> fs_keys.
Definition fs_added : files :=
  <["/config/rat/marketplaces.json" := "acme,https://acme/index.json," +:+ EncodeToString toy_public]> fs_signed.

Lemma signed_index_is_trusted_witness :
  (toy_market fs_added ["verify"; "acme"]).1 = None /\ fs_keys !! "acme.pub" = Some (EncodeToString toy_public +:+ newline).
Proof.
  split; [|vm_compute; reflexivity].
  destruct (signed_index_is_trusted (Ok (toy_public, toy_private)) toy_sign toy_verify toy_marshal toy_unmarshal toy_host (fun _ => true)
    "/cache" "/config" toy_public toy_private fs0 "acme" "index.json" "https://acme/index.json" "acme" fs_keys fs_signed fs_added)
    as (d & src & H).
  - reflexivity.
  - reflexivity.
  - reflexivity.
  - intros d. split; [by apply bool_decide_eq_true|discriminate].
  - intros c. evaluated.
  - evaluated.
  - evaluated.
  - right. split; [reflexivity|]. exists "index", (EncodeToString "signed index" +:+ newline). vm_compute. split_and!; reflexivity.
  - evaluated.
  - apply H.
Defined.

Definition cached : files :=
  {["/cache/rat/marketplaces/acme.json" := "index"; "/cache/rat/marketplaces/acme.json.sig" := EncodeToString "signed index"]}.
Definition bad_host (url : string) : result string := if decide (url = "https://acme/index.json") then Ok "tampered" else Err EOF.

Lemma bad_fetch_loses_last_good_witness :
  exists e1 fs1 e2, fetchSource DecodeString toy_verify bad_host (fun _ => true) "/cache"
      (mkSource "acme" "https://acme/index.json" (EncodeToString toy_public)) cached = (Err e1, fs1) /\
    (fetchSource DecodeString toy_verify (fun _ => Err EOF) (fun _ => true) "/cache"
      (mkSource "acme" "https://acme/index.json" (EncodeToString toy_public)) fs1).1 = Err e2.
Proof.
  destruct (bad_fetch_loses_last_good toy_verify (fun _ => true) "/cache" bad_host
    (mkSource "acme" "https://acme/index.json" (EncodeToString toy_public)) cached "index" (EncodeToString "signed index") "tampered" EOF)
    as [_ H]; [vm_compute; (reflexivity || discriminate)..|exact H].
Defined.
