(* ===== verification/Cli.v ===== *)
(** The command line of the one binary (src/core/cmd/rat/main.go, the dispatch of plugin.go and
    of src/core/client/client.go, src/core/cmd/ratctl/main.go): what each verb calls, the help
    screens, and which words reach a command that a plugin contributes. *)
From S2P Require Import Prelude Paths Manifest Supervisor Plane Marketplace Project Validate Command Contexts Lifecycle Flags Client Daemon.

(** ** The dispatch *)

Inductive verb :=
  | VValidate | VCapabilities | VUp | VDown | VStatus | VHub | VLs | VInit | VAdd | VRemove | VUI
  | VPlugin | VSearch | VList | VMarketplace | VContext.

(** What [main] goes on to do: print, exit for a bad flag, serve a plane file, or call the
    function of a verb, the client's, or the one for contributed commands. *)
Inductive action :=
  | PrintHelp | PrintVersion
  | ExitOnError (code : Z)
  | Serve (planePath : string) (strict : bool)
  | Run (v : verb) (args : list string)
  | ClientRun (argv : list string)
  | ContributedRun (argv : list string).

(** The leading token that is not a flag, and the rest. *)
Definition leading (args : list string) : string * list string :=
  match args with
  | [] => ("", [])
  | a :: rest =>
      if decide (a = "--version" \/ a = "-v") then ("version", rest)
      else if decide (a = "--help" \/ a = "-h" \/ a = "help") then ("help", rest)
      else if negb (HasPrefix a "-") then (a, rest)
      else ("", args)
  end.

Definition serve_flag_set : FlagSet := {["plane" := string_flag; "strict" := bool_flag]}.
Definition serve_args (args : list string) : action :=
  match Flags.Parse serve_flag_set args ∅ with
  | Err e => ExitOnError (if decide (e = errHelp) then 0 else 2)
  | Ok (given, _) => Serve (default "plane.yaml" (given !! "plane")) (is_true (default "false" (given !! "strict")))
  end.

Definition main_action (argv : list string) : action :=
  let '(cmd, args) := leading argv in
  if decide (cmd = "help") then PrintHelp
  else if decide (cmd = "" \/ cmd = "serve") then
    if decide (cmd = "" /\ args = []) then PrintHelp else serve_args args
  else if decide (cmd = "validate") then Run VValidate args
  else if decide (cmd = "capabilities" \/ cmd = "caps") then Run VCapabilities args
  else if decide (cmd = "up") then Run VUp args
  else if decide (cmd = "down") then Run VDown args
  else if decide (cmd = "status") then Run VStatus args
  else if decide (cmd = "hub") then Run VHub args
  else if decide (cmd = "ls") then Run VLs args
  else if decide (cmd = "init") then Run VInit args
  else if decide (cmd = "add") then Run VAdd args
  else if decide (cmd = "remove" \/ cmd = "rm") then Run VRemove args
  else if decide (cmd = "call" \/ cmd = "apply") then ClientRun (cmd :: args)
  else if decide (cmd = "version") then PrintVersion
  else if decide (cmd = "ui") then Run VUI args
  else if decide (cmd = "plugin") then Run VPlugin args
  else if decide (cmd = "search") then Run VSearch args
  else if decide (cmd = "list") then Run VList args
  else if decide (cmd = "marketplace" \/ cmd = "market") then Run VMarketplace args
  else if decide (cmd = "context" \/ cmd = "ctx") then Run VContext args
  else ContributedRun (cmd :: args).

(** The exit code of [rat], [perform] being what the action does: its error is printed. *)
Definition rat_main (perform : action -> option error) (argv : list string) : Z :=
  match main_action argv with
  | ExitOnError code => code
  | a => match perform a with Some _ => 1 | None => 0 end
  end.

Inductive plugin_verb := PInit | PCheck | PDev | PTest | PPack | PPublish.
Inductive plugin_action := PluginHelp | PluginRun (v : plugin_verb) (rest : list string).

Definition runPlugin (argv : list string) : result plugin_action :=
  match argv with
  | [] => Ok PluginHelp
  | sub :: rest =>
      if decide (sub = "-h" \/ sub = "--help" \/ sub = "help") then Ok PluginHelp
      else if decide (sub = "init") then Ok (PluginRun PInit rest)
      else if decide (sub = "check") then Ok (PluginRun PCheck rest)
      else if decide (sub = "dev") then Ok (PluginRun PDev rest)
      else if decide (sub = "test") then Ok (PluginRun PTest rest)
      else if decide (sub = "pack") then Ok (PluginRun PPack rest)
      else if decide (sub = "publish") then Ok (PluginRun PPublish rest)
      else Err (Errorf "unknown `rat plugin %s` — run `rat plugin help`" [sub])
  end.

(** [runCall] reads the verb itself off its arguments, [runApply] does not. *)
Inductive client_action := Calls (argv : list string) | Applies (args : list string).

Definition client_Run (argv : list string) : result client_action :=
  match argv with
  | [] => Err (Errorf "usage: rat <call|apply> … (call <capability> --as … | apply --project <dir> --name <name>)" [])
  | sub :: rest =>
      if decide (sub = "call") then Ok (Calls argv)
      else if decide (sub = "apply") then Ok (Applies rest)
      else Err (Errorf "unknown command %q (want: call | apply)" [sub])
  end.

(** [ratctl] is the client alone. *)
Definition ratctl_main (perform : client_action -> option error) (argv : list string) : Z :=
  match (let? a := client_Run argv in match perform a with Some e => Err e | None => Ok () end) with
  | Err _ => 1
  | Ok _ => 0
  end.

(** ** The help screens *)

Definition help_body : list string :=
  ["The core does six things; everything else is a plugin.";
   "";
   "USAGE";
   "  rat <command> [args]        run `rat <command> -h` for a command's flags";
   "";
   "PROJECT  (a project is a rat.toml — the declared plugin set)";
   "  init        create a rat.toml here (a new project)";
   "  add         add a plugin to the project (reads the manifest stamped in its image)";
   "  remove      remove a plugin from the project            (alias: rm)";
   "  list        list the plugins installed in this project";
   "  search      find plugins across the local + added marketplaces";
   "";
   "DAEMON  (run the project's plane)";
   "  up          start this project's daemon            (-d = background, --strict = preflight)";
   "  down        stop this project's daemon";
   "  status      this project's daemon + its plugins";
   "  validate    preflight a plane/project WITHOUT booting (manifests · deps · images)";
   "  ls          every rat daemon running on this machine";
   "  hub         federate many workspaces behind one endpoint (ADR-033)";
   "  serve       run a daemon directly from a plane.yaml (low-level; --strict = preflight)";
   "";
   "AUTHOR  (build a plugin)";
   "  capabilities    list every rat:// capability this rat links   rat capabilities [state|state-backend]";
   "  plugin init     scaffold a plugin   (--kind <axis> --lang go|python|typescript|rust)";
   "  plugin check    validate its manifest (static gate)";
   "  plugin dev      watch the dir; re-run check + test on change (the inner loop)";
   "  plugin pack     build + stamp the manifest + verify it serves what it declares";
   "  plugin publish  push the verified image to a registry";
   "";
   "MARKETPLACE  (discover + distribute plugins)";
   "  marketplace add|list          manage plugin sources (local images + remote indexes)";
   "  marketplace keygen|sign|verify  ed25519 provenance for an index";
   "";
   "CLIENT  (talk to a running gateway)";
   "  call        invoke a capability         rat call <rat://…> --as <caller> --data <json>";
   "  apply       submit a project (e.g. a dbt project) to the orchestrator";
   "  ui          render a surface's plugin contributions";
   "";
   "  version     print the version          help        this screen";
   "";
   "Docs: docs/ in the rat repo · ADRs in docs/architecture/adrs/."].
Definition help_lines (version : string) : list string :=
  ("rat " +:+ version +:+ " — a data platform that orchestrates self-describing plugins.") :: help_body.

Definition plugin_help_lines : list string :=
  ["rat plugin — author, verify, and publish a plugin (ADR-026).";
   "";
   "  init      scaffold a ready-to-build plugin folder";
   "            rat plugin init <name> --kind <axis> --lang go|python|typescript|rust [--dir <path>]";
   "  check     validate the manifest (static gate: schema + per-kind + dep coherence)";
   "            rat plugin check [<dir>]";
   "  dev       WATCH the dir; re-run check + test on every change (the inner loop)";
   "            rat plugin dev [<dir>] [--interval 1s] [--check-only]";
   "  test      launch the plugin + run its conformance vectors";
   "            rat plugin test [<dir>] [--image <ref>]";
   "  pack      build the image, STAMP the manifest in, verify it serves what it declares";
   "            rat plugin pack [<dir>] [--image <ref>] [--tag <ref>]";
   "  publish   push the verified image to a registry";
   "            rat plugin publish [<dir>] [--registry <host/org>]";
   "";
   "axes for --kind: engine runtime format strategy catalog storage deployment-runtime";
   "  state-backend secret-backend scheduler-backend identity tenancy billing";
   "  observability audit-log ui notifications marketplace";
   "";
   "Each subcommand: `rat plugin <sub> -h` for its flags."].

(** The words a screen introduces: those that begin its entries, which are indented by two. *)
Definition entry_words (lines : list string) : list (list string) :=
  omap (fun l => if HasPrefix l "  " && negb (HasPrefix l "   ") then Some (Fields l) else None) lines.
Definition listed (lines : list string) : list string := omap head (entry_words lines).

(** ** Which words reach a plugin *)

Lemma leading_word a rest : HasPrefix a "-" = false -> leading (a :: rest) = (a, rest).
Proof.
  intros Hp. unfold leading. case_decide as H1; [by destruct H1 as [-> | ->]|].
  case_decide as H2; [by destruct H2 as [-> |[-> | ->]]|]. by rw Hp.
Qed.

Lemma leading_dash a rest : HasPrefix a "-" = true -> (leading (a :: rest)).1 ∈ ["version"; "help"; ""].
Proof. intros Hp. unfold leading. repeat case_decide; simpl; [set_solver..|]. rw Hp. set_solver. Qed.

Lemma serve_args_own args argv : serve_args args <> ContributedRun argv.
Proof. unfold serve_args. by destruct (Flags.Parse _ _ _) as [[]|]. Qed.

Lemma contributed_iff a rest :
  main_action (a :: rest) = ContributedRun (a :: rest) <-> a <> "" /\ HasPrefix a "-" = false /\ a ∉ builtinVerbs.
Proof.
  destruct (HasPrefix a "-") eqn:Hp.
  - split; [|by intros (_ & ? & _)]. pose proof (leading_dash a rest Hp) as Hl. unfold main_action.
    destruct (leading (a :: rest)) as [cmd args]. simpl in Hl.
    rewrite !elem_of_cons in Hl. destruct Hl as [-> |[-> |[-> |[]%elem_of_nil]]]; [intros H; discriminate H..|].
    intros H; exfalso; revert H.
    change ((if decide ("" = "" /\ args = []) then PrintHelp else serve_args args) = ContributedRun (a :: rest) -> False).
    case_decide; [intros H'; discriminate H'|]. apply serve_args_own.
  - unfold main_action. rewrite (leading_word a rest Hp). unfold builtinVerbs. rewrite elem_of_list_to_set. split.
    + intros H. split_and!; [intros ->; revert H; simpl; destruct (decide _); [done|apply serve_args_own]|done|]. intros Hin. revert H.
      repeat (apply elem_of_cons in Hin as [-> |Hin]; [first [intros H; discriminate H|exact (serve_args_own _ _)]|]). by apply elem_of_nil in Hin.
    + intros (Hne & _ & Hin). repeat (apply not_elem_of_cons in Hin as [? Hin]).
      repeat (rewrite decide_False; [|by intros E; destruct_or? E]). done.
Qed.

Lemma str_rev_empty s : str_rev s = "" -> s = "".
Proof.
  assert (forall acc, str_rev_app s acc = "" -> s = "" /\ acc = "") as H; [|by intros ?%H; tauto].
  induction s as [|a s IH]; intros acc; [done|]. by intros [_ ?]%IH.
Qed.

Lemma fields_fuel_words n cur s : "" ∉ fields_fuel n cur s.
Proof.
  assert (forall cur : string, "" ∉ (if decide (cur = "") then [] else [str_rev cur])) as Hflush.
  { intros c. case_decide; [by intros ?%elem_of_nil|]. by intros ?%list_elem_of_singleton%eq_sym%str_rev_empty. }
  revert cur s. induction n as [|n IH]; intros cur s; simpl; [apply Hflush|].
  destruct (strip_space s); [rewrite elem_of_app; intros [?%Hflush|?%IH]; done|]. destruct s; [apply Hflush|apply IH].
Qed.
Lemma Fields_not_empty s : "" ∉ Fields s.
Proof. apply fields_fuel_words. Qed.

Lemma listed_other a l : HasPrefix a "  " = false -> listed (a :: l) = listed l.
Proof. intros Ha. unfold listed, entry_words. cbn [omap list_omap]. by rewrite Ha. Qed.

Lemma help_body_builtin : forallb (fun w => bool_decide (w = "rat" \/ w ∈ builtinVerbs)) (listed help_body) = true.
Proof. evaluated. Qed.
Lemma plugin_help_listed : firstn 6 (listed plugin_help_lines) = ["init"; "check"; "dev"; "test"; "pack"; "publish"].
Proof. evaluated. Qed.
Lemma plugin_help_kinds : list_to_set (skipn 3 (mjoin (Fields <$> firstn 3 (skipn 15 plugin_help_lines)))) = knownKinds.
Proof. evaluated. Qed.

(** The help screen and the dispatch agree: every command that the screen lists, the synopsis
    apart, is one that [main] handles itself, and so is every subcommand that the screen of
    [rat plugin] lists, all six of them, each by its own function; and that screen lists the
    kinds that [rat plugin check] knows. *)
Theorem help_is_dispatched version :
  (forall w args, w ∈ listed (help_lines version) -> w <> "rat" -> main_action (w :: args) <> ContributedRun (w :: args)) /\
  (firstn 6 (listed plugin_help_lines)) = ["init"; "check"; "dev"; "test"; "pack"; "publish"] /\
  (forall w rest, w ∈ firstn 6 (listed plugin_help_lines) -> exists v, runPlugin (w :: rest) = Ok (PluginRun v rest)) /\
  list_to_set (skipn 3 (mjoin (Fields <$> firstn 3 (skipn 15 plugin_help_lines)))) = knownKinds.
Proof.
  pose proof (listed_other ("rat " +:+ version +:+ " — a data platform that orchestrates self-describing plugins.") help_body eq_refl) as Hl.
  split_and!; [|exact plugin_help_listed| |exact plugin_help_kinds].
  - intros w args Hw Hne Hc. apply contributed_iff in Hc as (_ & _ & Hb). apply Hb. unfold help_lines in Hw. rewrite Hl in Hw.
    pose proof help_body_builtin as H.
    rewrite forallb_forall in H. clear Hl.
    apply list_elem_of_In, H, bool_decide_eq_true in Hw as [E|Hw]; [exfalso; exact (Hne E)|exact Hw].
  - intros w rest Hw. rewrite plugin_help_listed in Hw.
    repeat (apply elem_of_cons in Hw as [-> |Hw]; [by eexists|]). exfalso. exact (not_elem_of_nil _ Hw).
Qed.

(** The screen says that a command given -h shows its flags; [runDown] does not look at its arguments,
    and asking for the flags of rat down stops the project's daemon. *)
Theorem help_flag_stops_daemon kill0 cwd m saved kill_err clock alive toml dir pid r :
  findProject (m_files m) cwd "." = Some (Ok (toml, dir)) -> runningPid kill0 (m_files m) (filepath_Join [dir; ".rat"]) = (pid, true) ->
  runDown kill0 cwd m saved kill_err clock alive = Some r ->
  "  rat <command> [args]        run `rat <command> -h` for a command's flags" ∈ help_body /\
  main_action ["down"; "-h"] = Run VDown ["-h"] /\ r.2 = Some pid.
Proof.
  intros Hf Hp. unfold runDown. generalize poll_fuel. intros fuel. rewrite Hf. cbn [mbind option_bind]. rewrite Hp. cbn [negb]. intros Hr. split; [apply list_elem_of_In; repeat (try (left; reflexivity); right)|].
  split; [reflexivity|]. destruct kill_err; [by injection Hr as <-|]. revert Hr. match goal with |- context [poll ?f ?k ?c ?d ?l] => destruct (poll f k c d l) as [[]|] end; by intros [= <-].
Qed.

(** The screen leaves out the profiles: neither rat context nor its alias is on it. *)
Theorem help_omits_context : forallb (fun l => negb (Contains l "context") && negb (Contains l "ctx")) help_body = true /\
  forall args, main_action ("context" :: args) = Run VContext args.
Proof. split; [evaluated|reflexivity]. Qed.

#[export] Instance CommandArg_eq_dec : EqDecision CommandArg.
Proof. solve_decision. Defined.
#[export] Instance Command_eq_dec : EqDecision Command.
Proof. solve_decision. Defined.
#[export] Instance cliCommand_eq_dec : EqDecision cliCommand.
Proof. solve_decision. Defined.

(** *** The line as it is typed

    Words, and the dispatcher's own flags, each with its value. *)
Inductive typed_item :=
  | Word (w : string)
  | Own (flag v : string).
Definition own_names : list string :=
  ["--addr"; "-addr"; "--as"; "-as"; "--token"; "-token"; "--workspace"; "-workspace"].
Definition well_typed (i : typed_item) : Prop :=
  match i with Word w => w ∉ own_names | Own f _ => f ∈ own_names end.
Definition item_text (i : typed_item) : list string :=
  match i with Word w => [w] | Own f v => [f; v] end.
Definition item_words (i : typed_item) : list string :=
  match i with Word w => [w] | Own _ _ => [] end.
(** The value last given to a flag, or what the profile has for it. *)
Definition last_given (names : list string) (profile : string) (items : list typed_item) : string :=
  fold_left (fun cur i => match i with Own f v => if bool_decide (f ∈ names) then v else cur | Word _ => cur end) items profile.

Lemma own_flags_items items c acc :
  Forall well_typed items ->
  own_flags (items ≫= item_text) c acc =
  (mkConn (last_given ["--addr"; "-addr"] (cn_addr c) items) (last_given ["--as"; "-as"] (cn_caller c) items)
     (last_given ["--token"; "-token"] (cn_token c) items) (last_given ["--workspace"; "-workspace"] (cn_workspace c) items),
   rev acc ++ (items ≫= item_words)).
Proof.
  intros Hi. revert c acc. induction Hi as [|i items Hi _ IH]; intros c acc; [by destruct c; rewrite app_nil_r|].
  rewrite !bind_cons. destruct i as [w|f v]; cbn [item_text item_words app].
  - unfold well_typed in Hi. unfold own_names in Hi. rewrite !not_elem_of_cons in Hi. destruct_and? Hi.
    cbn [own_flags]. rewrite !bool_decide_eq_false_2 //. cbn [orb]. destruct (items ≫= item_text) as [|t more] eqn:E.
    + specialize (IH c (w :: acc)). cbn [own_flags rev] in IH. rewrite -app_assoc in IH. exact IH.
    + rewrite IH. cbn [rev]. by rewrite -app_assoc.
  - unfold well_typed, own_names in Hi. cbn [own_flags].
    rewrite !elem_of_cons in Hi. unfold last_given in *. cbn [fold_left].
    destruct_or! Hi; try (by apply elem_of_nil in Hi); subst f;
      repeat match goal with |- context [bool_decide ?P] =>
        let b := eval vm_compute in (bool_decide P) in change (bool_decide P) with b end;
      cbn [orb]; rewrite IH; reflexivity.
Qed.

Section Contributed.
Context {Float : Type} (ParseFloat : string -> result Float) (fields_of : string -> list FieldDescriptor) (linked : list Rpc).
Context (registered : string -> bool) (Invoke : string -> string -> result string).
Context (proto_Marshal : Msg Float -> result string) (render : string -> string -> result string).
Context (ListRequest GetRequest : string -> string) (ListResponse : string -> result (list string)).
Context (GetResponse : string -> result (option string)) (json_Command : string -> result Command).

End Contributed.

(** The check looks at the first word of a name only as a verb: a name that begins with a
    dash passes it, and [main] takes it for flags of [rat serve], or for help. *)
Theorem dash_command_unreachable :
  let c := mkCommand "--mine now" "rat://format/v1/scan" "" [] in
  validateCommand [scan_rpc] rows_fields scan_manifest c = Some None /\
  main_action (Fields (cmd_Name c)) = ExitOnError 2 /\
  forall perform, rat_main perform (Fields (cmd_Name c)) = 2.
Proof. split; [|split]; [evaluated..|]. intros perform. by vm_compute. Qed.

(** ** At a concrete command *)

Definition index_Invoke (cap payload : string) : result string :=
  if decide (cap = "rat://format/v1/scan") then Ok ("3 rows of " +:+ payload) else Ok payload.
Definition index_keys (_ : string) : result (list string) := Ok ["cli/commands/fmt/scan"].
Definition index_value (r : string) : result (option string) := Ok (Some r).
Definition scan_argv : list string := ["scan"; "main"; "--as"; "dev"; "--limit"; "5"].

