(* ===== verification/Bench.v ===== *)
(** The latency benchmark (src/plugins/bench/latency-go): a second relay in front of one provider,
    which stands for the gateway in what is measured, and the statistics printed. *)
From S2P Require Import Prelude Registry CallContext Gateway Command RuntimePlugin.

Section Bench.
Context {Conn : Type}.
Context (proto_Unmarshal : string -> option RequestContext) (proto_Marshal : RequestContext -> result string).
Context (conn_Invoke : Conn -> Ctx -> string -> string -> result string).
Context (conn_NewStream : Conn -> Ctx -> string -> string -> stream_script).

(** ** The relay *)

(** The envelope of a call, read as the core does; its traceparent is held to the lengths of its
    four parts. *)
Definition bench_readCallMeta (c : Ctx) : option RequestContext :=
  match incoming c with
  | None => None
  | Some md => match default [] (md !! callMetaHeader) with [] => None | v :: _ => proto_Unmarshal v end
  end.
Definition bench_wellFormedTraceparent (tp : string) : bool :=
  match Split "-" tp with
  | [a; b; c; d] => (len a =? 2) && (len b =? 32) && (len c =? 16) && (len d =? 2)
  | _ => false
  end.

Record gateway := mkBench { bg_provider : Conn; bg_routes : gmap string string; bg_callerPlugin : string }.

(** The routes of the two services the benchmark calls. *)
Definition capabilityRoutes (state runtime : FileDesc) : gmap string string :=
  fold_left (fun rs fd => fold_left (fun rs svc => svc_routes svc rs) fd rs) [state; runtime] ∅.
Definition newGateway (provider : Conn) (state runtime : FileDesc) : gateway :=
  mkBench provider (capabilityRoutes state runtime) "rat-bench".

(** The outgoing context and the method. *)
Definition bench_openCall (g : gateway) (c : Ctx) (capURI : string) : result (Ctx * string) :=
  let inn := bench_readCallMeta c in
  if negb (bench_wellFormedTraceparent (GetTraceparent (GetTrace inn))) then
    Err (Status InvalidArgument "C1: missing or ill-formed traceparent" [])
  else match bg_routes g !! capURI with
       | None => Err (Status NotFound "no provider for capability %q" [capURI])
       | Some method =>
           let downstream := mkRequestContext (GetTrace inn)
             (Some (mkIdentity (bg_callerPlugin g) (GetSubject (GetIdentity inn)) (GetTenant (GetIdentity inn)))) (GetDeadlineUnixMs inn) in
           match proto_Marshal downstream with
           | Err e => Err (StatusWrap Internal "marshal call-meta: %v" [] e)
           | Ok b => Ok (AppendToOutgoingContext c callMetaHeader b, method)
           end
       end.

Definition bench_Invoke (g : gateway) (capability payload : string) (c : Ctx) : result string :=
  let? cm := bench_openCall g c capability in conn_Invoke (bg_provider g) cm.1 cm.2 payload.

(** [None] when the provider sends no more and does not end the stream: there is no timeout. *)
Fixpoint bench_relay (fuel : nat) (up : nat -> option error) (frames : list string) (ms : nat -> recv) :
    list string * option (option error) :=
  match fuel with
  | O => (frames, None)
  | S fuel =>
      match r_msg (ms (length frames)) with
      | Ok frame => match up (length frames) with
                    | Some e => (frames, Some (Some e))
                    | None => bench_relay fuel up (frames ++ [frame]) ms
                    end
      | Err EOF => (frames, Some None)
      | Err e => (frames, Some (Some e))
      end
  end.

Definition bench_InvokeServerStream (fuel : nat) (g : gateway) (capability payload : string) (c : Ctx) :
    list string * option (option error) :=
  match bench_openCall g c capability with
  | Err e => ([], Some (Some e))
  | Ok (octx, method) =>
      let s := conn_NewStream (bg_provider g) octx method payload in
      match new_err s, send_err s, close_err s with
      | Some e, _, _ | None, Some e, _ | None, None, Some e => ([], Some (Some e))
      | None, None, None => bench_relay fuel (up_Send s) [] (msgs s)
      end
  end.
End Bench.
Arguments gateway : clear implicits.

(** It is the core's reading. *)
Lemma bench_reads_as_core unmarshal c : bench_readCallMeta unmarshal c = readCallMeta unmarshal c.
Proof. unfold bench_readCallMeta, readCallMeta, md_Get. by destruct (incoming c) as [md|]. Qed.

(** ** The statistics *)

(** How many calls to time. *)
Definition bench_n (args : list string) : Z :=
  match args with
  | s :: _ => match ParseInt s 64 with Ok v => if 0 <? v then v else 20000 | Err _ => 20000 end
  | [] => 20000
  end.

(** Median, 99th percentile and mean of the times taken; [None] is an index out of range, or the
    division by zero of no samples. *)
Definition measure (d : list Z) : option (Z * Z * Z) :=
  let n := length d in
  let sorted := merge_sort Z.le d in
  p50 ← sorted !! (n / 2)%nat;
  p99 ← sorted !! ((n * 99) / 100)%nat;
  Some (p50, p99, Z.quot (fold_left (fun s x => wrap64 (s + x)) sorted 0) (Z.of_nat n)).

(** ** What is called *)

(** The plugin behind the relay: a fixed answer, and a fixed stream. *)
Definition bench_plugin_Get : bool * string * Z := (true, "benchval", 1).
Definition bench_plugin_Execute (Send : nat -> option error) : list ExecuteResponse * option error :=
  match progress_loop Send (mkWork 3 0 false "") 3 0 [] with
  | (sent, None) => send Send sent (Completed true "" (Some 42))
  | r => r
  end.

(** The envelope that a mediated call of the benchmark carries. *)
Definition bench_envelope : RequestContext :=
  mkRequestContext (Some (mkTrace "00-0af7651916cd43dd8448eb211c80319c-b7ad6b7169203331-01" "" "corr-bench")) (Some (mkIdentity "" None "acme")) 0.
Definition withCallMeta (proto_Marshal : RequestContext -> result string) (c : Ctx) : Ctx :=
  AppendToOutgoingContext c callMetaHeader match proto_Marshal bench_envelope with Ok b => b | Err _ => "" end.

(** The stream is one that the reference runtime plugin serves. *)
Lemma bench_stream_is_a_run json_Unmarshal work_spec Send : parseWorkSpec json_Unmarshal work_spec = Ok (mkWork 3 42 false "") ->
  runtimeServer_Execute json_Unmarshal Send work_spec = bench_plugin_Execute Send.
Proof. intros Hp. unfold runtimeServer_Execute. by rewrite Hp. Qed.

(** What is timed is the plugin's answer, although the benchmark drops every error: where an envelope
    can be encoded and is decoded to itself, a call that carries the benchmark's metadata over a
    hop is opened, for every capability the relay routes. *)
Lemma bench_times_real_calls {Conn} unmarshal marshal transport (b : gateway Conn) capURI method :
  carries transport -> (forall rc, exists bs, marshal rc = Ok bs /\ unmarshal bs = Some rc) -> bg_routes b !! capURI = Some method ->
  exists oc, bench_openCall unmarshal marshal b (transport (withCallMeta marshal (mkCtx None [] None None None))) capURI = Ok (oc, method).
Proof.
  intros [Hmd _] Hcodec Hr. destruct (Hcodec bench_envelope) as (bs & Hb & Hu). unfold withCallMeta. rewrite Hb.
  set (c := transport _). assert (readCallMeta unmarshal c = Some bench_envelope) as Hc.
  { unfold readCallMeta, c. rewrite Hmd; [|by repeat constructor]. cbn [outgoing AppendToOutgoingContext app]. by rewrite filter_cons_True. }
  unfold bench_openCall. rewrite bench_reads_as_core Hc Hr. change (negb (bench_wellFormedTraceparent _)) with false. cbn [negb].
  match goal with |- context [marshal ?rc] => destruct (Hcodec rc) as (rs & -> & _) end. by eexists.
Qed.

(** ** What the relay shares with the gateway *)

Section Shared.
Context {Conn : Type}.
Context (unmarshal : string -> option RequestContext) (marshal : RequestContext -> result string).
Context (conn_Invoke : Conn -> Ctx -> string -> string -> result string).
Context (conn_NewStream : Conn -> Ctx -> string -> string -> stream_script).

Lemma bench_opens (g : Gateway (Conn := Conn)) (b : gateway Conn) c capURI w oc w' :
  routes g !! capURI = bg_routes b !! capURI -> caller_of c (readCallMeta unmarshal c) = bg_callerPlugin b ->
  GetDeadlineUnixMs (readCallMeta unmarshal c) = 0 ->
  Gateway_openCall unmarshal marshal g c capURI w = Some (Ok oc, w') ->
  bench_openCall unmarshal marshal b c capURI = Ok (oc_ctx oc, oc_method oc).
Proof.
  intros Hr Hc Hd Ho. apply openCall_cases in Ho as (_ & [(_ & _ & ?)|(Ht & d & _ & _ & Hop)]); [done|].
  destruct Hop as (_ & Hm & _ & _ & _ & _ & bs & Hb & Hctx). unfold bench_openCall, traced in *.
  change bench_wellFormedTraceparent with wellFormedTraceparent. rw bench_reads_as_core Ht -Hr Hm /=. rw Hc in Hb. unfold restamp in Hb. rw Hb. by rw Hctx Hd.
Qed.

Lemma bench_relay_same fuel c idle up ms : forall t fs frames,
  relay_loop fuel c idle t up fs ms = (frames, Some None) -> bench_relay fuel up fs ms = (frames, Some None).
Proof.
  induction fuel as [|fuel IH]; intros t fs frames; [done|]. cbn [relay_loop bench_relay]. destruct (stream_cut c idle t) as [cut e].
  destruct (r_at _ <? cut); [|done]. destruct (r_msg _) as [frame|[]]; try done.
  destruct (up (length fs)); [done|]. apply IH.
Qed.

(** The benchmark relays as the gateway does.  For a call that the gateway opens as the benchmark's
    caller, on the same route and provider and without a deadline of its own, the benchmark's
    relay makes the very same call, with the same envelope, and gives the same answer; and a
    stream that the gateway relays to its end, the benchmark relays to its end with the same
    frames. *)
Theorem bench_relays_like_gateway (g : Gateway (Conn := Conn)) (b : gateway Conn) c capURI payload w :
  routes g !! capURI = bg_routes b !! capURI -> caller_of c (readCallMeta unmarshal c) = bg_callerPlugin b ->
  GetDeadlineUnixMs (readCallMeta unmarshal c) = 0 ->
  forall oc w', Gateway_openCall unmarshal marshal g c capURI w = Some (Ok oc, w') -> oc_conn oc = bg_provider b ->
  (exists w'', Gateway_Invoke unmarshal marshal conn_Invoke g capURI payload c w =
      Some (bench_Invoke unmarshal marshal conn_Invoke b capURI payload c, w'') /\
      calls w'' = calls w ++ [(bg_provider b, oc_ctx oc, oc_method oc, payload)]) /\
  forall fuel frames, Gateway_relayServerStream conn_NewStream fuel g oc payload = (frames, Some None) ->
    bench_InvokeServerStream unmarshal marshal conn_NewStream fuel b capURI payload c = (frames, Some None).
Proof.
  intros Hr Hc Hd oc w' Ho Hp. pose proof (bench_opens g b c capURI w oc w' Hr Hc Hd Ho) as Hb. split.
  - unfold Gateway_Invoke, bench_Invoke. rw Ho Hb /= Hp. eexists. split; [done|]. simpl. by apply openCall_cases in Ho as [-> _].
  - intros fuel frames. unfold Gateway_relayServerStream, bench_InvokeServerStream. rw Hb Hp.
    destruct (conn_NewStream _ _ _ _) as [ne se ce at0 ms up]; simpl. destruct ne; [done|]. destruct se; [done|]. destruct ce; [done|].
    apply bench_relay_same.
Qed.
End Shared.

(** ** The statistics are order statistics *)

Lemma sorted_lookup (l : list Z) (i j : nat) (x y : Z) :
  StronglySorted Z.le l -> l !! i = Some x -> l !! j = Some y -> (i <= j)%nat -> x <= y.
Proof.
  revert i j. induction l as [|z l IH]; intros i j Hs Hi Hj Hij; [done|]. apply StronglySorted_inv in Hs as [Hs Hz].
  rewrite Forall_forall in Hz. destruct i as [|i], j as [|j]; simpl in Hi, Hj; simplify_eq/=; try lia.
  - apply Hz. by eapply list_elem_of_lookup_2.
  - by apply (IH i j); [..|lia].
Qed.

Lemma sorted_below (l : list Z) (k : nat) (x : Z) :
  StronglySorted Z.le l -> l !! k = Some x -> (S k <= length (filter (fun y => (y <= x)%Z) l))%nat.
Proof.
  revert k. induction l as [|y l IH]; intros k Hs Hk; [done|]. apply StronglySorted_inv in Hs as [Hs Hy].
  rewrite filter_cons. destruct k as [|k]; simpl in Hk.
  - injection Hk as ->. rewrite decide_True; [|lia]. simpl. lia.
  - rewrite decide_True; [|rewrite Forall_forall in Hy; apply Hy; by eapply list_elem_of_lookup_2].
    simpl. specialize (IH k Hs Hk). lia.
Qed.

(** With a sample or more, the statistics exist; the median and the percentile are samples, not
    below at least half and 99 in a hundred of the samples, and in this order. *)
Theorem measure_order_statistics (d : list Z) :
  d <> [] -> exists p50 p99 mean, measure d = Some (p50, p99, mean) /\ p50 ∈ d /\ p99 ∈ d /\ p50 <= p99 /\
    (length d < 2 * length (filter (fun x => (x <= p50)%Z) d))%nat /\
    (length d * 99 < 100 * length (filter (fun x => (x <= p99)%Z) d))%nat.
Proof.
  intros Hd. set (n := length d). assert (0 < n)%nat as Hn by (unfold n; destruct d; [done|simpl; lia]).
  pose proof (merge_sort_Permutation Z.le d) as Hp. assert (StronglySorted Z.le (merge_sort Z.le d)) as Hs.
  { apply StronglySorted_merge_sort; intros x y; lia. }
  assert (length (merge_sort Z.le d) = n) as Hl by by rewrite (Permutation_length Hp).
  pose proof (Nat.div_mod n 2 ltac:(lia)) as H2. pose proof (Nat.mod_upper_bound n 2 ltac:(lia)).
  pose proof (Nat.div_mod (n * 99) 100 ltac:(lia)) as H100. pose proof (Nat.mod_upper_bound (n * 99) 100 ltac:(lia)).
  destruct (lookup_lt_is_Some_2 (merge_sort Z.le d) (n / 2)) as [p50 H50]; [lia|].
  destruct (lookup_lt_is_Some_2 (merge_sort Z.le d) (n * 99 / 100)) as [p99 H99]; [lia|].
  exists p50, p99. eexists. unfold measure. fold n. rewrite H50 /= H99 /=. split; [done|].
  pose proof (sorted_below _ _ _ Hs H50) as B50. pose proof (sorted_below _ _ _ Hs H99) as B99. rewrite !Hp in B50, B99.
  split_and!.
  - rewrite -Hp. by eapply list_elem_of_lookup_2.
  - rewrite -Hp. by eapply list_elem_of_lookup_2.
  - eapply sorted_lookup; [exact Hs|exact H50|exact H99|lia].
  - lia.
  - lia.
Qed.

(** ** The program *)

Inductive bench_call :=
  | DirectGet (key : string)
  | MediatedInvoke (capability payload : string)
  | DirectExecute (work_spec : string)
  | MediatedStream (capability payload : string).
#[export] Instance bench_call_eq_dec : EqDecision bench_call.
Proof. solve_decision. Defined.

Section Main.
(** The encoding of the two requests; how a duration and the overhead in percent read. *)
Context (get_request execute_request : string -> string) (us : Z -> string) (percent : Z -> Z -> string).

Definition scenarios : list (string * bench_call) :=
  [("unary  state.Get        direct", DirectGet "bench/key");
   ("unary  state.Get        mediated", MediatedInvoke "rat://state/v1/get" (get_request "bench/key"));
   ("stream runtime.Execute   direct", DirectExecute "bench");
   ("stream runtime.Execute   mediated", MediatedStream "rat://runtime/v1/execute" (execute_request "bench"))].

Definition overhead (label : string) (direct mediated : Z) : message :=
  ("  → %-24s gateway overhead (p50): +%s (+%.0f%%)" +:+ newline, [label; us (wrap64 (mediated - direct)); percent (wrap64 (mediated - direct)) direct]).

Definition bench_row (r : string * (Z * Z * Z)) : message :=
  let '(name, (p50, p99, mean)) := r in ("  %-34s %10s %10s %10s" +:+ newline, [name; us p50; us p99; us mean]).

Definition bench_report (n : Z) (rows : list (string * (Z * Z * Z))) : option (list message) :=
  match rows with
  | [(_, (d0, _, _)); (_, (m0, _, _)); (_, (d1, _, _)); (_, (m1, _, _))] =>
      Some ([(newline +:+ "RAT per-RPC latency benchmark — N=%d, localhost TCP, single goroutine" +:+ newline, [itoa n]);
             ("(quantifies the ADR-005 core-mediation hop + the ADR-008 streaming relay)", []);
             ("======================================================================", []);
             ("  %-34s %10s %10s %10s" +:+ newline, ["scenario"; "p50"; "p99"; "mean"]);
             ("  ---------------------------------- ---------- ---------- ----------", [])] ++
            (bench_row <$> rows) ++
            [("  ---------------------------------- ---------- ---------- ----------", []);
             overhead "unary  state.Get" d0 m0; overhead "stream runtime.Execute" d1 m1;
             (newline +:+ "Note: the mediated path also marshals the request + unmarshals the result", []);
             ("client-side (the SDK's job) and stamps a fresh rat-callmeta-bin envelope —", []);
             ("all included above. Bulk DATA bypasses this path entirely (ArrowStream).", [])])
  | _ => None
  end.

(** The two listeners and the two connections, the first failure ending the program; then the calls
    made, 500 of each kind before the timed ones, and the report.  [took] is what the [i]-th
    timed call of a scenario takes; an index out of range would be a panic, [None]. *)
Definition bench_dial (NewClient : string -> option error) (addr : string) : option error :=
  Wrap "dial %s: %v" [addr] <$> NewClient addr.

Definition bench_main (args : list string) (plugin_listen gateway_listen : result string) (NewClient : string -> option error)
    (took : nat -> nat -> Z) : result (list bench_call * option (list message)) :=
  let n := bench_n args in
  let? plis := plugin_listen in
  match bench_dial NewClient plis with
  | Some e => Err e
  | None =>
      let? glis := gateway_listen in
      match bench_dial NewClient glis with
      | Some e => Err e
      | None =>
          let warmup := scenarios ≫= (fun s => replicate 500 s.2) in
          let timed := scenarios ≫= (fun s => replicate (Z.to_nat n) s.2) in
          let rows := mapM (fun ks => (fun m => (ks.2.1, m)) <$> measure (took ks.1 <$> seq 0 (Z.to_nat n))) (imap (fun k s => (k, s)) scenarios) in
          Ok (warmup ++ timed, rows ≫= bench_report n)
      end
  end.

Lemma bench_n_positive args : 0 < bench_n args.
Proof.
  unfold bench_n. destruct args as [|a args]; [done|]. destruct (ParseInt a 64) as [v|]; [|done].
  by destruct (Z.ltb_spec 0 v).
Qed.

Lemma scenario_count (n : nat) (name : string) (call : bench_call) :
  (name, call) ∈ scenarios -> length (filter (fun x => x = call) (scenarios ≫= (fun s => replicate n s.2))) = n.
Proof.
  assert (forall (x : bench_call) (l : list bench_call), length (filter (fun y => y = call) (replicate n x ++ l)) =
    ((if decide (x = call) then n else 0) + length (filter (fun y => y = call) l))%nat) as Hr.
  { intros x l. rewrite filter_app length_app. f_equal. clear l. induction n as [|k IH]; simpl; [by case_decide|].
    rewrite filter_cons. case_decide; simpl; [by rewrite IH|done]. }
  intros Hin. unfold scenarios in *. simpl. rewrite !Hr.
  repeat (apply elem_of_cons in Hin as [[= -> ->]|Hin]; [repeat (case_decide; try done); simpl; lia|]). by apply elem_of_nil in Hin.
Qed.

Lemma measured (d : list Z) : (0 < length d)%nat -> exists m, measure d = Some m.
Proof.
  intros Hd. destruct (measure_order_statistics d) as (p50 & p99 & mean & Hm & _); [by destruct d; simpl in *; [lia|]|]. eauto.
Qed.

(** Once both servers listen, the program reports, whatever it was asked for: it makes every kind of
    call as often as it says, after 500 to warm up, and prints a row per scenario and both
    overheads. *)
Theorem bench_reports args plis glis NewClient took :
  NewClient plis = None -> NewClient glis = None ->
  exists calls report, bench_main args (Ok plis) (Ok glis) NewClient took = Ok (calls, Some report) /\
    length report = 15%nat /\ (forall name call, (name, call) ∈ scenarios ->
      length (filter (fun x => x = call) calls) = (500 + Z.to_nat (bench_n args))%nat).
Proof.
  intros Hp Hg. pose proof (bench_n_positive args) as Hn. unfold bench_main, bench_dial. cbn [result_bind]. rewrite Hp Hg.
  set (n := bench_n args) in *.
  assert (forall k, exists m, measure (took k <$> seq 0 (Z.to_nat n)) = Some m) as Hm.
  { intros k. apply measured. rewrite length_fmap length_seq. lia. }
  destruct (Hm 0%nat) as [[[a0 b0] c0] E0], (Hm 1%nat) as [[[a1 b1] c1] E1], (Hm 2%nat) as [[[a2 b2] c2] E2], (Hm 3%nat) as [[[a3 b3] c3] E3].
  eexists _, _. split; [|split].
  - cbn [fmap option_fmap option_map]. unfold scenarios at 3. cbn [imap mapM fst snd compose]. rewrite E0 E1 E2 E3. reflexivity.
  - reflexivity.
  - intros name call Hin. rewrite filter_app length_app !(scenario_count _ name call Hin). done.
Qed.
End Main.

(** ** At a concrete call *)

Definition bench_state : FileDesc := [mkService "rat.state.v1.StateService" [mkMethod "Get" "rat://state/v1/get"]].
Definition bench_unmarshal (b : string) : option RequestContext := if decide (b = "rc") then Some bench_envelope else None.
Definition bench_ctx : Ctx := mkCtx (Some {[callMetaHeader := ["rc"]]}) [] None None None.

(** What the benchmark leaves out of the mediation it measures: a caller that the gateway does not
    know, whose call it refuses and audits, is relayed without a decision or a record. *)
Theorem bench_admits_anyone :
  let g := gateway_New (Conn := string) empty_registry ∅ [bench_state] in
  let b := newGateway "plugin" bench_state [] in
  (exists m rec w', Gateway_openCall bench_unmarshal (fun _ => Ok "restamped") g bench_ctx "rat://state/v1/get" (mkWorld [] [] []) =
     Some (Err (reason_status PermissionDenied m), w') /\ audits w' = [rec] /\ a_Allowed rec = false) /\
  bench_openCall bench_unmarshal (fun _ => Ok "restamped") b bench_ctx "rat://state/v1/get" =
    Ok (AppendToOutgoingContext bench_ctx callMetaHeader "restamped", "/rat.state.v1.StateService/Get").
Proof. split; [do 3 eexists; split; [reflexivity|split; reflexivity]|evaluated]. Qed.
