(* ===== verification/TestServices.v ===== *)
(** The services behind the test plugins (src/core/testplugins): the catalog and the format that
    the composition tests launch, with their ledgers of idempotency keys, and the report of the
    sandbox probe. *)
From S2P Require Import Prelude.

(** A counter of a Go map, zero where there is none. *)
Definition bump (m : gmap string Z) (k : string) : gmap string Z := <[k := wrap64 (default 0 (m !! k) + 1)]> m.
Definition keyed (m : gmap string string) (k v : string) : gmap string string := if decide (k = "") then m else <[k := v]> m.
Definition ledger_hit (m : gmap string string) (k : string) : option string := if decide (k = "") then None else m !! k.

(** ** catalogsvc *)

Record catalogsvc_Server := mkCatalogsvc { committed : gmap string string; catalogsvc_commitByKey : gmap string string; commitCount : gmap string Z }.
Definition catalogsvc_New : catalogsvc_Server := mkCatalogsvc ∅ ∅ ∅.

Record catalogsvc_TableRef := mkTableRefOf { ref_Identifier : string; ref_Uri : string }.
Definition catalogsvc_ref (pid : Z) (identifier : string) : catalogsvc_TableRef := mkTableRefOf identifier ("mem://" +:+ identifier +:+ "?pid=" +:+ itoa pid).
Definition catalogsvc_GetTable (pid : Z) (identifier : string) : catalogsvc_TableRef := catalogsvc_ref pid identifier.
Definition catalogsvc_RegisterTable (pid : Z) (identifier : string) : catalogsvc_TableRef := catalogsvc_ref pid identifier.

Record CommitRequest := mkCommit { cr_Identifier : string; cr_SnapshotId : string; cr_Key : string }.
(** The snapshot and whether it had been applied already. *)
Definition catalogsvc_CommitTable (req : CommitRequest) (s : catalogsvc_Server) : result (string * bool) * catalogsvc_Server :=
  match ledger_hit (catalogsvc_commitByKey s) (cr_Key req) with
  | Some snap => (Ok (snap, true), s)
  | None =>
      if decide (cr_SnapshotId req = "") then (Err (Status InvalidArgument "commit-table: snapshot_id is required" []), s)
      else (Ok (cr_SnapshotId req, false),
            mkCatalogsvc (<[cr_Identifier req := cr_SnapshotId req]> (committed s))
              (keyed (catalogsvc_commitByKey s) (cr_Key req) (cr_SnapshotId req)) (bump (commitCount s) (cr_Identifier req)))
  end.

Definition catalogsvc_Committed (s : catalogsvc_Server) (identifier : string) : string := default "" (committed s !! identifier).
Definition catalogsvc_CommitCount (s : catalogsvc_Server) (identifier : string) : Z := default 0 (commitCount s !! identifier).


(** ** formatsvc *)

Record formatsvc_Server := mkFormatsvc { seq : Z; formatsvc_writeByKey : gmap string string; writeCount : gmap string Z }.
Definition formatsvc_New : formatsvc_Server := mkFormatsvc 0 ∅ ∅.

Record formatsvc_WriteResult := mkWritten { wr_SnapshotId : string; wr_AlreadyApplied : bool; wr_RowsAffected : Z }.
Definition formatsvc_Overwrite (pid : Z) (table key : string) (s : formatsvc_Server) : formatsvc_WriteResult * formatsvc_Server :=
  match ledger_hit (formatsvc_writeByKey s) key with
  | Some snap => (mkWritten snap true 0, s)
  | None =>
      let n := wrap64 (seq s + 1) in
      let snap := "snap-" +:+ itoa n +:+ "-pid=" +:+ itoa pid in
      (mkWritten snap false 42, mkFormatsvc n (keyed (formatsvc_writeByKey s) key snap) (bump (writeCount s) table))
  end.
Definition formatsvc_WriteCount (s : formatsvc_Server) (identifier : string) : Z := default 0 (writeCount s !! identifier).


(** ** probeplugin *)

(** The value of a field of a process status. *)
Definition procField (status : result string) (field : string) : string :=
  match status with
  | Err _ => ""
  | Ok data =>
      default "" (head (omap (fun line => if HasPrefix line (field +:+ ":") then Some (TrimSpace (TrimPrefix line (field +:+ ":"))) else None)
                          (Split (byte_of 10) data)))
  end.

(** ** A request is applied once *)

Lemma keyed_ledger m k v : k <> "" -> ledger_hit (keyed m k v) k = Some v.
Proof. intros Hk. unfold ledger_hit, keyed. by rewrite !decide_False // lookup_insert_eq. Qed.

Lemma keyed_keeps m k v k' v' : ledger_hit m k' = Some v' -> ledger_hit m k = None -> ledger_hit (keyed m k v) k' = Some v'.
Proof.
  unfold ledger_hit, keyed. intros H1 H2. destruct (decide (k' = "")); [done|]. destruct (decide (k = "")); [done|].
  rewrite lookup_insert_ne //. congruence.
Qed.

Lemma catalog_keeps k v req s : ledger_hit (catalogsvc_commitByKey s) k = Some v ->
  ledger_hit (catalogsvc_commitByKey (catalogsvc_CommitTable req s).2) k = Some v.
Proof.
  intros Hk. unfold catalogsvc_CommitTable. destruct (ledger_hit _ (cr_Key req)) eqn:E; [done|].
  destruct (decide _); [done|]. by apply keyed_keeps.
Qed.

Lemma format_keeps k v pid table key s : ledger_hit (formatsvc_writeByKey s) k = Some v ->
  ledger_hit (formatsvc_writeByKey (formatsvc_Overwrite pid table key s).2) k = Some v.
Proof.
  intros Hk. unfold formatsvc_Overwrite. destruct (ledger_hit _ key) eqn:E; [done|]. by apply keyed_keeps.
Qed.

(** The test services keep the promise the composition tests rely on: a commit, or a write, under an
    idempotency key is applied once.  After it, and any other requests, the same request answers
    with the first snapshot, says so, and changes nothing. *)
Theorem applied_once :
  (forall req s snap more, cr_Key req <> "" -> (catalogsvc_CommitTable req s).1 = Ok (snap, false) ->
     let s' := fold_left (fun s r => (catalogsvc_CommitTable r s).2) more (catalogsvc_CommitTable req s).2 in
     catalogsvc_CommitTable req s' = (Ok (snap, true), s')) /\
  (forall pid table key s more, key <> "" ->
     let '(r, s1) := formatsvc_Overwrite pid table key s in
     let s' := fold_left (fun s r => (formatsvc_Overwrite pid r.1 r.2 s).2) more s1 in
     formatsvc_Overwrite pid table key s' = (mkWritten (wr_SnapshotId r) true 0, s')).
Proof.
  split.
  - intros req s snap more Hk Hr. assert (ledger_hit (catalogsvc_commitByKey (catalogsvc_CommitTable req s).2) (cr_Key req) = Some snap) as H0.
    { revert Hr. unfold catalogsvc_CommitTable. destruct (ledger_hit _ _); [done|]. destruct (decide _); [done|]. intros [= <-]. by apply keyed_ledger. }
    revert H0. generalize (catalogsvc_CommitTable req s).2. induction more as [|r more IH]; intros s1 H1; simpl.
    + unfold catalogsvc_CommitTable. by rewrite H1.
    + by apply IH, catalog_keeps.
  - intros pid table key s more Hk. destruct (formatsvc_Overwrite pid table key s) as [r s1] eqn:Er.
    assert (ledger_hit (formatsvc_writeByKey s1) key = Some (wr_SnapshotId r)) as H0.
    { revert Er. unfold formatsvc_Overwrite. destruct (ledger_hit _ key) eqn:E; [by intros [= <- <-]|]. intros [= <- <-]. by apply keyed_ledger. }
    clear Er. revert s1 H0. induction more as [|x more IH]; intros s1 H1; simpl.
    + unfold formatsvc_Overwrite. by rewrite H1.
    + by apply IH, format_keeps.
Qed.
