(* ===== verification/Auditor.v ===== *)
(** The audit log (src/core/cmd/rat/auditor.go and the sinks main.go opens for it): one line of
    JSON per record, as the encoder of the Go library writes it, to standard output and to the
    durable file of a project. *)
From S2P Require Import Prelude Paths Manifest Registry CallContext Gateway StateLease StatePlugin Project Command.

(** ** Strings in JSON

    The encoder's default escapes: the characters of JSON that must be, those of HTML, and
    the two line separators; bytes that are not UTF-8 become the replacement character. *)
Definition json_ascii (a : ascii) : string :=
  let n := nat_of_ascii a in
  let hex := fun n => "\u00" +:+ String (hex_digit (n / 16)) (String (hex_digit (n mod 16)) "") in
  if (n =? 34)%nat then "\" +:+ dq
  else if (n =? 92)%nat then "\\"
  else if (n =? 8)%nat then "\b"
  else if (n =? 12)%nat then "\f"
  else if (n =? 10)%nat then "\n"
  else if (n =? 13)%nat then "\r"
  else if (n =? 9)%nat then "\t"
  else if (n <? 32)%nat || (n =? 60)%nat || (n =? 62)%nat || (n =? 38)%nat then hex n
  else String a "".

Definition replacement : string := "\ufffd".
Definition line_separator (a b c : ascii) : bool := byte_in 226 226 a && byte_in 128 128 b && byte_in 168 169 c.

Fixpoint json_chars (s : string) : string :=
  match s with
  | "" => ""
  | String a s1 =>
      if byte_in 0 127 a then json_ascii a +:+ json_chars s1
      else
        let bad := replacement +:+ json_chars s1 in
        match s1 with
        | "" => bad
        | String b s2 =>
            if byte_in 194 223 a then if cont b then String a (String b (json_chars s2)) else bad
            else match s2 with
                 | "" => bad
                 | String c s3 =>
                     if byte_in 224 239 a then
                       if (if byte_in 224 224 a then byte_in 160 191 b
                           else if byte_in 237 237 a then byte_in 128 159 b else cont b) && cont c
                       then if line_separator a b c
                            then "\u202" +:+ String (hex_digit (nat_of_ascii c mod 16)) (json_chars s3)
                            else String a (String b (String c (json_chars s3)))
                       else bad
                     else match s3 with
                          | "" => bad
                          | String d s4 =>
                              if byte_in 240 244 a &&
                                 (if byte_in 240 240 a then byte_in 144 191 b
                                  else if byte_in 244 244 a then byte_in 128 143 b else cont b) && cont c && cont d
                              then String a (String b (String c (String d (json_chars s4)))) else bad
                          end
                 end
        end
  end.

(** ** The line of a record *)

Inductive jvalue := JString (s : string) | JBool (b : bool) | JInt (z : Z).
#[export] Instance jvalue_eq_dec : EqDecision jvalue.
Proof. solve_decision. Defined.

Definition value_text (v : jvalue) : string :=
  match v with
  | JString s => dq +:+ json_chars s +:+ dq
  | JBool b => if b then "true" else "false"
  | JInt z => itoa z
  end.
Definition field_text (kv : string * jvalue) : string := dq +:+ json_chars kv.1 +:+ dq +:+ ":" +:+ value_text kv.2.
Definition object_text (kvs : list (string * jvalue)) : string := "{" +:+ Join (field_text <$> kvs) "," +:+ "}".

Record auditLine := mkLine {
  al_Kind : string; al_Capability : string; al_Caller : string; al_Provider : string; al_Correlation : string;
  al_Allowed : bool; al_Reason : string; al_Outcome : string; al_Frames : Z; al_Error : string;
}.
#[export] Instance auditLine_eq_dec : EqDecision auditLine.
Proof. solve_decision. Defined.

Definition omitempty (k v : string) : list (string * jvalue) := if decide (v = "") then [] else [(k, JString v)].
Definition line_fields (l : auditLine) : list (string * jvalue) :=
  [("kind", JString (al_Kind l)); ("capability", JString (al_Capability l)); ("caller", JString (al_Caller l))] ++
  omitempty "provider" (al_Provider l) ++ omitempty "correlation" (al_Correlation l) ++
  [("allowed", JBool (al_Allowed l))] ++
  omitempty "reason" (al_Reason l) ++ omitempty "outcome" (al_Outcome l) ++
  (if decide (al_Frames l = 0) then [] else [("frames", JInt (al_Frames l))]) ++ omitempty "error" (al_Error l).

(** ** Writing

    A writer that fails may have written a part. *)
Definition write (failed : option nat) (data sink : string) : string * bool :=
  match failed with
  | None => (sink +:+ data, true)
  | Some n => (sink +:+ String.substring 0 n data, false)
  end.

(** Standard output, and the durable file when there is a project; a write stops at the first
    sink that fails. *)
Record sinks := mkSinks { sk_stdout : string; sk_file : option string }.
Definition MultiWriter (failed : option nat * option nat) (data : string) (s : sinks) : sinks :=
  let '(out, ok) := write failed.1 data (sk_stdout s) in
  mkSinks out (match sk_file s with
               | Some f => Some (if ok : bool then (write failed.2 data f).1 else f)
               | None => None
               end).

Section Auditor.
(** How a reason and an error read. *)
Context (reason_text : message -> string) (error_text : option error -> string).

Definition line_of (r : AuditRecord) : auditLine :=
  mkLine (if a_Terminal r then "stream-close" else "decision") (a_Capability r) (a_Caller r) (a_Provider r)
    (a_Correlation r) (a_Allowed r) (reason_text (a_Reason r)) (a_Outcome r) (a_Frames r) (error_text (a_Error r)).

(** Marshalling a record cannot fail; what writing answers is dropped. *)
Definition StdoutAuditor_Record (failed : option nat * option nat) (r : AuditRecord) (s : sinks) : sinks :=
  MultiWriter failed (object_text (line_fields (line_of r)) +:+ newline) s.
End Auditor.

(** ** Reading a line back

    A reader of JSON objects of strings, booleans and integers, up to surrogate pairs. *)
Definition hex_value (a : ascii) : option nat :=
  if byte_in 48 57 a then Some (nat_of_ascii a - 48)%nat
  else if byte_in 97 102 a then Some (nat_of_ascii a - 87)%nat
  else if byte_in 65 70 a then Some (nat_of_ascii a - 55)%nat else None.

(** UTF-8 below the surrogates. *)
Definition utf8 (n : nat) : string :=
  if (n <? 128)%nat then bytes [n]
  else if (n <? 2048)%nat then bytes [192 + n / 64; 128 + n mod 64]%nat
  else bytes [224 + n / 4096; 128 + n / 64 mod 64; 128 + n mod 64]%nat.

Definition hex4 (a b c d : ascii) : option nat :=
  a ← hex_value a; b ← hex_value b; c ← hex_value c; d ← hex_value d;
  let n := (((a * 16 + b) * 16 + c) * 16 + d)%nat in
  if (55296 <=? n)%nat && (n <=? 57343)%nat then None else Some n.

Definition simple_escape (a : ascii) : option string :=
  let n := nat_of_ascii a in
  if (n =? 34)%nat || (n =? 92)%nat || (n =? 47)%nat then Some (String a "")
  else if (n =? 98)%nat then Some (bytes [8]%nat)
  else if (n =? 102)%nat then Some (bytes [12]%nat)
  else if (n =? 110)%nat then Some (bytes [10]%nat)
  else if (n =? 114)%nat then Some (bytes [13]%nat)
  else if (n =? 116)%nat then Some (bytes [9]%nat)
  else None.

Definition prepend (t : string) (r : option (string * string)) : option (string * string) :=
  '(x, rest) ← r; Some (t +:+ x, rest).

(** The characters up to the closing quote, and what follows it. *)
Fixpoint read_chars (s : string) : option (string * string) :=
  match s with
  | "" => None
  | String a s1 =>
      if (nat_of_ascii a =? 34)%nat then Some ("", s1)
      else if (nat_of_ascii a =? 92)%nat then
        match s1 with
        | String "u" (String a b1) =>
            match b1 with
            | String b (String c (String d s5)) => n ← hex4 a b c d; prepend (utf8 n) (read_chars s5)
            | _ => None
            end
        | String e s2 => t ← simple_escape e; prepend t (read_chars s2)
        | "" => None
        end
      else prepend (String a "") (read_chars s1)
  end.

Fixpoint number_prefix (s : string) : string * string :=
  match s with
  | String a s' => if numeral_byte a then let '(n, r) := number_prefix s' in (String a n, r) else ("", s)
  | "" => ("", "")
  end.

Definition read_value (s : string) : option (jvalue * string) :=
  match expect dq s, expect "true" s, expect "false" s with
  | Some s, _, _ => '(t, r) ← read_chars s; Some (JString t, r)
  | _, Some r, _ => Some (JBool true, r)
  | _, _, Some r => Some (JBool false, r)
  | _, _, _ => let '(n, r) := number_prefix s in
      match ParseInt n 64 with Ok z => Some (JInt z, r) | Err _ => None end
  end.

Definition read_field (s : string) : option (string * jvalue * string) :=
  s ← expect dq s; '(k, s) ← read_chars s; s ← expect ":" s; '(v, s) ← read_value s; Some (k, v, s).

Fixpoint read_fields (fuel : nat) (s : string) : option (list (string * jvalue)) :=
  match fuel with
  | O => None
  | S fuel =>
      '(kv, s) ← read_field s;
      match expect "," s with
      | Some s => rest ← read_fields fuel s; Some (kv :: rest)
      | None => if decide (s = "}") then Some [kv] else None
      end
  end.

Definition read_object (s : string) : option (list (string * jvalue)) :=
  s ← expect "{" s; if decide (s = "}") then Some [] else read_fields (String.length s) s.

(** The fields by name, absent ones empty. *)
Definition field (kvs : list (string * jvalue)) (k : string) : option jvalue :=
  snd <$> List.find (fun kv => bool_decide (kv.1 = k)) kvs.
Definition text_field (kvs : list (string * jvalue)) (k : string) : string :=
  match field kvs k with Some (JString s) => s | _ => "" end.
Definition line_of_fields (kvs : list (string * jvalue)) : auditLine :=
  mkLine (text_field kvs "kind") (text_field kvs "capability") (text_field kvs "caller") (text_field kvs "provider")
    (text_field kvs "correlation") (match field kvs "allowed" with Some (JBool b) => b | _ => false end)
    (text_field kvs "reason") (text_field kvs "outcome") (match field kvs "frames" with Some (JInt z) => z | _ => 0 end)
    (text_field kvs "error").

Definition read_line (s : string) : option auditLine := line_of_fields <$> read_object s.

(** The lines of a log that ends in a newline, or is empty. *)
Definition read_log (s : string) : option (list auditLine) :=
  match rev (Split nl s) with
  | "" :: ls => mapM read_line (rev ls)
  | _ => None
  end.

(** *** Characters *)

Lemma prepend_app t u r : prepend (t +:+ u) r = prepend t (prepend u r).
Proof. destruct r as [[x rest]|]; [|done]. simpl. by rw str_app_assoc. Qed.

(** Reading the escape of an ASCII character, and a byte of a longer one. *)
Lemma read_ascii a t : byte_in 0 127 a = true -> read_chars (json_ascii a +:+ t) = prepend (String a "") (read_chars t).
Proof. intros Ha. destruct a as [[] [] [] [] [] [] [] []]; solve [discriminate Ha|reflexivity]. Qed.

Lemma read_byte a t : byte_in 0 127 a = false -> read_chars (String a t) = prepend (String a "") (read_chars t).
Proof. intros Ha. destruct a as [[] [] [] [] [] [] [] []]; solve [discriminate Ha|reflexivity]. Qed.

Lemma byte_in_bounds lo hi a : byte_in lo hi a = true <-> (lo <= nat_of_ascii a <= hi)%nat.
Proof. unfold byte_in. by rewrite andb_true_iff !Nat.leb_le. Qed.

Lemma read_separator a b c t : line_separator a b c = true ->
  read_chars ("\u202" +:+ String (hex_digit (nat_of_ascii c mod 16)) t) = prepend (String a (String b (String c ""))) (read_chars t).
Proof.
  intros [[?%byte_in_bounds ?%byte_in_bounds]%andb_true_iff ?%byte_in_bounds]%andb_true_iff.
  assert (forall x n, nat_of_ascii x = n -> x = ascii_of_nat n) as Hx by by intros x n <-; rw ascii_nat_embedding.
  rewrite (Hx a 226%nat) 1?(Hx b 128%nat); [|lia..].
  assert (nat_of_ascii c = 168 \/ nat_of_ascii c = 169)%nat as [E|E] by lia; by rewrite (Hx c _ E).
Qed.

Lemma in_range lo hi a : byte_in lo hi a = true -> (127 < lo)%nat -> byte_in 0 127 a = false.
Proof. intros H%byte_in_bounds Hlo. apply not_true_iff_false. intros ?%byte_in_bounds. lia. Qed.

Lemma json_ascii_plain a : byte_in 0 127 a = true -> no_byte nl (json_ascii a) = true.
Proof. intros Ha. destruct a as [[] [] [] [] [] [] [] []]; solve [discriminate Ha|reflexivity]. Qed.

Lemma plain_byte_nl a s : byte_in 0 127 a = false -> no_byte nl (String a s) = no_byte nl s.
Proof. intros Ha. destruct a as [[] [] [] [] [] [] [] []]; solve [discriminate Ha|reflexivity]. Qed.

(** Characters that are UTF-8 are read back as they were, and no newline is written. *)
Lemma read_json_chars s rest : ValidString s = true ->
  read_chars (json_chars s +:+ dq +:+ rest) = Some (s, rest) /\ no_byte nl (json_chars s) = true.
Proof.
  assert (forall n s, (String.length s <= n)%nat -> ValidString s = true ->
    read_chars (json_chars s +:+ dq +:+ rest) = Some (s, rest) /\ no_byte nl (json_chars s) = true) as H; [|by apply (H (String.length s))].
  clear s. induction n as [|n IH]; intros [|a s1] Hn Hv; simpl in Hn; try lia; [by split..|].
  cbn [json_chars ValidString] in *. destruct (byte_in 0 127 a) eqn:Ha.
  { destruct (IH s1) as [IH1 IH2]; [lia|done|]. by rw str_app_assoc read_ascii // IH1 no_byte_app json_ascii_plain. }
  destruct s1 as [|b s2]; [done|]. simpl in Hn. destruct (byte_in 194 223 a).
  { apply andb_true_iff in Hv as [Hb Hv]. rw Hb. destruct (IH s2) as [IH1 IH2]; [lia|done|].
    assert (byte_in 0 127 b = false) as Hb' by by eapply in_range; [exact Hb|lia].
    by rw !str_app_cons !read_byte // IH1 !plain_byte_nl. }
  destruct s2 as [|c s3]; [done|]. simpl in Hn. destruct (byte_in 224 239 a).
  { apply andb_true_iff in Hv as [[Hb Hc]%andb_true_iff Hv]. rw Hb Hc. cbn [andb]. destruct (IH s3) as [IH1 IH2]; [lia|done|].
    destruct (line_separator a b c) eqn:Hs.
    { rewrite str_app_assoc (str_app_cons (hex_digit _)) (read_separator a b c _ Hs) IH1. split; [done|]. rw no_byte_app.
      assert (hex_digit (nat_of_ascii c mod 16) = "8"%char \/ hex_digit (nat_of_ascii c mod 16) = "9"%char) as [-> | ->]; [|done..].
      apply andb_true_iff in Hs as [_ Hs%byte_in_bounds].
      assert (nat_of_ascii c = 168 \/ nat_of_ascii c = 169)%nat as [-> | ->] by lia; [by left|by right]. }
    assert (byte_in 0 127 b = false) as Hb' by by destruct (byte_in 224 224 a), (byte_in 237 237 a); eapply in_range; try exact Hb; lia.
    assert (byte_in 0 127 c = false) as Hc' by by eapply in_range; [exact Hc|lia].
    by rw !str_app_cons !read_byte // IH1 !plain_byte_nl. }
  destruct s3 as [|d s4]; [done|]. simpl in Hn.
  apply andb_true_iff in Hv as [[[[Ha4 Hb]%andb_true_iff Hc]%andb_true_iff Hd]%andb_true_iff Hv]. rw Ha4 Hb Hc Hd. cbn [andb].
  destruct (IH s4) as [IH1 IH2]; [lia|done|].
  assert (byte_in 0 127 b = false) as Hb' by by destruct (byte_in 240 240 a), (byte_in 244 244 a); eapply in_range; try exact Hb; lia.
  assert (byte_in 0 127 c = false) as Hc' by by eapply in_range; [exact Hc|lia].
  assert (byte_in 0 127 d = false) as Hd' by by eapply in_range; [exact Hd|lia].
  by rw !str_app_cons !read_byte // IH1 !plain_byte_nl.
Qed.

(** *** Objects *)

Definition good_value (v : jvalue) : Prop :=
  match v with JString s => ValidString s = true | JBool _ => True | JInt z => in_int64 z end.
Definition good_field (kv : string * jvalue) : Prop := ValidString kv.1 = true /\ good_value kv.2.

Lemma expect_it p r : expect p (p +:+ r) = Some r.
Proof. by apply expect_spec. Qed.

Lemma number_prefix_app n rest :
  str_forall numeral_byte n = true -> number_prefix rest = ("", rest) -> number_prefix (n +:+ rest) = (n, rest).
Proof.
  intros Hn Hr. induction n as [|a n IH]; [done|]. simpl in Hn. apply andb_true_iff in Hn as [Ha Hn].
  rw str_app_cons. cbn [number_prefix]. by rw Ha IH.
Qed.

Lemma numeral_is_no_other a s : numeral_byte a = true ->
  expect dq (String a s) = None /\ expect "true" (String a s) = None /\ expect "false" (String a s) = None.
Proof. intros Ha. destruct a as [[] [] [] [] [] [] [] []]; solve [discriminate Ha|by split_and!]. Qed.

Lemma read_value_text v rest : good_value v -> number_prefix rest = ("", rest) -> read_value (value_text v +:+ rest) = Some (v, rest).
Proof.
  intros Hv Hr. destruct v as [s|b|z]; unfold value_text.
  - destruct (read_json_chars s rest Hv) as [E _]. unfold read_value. by rw !str_app_assoc expect_it E.
  - unfold read_value. destruct b.
    + change (expect dq ("true" +:+ rest)) with (None : option string). by rw expect_it.
    + change (expect dq ("false" +:+ rest)) with (None : option string).
      change (expect "true" ("false" +:+ rest)) with (None : option string). by rw expect_it.
  - pose proof (itoa_numeral z) as Hn. pose proof (itoa_nonempty z) as Hne.
    unfold read_value. rw number_prefix_app // ParseInt_decimal // decide_True //.
    destruct (itoa z) as [|a n]; [done|]. simpl in Hn. apply andb_true_iff in Hn as [Ha _].
    destruct (numeral_is_no_other a (n +:+ rest) Ha) as (E1 & E2 & E3). by rw str_app_cons E1 E2 E3.
Qed.

Lemma read_field_text kv rest : good_field kv -> number_prefix rest = ("", rest) -> read_field (field_text kv +:+ rest) = Some (kv, rest).
Proof.
  intros [Hk Hv] Hr. destruct kv as [k v]. unfold read_field, field_text. rw !str_app_assoc expect_it. cbn [mbind option_bind fst snd].
  destruct (read_json_chars k (":" +:+ value_text v +:+ rest) Hk) as [E _]. rw E. cbn [mbind option_bind].
  by rw expect_it /= read_value_text.
Qed.

Lemma Join_fields kv kv' kvs :
  Join (field_text <$> kv :: kv' :: kvs) "," = field_text kv +:+ "," +:+ Join (field_text <$> kv' :: kvs) ",".
Proof. done. Qed.

Lemma read_fields_text kv kvs fuel : (length kvs < fuel)%nat -> Forall good_field (kv :: kvs) ->
  read_fields fuel (Join (field_text <$> (kv :: kvs)) "," +:+ "}") = Some (kv :: kvs).
Proof.
  revert kv kvs. induction fuel as [|fuel IH]; intros kv kvs Hf [Hkv Hkvs]%Forall_cons; [lia|]. cbn [read_fields].
  destruct kvs as [|kv' kvs].
  - change (Join (field_text <$> [kv]) ",") with (field_text kv). by rw read_field_text.
  - rewrite Join_fields (str_app_assoc (field_text kv)) (str_app_assoc ",") read_field_text //. cbn [mbind option_bind].
    rw expect_it. rw IH //. simpl in Hf. lia.
Qed.

Lemma fields_length kvs : (length kvs <= String.length (Join (field_text <$> kvs) "," +:+ "}"))%nat.
Proof.
  induction kvs as [|kv [|kv' kvs] IH]; [simpl; lia|by rw str_length_app; simpl; lia|].
  rw Join_fields. rewrite !str_length_app in IH |- *. simpl in *. lia.
Qed.

Lemma read_object_text kvs : Forall good_field kvs -> read_object (object_text kvs) = Some kvs.
Proof.
  intros Hg. unfold read_object, object_text. rw expect_it. cbn [mbind option_bind]. destruct kvs as [|kv kvs]; [done|].
  destruct (decide _) as [E|_].
  - apply (f_equal String.length) in E. rewrite str_length_app in E. destruct kvs; simpl in E; lia.
  - apply read_fields_text; [|done]. apply (fields_length (kv :: kvs)).
Qed.

Lemma value_text_line v : good_value v -> no_byte nl (value_text v) = true.
Proof.
  destruct v as [s|b|z]; intros Hv; unfold value_text.
  - destruct (read_json_chars s "" Hv) as [_ E]. by rw !no_byte_app E.
  - by destruct b.
  - by apply itoa_no_byte.
Qed.

Lemma object_text_line kvs : Forall good_field kvs -> no_byte nl (object_text kvs) = true.
Proof.
  intros Hg. unfold object_text. rw !no_byte_app /= andb_true_r.
  induction Hg as [|kv kvs [Hk Hv] Hg IH]; [done|].
  assert (no_byte nl (field_text kv) = true) as Hf.
  { destruct (read_json_chars kv.1 "" Hk) as [_ E]. unfold field_text. by rw !no_byte_app E value_text_line. }
  destruct kvs as [|kv' kvs]; [done|]. by rewrite Join_fields (no_byte_app _ (field_text kv)) (no_byte_app _ ",") Hf IH.
Qed.

(** *** The log *)

Definition readable (l : auditLine) : Prop :=
  Forall (fun s => ValidString s = true)
    [al_Kind l; al_Capability l; al_Caller l; al_Provider l; al_Correlation l; al_Reason l; al_Outcome l; al_Error l] /\
  in_int64 (al_Frames l).

Lemma omitempty_good k v : ValidString k = true -> ValidString v = true -> Forall good_field (omitempty k v).
Proof. intros Hk Hv. unfold omitempty. case_decide; by repeat constructor. Qed.

Lemma line_fields_good l : readable l -> Forall good_field (line_fields l).
Proof.
  intros [Hs Hf]. rewrite !Forall_cons in Hs. destruct Hs as (H1 & H2 & H3 & H4 & H5 & H6 & H7 & H8 & _).
  unfold line_fields. repeat (apply Forall_app; split); try by apply omitempty_good.
  - by repeat constructor.
  - by repeat constructor.
  - destruct (decide _); [constructor|]. constructor; [by split|constructor].
Qed.

Lemma line_of_fields_back l : line_of_fields (line_fields l) = l.
Proof.
  destruct l as [k c ca p co al re ou fr er]. unfold line_fields, omitempty. cbn [al_Kind al_Capability al_Caller al_Provider al_Correlation al_Allowed al_Reason al_Outcome al_Frames al_Error].
  destruct (decide (p = "")), (decide (co = "")), (decide (re = "")), (decide (ou = "")), (decide (fr = 0)), (decide (er = "")); by subst.
Qed.

Lemma read_line_text l : readable l -> read_line (object_text (line_fields l)) = Some l.
Proof. intros Hl. unfold read_line. rw read_object_text /=; [by rw line_of_fields_back|by apply line_fields_good]. Qed.

Lemma Split_extend c s x : no_byte c x = true -> exists ini l, Split c s = ini ++ [l] /\ Split c (s +:+ x) = ini ++ [l +:+ x].
Proof.
  intros Hx. induction s as [|a s (ini & l & E1 & E2)]; [exists [], ""; split; [done|exact (Split_no_byte c x Hx)]|].
  rw str_app_cons. cbn [Split]. rw E1 E2. case_decide; [by exists ("" :: ini), l|].
  destruct ini as [|w ini]; [by exists [], (String a l)|by exists (String a w :: ini), l].
Qed.

Lemma read_log_snoc t before l : read_log t = Some before -> readable l ->
  read_log (t +:+ object_text (line_fields l) +:+ newline) = Some (before ++ [l]).
Proof.
  intros Ht Hl. unfold read_log in *. set (x := object_text (line_fields l)).
  destruct (Split_extend nl t x) as (ini & w & E1 & E2); [by apply object_text_line, line_fields_good|].
  rw E1 rev_unit in Ht. destruct w; [|done]. rw rev_involutive in Ht.
  change newline with (String nl ""). rw -str_app_assoc Split_sep E2. change (Split nl "") with [""].
  rw rev_unit rev_involutive. apply mapM_Some in Ht. apply mapM_Some, Forall2_app; [done|].
  constructor; [by apply read_line_text|constructor].
Qed.

Section Log.
Context (reason_text : message -> string) (error_text : option error -> string).
Definition record_all (rs : list AuditRecord) (s : sinks) : sinks :=
  fold_left (fun s r => StdoutAuditor_Record reason_text error_text (None, None) r s) rs s.

(** A line that says what a record says, field by field. *)
Record tells (r : AuditRecord) (l : auditLine) : Prop := {
  tl_kind : al_Kind l = if a_Terminal r then "stream-close" else "decision";
  tl_capability : al_Capability l = a_Capability r;
  tl_caller : al_Caller l = a_Caller r;
  tl_provider : al_Provider l = a_Provider r;
  tl_correlation : al_Correlation l = a_Correlation r;
  tl_allowed : al_Allowed l = a_Allowed r;
  tl_reason : al_Reason l = reason_text (a_Reason r);
  tl_outcome : al_Outcome l = a_Outcome r;
  tl_frames : al_Frames l = a_Frames r;
  tl_error : al_Error l = error_text (a_Error r);
}.

(** Records whose texts are UTF-8. *)
Definition textual (r : AuditRecord) : Prop :=
  Forall (fun s => ValidString s = true)
    [a_Capability r; a_Caller r; a_Provider r; a_Correlation r; reason_text (a_Reason r); a_Outcome r; error_text (a_Error r)] /\
  in_int64 (a_Frames r).

Lemma textual_readable r : textual r -> readable (line_of reason_text error_text r).
Proof.
  assert (forall b : bool, ValidString (if b then "stream-close" else "decision") = true) as Hk by (intros []; evaluated).
  intros [Ht Hf]. split; [|exact Hf]. constructor; [exact (Hk (a_Terminal r))|exact Ht].
Qed.

Lemma record_all_lines rs s :
  Forall textual rs ->
  (forall file before, sk_file s = Some file -> read_log file = Some before ->
     exists more, sk_file (record_all rs s) = Some (file +:+ more) /\
       read_log (file +:+ more) = Some (before ++ (line_of reason_text error_text <$> rs))) /\
  (forall before, read_log (sk_stdout s) = Some before ->
     exists more, sk_stdout (record_all rs s) = sk_stdout s +:+ more /\
       read_log (sk_stdout s +:+ more) = Some (before ++ (line_of reason_text error_text <$> rs))).
Proof.
  intros Hrs. revert s. induction Hrs as [|r rs Hr Hrs IH]; intros s; simpl.
  { split; [intros file before Hf Hb|intros before Hb]; exists ""; by rw str_app_nil_r app_nil_r. }
  apply textual_readable in Hr.
  destruct s as [out f]. simpl. destruct (IH (StdoutAuditor_Record reason_text error_text (None, None) r (mkSinks out f))) as [IH1 IH2].
  split.
  - intros file before -> Hb. simpl in IH1. destruct (IH1 _ _ eq_refl (read_log_snoc _ _ _ Hb Hr)) as (more & E1 & E2).
    eexists (_ +:+ more). rw str_app_assoc in E1. split; [exact E1|]. by rw -str_app_assoc E2 -app_assoc.
  - intros before Hb. simpl in IH2. destruct (IH2 _ (read_log_snoc _ _ _ Hb Hr)) as (more & E1 & E2).
    eexists (_ +:+ more). rw str_app_assoc in E1. split; [exact E1|]. by rw -str_app_assoc E2 -app_assoc.
Qed.

Lemma lines_tell rs : Forall2 tells rs (line_of reason_text error_text <$> rs).
Proof. induction rs as [|r rs IH]; simpl; constructor; [by constructor|exact IH]. Qed.

(** C23: The audit log reads back.  Over records whose texts are UTF-8, and writers that do not fail,
    recording extends the durable file and standard output, and what was written before stays;
    a reader of lines of JSON then finds the lines that were there followed by one line for
    each record, in order, that says whether it closes a stream, whether the call was allowed,
    and its capability, caller, provider, correlation, reason, outcome, frames and error as
    they were, quotes, newlines and other escaped characters included. *)
Theorem audit_log_reads_back rs s :
  Forall textual rs -> exists ls, Forall2 tells rs ls /\
  (forall file before, sk_file s = Some file -> read_log file = Some before ->
     exists more, sk_file (record_all rs s) = Some (file +:+ more) /\ read_log (file +:+ more) = Some (before ++ ls)) /\
  (forall before, read_log (sk_stdout s) = Some before ->
     exists more, sk_stdout (record_all rs s) = sk_stdout s +:+ more /\ read_log (sk_stdout s +:+ more) = Some (before ++ ls)).
Proof. intros Hrs. exists (line_of reason_text error_text <$> rs). split; [apply lines_tell|by apply record_all_lines]. Qed.

(** Writers that fail lose records without a trace: when standard output cannot be written, the
    durable file is not written either, and a part of a line that did get out spoils the next
    record's. *)
Theorem failed_stdout_loses_durable n failed r s :
  sk_file (StdoutAuditor_Record reason_text error_text (Some n, failed) r s) = sk_file s.
Proof. unfold StdoutAuditor_Record, MultiWriter. simpl. by destruct (sk_file s). Qed.
End Log.

(** ** At concrete records *)

Definition demo_reason (m : message) : string := m.1.
Definition demo_error (e : option error) : string := if e then "ended" else "".
Definition demo_records : list AuditRecord :=
  [mkAudit "rat://state/v1/get" "etl" "pg" "c1" true ("", []) false "" 0 None;
   mkAudit "rat://state/v1/put" ("<" +:+ dq +:+ newline +:+ "é") "" "" false ("not declared", []) false "" 0 None;
   mkAudit "rat://state/v1/watch" "etl" "pg" "c2" true ("", []) true "error" 3 (Some EOF)].

Example demo_line :
  object_text (line_fields (line_of demo_reason demo_error (mkAudit "rat://a" ("<" +:+ newline) "" "" true ("", []) true "ok" 2 None))) =
  "{" +:+ Join ((fun kv => dq +:+ kv.1 +:+ dq +:+ ":" +:+ kv.2)
    <$> [("kind", dq +:+ "stream-close" +:+ dq); ("capability", dq +:+ "rat://a" +:+ dq); ("caller", dq +:+ "\u003c\n" +:+ dq);
         ("allowed", "true"); ("outcome", dq +:+ "ok" +:+ dq); ("frames", "2")]) "," +:+ "}".
Proof. evaluated. Qed.

Lemma audit_log_reads_back_witness :
  exists log ls, sk_file (record_all demo_reason demo_error demo_records (mkSinks "" (Some ""))) = Some log /\
    read_log log = Some ls /\ Forall2 (tells demo_reason demo_error) demo_records ls.
Proof.
  destruct (audit_log_reads_back demo_reason demo_error demo_records (mkSinks "" (Some ""))) as (ls & Ht & H & _).
  - repeat (constructor; [split; [repeat (constructor; [evaluated|]); constructor|unfold in_int64; simpl; lia]|]). constructor.
  - destruct (H "" [] eq_refl) as (more & E1 & E2); [evaluated|]. exists ("" +:+ more), ls.
    split; [exact E1|]. split; [exact E2|exact Ht].
Defined.
