(* ===== verification/Replicas.v ===== *)
(** The core's replicas over the state backend they share: the reconcile loop of each
    (src/core/reconciler/loop.go), its elector and lease (src/core/lease/statestore.go), the
    client adapter (src/core/cmd/rat/lease.go) and the reference backend
    (src/plugins/state/inmemory-go) as one system, down to the bytes of the stored record. *)
From S2P Require Import Prelude Lease StateLease StatePlugin Command Auditor Loop.

(** ** The stored record *)

Definition lease_fields (r : leaseRecord) : list (string * jvalue) :=
  [("holder", JString (Holder r)); ("expiry_unix_ms", JInt (ExpiryUnixMs r))].
Definition lease_Marshal (r : leaseRecord) : string := object_text (lease_fields r).

Definition lease_decode_error : error := Sentinel "json: not a lease record".

(** Of two fields of one name the last counts; an absent one is empty. *)
Definition decodeLease (b : string) : result leaseRecord :=
  match read_object b with
  | None => Err lease_decode_error
  | Some kvs =>
      match field (reverse kvs) "holder", field (reverse kvs) "expiry_unix_ms" with
      | None, None => Ok (mkLease "" 0)
      | None, Some (JInt z) => Ok (mkLease "" z)
      | Some (JString h), None => Ok (mkLease h 0)
      | Some (JString h), Some (JInt z) => Ok (mkLease h z)
      | _, _ => Err lease_decode_error
      end
  end.

Lemma lease_codec i t : ValidString i = true -> 0 <= t < 2^64 ->
  decodeLease (lease_Marshal (mkLease i (toUnixMilli t))) = Ok (mkLease i (toUnixMilli t)).
Proof.
  intros Hi Ht. assert (in_int64 (toUnixMilli t)) as Hz.
  { unfold in_int64, toUnixMilli. pose proof (Z.div_pos t 1000000). pose proof (Z.div_lt_upper_bound t 1000000 (2^63)). lia. }
  assert (Forall good_field (lease_fields (mkLease i (toUnixMilli t)))) as Hg by (repeat (constructor; [by split|]); constructor).
  unfold decodeLease, lease_Marshal. by rw (read_object_text _ Hg).
Qed.

(** ** The system *)

Record fleet := mkFleet {
  f_time : Z;
  f_store : store;
  f_pending : list (StateLease.write (Bytes := string));
  f_phase : gmap string (phase (cas_op (Bytes := string)));
}.

(** One call of the client, answered. *)
Definition request {X} (o : cas_op (Bytes := string) X) (st : store) : X * store :=
  match o in cas_op X return X * store with
  | CGet k => (stateCAS_Get (stateServer_Get st k), st)
  | CPut k v r => let out := stateServer_Put st k v r in (stateCAS_Put out.1, out.2)
  | CCreate k v => let out := stateServer_CreateIfAbsent st k v in (stateCAS_CreateIfAbsent out.1, out.2)
  end.

(** A write whose caller no longer waits for the answer. *)
Definition arrive (key : string) (pw : StateLease.write (Bytes := string)) (st : store) : store :=
  match w_mode pw with
  | IfRevision r => (stateServer_Put st key (w_value pw) r).2
  | IfAbsent => (stateServer_CreateIfAbsent st key (w_value pw)).2
  end.

Section Fleet.
Context (s : StateStore).
#[local] Instance fleet_backend : Backend (cas_op (Bytes := string)) := StateStore_Backend lease_Marshal decodeLease s.

Definition in_phase (w : fleet) (i : string) (ph : phase cas_op) : fleet :=
  mkFleet (f_time w) (f_store w) (f_pending w) (<[i := ph]> (f_phase w)).

(** Replicas, the network between them and the backend, and the backend's other clients. *)
Inductive fleet_step : fleet -> fleet -> Prop :=
  | fleet_time w t' : f_time w <= t' < 2^63 -> fleet_step w (mkFleet t' (f_store w) (f_pending w) (f_phase w))
  | fleet_fire w i e :
      f_phase w !! i = Some (Waiting e) ->
      fleet_step w (in_phase w i (Electing e (f_time w) (Elector_Step e (f_time w))))
  | fleet_answered w i e now X (o : cas_op X) k x st' :
      f_phase w !! i = Some (Electing e now (Op o k)) -> request o (f_store w) = (x, st') ->
      fleet_step w (mkFleet (f_time w) st' (f_pending w) (<[i := Electing e now (k x)]> (f_phase w)))
  | fleet_read_fails w i e now key k err :
      f_phase w !! i = Some (Electing e now (Op (CGet key) k)) ->
      fleet_step w (in_phase w i (Electing e now (k (Err err))))
  | fleet_unanswered w i e now X (o : cas_op X) k pw r x :
      f_phase w !! i = Some (Electing e now (Op o k)) -> op_write o = Some pw ->
      unconfirmed r -> adapt o r = Some x ->
      fleet_step w (mkFleet (f_time w) (f_store w) (pw :: f_pending w) (<[i := Electing e now (k x)]> (f_phase w)))
  | fleet_arrives w pd1 pw pd2 :
      f_pending w = pd1 ++ pw :: pd2 ->
      fleet_step w (mkFleet (f_time w) (arrive (ss_key s) pw (f_store w)) (pd1 ++ pd2) (f_phase w))
  | fleet_lost w pd1 pw pd2 :
      f_pending w = pd1 ++ pw :: pd2 ->
      fleet_step w (mkFleet (f_time w) (f_store w) (pd1 ++ pd2) (f_phase w))
  | fleet_return w i e now e' (leads : bool) :
      f_phase w !! i = Some (Electing e now (Ret (e', leads))) ->
      fleet_step w (in_phase w i (if leads then Converging e' else Waiting e'))
  | fleet_converged w i e :
      f_phase w !! i = Some (Converging e) -> fleet_step w (in_phase w i (Waiting e))
  | fleet_other_put w k v r :
      k <> ss_key s -> fleet_step w (mkFleet (f_time w) (stateServer_Put (f_store w) k v r).2 (f_pending w) (f_phase w))
  | fleet_other_create w k v :
      k <> ss_key s -> fleet_step w (mkFleet (f_time w) (stateServer_CreateIfAbsent (f_store w) k v).2 (f_pending w) (f_phase w)).

(** The replicas start with nothing held; the backend may have served others for long. *)
Definition fleet_init (w : fleet) : Prop :=
  rtc state_step newStore (f_store w) /\ st_data (f_store w) !! ss_key s = None /\ f_pending w = [] /\
  0 <= f_time w < 2^63 /\
  forall i ph, f_phase w !! i = Some ph ->
    (i <> "" /\ ValidString i = true) /\ exists ttl, 0 <= ttl < 2^63 /\ ph = Waiting (NewElector i ttl).

(** ** Every call is about the lease's key *)

Definition op_key {X} (o : cas_op (Bytes := string) X) : string :=
  match o with CGet k | CPut k _ _ | CCreate k _ => k end.

Fixpoint keyed {A} (p : prog (cas_op (Bytes := string)) A) : Prop :=
  match p with
  | Ret _ => True
  | Op o k => op_key o = ss_key s /\ forall x, keyed (k x)
  end.

Lemma keyed_bind {A B} (p : prog cas_op A) (f : A -> prog cas_op B) : keyed p -> (forall x, keyed (f x)) -> keyed (prog_bind p f).
Proof. intros Hp Hf. induction p as [a|X o k IH]; simpl; [done|]. destruct Hp. split; auto. Qed.

Lemma Acquire_keyed c now ttl : keyed (Acquire c now ttl).
Proof.
  split; [done|]. intros [[[v rev]|]|err]; simpl; [|split; [done|]|done].
  - by destruct (held_by_other _ _ _ _).
  - intros [[ok rev]|err]; simpl; [done|]. by destruct (errors_Is _ _).
Qed.

Lemma Elector_tryAcquire_keyed e now : keyed (Elector_tryAcquire e now).
Proof. apply keyed_bind; [apply Acquire_keyed|]. by intros [[[] tok] [err|]]. Qed.

Lemma Elector_Step_keyed e now : keyed (Elector_Step e now).
Proof.
  unfold Elector_Step. destruct (leader e); [|apply Elector_tryAcquire_keyed].
  apply keyed_bind; [by split|]. intros [[[] tok] [err|]]; [done|done| |apply Elector_tryAcquire_keyed].
  destruct (now <? leaseExpiry e); [done|apply Elector_tryAcquire_keyed].
Qed.

Definition replica_ok (ph : phase cas_op) : Prop :=
  phase_ok ph /\ match ph with Electing _ _ p => keyed p | _ => True end.

Lemma fleet_step_ok w w' : fleet_step w w' ->
  map_Forall (fun _ => replica_ok) (f_phase w) -> map_Forall (fun _ => replica_ok) (f_phase w').
Proof.
  intros Hs Hok. destruct Hs as [|w i e Hi|w i e now X o k x st' Hi Ho|w i e now key k err Hi|w i e now X o k pw r x Hi| |
    |w i e now e' b Hi|w i e Hi| |]; try exact Hok;
    (apply map_Forall_insert_2; [|exact Hok]); specialize (Hok _ _ Hi) as [Ha Hk]; simpl in Ha, Hk |- *.
  - split; [apply Elector_Step_allows|apply Elector_Step_keyed].
  - split; [apply Ha|apply Hk].
  - split; [apply Ha|apply Hk].
  - split; [apply Ha|apply Hk].
  - destruct b; split; simpl; auto.
  - done.
Qed.

(** ** The system is a run of the lease protocol *)

Definition fleet_view (w : fleet) : ha_world (Bytes := string) :=
  mkHA (f_time w) (history (ss_key s) (f_store w)) (f_pending w) (thread_of <$> f_phase w).

(** The backend only ever takes steps of its own. *)
Lemma fleet_store_step w w' : fleet_step w w' -> rtc state_step (f_store w) (f_store w').
Proof.
  intros Hs. destruct Hs as [| |w i e now X o k x st' Hi Ho| | |w pd1 pw pd2 _| | | |w k v r _|w k v _]; try apply rtc_refl; simpl.
  - destruct o; injection Ho as _ <-; [apply rtc_refl|apply rtc_once, step_put|apply rtc_once, step_create].
  - unfold arrive. destruct (w_mode pw); [apply rtc_once, step_put|apply rtc_once, step_create].
  - apply rtc_once, step_put.
  - apply rtc_once, step_create.
Qed.

Lemma run_width st st' : rtc state_step st st' -> in_width st' -> in_width st.
Proof. intros H Hw. induction H; [done|]. eapply step_width; eauto. Qed.

Context (Hkey : validateKey (ss_key s) false = None).

(** A call about the lease's key is one operation on its history. *)
Lemma request_serves {X} (o : cas_op X) st x st' pd :
  op_key o = ss_key s -> store_wf st -> request o st = (x, st') -> in_width st' ->
  serve X o (history (ss_key s) st, pd) x (history (ss_key s) st', pd).
Proof.
  intros Hk Hwf Hr Hw. destruct o as [k|k v r|k v]; simpl in Hk; subst k; injection Hr as <- <-.
  - by apply serves_get.
  - by apply serves_put.
  - by apply serves_create.
Qed.

(** A late write lands as the history admits it, or not at all. *)
Lemma arrive_view w pd1 pw pd2 :
  f_pending w = pd1 ++ pw :: pd2 -> store_wf (f_store w) -> in_width (arrive (ss_key s) pw (f_store w)) ->
  ha_step lease_Marshal decodeLease s (fleet_view w)
    (fleet_view (mkFleet (f_time w) (arrive (ss_key s) pw (f_store w)) (pd1 ++ pd2) (f_phase w))).
Proof.
  intros Hp Hwf. pose proof (commit_history (ss_key s) (ss_key s) (f_store w) (w_value pw)) as Hh.
  pose proof (commit_later (ss_key s) (f_store w) (w_value pw)) as Hl. rewrite decide_True // in Hh.
  assert (arrive (ss_key s) pw (f_store w) =
    if admits (history (ss_key s) (f_store w)) pw then commit (f_store w) (ss_key s) (w_value pw) else f_store w) as ->.
  { unfold arrive. destruct pw as [v [r|]]; cbn [w_mode w_value].
    - rewrite (put_cases _ _ v r Hkey Hwf). by destruct (admits _ _).
    - rewrite (create_cases _ _ v Hkey Hwf). by destruct (admits _ _). }
  destruct (admits _ pw) eqn:Ha; intros Hw.
  - unfold fleet_view at 2. cbn [f_time f_store f_pending f_phase]. rewrite (Hh Hw Hwf).
    apply (ha_deliver _ _ _ (fleet_view w) pd1 pw pd2); [exact Hp|exact Ha|by apply Hl].
  - apply (ha_drop _ _ _ (fleet_view w) pd1 pw pd2). exact Hp.
Qed.

Lemma fleet_view_phase w i ph : fleet_view (in_phase w i ph) =
  mkHA (f_time w) (history (ss_key s) (f_store w)) (f_pending w) (<[i := thread_of ph]> (thread_of <$> f_phase w)).
Proof. unfold fleet_view, in_phase. simpl. by rw fmap_insert. Qed.

Lemma fleet_step_view w w' :
  fleet_step w w' -> map_Forall (fun _ => replica_ok) (f_phase w) -> store_wf (f_store w) -> in_width (f_store w') ->
  rtc (ha_step lease_Marshal decodeLease s) (fleet_view w) (fleet_view w').
Proof.
  assert (forall w i ph, f_phase w !! i = Some ph -> ha_threads (fleet_view w) !! i = Some (thread_of ph)) as Hth.
  { intros v i ph Hi. simpl. by rw lookup_fmap Hi. }
  assert (forall w st', history (ss_key s) st' = history (ss_key s) (f_store w) ->
    fleet_view (mkFleet (f_time w) st' (f_pending w) (f_phase w)) = fleet_view w) as Hsame.
  { intros v st' Hh. unfold fleet_view. simpl. by rw Hh. }
  intros Hs Hok Hwf Hw. destruct Hs as [w t' Ht|w i e Hi|w i e now X o k x st' Hi Ho|w i e now key k err Hi
    |w i e now X o k pw r x Hi Hpw Hr Hx|w pd1 pw pd2 Hp|w pd1 pw pd2 Hp|w i e now e' b Hi|w i e Hi|w k v r Hne|w k v Hne].
  - apply rtc_once. by apply (ha_tick _ _ _ (fleet_view w)).
  - apply rtc_once. rw fleet_view_phase. by apply (ha_start _ _ _ (fleet_view w)), (Hth w i (Waiting e)).
  - apply rtc_once. destruct (Hok i _ Hi) as [_ [Hk _]].
    pose proof (ha_op lease_Marshal decodeLease s (fleet_view w) i e now X o k x _ _ (Hth w i _ Hi)
      (request_serves o _ x st' (f_pending w) Hk Hwf Ho Hw)) as Hop.
    unfold fleet_view at 2. simpl. rw fmap_insert. exact Hop.
  - apply rtc_once. rw fleet_view_phase. eapply (ha_op lease_Marshal decodeLease s (fleet_view w) i e now); [by apply (Hth w i _ Hi)|constructor].
  - apply rtc_once. unfold fleet_view at 2. simpl. rw fmap_insert.
    eapply (ha_op lease_Marshal decodeLease s (fleet_view w) i e now); [by apply (Hth w i _ Hi)|by eapply serve_inflight].
  - apply rtc_once. by apply arrive_view.
  - apply rtc_once. by apply (ha_drop _ _ s (fleet_view w) pd1 pw pd2).
  - apply rtc_once. rw fleet_view_phase. destruct b; eapply (ha_return lease_Marshal decodeLease s (fleet_view w) i e now); by apply (Hth w i _ Hi).
  - rw fleet_view_phase. simpl. rewrite insert_id; [apply rtc_refl|]. by rw lookup_fmap Hi.
  - rewrite Hsame //. apply (other_key_history _ _ _ k Hne Hwf Hw), Put_cases.
  - rewrite Hsame //. apply (other_key_history _ _ _ k Hne Hwf Hw), Create_cases.
Qed.

Lemma fleet_run_view w0 w :
  rtc fleet_step w0 w -> map_Forall (fun _ => replica_ok) (f_phase w0) -> store_wf (f_store w0) -> in_width (f_store w) ->
  rtc (ha_step lease_Marshal decodeLease s) (fleet_view w0) (fleet_view w) /\
  map_Forall (fun _ => replica_ok) (f_phase w) /\ store_wf (f_store w).
Proof.
  intros Hrun. induction Hrun as [|w1 w2 w3 Hs Hrun IH]; [done|]. intros Hok Hwf Hw.
  assert (in_width (f_store w2)) as Hw2.
  { clear -Hrun Hw. induction Hrun as [|w1 w2 w3 Hs _ IH]; [done|]. eapply run_width; [by apply fleet_store_step|auto]. }
  assert (store_wf (f_store w2)) as Hwf2 by (eapply steps_extend; [by apply fleet_store_step|done|done]).
  destruct IH as (Hr & Ho & Hf); [by eapply fleet_step_ok|done|done|]. split; [|done].
  etransitivity; [by apply fleet_step_view|exact Hr].
Qed.

Lemma fleet_init_view w : fleet_init w -> in_width (f_store w) ->
  ha_init (fun i => ValidString i = true) (fleet_view w) /\ map_Forall (fun _ => replica_ok) (f_phase w) /\ store_wf (f_store w).
Proof.
  intros (Hst & Hnone & Hp & Ht & Hph) Hw. pose proof (proj1 (steps_extend _ _ Hst Hw newStore_wf)) as Hwf.
  split; [|split; [|exact Hwf]].
  - split; [|split; [exact Hp|split; [exact Ht|]]].
    + simpl. apply last_None. rewrite (store_key _ _ Hwf) in Hnone. by destruct (last _).
    + intros i th. simpl. rewrite lookup_fmap fmap_Some. intros (ph & Hi & ->). destruct (Hph i ph Hi) as (Hn & ttl & Htt & ->).
      split; [exact Hn|]. by exists ttl.
  - intros i ph Hi. by destruct (Hph i ph Hi) as (_ & ttl & _ & ->).
Qed.

(** C12: Only one replica converges the plane.  Replicas run their reconcile loops against one
    shared backend, which serves others too; calls, answers, passes and time interleave
    freely, calls fail, answers are lost and writes land late.  Two replicas that are
    making passes under leases in force, to the millisecond, are the same replica, and what
    the backend stores under the lease's key decodes to a record that names it, for no less
    time than it thinks. *)
Theorem one_replica_converges w0 w i j ei ej :
  fleet_init w0 -> rtc fleet_step w0 w -> in_width (f_store w) ->
  f_phase w !! i = Some (Converging ei) -> f_phase w !! j = Some (Converging ej) ->
  toUnixMilli (f_time w) < toUnixMilli (leaseExpiry ei) -> toUnixMilli (f_time w) < toUnixMilli (leaseExpiry ej) ->
  i = j /\
  exists v rev r, store_get (f_store w) (ss_key s) = (true, v, rev) /\ decodeLease v = Ok r /\
    Holder r = i /\ toUnixMilli (leaseExpiry ei) <= ExpiryUnixMs r.
Proof.
  intros Hinit Hrun Hw Hi Hj Hti Htj.
  assert (in_width (f_store w0)) as Hw0.
  { clear -Hrun Hw. induction Hrun as [|w1 w2 w3 Hs _ IH]; [done|]. eapply run_width; [by apply fleet_store_step|auto]. }
  destruct (fleet_init_view w0 Hinit Hw0) as (Hha & Hok0 & Hwf0).
  destruct (fleet_run_view w0 w Hrun Hok0 Hwf0 Hw) as (Hr & Hok & Hwf).
  pose proof (ha_run_inv _ _ _ lease_codec s _ _ Hha Hr) as Hinv.
  assert (forall k e, f_phase w !! k = Some (Converging e) -> toUnixMilli (f_time w) < toUnixMilli (leaseExpiry e) ->
    exists v rev r, current (history (ss_key s) (f_store w)) = Some (v, rev) /\ decodeLease v = Ok r /\
      Holder r = k /\ toUnixMilli (leaseExpiry e) <= ExpiryUnixMs r) as Hcur.
  { intros k e Hk Hlt. apply (leader_is_current _ _ _ lease_codec (fleet_view w) k (Idle e) Hinv).
    - simpl. by rw lookup_fmap Hk.
    - split; [exact (proj1 (Hok k _ Hk))|exact Hlt]. }
  destruct (Hcur i ei Hi Hti) as (v & rev & r & Hc & Hd & Hh & He), (Hcur j ej Hj Htj) as (v' & rev' & r' & Hc' & Hd' & Hh' & _).
  split; [congruence|]. exists v, rev, r. split; [|done].
  pose proof (store_current (ss_key s) _ Hwf) as Hst. rw Hc in Hst. destruct (store_get _ _) as [[[] v0] rev0]; by simplify_eq/=.
Qed.
End Fleet.

(** ** Two concrete replicas

    The backend already holds a plugin's key; the lease's first write gets the second
    revision. *)
Definition lease_store : StateStore := NewStateStore lease_key 0.
Definition used_store : store := demo_put newStore "b/1" "y".

Definition two_starting : fleet :=
  mkFleet 500000 used_store [] {["a" := Waiting (demo_elector "a"); "b" := Waiting (demo_elector "b")]}.
Definition a_elected : Elector := elected (demo_elector "a") 2 500000.
Definition a_converging : fleet :=
  mkFleet 700000 (demo_put (demo_put used_store lease_key (lease_Marshal (mkLease "a" 15000))) "b/1" "z") []
    {["a" := Converging a_elected; "b" := Waiting (demo_elector "b")]}.

Example stored_record : lease_Marshal (mkLease "a" 15000) =
  "{" +:+ dq +:+ "holder" +:+ dq +:+ ":" +:+ dq +:+ "a" +:+ dq +:+ "," +:+ dq +:+ "expiry_unix_ms" +:+ dq +:+ ":15000}".
Proof. evaluated. Qed.

Lemma two_starting_init : fleet_init lease_store two_starting.
Proof.
  split; [apply rtc_once, (step_put newStore "b/1" "y" 0)|]. split; [reflexivity|]. split; [reflexivity|]. split; [done|].
  intros i ph. simpl. rewrite !lookup_insert_Some lookup_empty. intros [[<- <-]|[_ [[<- <-]|[_ [=]]]]];
    (split; [done|]); exists (15 * second); (split; [done|reflexivity]).
Qed.

Lemma a_starts_converging : rtc (fleet_step lease_store) two_starting a_converging.
Proof.
  eapply rtc_l; [by apply (fleet_fire _ _ "a")|]. eapply rtc_l; [eapply (fleet_answered _ _ "a"); reflexivity|].
  eapply rtc_l; [eapply (fleet_answered _ _ "a"); reflexivity|]. eapply rtc_l; [eapply (fleet_return _ _ "a"); reflexivity|].
  eapply rtc_l; [apply (fleet_time _ _ 700000); done|]. eapply rtc_l; [apply (fleet_other_put _ _ "b/1" "z" 0); done|].
  match goal with |- rtc _ ?x ?y => replace x with y; [apply rtc_refl|] end. reflexivity.
Qed.

Lemma one_replica_converges_witness :
  exists v rev r, store_get (f_store a_converging) lease_key = (true, v, rev) /\ decodeLease v = Ok r /\
    Holder r = "a" /\ 15000 <= ExpiryUnixMs r.
Proof.
  refine (proj2 (one_replica_converges lease_store eq_refl two_starting a_converging "a" "a" a_elected a_elected
    two_starting_init a_starts_converging _ _ _ _ _)); reflexivity.
Defined.
