(* ===== verification/Verbs.v ===== *)
(** Verbs that compose the components: rat serve (src/core/cmd/rat/main.go), rat validate
    (validate.go), rat init (project.go), rat status and the start of a background daemon
    (lifecycle.go), and the listing of connection profiles (src/core/client/context.go).
    Relative paths are taken from the working directory. *)
From S2P Require Import Prelude Paths Manifest Registry Supervisor Plane Marketplace Project Validate Contexts Lifecycle Flags Daemon.

Section Planes.
Context (toml_Unmarshal : string -> result ratToml) (yaml_Plane : string -> result rawPlane).
Context (LookupEnv : string -> option string) (yaml_Manifest : string -> result Manifest).
Context (ParseDuration : string -> result Z) (cwd : string).
Context (linked : list Rpc) (probe : string -> string -> result string).
Context (Getenv : string -> string) (Hostname : string).

Definition load_plane (fs : files) (path : string) : result LoadedPlane :=
  LoadPlane LookupEnv yaml_Manifest yaml_Plane (fun p => os_ReadFile fs (absPath cwd p)) ParseDuration cwd path.
Definition load_project (fs : files) (tomlPath : string) : result LoadedPlane :=
  LoadProject toml_Unmarshal LookupEnv yaml_Manifest ParseDuration cwd fs tomlPath.

(** ** rat serve *)

Definition serve (fs : files) (planePath : string) (strict : bool) (env : serving) : option error * list effect :=
  match load_plane fs planePath with
  | Err e => (Some e, [])
  | Ok pl =>
      match (if strict then strictPreflight linked probe pl else None) with
      | Some e => (Some e, [])
      | None => serveResolved Getenv Hostname false pl env
      end
  end.

(** ** rat validate *)

Definition preflight_counts (pl : LoadedPlane) : nat * nat * nat :=
  let launched s := bool_decide (is_Some (sp_Launch s)) in
  let attached s := negb (bool_decide (sp_Endpoint s = "")) in
  (length (List.filter launched (pl_Specs pl)),
   length (List.filter (fun s => negb (launched s) && attached s) (pl_Specs pl)),
   length (List.filter (fun s => negb (launched s) && negb (attached s)) (pl_Specs pl))).

(** The lines printed: a heading, one line per finding, in order, and the verdict. *)
Definition preflight_report (pl : LoadedPlane) (src : string) (issues : list vIssue) : list message :=
  let '(launchN, attachN, driverN) := preflight_counts pl in
  let n k := itoa (Z.of_nat k) in
  let errs := renderPreflight issues in
  let warns := (length issues - errs)%nat in
  ("rat validate — %s (runtime %s · %d launch · %d attach · %d driver)", [src; pl_Runtime pl; n launchN; n attachN; n driverN])
  :: ((fun i => let '(fmt, args) := vi_msg i in ((if vi_err i then "  ✗ " else "  ⚠ ") +:+ fmt, args)) <$> issues)
  ++ [if (0 <? errs)%nat then ("✗ %d error(s), %d warning(s) — this plane will NOT come up as declared.", [n errs; n warns])
      else if (0 <? warns)%nat then
        ("✓ launchable as declared — %d warning(s) above (static checks only; endpoints not dialed)", [n warns])
      else ("✓ launchable as declared — manifests load · names unique · capabilities real · all requires satisfied · images present (static checks only; endpoints not dialed)", [])].

(** What to validate, and where it came from; [None] is fuel run out in the search. *)
Definition loadForValidate (fs : files) (planePath : string) : option (result (LoadedPlane * string)) :=
  if negb (bool_decide (planePath = "")) then Some (let? pl := load_plane fs planePath in Ok (pl, planePath))
  else
    r ← findProject fs cwd ".";
    Some match r with
         | Ok (tomlPath, _) => let? pl := load_project fs tomlPath in Ok (pl, tomlPath)
         | Err _ =>
             if decide (is_Some (fs !! absPath cwd "plane.yaml"))
             then let? pl := load_plane fs "plane.yaml" in Ok (pl, "plane.yaml")
             else Err (Errorf "nothing to validate: no rat.toml in . or any parent and no ./plane.yaml (use --plane <file>)" [])
         end.

Definition validate_flag_set : FlagSet := {["plane" := string_flag]}.

(** The error and the lines printed. *)
Definition runValidate (fs : files) (args : list string) : option (option error * list message) :=
  match Flags.Parse validate_flag_set args ∅ with
  | Err e => Some (Some e, [])
  | Ok (given, _) =>
      r ← loadForValidate fs (default "" (given !! "plane"));
      Some match r with
           | Err e => (Some (Wrap "preflight: %w" [] e), [])
           | Ok (pl, src) =>
               let issues := preflight linked probe pl in
               let errs := renderPreflight issues in
               (if (0 <? errs)%nat then Some (Errorf "%d preflight error(s)" [itoa (Z.of_nat errs)]) else None,
                preflight_report pl src issues)
           end
  end.

(** ** rat status *)

Definition runStatus (kill0 : Z -> bool) (fs : files) : option (result (list message)) :=
  r ← findProject fs cwd ".";
  Some (let? td := r in
        let '(tomlPath, dir) := td in
        let? rt := parseProject toml_Unmarshal fs tomlPath in
        let '(pid, alive) := runningPid kill0 fs (filepath_Join [dir; ".rat"]) in
        let name := orDefault (rt_Name rt) (Base dir) in
        Ok ([if alive then ("project %q — running (pid %d)", [name; itoa pid]) else ("project %q — stopped", [name])] ++
            (if alive then [("  socket: %s", [filepath_Join [dir; ".rat"; "daemon.sock"]])] else []) ++
            [("  plugins (%d):", [itoa (Z.of_nat (length (rt_Plugins rt)))])] ++
            ((fun p => ("    - %s (%s)", [tp_Name p; if decide (tp_Image p = "") then "driver" else tp_Image p])) <$> rt_Plugins rt))).

(** ** The dry run and the gates agree *)

Lemma strict_clean pl :
  strictPreflight linked probe pl = None <-> (0 <? renderPreflight (preflight linked probe pl))%nat = false.
Proof. unfold strictPreflight. by destruct (0 <? _)%nat. Qed.

Lemma runValidate_plane fs path : path <> "" ->
  runValidate fs ["--plane"; path] =
  Some match load_plane fs path with
       | Err e => (Some (Wrap "preflight: %w" [] e), [])
       | Ok pl => let issues := preflight linked probe pl in
           let errs := renderPreflight issues in
           (if (0 <? errs)%nat then Some (Errorf "%d preflight error(s)" [itoa (Z.of_nat errs)]) else None,
            preflight_report pl path issues)
       end.
Proof.
  intros Hp. unfold runValidate.
  assert (Flags.Parse validate_flag_set ["--plane"; path] ∅ = Ok ({["plane" := path]}, [])) as -> by done.
  rewrite lookup_singleton_eq. unfold loadForValidate. simpl. rewrite bool_decide_eq_false_2 //=.
  by destruct (load_plane fs path).
Qed.

Lemma runValidate_project fs tomlPath dir : findProject fs cwd "." = Some (Ok (tomlPath, dir)) ->
  (exists report, runValidate fs [] = Some (None, report)) <->
  exists pl, load_project fs tomlPath = Ok pl /\ strictPreflight linked probe pl = None.
Proof.
  intros Hf. unfold runValidate, loadForValidate. cbn [Flags.Parse]. rewrite lookup_empty /= Hf /=.
  destruct (load_project fs tomlPath) as [pl|e]; simpl; [|by split; [intros []|intros (? & ? & _)]].
  transitivity (strictPreflight linked probe pl = None); [rewrite strict_clean|by split; [eexists|intros (? & [= <-] & ?)]].
  destruct (0 <? _)%nat; naive_solver.
Qed.

(** C22: The dry run agrees with the gates.  In a project whose daemon is not running, rat validate
    succeeds exactly when rat up --strict goes on to serve, in the foreground or, detached, in
    the project's directory; given a plane file, it succeeds exactly when the file loads and
    rat serve --strict goes on to serve that plane, and when it fails, rat serve --strict fails
    having opened nothing. *)
Theorem validate_agrees_with_strict kill0 fs tomlPath dir path :
  findProject fs cwd "." = Some (Ok (tomlPath, dir)) -> (runningPid kill0 fs (filepath_Join [dir; ".rat"])).2 = false ->
  path <> "" ->
  let up detach := runUp kill0 cwd load_project (strictPreflight linked probe) fs detach true in
  ((exists report, runValidate fs [] = Some (None, report)) <-> exists pl, up false = Some (Serves pl)) /\
  ((exists report, runValidate fs [] = Some (None, report)) <-> up true = Some (SpawnsDetached dir)) /\
  match runValidate fs ["--plane"; path] with
  | Some (None, _) => exists pl, load_plane fs path = Ok pl /\
      forall env, serve fs path true env = serveResolved Getenv Hostname false pl env
  | Some (Some _, _) => exists e, forall env, serve fs path true env = (Some e, [])
  | None => False
  end.
Proof.
  intros Hf Hr Hp up. rewrite (runValidate_project fs tomlPath dir Hf).
  assert (forall detach, up detach = Some match load_project fs tomlPath with
            | Err e => UpFails e
            | Ok pl => match strictPreflight linked probe pl with
                       | Some e => UpFails e | None => if detach then SpawnsDetached dir else Serves pl end end) as Hup.
  { intros detach. unfold up, runUp. rewrite Hf /=. destruct (runningPid _ _ _) as [pid alive]. simpl in Hr. by rewrite Hr. }
  rewrite !Hup. split_and!.
  - destruct (load_project fs tomlPath) as [pl|e]; [|naive_solver]. destruct (strictPreflight linked probe pl) eqn:E; naive_solver.
  - destruct (load_project fs tomlPath) as [pl|e]; [|naive_solver]. destruct (strictPreflight linked probe pl) eqn:E; naive_solver.
  - rewrite runValidate_plane //. unfold serve. destruct (load_plane fs path) as [pl|e]; [|by eexists]. simpl.
    pose proof (strict_clean pl) as Hs. destruct (strictPreflight linked probe pl) as [e|], (0 <? _)%nat;
      [by eexists|by destruct Hs as [_ Hs]; specialize (Hs eq_refl)|by destruct Hs as [Hs _]; specialize (Hs eq_refl)|by eexists].
Qed.
End Planes.

(** ** rat init *)

Section Init.
Context (quote_unicode : string -> string) (writable : string -> bool) (cwd : string).

Definition init_flag_set : FlagSet := {["name" := string_flag; "runtime" := string_flag]}.

Definition init_lines (pname runtime : string) : list string :=
  ["# rat.toml — your project's plugin set (ADR-023). Command-written; edit with";
   "# `rat add`/`rat remove`, run with `rat up`. Commit this file + rat.lock; .rat/ is runtime.";
   "name    = " +:+ Quote quote_unicode pname;
   "runtime = " +:+ Quote quote_unicode runtime;
   "# addr defaults to a per-project unix socket (.rat/daemon.sock) — many rats coexist.";
   "";
   "# Add plugins with: rat add <name> --image <ref> --manifest <path>"].

(** The files it leaves; the directory for what is written at run time is best effort. *)
Definition runInit (fs : files) (args : list string) : result files :=
  match Flags.Parse init_flag_set args ∅ with
  | Err e => Err e
  | Ok (given, _) =>
      if decide (is_Some (fs !! absPath cwd projectFile)) then Err (Errorf "%s already exists here" [projectFile])
      else
        let pname := orDefault (default "" (given !! "name")) (Plane.instanceID (Base cwd)) in
        match os_WriteFile writable fs (absPath cwd projectFile) (unlines (init_lines pname (default "local" (given !! "runtime")))) with
        | Err e => Err (Wrap "write %s: %w" [projectFile] e)
        | Ok fs => Ok match os_WriteFile writable fs (absPath cwd ".rat/.gitignore") (unlines ["*"]) with Ok fs => fs | Err _ => fs end
        end
  end.

Lemma remove_from_none name before ls : Forall (fun l => isHdr l = false) ls -> remove_from name before ls = None.
Proof. intros Hl. revert before. induction Hl as [|l ls Hl _ IH]; intros before; [done|]. simpl. by rewrite Hl IH. Qed.

Lemma init_lines_plain pname runtime : (forall s, no_byte nl (quote_unicode s) = true) ->
  Forall (fun l => no_byte nl l = true /\ isHdr l = false) (init_lines pname runtime).
Proof.
  intros Hq. assert (forall p s, no_byte nl p = true -> no_byte "=" p = false ->
            no_byte nl (p +:+ Quote quote_unicode s) = true /\ isHdr (p +:+ Quote quote_unicode s) = false) as Ha.
  { intros p s H1 H2. split; [by rewrite no_byte_app H1 Quote_nl|]. apply assignment_not_hdr. by rewrite no_byte_app H2. }
  unfold init_lines. do 2 (constructor; [split; evaluated|]). do 2 (constructor; [by apply Ha|]).
  do 3 (constructor; [split; evaluated|]). constructor.
Qed.

Lemma Join_dot d : is_rooted d = true -> parse_path (filepath_Join [d; "."]) = parse_path d.
Proof.
  intros Hd. rewrite parse_path_Join //. destruct d as [|a d]; [done|]. unfold parse_path. f_equal.
  - unfold is_rooted. simpl. by destruct d.
  - assert (is_rooted (String a d +:+ String "/" ".") = is_rooted (String a d)) as -> by (unfold is_rooted; simpl; by destruct d).
    by rewrite Split_sep /norm fold_left_app.
Qed.

Lemma Join_parsed d s : is_rooted d = true -> filepath_Join [d; s] = path_string (parse_path (filepath_Join [d; s])).
Proof. intros Hd. destruct d as [|a d]; [done|]. unfold filepath_Join. cbn [skip_empty]. destruct (decide (String a d = "")); [done|]. by rewrite Clean_parse. Qed.

Lemma Join_in_dot d s : is_rooted d = true -> forallb plain_comp (Split "/" s) = true ->
  filepath_Join [filepath_Join [d; "."]; s] = filepath_Join [d; s].
Proof.
  intros Hd Hs. assert (filepath_Join [d; "."] <> "" /\ d <> "") as [H1 H2].
  { split; [|by intros ->]. rewrite Join_parsed // Join_dot //. unfold path_string. simpl. by rewrite Hd. }
  assert (is_rooted (filepath_Join [d; "."]) = true) as H3.
  { rewrite Join_parsed // Join_dot //. unfold path_string. simpl. rewrite Hd. by destruct (Join _ _). }
  rewrite (Join_parsed _ _ H3) (Join_parsed d s Hd). by rewrite (parse_Join_rel _ s H1 Hs) (parse_Join_rel d s H2 Hs) Join_dot.
Qed.

(** rat init starts a project and destroys none.  When it succeeds there was no project file in
    the working directory; it writes that file and the ignore file of the runtime directory
    and nothing else; the project is then found from the directory, its file holds no plugin
    of any name, whatever the name and the runtime asked for, and a second rat init is refused
    with every file kept. *)
Theorem init_starts_a_project fs fs' args :
  (forall s, no_byte nl (quote_unicode s) = true) -> is_rooted cwd = true -> runInit fs args = Ok fs' ->
  let toml := absPath cwd projectFile in
  fs !! toml = None /\
  (forall p, p <> toml -> p <> absPath cwd ".rat/.gitignore" -> fs' !! p = fs !! p) /\
  findProject fs' cwd "." = Some (Ok (toml, absPath cwd ".")) /\
  (exists body, fs' !! toml = Some body /\ forall name, remove_block body name = None) /\
  forall args', is_Ok (Flags.Parse init_flag_set args' ∅) = true ->
    runInit fs' args' = Err (Errorf "%s already exists here" [projectFile]).
Proof.
  intros Hq Hc Hi toml. unfold runInit in Hi. destruct (Flags.Parse _ _ _) as [[given more]|e]; [|done].
  destruct (decide (is_Some _)) as [|Hnone]; [done|]. fold toml in Hi, Hnone. rewrite -eq_None_not_Some in Hnone.
  set (body := unlines _) in Hi. unfold os_WriteFile at 1 in Hi. destruct (writable toml); [|done]. injection Hi as Hi.
  assert (toml <> absPath cwd ".rat/.gitignore") as Hne.
  { intros E. apply (Join_rel_inj cwd projectFile ".rat/.gitignore") in E; [done|by intros ->|done..]. }
  assert (fs' !! toml = Some body /\ forall p, p <> toml -> p <> absPath cwd ".rat/.gitignore" -> fs' !! p = fs !! p) as [Hbody Hrest].
  { rewrite -Hi. unfold os_WriteFile. destruct (writable _); split; intros; by simplify_map_eq. }
  split_and!; [done|done| | |].
  - unfold findProject, up_fuel. cbn [find_up]. unfold found_project. change (absPath cwd ".") with (filepath_Join [cwd; "."]).
    rewrite Join_in_dot //. change (filepath_Join [cwd; projectFile]) with toml. by rewrite decide_True // Hbody.
  - exists body. split; [done|]. intros name. unfold remove_block, body. pose proof (init_lines_plain) as Hl.
    specialize (Hl (orDefault (default "" (given !! "name")) (Plane.instanceID (Base cwd))) (default "local" (given !! "runtime")) Hq).
    rewrite Split_unlines; [|by eapply Forall_impl; [exact Hl|intros ? []]].
    rewrite remove_from_none //. apply Forall_app. split; [by eapply Forall_impl; [exact Hl|intros ? []]|by repeat constructor].
  - intros args' Hp. unfold runInit. destruct (Flags.Parse _ args' _) as [[]|]; [|done]. by rewrite decide_True // -/toml Hbody.
Qed.
End Init.

(** ** The background daemon *)

Section Detached.
Context (os_Executable : result string) (mkdir create : string -> option error).
(** Starting a process: the program, its arguments, its directory and its log file. *)
Context (Start : string -> list string -> string -> string -> result Z).

(** The pid of [rat up] started in the project's directory. *)
Definition spawnDetached (dir : string) : result Z :=
  let? self := os_Executable in
  let rd := filepath_Join [dir; ".rat"] in
  match mkdir rd with
  | Some e => Err e
  | None =>
      let logf := filepath_Join [rd; "daemon.log"] in
      match create logf with
      | Some e => Err e
      | None => Start self ["up"] dir logf
      end
  end.

(** The rest of [rat up -d]: [ready pid] is how waiting for the daemon ends. *)
Definition up_detached (dir : string) (ready : Z -> option (option error)) : option (result Z) :=
  match spawnDetached dir with
  | Err e => Some (Err e)
  | Ok pid => r ← ready pid; Some match r with Some e => Err e | None => Ok pid end
  end.
End Detached.

Section Child.
Context (toml_Unmarshal : string -> result ratToml) (LookupEnv : string -> option string).
Context (yaml_Manifest : string -> result Manifest) (ParseDuration : string -> result Z).
Context (linked : list Rpc) (probe : string -> string -> result string) (kill0 : Z -> bool).

Lemma load_project_cwd cwd cwd' fs tomlPath : IsAbs tomlPath = true ->
  load_project toml_Unmarshal LookupEnv yaml_Manifest ParseDuration cwd fs tomlPath =
  load_project toml_Unmarshal LookupEnv yaml_Manifest ParseDuration cwd' fs tomlPath.
Proof.
  intros Ha. unfold load_project, LoadProject. destruct (parseProject _ _ _); [|done]. simpl.
  unfold planeFromRaw, absPath. by rewrite Ha.
Qed.

Lemma findProject_again fs cwd tomlPath dir : is_rooted cwd = true ->
  findProject fs cwd "." = Some (Ok (tomlPath, dir)) ->
  findProject fs dir "." = Some (Ok (tomlPath, dir)) /\ IsAbs tomlPath = true.
Proof.
  intros Hc Hf. destruct (absPath_clean cwd "." (or_intror Hc)) as (s & Hs & Ea).
  assert (absPath cwd "." = abs_path (comps (parse_path s))) as Ea' by by rewrite Ea Clean_abs.
  assert (good_stack true (rev (comps (parse_path s)))) as Hg.
  { pose proof (parse_path_good s) as H. assert (rooted (parse_path s) = true) as E by done. by rewrite E in H. }
  destruct (find_up_nearest (found_project fs) (comps (parse_path s)) (up_fuel (absPath cwd ".")) Hg) as (r & Hr & Hn).
  { rewrite Ea'. unfold up_fuel. rewrite comps_abs //. lia. }
  unfold findProject in Hf. rewrite Ea' in Hf, Hr. rewrite Hr in Hf. simpl in Hf. destruct r as [[p d]|]; [|done]. injection Hf as -> ->.
  destruct Hn as (k & _ & Hk & _). unfold found_project in Hk. destruct (decide _) as [Hin|]; [|done]. injection Hk as <- <-.
  set (cs := take k _) in *. assert (good_stack true (rev cs)) as Hgk.
  { unfold cs. rewrite -(take_drop k (comps (parse_path s))) rev_app_distr in Hg. by apply good_stack_app in Hg. }
  assert (is_rooted (abs_path cs) = true) as Hrt by by unfold abs_path, path_string; simpl; destruct (Join cs "/").
  assert (absPath (abs_path cs) "." = abs_path cs) as Hd.
  { change (absPath (abs_path cs) ".") with (filepath_Join [abs_path cs; "."]). rewrite Join_parsed // Join_dot //.
    unfold abs_path at 1. by rewrite parse_path_string. }
  split.
  - unfold findProject. rewrite Hd. unfold up_fuel. cbn [find_up]. unfold found_project. by rewrite decide_True.
  - change (is_rooted (filepath_Join [abs_path cs; projectFile]) = true). rewrite Join_parsed // parse_Join_rel //.
    unfold path_string. cbn [rooted comps]. assert (rooted (parse_path (abs_path cs)) = true) as -> by done.
    by destruct (Join _ _).
Qed.

(** The background daemon serves what was checked.  When rat up -d goes on to start a daemon, the
    project loads, passes the preflight if --strict was given, and the process it starts,
    which is rat up without flags in the project's own directory, finds the same project
    there and, over the same files, serves the very plane that was loaded and checked; the
    command reports success only with the pid of that process, once waiting for it found it
    ready. *)
Theorem detached_serves_checked fs cwd strict dir :
  is_rooted cwd = true ->
  let up cwd := runUp kill0 cwd (load_project toml_Unmarshal LookupEnv yaml_Manifest ParseDuration cwd) (strictPreflight linked probe) fs in
  up cwd true strict = Some (SpawnsDetached dir) ->
  (exists tomlPath pl, findProject fs cwd "." = Some (Ok (tomlPath, dir)) /\
     load_project toml_Unmarshal LookupEnv yaml_Manifest ParseDuration cwd fs tomlPath = Ok pl /\
     (strict = true -> strictPreflight linked probe pl = None) /\ up dir false false = Some (Serves pl)) /\
  forall exe mkdir create Start ready pid,
    up_detached exe mkdir create Start dir ready = Some (Ok pid) ->
    exists self, exe = Ok self /\ Start self ["up"] dir (filepath_Join [filepath_Join [dir; ".rat"]; "daemon.log"]) = Ok pid /\
      ready pid = Some None.
Proof.
  intros Hc up Hup. split.
  - unfold up, runUp in Hup. destruct (findProject fs cwd ".") as [[[tomlPath d]|e]|] eqn:Ef; [|done..]. simpl in Hup.
    destruct (runningPid _ _ _) as [pid alive] eqn:Ep. destruct alive; [done|].
    destruct (load_project _ _ _ _ _ _ _) as [pl|e] eqn:El; [|done].
    destruct (if strict then _ else None) eqn:Es; [done|]. injection Hup as ->. exists tomlPath, pl.
    destruct (findProject_again fs cwd tomlPath dir Hc Ef) as [Hagain Habs]. split_and!; [done|done|by intros ->|].
    unfold up, runUp. rewrite Hagain /= Ep. by rewrite (load_project_cwd dir cwd fs tomlPath Habs) El.
  - intros exe mkdir create Start ready pid. unfold up_detached, spawnDetached.
    destruct exe as [self|]; [|done]. simpl. destruct (mkdir _); [done|]. destruct (create _); [done|].
    destruct (Start _ _ _ _) as [p|] eqn:Es; [|done]. destruct (ready p) as [[e|]|] eqn:Er; [done| |done].
    intros [= ->]. by exists self.
Qed.
End Child.

(** ** Listing the connection profiles *)

Definition asSuffix (as_ : string) : string := if decide (as_ = "") then "" else "  as=" +:+ as_.
Definition wsSuffix (ws : string) : string := if decide (ws = "") then "" else "  workspace=" +:+ ws.

Definition runContextList (cf : contextFile) : list message :=
  if decide (Contexts cf = []) then [("no contexts — `rat context add <name> --addr <host:port>`", [])]
  else (fun c => ("%s%-14s %s%s%s", [if decide (ctx_Name c = Current cf) then "* " else "  "; ctx_Name c; ctx_Addr c;
                                    asSuffix (ctx_As c); wsSuffix (ctx_Workspace c)])) <$> Contexts cf.

(** ** At a concrete project *)

Definition lab_files : files :=
  {["/w/lab/rat.toml" := "toml"; "/w/lab/p.yaml" := "plane"; "/w/lab/pg.yaml" := "pg"]}.
Definition lab_toml (_ : string) : result ratToml :=
  Ok (mkToml "lab" "" "" "" [mkTomlPlugin "pg" "rat/state:1" "pg.yaml" "" "" ∅]).
Definition lab_plane (_ : string) : result rawPlane :=
  Ok (mkRawPlane "lab" "" "" "" [mkRawPlugin "pg" "pg.yaml" (Some (mkRawLaunch "rat/state:1" "" ∅)) ""]).
Definition lab_manifest (_ : string) : result Manifest := Ok (demo_manifest "pg" "state-backend" ["rat://state/v1/get"] []).
Definition lab_validate (probe : string -> string -> result string) (args : list string) : option (option error * list message) :=
  runValidate lab_toml lab_plane (fun _ => None) lab_manifest (fun _ => Ok 10) "/w/lab/sub" demo_linked probe lab_files args.
Definition lab_up (cwd : string) (detach strict : bool) : option up_action :=
  runUp (fun _ => false) cwd (load_project lab_toml (fun _ => None) lab_manifest (fun _ => Ok 10) cwd)
    (strictPreflight demo_linked (fun _ _ => Ok "")) lab_files detach strict.

Lemma validate_agrees_with_strict_witness :
  option_map fst (lab_validate (fun _ _ => Ok "") []) = Some None /\ lab_up "/w/lab/sub" true true = Some (SpawnsDetached "/w/lab") /\
  exists e, forall env, serve lab_plane (fun _ => None) lab_manifest (fun _ => Ok 10) "/w/lab/sub" demo_linked
    (fun _ _ => Err (Errorf "no such image" [])) (fun _ => "") "host" lab_files "/w/lab/p.yaml" true env = (Some e, []).
Proof.
  assert (option_map fst (lab_validate (fun _ _ => Ok "") []) = Some None) as Ev by evaluated.
  split; [exact Ev|]. split.
  - pose proof (validate_agrees_with_strict lab_toml lab_plane (fun _ => None) lab_manifest (fun _ => Ok 10) "/w/lab/sub" demo_linked
      (fun _ _ => Ok "") (fun _ => "") "host" (fun _ => false) lab_files "/w/lab/rat.toml" "/w/lab" "/w/lab/p.yaml") as H.
    destruct H as (_ & H & _); [evaluated|evaluated|discriminate|]. apply (proj1 H).
    unfold lab_validate in Ev. destruct (runValidate _ _ _ _ _ _ _ _ _ _) as [[[e|] report]|]; [discriminate Ev|exists report; reflexivity|discriminate Ev].
  - pose proof (validate_agrees_with_strict lab_toml lab_plane (fun _ => None) lab_manifest (fun _ => Ok 10) "/w/lab/sub" demo_linked
      (fun _ _ => Err (Errorf "no such image" [])) (fun _ => "") "host" (fun _ => false) lab_files "/w/lab/rat.toml" "/w/lab" "/w/lab/p.yaml") as H.
    destruct H as (_ & _ & H); [evaluated|evaluated|discriminate|].
    match type of H with match ?r with Some _ => _ | None => _ end =>
      assert (option_map fst r = Some (Some (Errorf "%d preflight error(s)" ["1"]))) as E by evaluated; destruct r as [[[e|] report]|]; [|discriminate E..] end.
    exact H.
Defined.

Lemma init_starts_a_project_witness :
  exists fs', runInit (fun _ => "") (fun _ => true) "/w/new" ∅ ["--name"; "lab"] = Ok fs' /\
    findProject fs' "/w/new" "." = Some (Ok ("/w/new/rat.toml", "/w/new")) /\
    runInit (fun _ => "") (fun _ => true) "/w/new" fs' [] = Err (Errorf "%s already exists here" ["rat.toml"]).
Proof.
  eexists. split; [reflexivity|].
  match goal with |- findProject ?fs' _ _ = _ /\ _ =>
    destruct (init_starts_a_project (fun _ => "") (fun _ => true) "/w/new" ∅ fs' ["--name"; "lab"]) as (_ & _ & Hf & _ & Hr) end;
    [reflexivity|reflexivity|evaluated|]. split; [exact Hf|]. apply (Hr []). reflexivity.
Defined.

Lemma detached_serves_checked_witness :
  lab_up "/w/lab/sub" true true = Some (SpawnsDetached "/w/lab") /\ exists pl, lab_up "/w/lab" false false = Some (Serves pl) /\
    strictPreflight demo_linked (fun _ _ => Ok "") pl = None.
Proof.
  split; [evaluated|].
  destruct (detached_serves_checked lab_toml (fun _ => None) lab_manifest (fun _ => Ok 10) demo_linked (fun _ _ => Ok "") (fun _ => false)
    lab_files "/w/lab/sub" true "/w/lab") as [(tomlPath & pl & _ & _ & Hs & Hp) _]; [reflexivity|evaluated|].
  exists pl. split; [exact Hp|]. apply Hs. reflexivity.
Defined.
