(* ===== verification/Entry.v ===== *)
(** The entry points of plugins: the main functions under src/plugins and src/core/testplugins,
    and the serving half of the helper library (src/contracts/sdks/go/ratplugin/plugin.go).
    Where a plugin process listens, what it serves and how it ends; and that a launched one
    listens where its runtime says it does. *)
From S2P Require Import Prelude Paths Registry Supervisor DeployRuntime Sdk.
From S2P Require StatePlugin CatalogPlugin EnginePlugin FormatPlugin TestServices Auditor.

(** ** A process *)

(** The address it asked to listen on, the one it got with what is served there, the lines
    printed, and the error it was killed with ([log.Fatalf]), if any. *)
Record process (S : Type) := mkProcess {
  pr_asked : option string; pr_serves : option (string * S); pr_said : list message; pr_fatal : option error;
}.
Arguments mkProcess {S}.
Arguments pr_asked {S}.
Arguments pr_serves {S}.
Arguments pr_said {S}.
Arguments pr_fatal {S}.
Definition pr_exit {S} (p : process S) : Z := match pr_fatal p with Some _ => 1 | None => 0 end.

Section Main.
(** [os.Getenv]; [net.Listen] on TCP, which answers with the address bound; and how serving
    ends. *)
Context (Getenv : string -> string) (Listen : string -> result string) (ended : option error).

Definition serve_at {S} (no_listener no_service : error -> error) (announce : string -> list message) (svc : S)
    (addr : string) : process S :=
  match Listen addr with
  | Err e => mkProcess (Some addr) None [] (Some (no_listener e))
  | Ok bound => mkProcess (Some addr) (Some (bound, svc)) (announce bound) (no_service <$> ended)
  end.

(** *** The reference plugins *)

Definition plugin_addr : string := let addr := Getenv "RAT_PLUGIN_ADDR" in if decide (addr = "") then ":0" else addr.
Definition reference_main {S} (announce : string -> list message) (svc : S) : process S :=
  serve_at (Wrap "listen: %v" []) (Wrap "serve: %v" []) announce svc plugin_addr.

Definition state_main : process StatePlugin.store :=
  reference_main (fun bound => [("rat-state-inmemory-go listening on %s", [bound])]) StatePlugin.newStore.
Definition catalog_main : process CatalogPlugin.catalog :=
  reference_main (fun bound => [("rat-catalog-inmemory-go listening on %s", [bound])]) CatalogPlugin.newCatalog.
Definition engine_main : process EnginePlugin.engineServer :=
  reference_main (fun bound => [("rat-engine-inmemory-go listening on %s", [bound])]) EnginePlugin.newServer.
Definition format_main : process FormatPlugin.formatServer :=
  reference_main (fun bound => [("rat-format-inmemory-go listening on %s", [bound])]) FormatPlugin.newServer.
(** These two keep no state. *)
Definition runtime_main : process unit :=
  reference_main (fun bound => [("rat-runtime-inmemory-go listening on %s", [bound])]) ().
Definition inmemory_storage_main : process unit :=
  reference_main (fun bound => [("rat-storage-inmemory-go listening on %s", [bound])]) ().
(** This one is a root directory. *)
Definition localfs_main : process string :=
  let root := if decide (Getenv "RAT_STORAGE_ROOT" = "") then "storage-root" else Getenv "RAT_STORAGE_ROOT" in
  reference_main (fun bound => [("rat-storage-localfs-go listening on %s (root=%s)", [bound; root])]) root.

(** *** The test plugins *)

Definition test_main {S} (name : string) (svc : S) : process S :=
  let addr := Getenv "RAT_PLUGIN_ADDR" in
  if decide (addr = "") then mkProcess None None [] (Some (Errorf (name +:+ ": RAT_PLUGIN_ADDR not set") []))
  else serve_at (Wrap (name +:+ ": listen %s: %v") [addr]) (Wrap (name +:+ ": serve: %v") []) (fun _ => []) svc addr.

Definition catalogplugin_main : process TestServices.catalogsvc_Server := test_main "catalogplugin" TestServices.catalogsvc_New.
Definition formatplugin_main : process TestServices.formatsvc_Server := test_main "formatplugin" TestServices.formatsvc_New.
Definition stateplugin_main : process unit := test_main "stateplugin" ().
Definition probeplugin_main : process unit := test_main "probeplugin" ().
Definition crashplugin_main : process unit :=
  mkProcess None None [] (Some (Errorf "crashplugin: crashing on purpose (never becomes healthy)" [])).

(** *** The helper library *)

(** [register] is what the plugin serves; the line is logged before serving, which a signal
    ends without an error. *)
Definition sdk_Serve {S} (register : S) : process S :=
  let addr := envOr Getenv "RAT_PLUGIN_ADDR" "0.0.0.0:50051" in
  serve_at (Wrap "ratplugin: listen %s: %v" [addr]) (Wrap "ratplugin: serve: %v" [])
    (fun _ => [("ratplugin: %s serving on %s", [Getenv "RAT_PLUGIN_NAME"; addr])]) register addr.

Record Client (Conn : Type) := mkClient { cl_conn : Conn; cl_name : string }.

(** The client of the gateway, or the error the process dies with. *)
Definition sdk_Gateway {Conn} (grpc_NewClient : string -> result Conn) : result (Client Conn) :=
  let addr := envOr Getenv "RAT_GATEWAY" "127.0.0.1:7777" in
  match grpc_NewClient addr with
  | Err e => Err (Wrap "ratplugin: dial gateway %s: %v" [addr] e)
  | Ok conn => Ok (mkClient _ conn (Getenv "RAT_PLUGIN_NAME"))
  end.
End Main.
Definition Client_Close {Conn} (conn_Close : Conn -> option error) (c : Client Conn) : option error := conn_Close (cl_conn _ c).

(** ** The services of the test plugins *)

Definition stateplugin_Get (pid : Z) (key : string) : bool * string := (true, "pid=" +:+ itoa pid +:+ " key=" +:+ key).

(** What the probe sees of its sandbox: the answers of the operating system to opening a file
    on the root file system for writing, and to dialling the metadata endpoint. *)
Definition rootWritable (OpenFile : string -> option error) : bool :=
  match OpenFile "/rat-rw-probe" with Some _ => false | None => true end.
Definition metadataReachable (DialTimeout : string -> Z -> option error) : bool :=
  match DialTimeout "169.254.169.254:80" (800 * milli) with Some _ => false | None => true end.

Record report := mkReport {
  PID : Z; UID : Z; CapEff : string; NoNewPrivs : string; RootWritable : bool; MetadataReachable : bool;
}.
Definition probe_report (pid uid : Z) (status : result string) (OpenFile : string -> option error)
    (DialTimeout : string -> Z -> option error) : report :=
  mkReport pid uid (TestServices.procField status "CapEff") (TestServices.procField status "NoNewPrivs")
    (rootWritable OpenFile) (metadataReachable DialTimeout).

(** The value of the answer. *)
Definition probe_Get (r : report) : bool * string :=
  (true, Auditor.object_text
    [("pid", Auditor.JInt (PID r)); ("uid", Auditor.JInt (UID r)); ("cap_eff", Auditor.JString (CapEff r));
     ("no_new_privs", Auditor.JString (NoNewPrivs r)); ("root_writable", Auditor.JBool (RootWritable r));
     ("metadata_reachable", Auditor.JBool (MetadataReachable r))]).

(** ** The environment of a launched process *)

(** Of several values of a key, the last one is kept. *)
Definition env_entry (key kv : string) : option string :=
  let '(k, v, ok) := Cut "=" kv in if (ok : bool) && bool_decide (k = key) then Some v else None.
Definition environ (env : list string) (key : string) : string := default "" (last (omap (env_entry key) env)).

(** The environment that the flags of [podman run] set, over that of the image. *)
Fixpoint env_flags (args : list string) : list string :=
  match args with
  | [] => []
  | flag :: rest =>
      match rest with
      | kv :: _ => if decide (flag = "-e") then kv :: env_flags rest else env_flags rest
      | [] => []
      end
  end.

(** A specification leaves the address to the runtime. *)
Definition keeps_addr (spec : LaunchSpec) : Prop :=
  Forall (fun kv => env_entry "RAT_PLUGIN_ADDR" (kv.1 +:+ "=" +:+ kv.2) = None) (ls_Env spec).

Lemma env_entry_eq key v : no_byte "=" key = true -> env_entry key (key +:+ "=" +:+ v) = Some v.
Proof. intros Hk. unfold env_entry. by rewrite (Cut_app "=" key v Hk) /= bool_decide_eq_true_2. Qed.

Lemma environ_kept key v env :
  no_byte "=" key = true -> Forall (fun kv => env_entry key kv = None) env ->
  environ ((key +:+ "=" +:+ v) :: env) key = v.
Proof.
  intros Hk Henv. unfold environ. cbn [omap list_omap]. rewrite env_entry_eq //.
  assert (omap (env_entry key) env = []) as ->; [|done]. clear Hk. induction Henv as [|kv env E _ IH]; [done|]. simpl. by rewrite E.
Qed.

Lemma environ_after image env key v env' :
  omap (env_entry key) env = [v] -> env' = image ++ env -> environ env' key = v.
Proof. intros He ->. unfold environ. by rewrite omap_app He last_snoc. Qed.

(** *** The flags of a container *)

Lemma env_flags_other flag rest : flag <> "-e" -> env_flags (flag :: rest) = env_flags rest.
Proof. intros Hf. destruct rest; [done|]. cbn [env_flags]. by rewrite decide_False. Qed.
Lemma env_flags_e kv rest : kv <> "-e" -> env_flags ("-e" :: kv :: rest) = kv :: env_flags rest.
Proof. intros Hk. by rewrite -(env_flags_other kv rest Hk). Qed.
Lemma env_flags_plain l rest : Forall (fun a => a <> "-e") l -> env_flags (l ++ rest) = env_flags rest.
Proof. induction 1 as [|a l Ha _ IH]; [done|]. rewrite -app_comm_cons env_flags_other //. Qed.

Lemma not_dash_e kv v : kv +:+ "=" +:+ v <> "-e".
Proof. destruct kv as [|a [|b [|c kv]]]; [done|by intros [= _ ?]..|]. by intros [= _ _ ?]. Qed.

Lemma env_flags_env env rest :
  env_flags (mjoin (env_args <$> env) ++ rest) =
  ((fun kv => kv.1 +:+ "=" +:+ kv.2) <$> filter (fun kv => kv.1 <> "RAT_PUBLISH_PORTS") env) ++ env_flags rest.
Proof.
  induction env as [|kv env IH]; [done|]. rewrite fmap_cons filter_cons. cbn [mjoin list_join]. rewrite -app_assoc. unfold env_args at 1.
  destruct (decide (kv.1 = "RAT_PUBLISH_PORTS")) as [Ek|Ek]; destruct (decide (_ <> _)) as [Hn|Hn]; try by destruct Hn.
  - rewrite env_flags_plain //. apply Forall_join, Forall_fmap, Forall_true. intros p. simpl. by repeat constructor.
  - cbn [app]. rewrite env_flags_e; [|apply not_dash_e]. by rewrite IH.
Qed.

Lemma run_env r name pluginID spec : name <> "-e" ->
  env_flags (run_args r name pluginID spec) =
  ("RAT_PLUGIN_ADDR=0.0.0.0:" +:+ podmanContainerPort) ::
  ((fun kv => kv.1 +:+ "=" +:+ kv.2) <$> filter (fun kv => kv.1 <> "RAT_PUBLISH_PORTS") (ls_Env spec)).
Proof.
  intros Hn. unfold run_args.
  change (i9_args ++ ?l) with (["run"; "-d"; "--user"; podmanNonRootUser; "--cap-drop=ALL"; "--security-opt=no-new-privileges";
   "--read-only"; "--tmpfs"; "/tmp:rw,nosuid,nodev"] ++ ["-e"; "RAT_PLUGIN_ADDR=0.0.0.0:" +:+ podmanContainerPort] ++ l).
  rewrite env_flags_plain; [|by repeat constructor]. cbn [app]. rewrite env_flags_e //. f_equal.
  rewrite env_flags_plain.
  2:{ unfold network_args. case_decide; repeat constructor; done. }
  rewrite env_flags_plain.
  2:{ case_decide; repeat constructor; try done. by destruct (data_dir r pluginID) as [|a [|b [|c d]]]. }
  rewrite env_flags_plain; [|unfold seccomp_args; case_decide; by repeat constructor].
  rewrite env_flags_env. by rewrite /= app_nil_r.
Qed.

(** *** Every entry point listens where it is told *)

Definition asks (Getenv : string -> string) (Listen : string -> result string) (ended : option error) : list (option string) :=
  [pr_asked (state_main Getenv Listen ended); pr_asked (catalog_main Getenv Listen ended);
   pr_asked (engine_main Getenv Listen ended); pr_asked (format_main Getenv Listen ended);
   pr_asked (runtime_main Getenv Listen ended); pr_asked (inmemory_storage_main Getenv Listen ended);
   pr_asked (localfs_main Getenv Listen ended); pr_asked (catalogplugin_main Getenv Listen ended);
   pr_asked (formatplugin_main Getenv Listen ended); pr_asked (stateplugin_main Getenv Listen ended);
   pr_asked (probeplugin_main Getenv Listen ended); pr_asked (sdk_Serve Getenv Listen ended ())].

Lemma serve_asks {S} Listen ended e1 e2 announce (svc : S) addr :
  pr_asked (serve_at Listen ended e1 e2 announce svc addr) = Some addr.
Proof. unfold serve_at. by destruct (Listen addr). Qed.

Lemma asks_told Getenv Listen ended addr :
  Getenv "RAT_PLUGIN_ADDR" = addr -> addr <> "" -> Forall (fun a => a = Some addr) (asks Getenv Listen ended).
Proof.
  intros Hg Hne. unfold asks, state_main, catalog_main, engine_main, format_main, runtime_main, inmemory_storage_main, localfs_main,
    catalogplugin_main, formatplugin_main, stateplugin_main, probeplugin_main, test_main, reference_main, sdk_Serve, envOr, plugin_addr.
  rewrite Hg !(decide_False (P := addr = "")) //.
  repeat (apply Forall_cons_2; [apply serve_asks|]). apply Forall_nil_2.
Qed.

(** A launched plugin listens where its runtime says it does, whichever of the entry points it has:
    a local process asks for the very endpoint that the launch answers with; a container asks
    for the port the runtime publishes, on every interface, and on a shared network the
    endpoint is that port of the container.  This holds of specifications that do not set the
    address themselves. *)
Theorem launched_listens (Listen : string -> result string) ended spec : keeps_addr spec ->
  (forall r id ep r', LocalProcess_Launch r spec = (Ok (id, ep), r') -> ep <> "" ->
     exists pid env, start_process (os r) (S (os_calls (os r))) (ls_Image spec) env = Ok pid /\
       lp_instances r' !! id = Some (mkInstance pid ep false) /\
       Forall (fun a => a = Some ep) (asks (environ env) Listen ended)) /\
  (forall r name pluginID image, name <> "-e" ->
     Forall (fun a => a = Some ("0.0.0.0:" +:+ podmanContainerPort))
       (asks (environ (image ++ env_flags (run_args r name pluginID spec))) Listen ended)).
Proof.
  intros Hk. split.
  - intros r id ep r'. unfold LocalProcess_Launch. destruct (checkI9Minimum spec); [done|]. destruct (geteuid _ =? 0); [done|].
    destruct (freeLoopbackAddr _ _) as [addr|]; [|done]. cbn zeta.
    destruct (start_process _ _ _ _) as [pid|] eqn:Es; [|done]. intros [= <- <- <-] Hne. eexists pid, _. split; [exact Es|].
    split; [by rewrite lookup_insert_eq|]. apply asks_told; [|done]. unfold childEnv.
    apply (environ_kept "RAT_PLUGIN_ADDR"); [done|]. by apply Forall_fmap.
  - intros r name pluginID image Hn. apply asks_told; [|done]. rewrite run_env //.
    eapply environ_after; [|done]. cbn [omap list_omap]. change ("RAT_PLUGIN_ADDR=0.0.0.0:" +:+ podmanContainerPort)
      with ("RAT_PLUGIN_ADDR" +:+ "=" +:+ ("0.0.0.0:" +:+ podmanContainerPort)). rewrite env_entry_eq //. f_equal.
    unfold keeps_addr in Hk. induction Hk as [|kv env E _ IH]; [done|]. rewrite filter_cons. case_decide; [|done].
    rewrite fmap_cons. cbn [omap list_omap]. by rewrite E.
Qed.
