(* ===== verification/Edit.v ===== *)
(** The edit commands of a project end to end (src/core/cmd/rat/project.go, [runAdd] and
    [runRemove]): flags, the edit of rat.toml, telling the running daemon, and the report of
    what is then unsatisfied; and that the plugin the daemon is told to run is the one that
    rat.toml declares. *)
From S2P Require Import Prelude Paths Manifest Registry DeployRuntime Supervisor Plane Control Marketplace Project Validate Command.
From S2P Require Import Contexts Lifecycle Flags Client ControlClient MarketPublish.

(** ** Repeatable flags

    The settings in the order they are made, for flags that collect them. *)
Fixpoint settings (fs : FlagSet) (args : list string) : result (list (string * string) * list string) :=
  match args with
  | [] => Ok ([], [])
  | s :: rest =>
      match lex s with
      | TStop => Ok ([], args)
      | TTerminator => Ok ([], rest)
      | TBad e => Err e
      | TFlag name value =>
          let? vt := take_flag fs name value (head rest) in
          let set := (name, vt.1) in
          match rest with
          | v :: rest' =>
              let? r := if vt.2 : bool then settings fs rest' else settings fs rest in Ok (set :: r.1, r.2)
          | [] => Ok ([set], [])
          end
      end
  end.
Definition last_set (l : list (string * string)) (k def : string) : string :=
  default def (last (omap (fun kv => if decide (kv.1 = k) then Some kv.2 else None) l)).
Definition all_set (l : list (string * string)) (k : string) : list string :=
  omap (fun kv => if decide (kv.1 = k) then Some kv.2 else None) l.

Definition make_settings (l : list (string * string)) (given : Given) : Given :=
  fold_left (fun g kv => <[kv.1 := kv.2]> g) l given.

(** The parser of [Flags] makes these settings one after the other. *)
Lemma Parse_settings fs args given :
  Flags.Parse fs args given = (let? r := settings fs args in Ok (make_settings r.1 given, r.2)).
Proof.
  remember (length args) as n eqn:En. assert (length args <= n)%nat as Hn by lia. clear En. revert args given Hn.
  induction n as [|n IH]; intros [|s rest] given Hn; simpl in Hn; try done; try lia.
  cbn [Flags.Parse settings]. destruct (lex s); try done. destruct (take_flag _ _ _ _) as [vt|]; [|done]. cbn [result_bind].
  destruct rest as [|v rest']; [done|]. simpl in Hn. destruct vt.2; rewrite IH; try (simpl; lia); by destruct (settings _ _).
Qed.

(** The leading argument that is not a flag. *)
Definition leading_name (args : list string) : string * list string :=
  match args with
  | a :: rest => if HasPrefix a "-" then ("", args) else (a, rest)
  | [] => ("", [])
  end.

Definition add_flag_set : FlagSet :=
  {["image" := string_flag; "manifest" := string_flag; "isolation" := string_flag; "with-deps" := bool_flag;
    "require-signed" := bool_flag; "no-live" := bool_flag; "env" := string_flag]}.
Record add_request := mkAddRequest {
  aq_name : string; aq_options : addOptions; aq_withDeps : bool; aq_requireSigned : bool; aq_noLive : bool;
}.
Definition parse_add (args : list string) : result add_request :=
  let '(name, args) := leading_name args in
  let? r := settings add_flag_set args in
  let l := r.1 in
  Ok (mkAddRequest name (mkAdd (last_set l "image" "") (last_set l "manifest" "") (last_set l "isolation" "i9") (all_set l "env"))
        (is_true (last_set l "with-deps" "false")) (is_true (last_set l "require-signed" "false")) (is_true (last_set l "no-live" "false"))).

Definition remove_flag_set : FlagSet := {["keep-manifest" := bool_flag; "no-live" := bool_flag]}.

(** ** The commands *)

(** The error, the files, how telling the daemon went if one was told, and with what request,
    and what is unsatisfied with a suggestion for each. *)
Record edited (Req Reply : Type) := mkEdited {
  ed_err : option error; ed_files : files; ed_live : option (result Reply); ed_sent : option (string * Req);
  ed_report : list (missingDep * (marketEntry + string));
}.
Arguments mkEdited {Req Reply}.
Arguments ed_err {Req Reply}.
Arguments ed_files {Req Reply}.
Arguments ed_live {Req Reply}.
Arguments ed_sent {Req Reply}.
Arguments ed_report {Req Reply}.
Definition edit_failed {Req Reply} (e : error) (fs : files) : edited Req Reply := mkEdited (Some e) fs None None [].

Section Edit.
Context (quote_unicode : string -> string) (toml_Unmarshal : string -> result ratToml).
Context (LookupEnv : string -> option string) (yaml_Manifest : string -> result Manifest).
Context (ParseDuration : string -> result Z) (cwd : string) (writable : string -> bool).
Context (ensureImagePresent : string -> option error) (readStampedManifest : string -> result (Manifest * string)).
Context (kill0 : Z -> bool) (Abs : string -> result string) (dial : string -> option error).
Context (RegisterPlugin : string -> RegisterRequest -> result (string * string)).
Context (DeregisterPlugin : string -> string -> result bool).
Context (entries : list marketEntry).

Definition load (fs : files) (toml : string) : result LoadedPlane :=
  LoadProject toml_Unmarshal LookupEnv yaml_Manifest ParseDuration cwd fs toml.

(** What a project that loads leaves unsatisfied. *)
Definition report_after (fs : files) (toml : string) : list (missingDep * (marketEntry + string)) :=
  match load fs toml with
  | Ok pl => reportUnsatisfiedSuggesting entries (unsatisfiedRequires (manifestsOf pl))
  | Err _ => []
  end.

(** Telling the daemon; a failure is printed and not the command's. *)
Definition live_add (fs : files) (toml dir name manifest : string) (o : addOptions) :
    option (result (string * string)) * option (string * RegisterRequest) :=
  match projectDaemonAddr kill0 load fs toml dir with
  | (addr, true) =>
      let '(r, sent) := materializeAdd Abs (os_ReadFile fs) dial RegisterPlugin resolve addr dir name manifest
                          (ao_image o) (ao_isolation o) (ao_env o) in (Some r, sent)
  | (_, false) => (None, None)
  end.
Definition live_remove (fs : files) (toml dir name : string) : option (result bool) * option (string * string) :=
  match projectDaemonAddr kill0 load fs toml dir with
  | (addr, true) => let '(r, sent) := materializeRemove Abs dial DeregisterPlugin addr name in (Some r, sent)
  | (_, false) => (None, None)
  end.

Definition add_in (fs : files) (toml dir : string) (q : add_request) : option (edited RegisterRequest (string * string)) :=
  match add_manifest yaml_Manifest cwd writable ensureImagePresent readStampedManifest fs dir (aq_name q) (aq_options q) with
  | (Err e, fs) => Some (edit_failed e fs)
  | (Ok (name, manifest), fs) =>
      match record_plugin quote_unicode toml_Unmarshal writable fs toml name manifest (aq_options q) with
      | Err e => Some (edit_failed e fs)
      | Ok fs =>
          if aq_withDeps q then
            '(r, fs) ← resolveWithDeps quote_unicode toml_Unmarshal LookupEnv yaml_Manifest ParseDuration cwd writable
                         (S (length entries)) entries (aq_requireSigned q) toml dir fs;
            Some match r with
                 | Err e => edit_failed e fs
                 | Ok miss => mkEdited None fs None None (reportUnsatisfiedSuggesting entries miss)
                 end
          else
            let '(live, sent) := if aq_noLive q then (None, None) else live_add fs toml dir name manifest (aq_options q) in
            Some (mkEdited None fs live sent (report_after fs toml))
      end
  end.

(** [None]: out of fuel. *)
Definition rat_add (fs : files) (args : list string) : option (edited RegisterRequest (string * string)) :=
  match parse_add args with
  | Err e => Some (edit_failed e fs)
  | Ok q =>
      r ← findProject fs cwd ".";
      match r with
      | Err e => Some (edit_failed e fs)
      | Ok (toml, dir) => add_in fs toml dir q
      end
  end.

Definition rat_remove (fs : files) (args : list string) : option (edited string bool) :=
  let '(name, args) := leading_name args in
  match settings remove_flag_set args with
  | Err e => Some (edit_failed e fs)
  | Ok (l, _) =>
      if decide (name = "") then Some (edit_failed (Errorf "usage: rat remove <name> [--keep-manifest] [--no-live]" []) fs)
      else
        r ← findProject fs cwd ".";
        Some match r with
             | Err e => edit_failed e fs
             | Ok (toml, dir) =>
                 match runRemove toml_Unmarshal writable fs toml dir name (is_true (last_set l "keep-manifest" "false")) with
                 | (Some e, fs) => edit_failed e fs
                 | (None, fs) =>
                     let '(live, sent) := if is_true (last_set l "no-live" "false") then (None, None) else live_remove fs toml dir name in
                     mkEdited None fs live sent (report_after fs toml)
                 end
             end
  end.

(** ** What the daemon is told *)

Lemma cut_env_of envs kvs : result_map cut_env envs = Ok kvs ->
  forall m, fold_left (fun m kv => let '(k, v, ok) := Cut "=" kv in if ok : bool then <[k := v]> m else m) envs m =
            fold_left (fun m kv => <[kv.1 := kv.2]> m) kvs (m : gmap string string).
Proof.
  revert kvs. induction envs as [|kv envs IH]; intros kvs; simpl; [by intros [= <-]|].
  unfold cut_env at 1. destruct (Cut "=" kv) as [[k v] [|]]; [|done]. simpl. destruct (result_map _ _) as [kvs'|]; [|done].
  intros [= <-] m. by rewrite (IH kvs').
Qed.

Lemma record_plugin_block fs toml name manifest o fs' :
  record_plugin quote_unicode toml_Unmarshal writable fs toml name manifest o = Ok fs' ->
  exists t envs, fs !! toml = Some t /\ result_map cut_env (ao_env o) = Ok envs /\
    fs' !! toml = Some (t +:+ plugin_block quote_unicode name (ao_image o) manifest (ao_isolation o) envs).
Proof.
  unfold record_plugin. destruct (parseProject _ _ _) as [rt|]; [|done]. cbn [result_bind]. destruct (contains _ _); [done|].
  destruct (result_map cut_env (ao_env o)) as [envs|]; [|done]. cbn [result_bind].
  destruct (os_Append _ _ _ _) as [fs2|] eqn:Ea; [|done]. intros [= <-]. apply os_Append_ok in Ea as (t & Ht & -> & _).
  exists t, envs. by rewrite lookup_insert_eq.
Qed.

Lemma live_add_sent fs toml dir name manifest o live target req :
  live_add fs toml dir name manifest o = (live, Some (target, req)) ->
  exists pl, load fs toml = Ok pl /\ target = control_target Abs (pl_Addr pl) /\
    os_ReadFile fs (resolve dir manifest) = Ok (rr_Manifest req) /\ rr_Name req = name /\
    rr_Launch req = if decide (ao_image o = "") then None else Some (ao_image o, ao_isolation o, env_of (ao_env o)).
Proof.
  unfold live_add, projectDaemonAddr. destruct (runningPid _ _ _).2; [|done]. destruct (load fs toml) as [pl|]; [|done].
  unfold materializeAdd. destruct (os_ReadFile _ _) as [bytes|]; [|done]. destruct (dial _); [done|]. intros [= _ <- <-]. by exists pl.
Qed.

(** *** Live and booted *)

Definition literal (s : string) : Prop := Contains s "${" = false.

Lemma expand_literal s : literal s -> expandEnvRefs LookupEnv s = Ok s.
Proof. unfold literal, expandEnvRefs. by intros ->. Qed.

Lemma expand_env_literal (env : gmap string string) :
  map_Forall (fun _ v => literal v) env -> expand_env LookupEnv env = Ok (map_to_list env).
Proof.
  intros He. unfold expand_env. assert (Forall (fun kv => literal kv.2) (map_to_list env)) as Hl.
  { apply map_Forall_to_list in He. eapply Forall_impl; [exact He|by intros []]. }
  induction Hl as [|kv l E _ IH]; [done|]. simpl. rewrite expand_literal // IH. by destruct kv.
Qed.

(** What the control service launches for a request, before the addresses and the token are added
    to the environment ([Control.launch_plugin]). *)
Definition told_spec (launch : string * string * gmap string string) : result LaunchSpec :=
  let '(image, isolation, env) := launch in
  let? profile := isolationProfile isolation in Ok (mkLaunch image (Some profile) (map_to_list env)).

(** What a boot launches for the block. *)
Definition booted_spec (runtime dir : string) (launch : string * string * gmap string string) : result LaunchSpec :=
  let '(image, isolation, env) := launch in launch_spec LookupEnv runtime dir (mkRawLaunch image isolation env).

Lemma expanded_literal (kvs env : list (string * string)) :
  Forall2 (fun kv kv' => kv'.1 = kv.1 /\ expandEnvRefs LookupEnv kv.2 = Ok kv'.2) kvs env ->
  Forall (fun kv => literal kv.2) kvs -> env = kvs.
Proof.
  induction 1 as [|[k v] [k' v'] kvs env [Hk Hv] _ IH]; [done|]. intros [Hl Hls]%Forall_cons. simpl in *.
  rewrite expand_literal // in Hv. injection Hv as ->. by rewrite Hk IH.
Qed.

(** The last plugin of a project that loads is the last spec of its plane; without references to
    expand, its launch is its image and environment under the full profile. *)
Lemma last_plugin_booted fs toml rt pl p :
  parseProject toml_Unmarshal fs toml = Ok rt -> load fs toml = Ok pl -> last (rt_Plugins rt) = Some p -> tp_Endpoint p = "" ->
  exists s, last (pl_Specs pl) = Some s /\ md_Name (Meta (sp_Manifest s)) = tp_Name p /\
    Manifest.Load yaml_Manifest (os_ReadFile fs) (resolve (Dir toml) (tp_Manifest p)) = Ok (sp_Manifest s) /\
    (tp_Image p = "" -> sp_Launch s = None) /\
    (tp_Image p <> "" -> literal (tp_Image p) -> map_Forall (fun _ v => literal v) (tp_Env p) ->
     pl_Runtime pl <> "local" \/ IsAbs (tp_Image p) = true ->
     sp_Launch s = Some (mkLaunch (tp_Image p) (Some (mkIsolation true true true true true "RuntimeDefault")) (map_to_list (tp_Env p)))).
Proof.
  intros Hrt Hl [ps Hp]%last_Some He. unfold load, LoadProject in Hl. rewrite Hrt in Hl. cbn [result_bind] in Hl.
  apply (planeFromRaw_made LookupEnv yaml_Manifest (fun _ => Err EOF)) in Hl as (_ & _ & _ & _ & _ & Hf). cbn [rawPlane_of rp_Plugins] in Hf. rewrite Hp fmap_app in Hf.
  apply Forall2_app_inv_l in Hf as (ss & ss2 & _ & Hf & E). apply Forall2_cons_inv_l in Hf as (s & ss3 & Hs & Hn & ->).
  apply Forall2_nil_inv_l in Hn as ->. exists s. rewrite E last_snoc. split; [done|].
  destruct Hs as (_ & _ & Hload & Hname & _ & Hk). cbn [rawPlugin_of rpl_Name rpl_Manifest rpl_Launch] in *.
  split; [exact Hname|]. split; [exact Hload|]. destruct (decide (tp_Image p = "")) as [Hi|Hi]; [split; [by destruct Hk|done]|].
  split; [done|]. intros _ Hli Hle Hr. destruct Hk as (_ & _ & _ & image & env & Hx & Hv & ->). cbn [rl_Image rl_Env] in *.
  rewrite expand_literal // in Hx. injection Hx as <-. apply expanded_literal in Hv as ->.
  - f_equal. f_equal. destruct (bool_decide _) eqn:Eb; [|done]. apply bool_decide_eq_true in Eb. destruct Hr as [?|Ha]; [done|]. by rewrite Ha.
  - apply map_Forall_to_list in Hle. eapply Forall_impl; [exact Hle|by intros []].
Qed.

Lemma told_spec_full image isolation env l :
  told_spec (image, isolation, env) = Ok l ->
  l = mkLaunch image (Some (mkIsolation true true true true true "RuntimeDefault")) (map_to_list env).
Proof. unfold told_spec, isolationProfile. case_decide; [|done]. by intros [= <-]. Qed.

(** C37: The daemon is told what rat.toml gained.  When [rat add] reaches a running daemon, the edit has
    succeeded, whatever the daemon answers: rat.toml ends in the block of one more plugin and
    still loads, and the request goes to the address that the project declares.  It carries the
    plugin's name, the bytes of the manifest that the block names, and the image, isolation
    and environment that are written in the block.  Where the decoder reads the block as the
    plugin it writes, the next boot has that plugin, with the manifest of that name, and
    launches it if it has an image; and if the daemon does not refuse the isolation, and the
    image and the environment refer to no variable and the image is not a path relative to the
    project, then what the daemon launches now is what that boot will launch. *)
Theorem daemon_told_what_is_declared fs args r target req :
  rat_add fs args = Some r -> ed_sent r = Some (target, req) ->
  exists toml dir manifest image isolation envs t text rt pl,
    findProject fs cwd "." = Some (Ok (toml, dir)) /\ ed_err r = None /\
    text = t +:+ String nl (unlines (
      ["[[plugin]]"; "name     = " +:+ Quote quote_unicode (rr_Name req)] ++
      (if decide (image = "") then [] else ["image    = " +:+ Quote quote_unicode image]) ++
      ["manifest = " +:+ Quote quote_unicode manifest] ++
      (if decide (image = "") then [] else ["isolation = " +:+ Quote quote_unicode isolation]) ++
      (if decide (envs = []) then [] else "[plugin.env]" :: ((fun kv => kv.1 +:+ " = " +:+ Quote quote_unicode kv.2) <$> envs)))) /\
    ed_files r !! toml = Some text /\ toml_Unmarshal text = Ok rt /\
    load (ed_files r) toml = Ok pl /\ target = control_target Abs (pl_Addr pl) /\
    os_ReadFile (ed_files r) (resolve dir manifest) = Ok (rr_Manifest req) /\
    let env := fold_left (fun m kv => <[kv.1 := kv.2]> m) envs ∅ in
    rr_Launch req = (if decide (image = "") then None else Some (image, isolation, env)) /\
    (last (rt_Plugins rt) = Some (mkTomlPlugin (rr_Name req) image manifest "" (if decide (image = "") then "" else isolation) env) ->
     exists s, last (pl_Specs pl) = Some s /\ md_Name (Meta (sp_Manifest s)) = rr_Name req /\
       Manifest.Load yaml_Manifest (os_ReadFile (ed_files r)) (resolve (Dir toml) manifest) = Ok (sp_Manifest s) /\
       (image = "" -> sp_Launch s = None) /\
       (forall l, image <> "" -> literal image -> map_Forall (fun _ v => literal v) env -> pl_Runtime pl <> "local" \/ IsAbs image = true ->
        told_spec (image, isolation, env) = Ok l -> sp_Launch s = Some l)).
Proof.
  unfold rat_add. destruct (parse_add args) as [q|]; [|by intros [= <-]]. destruct (findProject fs cwd ".") as [[[toml dir]|]|]; [|by intros [= <-]|done].
  simpl. unfold add_in. destruct (add_manifest _ _ _ _ _ _ _ _ _) as [[[name manifest]|] fs1]; [|by intros [= <-]].
  destruct (record_plugin _ _ _ _ _ _ _ _) as [fs2|] eqn:Er; [|by intros [= <-]]. destruct (aq_withDeps q).
  { destruct (resolveWithDeps _ _ _ _ _ _ _ _ _ _ _ _ _) as [[[miss|] fs3]|]; simpl; [by intros [= <-]..|done]. }
  destruct (aq_noLive q); [by intros [= <-]|]. destruct (live_add _ _ _ _ _ _) as [live sent] eqn:El. intros [= <-] Hs. simpl in *. subst sent.
  apply live_add_sent in El as (pl & Hl & Ht & Hm & Hn & Hreq). apply record_plugin_block in Er as (t & envs & _ & He & Hb).
  assert (exists rt, parseProject toml_Unmarshal fs2 toml = Ok rt) as [rt Hrt].
  { unfold load, LoadProject in Hl. destruct (parseProject _ _ _) as [rt|]; [by exists rt|done]. }
  assert (toml_Unmarshal (t +:+ plugin_block quote_unicode name (ao_image (aq_options q)) manifest (ao_isolation (aq_options q)) envs) = Ok rt) as Hu.
  { apply parseProject_ok in Hrt as (t' & Ht' & Hu). rewrite Hb in Ht'. by injection Ht' as <-. }
  assert (env_of (ao_env (aq_options q)) = fold_left (fun m kv => <[kv.1 := kv.2]> m) envs ∅) as Henv by (by apply cut_env_of).
  exists toml, dir, manifest, (ao_image (aq_options q)), (ao_isolation (aq_options q)), envs, t. eexists. exists rt, pl.
  split; [done|]. split; [done|]. split; [reflexivity|]. rewrite Hn. split; [exact Hb|]. split; [exact Hu|]. split; [done|]. split; [done|].
  split; [done|]. cbv zeta. split; [by rewrite Hreq Henv|]. intros Hlast.
  destruct (last_plugin_booted _ _ _ _ _ Hrt Hl Hlast eq_refl) as (s & Hs & Hname & Hload & H0 & H1). cbn [tp_Name tp_Manifest tp_Image tp_Env] in *.
  exists s. split_and!; [done..|]. intros l Hi Hli Hle Hr Htold. rewrite (H1 Hi Hli Hle Hr). by apply told_spec_full in Htold as ->.
Qed.

End Edit.

(** ** At a concrete project *)

(** A project in /w/lab, whose daemon runs; the decoder reads what the commands below append. *)
Definition shop_toml (t : string) : result ratToml :=
  Ok (mkToml "lab" "local" "/run/lab.sock" ""
    (mkTomlPlugin "web" "" "web.yaml" "" "" ∅ ::
     (if Contains t "etl" then [mkTomlPlugin "etl" "bin/etl" "etl.yaml" "" "i9" {["DSN" := "${DSN}"]}] else []))).
Definition shop_env (k : string) : option string := if decide (k = "DSN") then Some "pg://db" else None.
Definition shop_manifest (name : string) : result Manifest := Ok (demo_manifest name "ui" [] []).
Definition shop_files (manifest : string) : files :=
  {["/w/lab/rat.toml" := "name = lab"; "/w/lab/web.yaml" := "web"; manifest := "etl"; "/w/lab/.rat/daemon.pid" := "7"]}.
Definition shop_add (cwd : string) (fs : files) (args : list string) : option (edited RegisterRequest (string * string)) :=
  rat_add (fun s => s) shop_toml shop_env shop_manifest (fun _ => Ok 10) cwd (fun _ => true) (fun _ => None) (fun _ => Err EOF)
    (fun _ => true) Ok (fun _ => None) (fun _ _ => Ok ("healthy", "127.0.0.1:4000")) [] fs args.
Definition shop_args : list string := ["etl"; "--manifest"; "etl.yaml"; "--image"; "bin/etl"; "--env"; "DSN=${DSN}"].

Lemma daemon_told_example :
  exists r req, shop_add "/w/lab" (shop_files "/w/lab/etl.yaml") shop_args = Some r /\ ed_sent r = Some ("/run/lab.sock", req) /\
    rr_Launch req = Some ("bin/etl", "i9", {["DSN" := "${DSN}"]}).
Proof.
  destruct (shop_add "/w/lab" (shop_files "/w/lab/etl.yaml") shop_args) as [r|] eqn:Er; [|exfalso; revert Er; vm_compute; discriminate].
  assert (match shop_add "/w/lab" (shop_files "/w/lab/etl.yaml") shop_args with
          | Some r => match ed_sent r with
                      | Some (t, req) => bool_decide (t = "/run/lab.sock" /\ rr_Launch req = Some ("bin/etl", "i9", {["DSN" := "${DSN}"]}))
                      | None => false end
          | None => false end = true) as H by evaluated.
  rewrite Er in H. destruct (ed_sent r) as [[t req]|] eqn:Es; [|discriminate H]. apply bool_decide_eq_true in H as [-> H].
  exists r, req. split; [reflexivity|]. split; [exact Es|exact H].
Qed.

(** A plugin whose image is absolute and whose environment refers to nothing. *)
Definition shop_plain : list string := ["etl"; "--manifest"; "etl.yaml"; "--image"; "/bin/etl"; "--env"; "DSN=db"].
Definition shop_plain_toml (t : string) : result ratToml :=
  Ok (mkToml "lab" "local" "/run/lab.sock" ""
    (mkTomlPlugin "web" "" "web.yaml" "" "" ∅ ::
     (if Contains t "etl" then [mkTomlPlugin "etl" "/bin/etl" "etl.yaml" "" "i9" {["DSN" := "db"]}] else []))).
Definition shop_plain_add : option (edited RegisterRequest (string * string)) :=
  rat_add (fun s => s) shop_plain_toml shop_env shop_manifest (fun _ => Ok 10) "/w/lab" (fun _ => true) (fun _ => None) (fun _ => Err EOF)
    (fun _ => true) Ok (fun _ => None) (fun _ _ => Ok ("healthy", "127.0.0.1:4000")) [] (shop_files "/w/lab/etl.yaml") shop_plain.

Lemma shop_plain_example :
  exists r req, shop_plain_add = Some r /\ ed_sent r = Some ("/run/lab.sock", req) /\ rr_Name req = "etl" /\
    rr_Launch req = Some ("/bin/etl", "i9", {["DSN" := "db"]}).
Proof.
  destruct shop_plain_add as [r|] eqn:Er; [|exfalso; revert Er; vm_compute; discriminate].
  assert (match shop_plain_add with
          | Some r => match ed_sent r with
                      | Some (t, req) => bool_decide (t = "/run/lab.sock" /\ rr_Name req = "etl" /\ rr_Launch req = Some ("/bin/etl", "i9", {["DSN" := "db"]}))
                      | None => false end
          | None => false end = true) as H by evaluated.
  rewrite Er in H. destruct (ed_sent r) as [[t req]|] eqn:Es; [|discriminate H]. apply bool_decide_eq_true in H as (-> & Hn & H).
  exists r, req. split; [reflexivity|]. split; [exact Es|]. split; [exact Hn|exact H].
Qed.

Lemma daemon_told_what_is_declared_witness :
  exists (r : edited RegisterRequest (string * string)) req pl, ed_sent r = Some ("/run/lab.sock", req) /\
    rr_Launch req = Some ("/bin/etl", "i9", {["DSN" := "db"]}) /\ ed_err r = None /\
    load shop_plain_toml shop_env shop_manifest (fun _ => Ok 10) "/w/lab" (ed_files r) "/w/lab/rat.toml" = Ok pl.
Proof.
  destruct shop_plain_example as (r & req & Hr & Hs & Hn & Hl).
  destruct (daemon_told_what_is_declared (fun s => s) shop_plain_toml shop_env shop_manifest (fun _ => Ok 10) "/w/lab" (fun _ => true)
    (fun _ => None) (fun _ => Err EOF) (fun _ => true) Ok (fun _ => None) (fun _ _ => Ok ("healthy", "127.0.0.1:4000")) []
    _ _ _ _ _ Hr Hs) as (toml & dir & manifest & image & isolation & envs & t & text & rt & pl & Hf & He & _ & _ & _ & Hload & _).
  assert (findProject (shop_files "/w/lab/etl.yaml") "/w/lab" "." = Some (Ok ("/w/lab/rat.toml", "/w/lab"))) as Hp by evaluated.
  rewrite Hp in Hf. injection Hf as <- <-.
  exists r, req, pl. split; [exact Hs|]. split; [exact Hl|]. split; [exact He|exact Hload].
Defined.

(** What the daemon is told is not always what the next boot runs: a variable in the environment
    reaches the live plugin unexpanded, and an image given relative to the project is looked
    up from wherever the daemon was started. *)
Theorem live_add_not_expanded :
  exists launch, told_spec launch = Ok (mkLaunch "bin/etl" (Some (mkIsolation true true true true true "RuntimeDefault")) [("DSN", "${DSN}")]) /\
    booted_spec shop_env "local" "/w/lab" launch =
      Ok (mkLaunch "/w/lab/bin/etl" (Some (mkIsolation true true true true true "RuntimeDefault")) [("DSN", "pg://db")]) /\
    exists r req, shop_add "/w/lab" (shop_files "/w/lab/etl.yaml") shop_args = Some r /\ ed_sent r = Some ("/run/lab.sock", req) /\
      rr_Launch req = Some launch.
Proof.
  exists ("bin/etl", "i9", {["DSN" := "${DSN}"]}). split_and!; [by vm_compute..|].
  exact daemon_told_example.
Qed.

(** The manifest is looked for in two places: from a directory below the project, [rat add] reads
    the name from the file relative to the working directory, records the path as given, and
    succeeds; rat.toml then names a file relative to the project that is not there, the
    project no longer loads, and nothing says so. *)
Theorem add_from_subdirectory :
  exists r, shop_add "/w/lab/sub" (shop_files "/w/lab/sub/etl.yaml") ["--manifest"; "etl.yaml"; "--no-live"] = Some r /\
    ed_err r = None /\ ed_report r = [] /\
    is_Ok (load shop_toml shop_env shop_manifest (fun _ => Ok 10) "/w/lab/sub" (shop_files "/w/lab/sub/etl.yaml") "/w/lab/rat.toml") = true /\
    is_Ok (load shop_toml shop_env shop_manifest (fun _ => Ok 10) "/w/lab/sub" (ed_files r) "/w/lab/rat.toml") = false.
Proof.
  destruct (shop_add "/w/lab/sub" (shop_files "/w/lab/sub/etl.yaml") ["--manifest"; "etl.yaml"; "--no-live"]) as [r|] eqn:Er;
    [|exfalso; revert Er; vm_compute; discriminate].
  exists r. split; [reflexivity|].
  assert (match shop_add "/w/lab/sub" (shop_files "/w/lab/sub/etl.yaml") ["--manifest"; "etl.yaml"; "--no-live"] with
          | Some r => (bool_decide (ed_err r = None), length (ed_report r),
              is_Ok (load shop_toml shop_env shop_manifest (fun _ => Ok 10) "/w/lab/sub" (ed_files r) "/w/lab/rat.toml"))
          | None => (false, 1%nat, true) end = (true, 0%nat, false)) as H by evaluated.
  rewrite Er in H. injection H as H1 H2 H3. apply bool_decide_eq_true in H1. split; [exact H1|]. split; [by destruct (ed_report r)|]. split; [evaluated|exact H3].
Qed.
