(* ===== verification/Services.v ===== *)
(** What surrounds the daemon and its clients: the lease backend a replica chooses
    (src/core/cmd/rat/lease.go), the metrics endpoint (metrics.go), where the per-user files are
    (lifecycle.go, src/core/client/context.go), and what the hub, the profiles and the list of
    contributed commands print (hub.go, context.go, src/core/client/command.go). *)
From S2P Require Import Prelude Paths Manifest Registry Lease StateLease Validate Command Contexts Lifecycle Hub.

(** ** The lease backend *)

Section Backend.
Context {Conn : Type} (Getenv : string -> string) (grpc_NewClient : string -> result Conn).

(** The store of this process alone, or a connection with the shared store over it; closing the
    connection is what the closer does. *)
Definition newLeaseBackend : result (Store + Conn * StateStore) :=
  let addr := Getenv "RAT_LEASE_STATE_ADDR" in
  if decide (addr = "") then Ok (inl NewStore)
  else match grpc_NewClient addr with
       | Err e => Err (Wrap "dial lease state-backend %s: %w" [addr] e)
       | Ok conn =>
           let key := Getenv "RAT_LEASE_KEY" in
           let key := if decide (key = "") then "rat/lease/rat-serve" else key in
           Ok (inr (conn, NewStateStore key (3 * 1000000000)))
       end.

(** A replica that is given a shared backend never falls back to a lease of its own: it contends
    there, on the key that every replica with the same settings contends on, or does not
    start. *)
Lemma shared_backend_no_fallback : Getenv "RAT_LEASE_STATE_ADDR" <> "" ->
  match newLeaseBackend with
  | Ok (inl _) => False
  | Ok (inr (conn, s)) => grpc_NewClient (Getenv "RAT_LEASE_STATE_ADDR") = Ok conn /\ ss_key s <> "" /\
      (Getenv "RAT_LEASE_KEY" <> "" -> ss_key s = Getenv "RAT_LEASE_KEY") /\ callTimeout s = 3 * 1000000000
  | Err _ => is_Ok (grpc_NewClient (Getenv "RAT_LEASE_STATE_ADDR")) = false
  end.
Proof.
  intros Ha. unfold newLeaseBackend. rewrite decide_False //. destruct (grpc_NewClient _) as [conn|]; [|done]. split; [done|].
  simpl. case_decide as Hk; [by rewrite Hk|done].
Qed.
End Backend.

(** ** The metrics endpoint *)

(** [Listen] answers with the address bound; a request is a path, an answer a content type and a
    body, [scrape] being the exposition at that moment.  [None] is a disabled endpoint. *)
Definition serveMetrics (addr : string) (Listen : string -> result string) (scrape : string) :
    option (string * (string -> option (string * string))) :=
  if decide (addr = "") then None
  else match Listen addr with
       | Err _ => None
       | Ok bound => Some (bound, fun path => if decide (path = "/metrics") then Some ("text/plain; version=0.0.4", scrape) else None)
       end.

(** ** Files of the user *)

Section UserFiles.
Context (Getenv : string -> string) (UserHomeDir : string).

Definition contextPath : string :=
  let base := Getenv "XDG_CONFIG_HOME" in
  let base := if decide (base = "") then filepath_Join [UserHomeDir; ".config"] else base in
  filepath_Join [base; "rat"; "contexts.json"].

Definition registryDir : string :=
  let x := Getenv "XDG_STATE_HOME" in
  if decide (x <> "") then filepath_Join [x; "rat"] else filepath_Join [UserHomeDir; ".local"; "state"; "rat"].
Definition registryFile : string := filepath_Join [registryDir; "instances.json"].
End UserFiles.

(** ** What the hub says of itself *)

Definition posture (public : bool) : string := if public then "public" else "local".
Definition authMode (identityAddr : string) : string :=
  if decide (identityAddr <> "") then "required (identity " +:+ identityAddr +:+ ")" else "none (localhost-trust)".
Definition hintToken (identityAddr : string) : string := if decide (identityAddr <> "") then " --token <t>" else "".
Definition workspaces_or_none (ws : list string) : string :=
  match ws with [] => "(none yet — discovered live per call)" | _ => Join ws ", " end.

(** The lines printed once it serves on [bound]. *)
Definition hub_banner (f : hubFlags) (bound : string) (ws : list string) : list message :=
  let public := isPublicAddr (hf_addr f) in
  [("rat hub — federating %d workspace(s): %s", [itoa (Z.of_nat (length ws)); workspaces_or_none ws]);
   ("listening on %s  ·  transport=%s  ·  bind=%s  ·  auth=%s",
    [bound; if tlsOn f then "TLS" else "plaintext"; posture public; authMode (hf_identity f)])] ++
  (if public && hf_insecure f && (negb (tlsOn f) || bool_decide (hf_identity f = ""))
   then [("⚠️  INSECURE: public bind without full TLS+identity — DEV ONLY, never in production", [])] else []) ++
  [("  rat call --hub %s --workspace <name> rat://… --as <caller>%s", [bound; hintToken (hf_identity f)])].

(** The banner says what the hub does: a hub that came up names the transport it serves on, says that
    a credential is required exactly when calls are authenticated, and prints the warning
    exactly when it serves beyond the host without both. *)
Theorem hub_banner_honest f listen load_tls s bound ws : runHub f listen load_tls = Ok s ->
  ("listening on %s  ·  transport=%s  ·  bind=%s  ·  auth=%s",
    [bound; if hs_tls s then "TLS" else "plaintext"; posture (isPublicAddr (hf_addr f)); authMode (hs_identity s)]) ∈ hub_banner f bound ws /\
  (authMode (hs_identity s) = "none (localhost-trust)" <-> hs_identity s = "") /\
  (("⚠️  INSECURE: public bind without full TLS+identity — DEV ONLY, never in production", []) ∈ hub_banner f bound ws <->
   isPublicAddr (hf_addr f) = true /\ (hs_tls s = false \/ hs_identity s = "")).
Proof.
  unfold runHub, hub_guard. intros H. destruct (isPublicAddr (hf_addr f) && negb (hf_insecure f)) eqn:Eg;
    destruct (tlsOn f) eqn:Et; simpl in H; try done; destruct (decide (hf_identity f = "")) as [Ei|Ei] in H; try done;
    destruct listen; try done; try (destruct load_tls; [done|]); injection H as <-; simpl; unfold hub_banner; rewrite Et;
    (split; [right; left|split]);
    try (unfold authMode; case_decide as Hd; split; intros Hx; try done; by destruct Hd);
    rewrite !elem_of_cons elem_of_app; destruct (isPublicAddr (hf_addr f)), (hf_insecure f); simpl in *; try done;
    try rewrite (bool_decide_eq_true_2 _ Ei); try rewrite (bool_decide_eq_false_2 _ Ei); simpl; rewrite ?elem_of_cons ?elem_of_nil;
    naive_solver.
Qed.

(** ** Profiles *)

Definition orNone (s : string) : string := if decide (s = "") then "(none)" else s.
Definition tokenMask (t : string) : string := if decide (t = "") then "(none)" else "(set)".

(** [rat context show], given the connection in force. *)
Definition show_context (cf : contextFile) (gateway : string) : list message :=
  let c := CurrentContext cf gateway in
  [("current context: %s", [orNone (Current cf)]); ("  addr:      %s", [ctx_Addr c]); ("  as:        %s", [orNone (ctx_As c)]);
   ("  workspace: %s", [orNone (ctx_Workspace c)]); ("  token:     %s", [tokenMask (ctx_Token c)])].

(** ** The contributed commands *)

Definition name_le (a b : cliCommand) : Prop := String.le (cc_Name a) (cc_Name b).
#[export] Instance name_le_dec : RelDecision name_le.
Proof. intros a b. unfold name_le. apply _. Defined.

(** The lines printed; the sort may order commands of one name either way. *)
Definition ListCommands (dialled : bool) (read : result (list cliCommand)) : list message :=
  if negb dialled then []
  else match read with
       | Err _ | Ok [] => []
       | Ok cmds => ("PLUGIN COMMANDS (contributed; from the connected gateway)", []) ::
                    ((fun c => ("  %-22s %s", [cc_Name c; cmd_Help (cc_Command c)])) <$> merge_sort name_le cmds)
       end.
